(* ===== verification/_CoqProject ===== *)
-Q . S2P
Prelude.v
Pmm.v
Mem.v
FrameAlloc.v
Vmm.v
KernelMem.v
Kmem.v
Ramfs.v
Fd.v
Thread.v
Sync.v
Elf.v
Io.v
Trap.v
Syscall.v
Kernel.v
Entry.v
Smoke.v
Boot.v
Preempt.v
