(* ===== verification/Prelude.v ===== *)
(** Verification of the MCSOS kernel.

    MCSOS is a small x86-64 teaching kernel in C. Its parts, bottom up: the freestanding memory routines
    (src/kernel/lib/memory.c); a bitmap allocator of physical frames (src/kernel/core/pmm.c); a four-level page-table manager
    (src/kernel/core/vmm.c), which takes frames from the allocator and reaches them through the direct map of the boot
    loader, by the adapters and initialisation functions of src/kernel/core/kmain.c; a file system in memory
    (src/kernel/vfs/ramfs.c) and file descriptors over it (src/kernel/vfs/fd.c); kernel threads with a cooperative
    round-robin scheduler (src/kernel/mcsos_thread.c, src/kernel/arch/x86_64/context_switch.S), each thread with a table of
    descriptors; spinlocks, mutexes and a lock-order checker (src/kernel/sync/); the planner of
    ELF images (src/kernel/user/m11_elf_loader.c); a heap (src/kernel/mm/kmem.c); the serial line, the log and the panic path, the
    interrupt controllers and the timer (src/kernel/core/serial.c, log.c, panic.c, pic.c, pit.c); the interrupt descriptor table, entry stubs and dispatcher
    (src/kernel/arch/x86_64/idt.c, isr.S, src/kernel/core/trap.c); the system calls (src/kernel/syscall/), which reach the rest of the kernel through
    function pointers; and src/kernel/core/kmain.c, which brings all of this up, installs the function pointers and runs self tests and two demonstration threads.

    * Conventions

    Unsigned machine integers are [Z] with the conversions [u8], [u32], [u64] written where the C code wraps. A C
    pointer argument is a [ptr]: [NULL] or [Ref] of the object. A function that mutates its
    argument returns the new object. [option] is undefined behaviour: [None] stands for an access outside an array, a
    dereference of a bad pointer or signed overflow, and also for a loop out of fuel; since the theorems state that a
    result [Some _] exists, they show that the code is defined and that it terminates. Error codes are the numbers of
    the headers. Structures are records with the fields of the C structure (prefixed where two
    structures share a field name), arrays are lists read by [arr_get] and written by [arr_set], which
    fail out of bounds, strings are lists of characters with their terminating 0.

    [for_loop] is the C loop with its counter at 64 bits; its fuel [loop_fuel] is the number of turns without wrap-around, and
    [for_loop_inv] and [for_loop_count] are the rules that the components use. Loops along a path take the length of the path as fuel,
    [mcsos_sched_validate] takes the bound it checks itself, [runnable_count + 2], and walks along the heap take [kmem_fuel], the number of headers that fit in
    the arena; [mcsos_sched_ready_count] takes its fuel as an argument, since it does not terminate on a cyclic list, and so does the one-processor form of [mcs_spin_lock], for
    which one turn is enough on a free lock. Waiting for the serial transmitter takes the bound [polls] of the hardware.

    Code that talks to devices is in the monad [io]: it extends a history of port accesses, and a parameter, the class [Hardware], answers each read from
    the history, so that theorems hold for every device behaviour; [UartReady] is the one assumption made of it, that the transmitter becomes empty after finitely
    many polls. A panic is an outcome of its own. System calls and scheduler are in the monad [kio], [kmain] in the monad [bio].

    * Files

    - Prelude: pointers, machine integers, arrays, loops, the tactics [bool_to_prop], [case_bool], [ulia], [rw_true] and
      [rw_false], the hint database [mcsos], and the lemmas on them that the components share.
    - Pmm: [pmm_state] with its bitmap and counters and every function of pmm.c. [free_set] is the abstraction, [pmm_wf]
      and [pmm_ready] the invariant, [frames_step] the abstract machine. Theorems: initialisation frees exactly the available frames
      or rejects its arguments; the calls refine the abstract machine; no frame is given out twice; alloc and free
      are inverse; two defects at the top of the address space.
    - Mem: byte-addressed memory with little-endian accesses; memset, memcpy, memmove. Theorem: memmove under overlap.
    - FrameAlloc: the interface between the managers, the classes [FrameAllocator] and [PhysWindow].
    - Vmm: the functions of vmm.c on tables in memory, over the interface. [pt_wf] says that the tables form a tree,
      [represents] relates memory to a finite map of pages. Theorems: runs of calls refine the map; map and unmap in
      detail with the frame condition and the invalidation of the translation cache; user pages are unreachable.
    - KernelMem: the adapters of kmain.c. The instance [pmm_frame_allocator] shows that pmm.c meets
      the interface that vmm.c assumes; [hhdm_window] does the same for the direct map. Theorems: initialisation from
      the boot loader's map, and the whole bring-up down to runs of the address space. The boot loader is
      not in the repository: its responses and the numbers of its memory types are arguments.
    - Ramfs: the node table and data area of ramfs.c. [ramfs_wf] is the invariant, [lookup_spec] path
      resolution on lists of segments, [contents] the bytes of a file. Theorems: initialisation, lookup, creation, seeding.
    - Fd: the functions of fd.c. File systems live in a heap, so that descriptors of one node see each
      other's writes. Theorems: memory safety of every reachable state, lowest free descriptor, writes,
      write-seek-read, two defects of seek and truncation.
    - Thread: thread objects in a heap, the ready list formed by their links, and the processor registers. [asched] is
      the abstract scheduler. Theorems: refinement to a FIFO queue, no starvation, context switch, exactness of the
      consistency check, stacks of new threads, a defect of double enqueueing.
    - Sync: lockdep.c, mutex.c and spinlock.c as functions, and the locks as systems of interleaved steps, one per atomic access.
      Theorems: the checker enforces an order and so excludes deadlock; mutual exclusion of both locks; owner checks.
      Atomic accesses are sequentially consistent, which is stronger than the orderings named in the code.
    - Elf: the planner on the bytes of an image. Theorems: exactly the loadable images are accepted, and plans are safe.
    - Kmem: kmem.c on block headers in byte-addressed memory. [heap_rep] relates memory to a list of blocks, [heap_inv] adds the allocations of the
      clients. Theorems: clients that stay in their allocations are safe, allocation is first fit, nothing leaks, the consistency check is
      exact and terminates; a forged header is accepted.
    - Io: port accesses, the controllers, the timer, the serial line, the log and the panic report. [uart_run] and [pic_run] are what the devices make of a history. Theorems: what
      is logged is sent, numbers can be read back, a panic reports and halts, the controllers and the timer are programmed as intended.
    - Trap: idt.c, isr.S and trap.c. Theorems: the table after initialisation, transparency of entry and exit, every trap is answered; the register
      fields of the frame are in the wrong order.
    - Syscall: syscall.c over the descriptor layer. The kernel behind the function pointers is an abstract state with the class [FdTables] and the
      contract [ops_ok]. Theorems: the pointer check is exact, calls are confined to the user region for writing and for reading and are defined but for one seek, files can be
      written and read back; a failed read loses data.
    - Kernel: the bring-up of heap, system calls and scheduler in kmain.c, and its function pointers. [kernel_ops_ok] shows that they meet the contract, so that the theorems of Syscall hold for
      this kernel. Theorems: bring-up does not panic and leaves a kernel whose system calls are safe; the first thread starts where it should; the gate of vector 0x80 is closed to programs.
    - Entry: the stub of int 0x80. Theorem: it is the dispatcher call.
    - Smoke: the self tests and demonstration threads of kmain.c. Theorems: they pass and clean up; the threads alternate for ever.
    - Boot: [kmain] as one function on one state, from the entry to the first thread. [ends] and [runs] are the rules by which its proofs go from step to step, [boot_input] and [boot_layout] what it relies
      on. Theorems: the kernel boots, and every part is as intended in the state it ends in; its threads then run; a bring-up that cannot go on stops with its reason.
    - Preempt: interrupts that arrive while threads run, from the processor through isr.S and the dispatcher to [iretq], and runs of threads with interrupts between their steps. [ops_respect] is the contract under
      which system calls do not see what the devices have seen. Theorems: an interrupt restores the interrupted context and is acknowledged; threads cannot tell whether interrupts have arrived.

    Each file gives the definitions that follow the code first, then the specification, lemmas, and
    properties; the properties are the theorems whose comment carries a number, with a concrete instance
    after each one that has hypotheses.

    * Not modelled

    The register CR3, which the kernel never loads, and the loading of the descriptor table register beyond its operand. Time; waiting in [hlt], which is an event of the
    history after which the code goes on as it does when an interrupt has woken the processor; interrupts in the middle
    of a step, that is inside the bring-up that follows [cpu_sti] or inside a call of the dispatcher from kernel code (the gate of int 0x80 disables them). The code of [mcsos_thread_trampoline], a halt loop, and the halt loops after the last call in [kmain] and [m9_thread_start], which the
    threads of this kernel do not reach. src/kernel/vfs/sys_vfs.c, a variable for host tests that the kernel does not use, and the host tests themselves. *)

From Stdlib Require Export ZArith Lia.
From stdpp Require Export base numbers option list list_numbers gmap sets relations.

#[global] Open Scope Z_scope.

(** * Pointers

    A C pointer argument is either [NULL] or designates an object. *)

Inductive ptr (A : Type) : Type :=
| NULL
| Ref (a : A).
Arguments NULL {A}.
Arguments Ref {A} a.

Definition is_null {A} (p : ptr A) : bool :=
  match p with NULL => true | Ref _ => false end.

(** * Machine integers

    A [w]-bit unsigned value is a [Z] in [0, 2^w); the functions below are the
    C conversions to each width. *)

Definition u8 (z : Z) : Z := z mod 2 ^ 8.
Definition u16 (z : Z) : Z := z mod 2 ^ 16.
Definition u32 (z : Z) : Z := z mod 2 ^ 32.
Definition u64 (z : Z) : Z := z mod 2 ^ 64.
Definition i32 (z : Z) : Z := (z + 2 ^ 31) mod 2 ^ 32 - 2 ^ 31.
Definition i64 (z : Z) : Z := (z + 2 ^ 63) mod 2 ^ 64 - 2 ^ 63.

Definition is_u8 (z : Z) : Prop := 0 <= z < 2 ^ 8.
Definition is_u32 (z : Z) : Prop := 0 <= z < 2 ^ 32.
Definition is_u64 (z : Z) : Prop := 0 <= z < 2 ^ 64.

(** Bitwise complement at 8, 32 and 64 bits. *)
Definition not8 (z : Z) : Z := u8 (Z.lnot z).
Definition not32 (z : Z) : Z := u32 (Z.lnot z).
Definition not64 (z : Z) : Z := u64 (Z.lnot z).

Definition UINT64_MAX : Z := 0xffffffffffffffff.

(** * Arrays

    Reading or writing a C array outside its bounds is undefined: the accessors
    return [None] there, so that a definition which returns [Some] has made
    no such access. *)

Definition arr_get {A} (l : list A) (i : Z) : option A :=
  if 0 <=? i then l !! Z.to_nat i else None.

Definition arr_set {A} (l : list A) (i : Z) (v : A) : option (list A) :=
  if (0 <=? i) && (i <? Z.of_nat (length l)) then Some (<[Z.to_nat i := v]> l) else None.

(** * Loops

    [for_loop fuel i stop step body s] is
    [for (uint64_t i = i; i < stop; i += step) s = body(i, s)].
    It returns [None] when the body does or when the fuel is exhausted. *)

Fixpoint for_loop {St : Type} (fuel : nat) (i stop step : Z)
    (body : Z -> St -> option St) (s : St) {struct fuel} : option St :=
  if i <? stop then
    match fuel with
    | O => None
    | S fuel' => s' ← body i s; for_loop fuel' (u64 (i + step)) stop step body s'
    end
  else Some s.

(** The number of iterations of such a loop when [i] does not wrap. *)
Definition loop_fuel (i stop step : Z) : nat := Z.to_nat ((stop - i + step - 1) / step).

(** * Automation *)

Create HintDb mcsos.

Ltac bool_to_prop :=
  repeat match goal with
  | H : (_ && _)%bool = true |- _ => apply andb_true_iff in H; destruct H
  | H : (_ || _)%bool = false |- _ => apply orb_false_iff in H; destruct H
  | H : (_ || _)%bool = true |- _ => apply orb_true_iff in H
  | H : (_ && _)%bool = false |- _ => apply andb_false_iff in H
  | H : negb _ = true |- _ => apply negb_true_iff in H
  | H : negb _ = false |- _ => apply negb_false_iff in H
  | H : (_ <? _) = true |- _ => apply Z.ltb_lt in H
  | H : (_ <? _) = false |- _ => apply Z.ltb_ge in H
  | H : (_ <=? _) = true |- _ => apply Z.leb_le in H
  | H : (_ <=? _) = false |- _ => apply Z.leb_gt in H
  | H : (_ =? _) = true |- _ => apply Z.eqb_eq in H
  | H : (_ =? _) = false |- _ => apply Z.eqb_neq in H
  end.

(** Case analysis on the boolean tests of a goal, turned into propositions. *)
Ltac case_bool :=
  match goal with
  | |- context [if ?b then _ else _] =>
      lazymatch type of b with bool => let E := fresh "E" in destruct b eqn:E; bool_to_prop end
  end.

(** Case analysis on the boolean tests of a hypothesis. *)
Ltac case_bool_in H :=
  match type of H with
  | context [if ?b then _ else _] =>
      lazymatch type of b with bool => let E := fresh "E" in destruct b eqn:E; bool_to_prop end
  end.

(** Arithmetic with the machine-integer predicates unfolded. *)
Ltac ulia :=
  unfold is_u8, is_u32, is_u64, u8, u16, u32, u64, UINT64_MAX in *;
  Z.div_mod_to_equations; lia.

(** Split a [Forall] over a literal list into its elements. *)
Ltac forall_cons := repeat first [apply Forall_nil_2 | apply Forall_cons_2].

(** Evaluate a boolean test known by arithmetic. *)
Ltac rw_true b := replace b with true by (symmetry; first [apply Z.ltb_lt | apply Z.leb_le | apply Z.eqb_eq]; lia).
Ltac rw_false b := replace b with false by (symmetry; first [apply Z.ltb_ge | apply Z.leb_gt | apply Z.eqb_neq]; lia).

(** * Lemmas: machine integers *)

Lemma u64_small z : is_u64 z -> u64 z = z.
Proof. apply Z.mod_small. Qed.

Lemma u32_small z : is_u32 z -> u32 z = z.
Proof. apply Z.mod_small. Qed.

Lemma u8_small z : is_u8 z -> u8 z = z.
Proof. apply Z.mod_small. Qed.

Lemma u64_range z : is_u64 (u64 z).
Proof. apply Z.mod_pos_bound; lia. Qed.

Lemma u32_range z : is_u32 (u32 z).
Proof. apply Z.mod_pos_bound; lia. Qed.

Lemma u8_range z : is_u8 (u8 z).
Proof. apply Z.mod_pos_bound; lia. Qed.

#[export] Hint Resolve u64_range u32_range u8_range : mcsos.

(** * Lemmas: masks *)

Lemma land_low k v : 0 <= k -> Z.land v (2 ^ k - 1) = v mod 2 ^ k.
Proof.
  intros Hk. rewrite <- Z.land_ones by lia. f_equal. rewrite Z.ones_equiv. lia.
Qed.

Lemma testbit_u64 z i : 0 <= i -> Z.testbit (u64 z) i = (i <? 64) && Z.testbit z i.
Proof.
  intros Hi. unfold u64. destruct (Z.ltb_spec i 64).
  - rewrite Z.mod_pow2_bits_low by lia. reflexivity.
  - rewrite Z.mod_pow2_bits_high by lia. reflexivity.
Qed.

Lemma testbit_high w v i : 0 <= w -> 0 <= v < 2 ^ w -> w <= i -> Z.testbit v i = false.
Proof.
  intros Hw Hv Hi. rewrite <- (Z.mod_small v (2 ^ w)) by lia.
  apply Z.mod_pow2_bits_high. lia.
Qed.

Lemma testbit_ones_low k i : 0 <= k -> 0 <= i -> Z.testbit (2 ^ k - 1) i = (i <? k).
Proof.
  intros Hk Hi. replace (2 ^ k - 1) with (Z.ones k) by (rewrite Z.ones_equiv; lia).
  destruct (Z.ltb_spec i k); [apply Z.ones_spec_low | apply Z.ones_spec_high]; lia.
Qed.

(** Clearing the low [k] bits of a 64-bit value rounds it down to a multiple of [2^k]. *)
Lemma land_high k v :
  0 <= k <= 64 -> is_u64 v -> Z.land v (not64 (2 ^ k - 1)) = v - v mod 2 ^ k.
Proof.
  intros Hk Hv. unfold is_u64 in Hv.
  replace (v - v mod 2 ^ k) with (Z.shiftl (Z.shiftr v k) k).
  2:{ rewrite Z.shiftl_mul_pow2, Z.shiftr_div_pow2 by lia.
      pose proof (Z.div_mod v (2 ^ k)). lia. }
  apply Z.bits_inj'. intros i Hi.
  unfold not64. rewrite Z.land_spec, testbit_u64, Z.lnot_spec, testbit_ones_low by lia.
  destruct (Z.ltb_spec i k).
  - rewrite Z.shiftl_spec_low by lia. cbn. rewrite !andb_false_r. reflexivity.
  - rewrite Z.shiftl_spec, Z.shiftr_spec by lia. replace (i - k + k) with i by lia.
    destruct (Z.ltb_spec i 64); cbn.
    + rewrite andb_true_r. reflexivity.
    + rewrite andb_false_r. symmetry. apply (testbit_high 64); lia.
Qed.

(** * Lemmas: arrays *)

Lemma arr_get_Some {A} (l : list A) i v :
  arr_get l i = Some v <-> 0 <= i /\ l !! Z.to_nat i = Some v.
Proof. unfold arr_get. destruct (Z.leb_spec 0 i); split; naive_solver lia. Qed.

Lemma arr_get_lt {A} (l : list A) i :
  0 <= i < Z.of_nat (length l) -> is_Some (arr_get l i).
Proof.
  intros H. unfold arr_get. rw_true (0 <=? i). apply lookup_lt_is_Some. lia.
Qed.

Lemma arr_get_bound {A} (l : list A) i v :
  arr_get l i = Some v -> 0 <= i < Z.of_nat (length l).
Proof. rewrite arr_get_Some. intros [? H%lookup_lt_Some]. lia. Qed.

Lemma arr_set_lt {A} (l : list A) i v :
  0 <= i < Z.of_nat (length l) -> arr_set l i v = Some (<[Z.to_nat i := v]> l).
Proof.
  intros H. unfold arr_set. rw_true (0 <=? i). rw_true (i <? Z.of_nat (length l)). done.
Qed.

Lemma arr_set_Some {A} (l l' : list A) i v :
  arr_set l i v = Some l' -> 0 <= i < Z.of_nat (length l) /\ l' = <[Z.to_nat i := v]> l.
Proof. unfold arr_set. case_bool; [|done]. intros [= <-]. split; [lia|done]. Qed.

Lemma arr_set_length {A} (l l' : list A) i v :
  arr_set l i v = Some l' -> length l' = length l.
Proof. intros [_ ->]%arr_set_Some. apply length_insert. Qed.

Lemma arr_get_set {A} (l l' : list A) i j v :
  arr_set l i v = Some l' ->
  arr_get l' j = if j =? i then Some v else arr_get l j.
Proof.
  intros [Hi ->]%arr_set_Some. unfold arr_get. destruct (Z.eqb_spec j i) as [->|Hne].
  - rw_true (0 <=? i). apply list_lookup_insert_eq. lia.
  - destruct (Z.leb_spec 0 j); [|done]. apply list_lookup_insert_ne. lia.
Qed.

(** * Lemmas: loops *)

(** Invariant rule. The counter does not wrap, each iteration succeeds and
    keeps the invariant, and the fuel covers the number of iterations: the loop
    returns a state satisfying the invariant at an index past [stop]. *)
Lemma for_loop_inv {St} (I : Z -> St -> Prop) stop step body :
  0 < step -> stop + step <= 2 ^ 64 ->
  (forall i s, i < stop -> I i s -> exists s', body i s = Some s' /\ I (i + step) s') ->
  forall fuel i s, 0 <= i -> stop - i <= Z.of_nat fuel * step -> I i s ->
  exists i' s', for_loop fuel i stop step body s = Some s' /\ I i' s' /\
    stop <= i' /\ (i < stop -> i' < stop + step) /\ (stop <= i -> i' = i).
Proof.
  intros Hstep Hwrap Hbody fuel. induction fuel as [|fuel IH]; intros i s Hi Hfuel HI.
  - cbn. rw_false (i <? stop). exists i, s. repeat split; auto; lia.
  - cbn. destruct (Z.ltb_spec i stop).
    + destruct (Hbody i s) as (s1 & Hs1 & HI1); [lia|done|]. rewrite Hs1. cbn.
      rewrite u64_small by (unfold is_u64; lia).
      destruct (IH (i + step) s1) as (i2 & s2 & H2 & HI2 & Hi2 & Hb & Ht); [lia|lia|done|].
      exists i2, s2. repeat split; auto; try lia.
    + exists i, s. repeat split; auto; lia.
Qed.

(** * Lemmas: single bits *)

Lemma testbit_pow2 k i : 0 <= k -> 0 <= i -> Z.testbit (2 ^ k) i = (i =? k).
Proof.
  intros Hk Hi. destruct (Z.eqb_spec i k) as [->|].
  - apply Z.pow2_bits_true. lia.
  - apply Z.pow2_bits_false. lia.
Qed.

Lemma land_pow2 v k : 0 <= k -> Z.land v (2 ^ k) = if Z.testbit v k then 2 ^ k else 0.
Proof.
  intros Hk. apply Z.bits_inj'. intros i Hi. rewrite Z.land_spec, testbit_pow2 by lia.
  destruct (Z.eqb_spec i k) as [->|].
  - rewrite andb_true_r. destruct (Z.testbit v k).
    + rewrite testbit_pow2 by lia. symmetry. apply Z.eqb_refl.
    + symmetry. apply Z.testbit_0_l.
  - rewrite andb_false_r. destruct (Z.testbit v k).
    + rewrite testbit_pow2 by lia. symmetry. by apply Z.eqb_neq.
    + symmetry. apply Z.testbit_0_l.
Qed.

(** [(v & (1 << k)) != 0] is bit [k] of [v]. *)
Lemma land_pow2_test v k : 0 <= k -> negb (Z.land v (2 ^ k) =? 0) = Z.testbit v k.
Proof.
  intros Hk. rewrite land_pow2 by lia. destruct (Z.testbit v k); [|done].
  assert (0 < 2 ^ k) by (apply Z.pow_pos_nonneg; lia). rw_false (2 ^ k =? 0). done.
Qed.

Lemma testbit_u8 z i : 0 <= i -> Z.testbit (u8 z) i = (i <? 8) && Z.testbit z i.
Proof.
  intros Hi. unfold u8. destruct (Z.ltb_spec i 8).
  - rewrite Z.mod_pow2_bits_low by lia. reflexivity.
  - rewrite Z.mod_pow2_bits_high by lia. reflexivity.
Qed.

Lemma loop_fuel_enough i stop step :
  0 < step -> stop - i <= Z.of_nat (loop_fuel i stop step) * step.
Proof.
  intros Hs. unfold loop_fuel. pose proof (Z.div_mod (stop - i + step - 1) step).
  pose proof (Z.mod_pos_bound (stop - i + step - 1) step). nia.
Qed.

(** The invariant rule for loops that count by one from a non-negative start. *)
Lemma for_loop_count {St} (I : Z -> St -> Prop) lo stop body s :
  0 <= lo <= stop -> stop < 2 ^ 64 -> I lo s ->
  (forall i s, lo <= i < stop -> I i s -> exists s', body i s = Some s' /\ I (i + 1) s') ->
  exists s', for_loop (loop_fuel lo stop 1) lo stop 1 body s = Some s' /\ I stop s'.
Proof.
  intros Hlo Hs HI Hbody.
  destruct (for_loop_inv (fun i s => lo <= i <= stop /\ I i s) stop 1 body)
    with (fuel := loop_fuel lo stop 1) (i := lo) (s := s) as (i' & s' & H & [Hi' HI'] & Hge & _ & _).
  - lia.
  - lia.
  - intros i q Hi [Hr Hq]. destruct (Hbody i q) as (q' & Hq' & HI'); [lia|done|].
    exists q'. repeat split; auto; lia.
  - lia.
  - by apply loop_fuel_enough.
  - split; [lia|done].
  - exists s'. assert (i' = stop) as -> by lia. done.
Qed.

(** Two bodies that agree on the indices of a loop give the same loop. *)
Lemma for_loop_ext {St} (body body' : Z -> St -> option St) stop step :
  (forall i s, 0 <= i -> body i s = body' i s) ->
  forall fuel i s, 0 <= i -> for_loop fuel i stop step body s = for_loop fuel i stop step body' s.
Proof.
  intros Hb fuel. induction fuel as [|fuel IH]; intros i s Hi; cbn; [done|].
  destruct (i <? stop); [|done]. rewrite Hb by lia. destruct (body' i s); cbn; [|done].
  apply IH. apply u64_range.
Qed.
