(* ===== verification/Pmm.v ===== *)
(** Physical memory manager: kernel/core/pmm.c and kernel/include/pmm.h. *)

From S2P Require Import Prelude.

(** * Constants and data *)

Definition PMM_PAGE_SIZE : Z := 4096.
Definition PMM_MAX_PHYS_BYTES : Z := 64 * 1024 * 1024 * 1024.
Definition PMM_INVALID_FRAME : Z := 0xffffffffffffffff.

Definition BOOT_MEM_USABLE : Z := 1.
Definition BOOT_MEM_RESERVED : Z := 2.
Definition BOOT_MEM_BOOTLOADER_RECLAIMABLE : Z := 3.
Definition BOOT_MEM_KERNEL_AND_MODULES : Z := 4.
Definition BOOT_MEM_FRAMEBUFFER : Z := 5.
Definition BOOT_MEM_ACPI_RECLAIMABLE : Z := 6.
Definition BOOT_MEM_ACPI_NVS : Z := 7.
Definition BOOT_MEM_BAD_MEMORY : Z := 8.

Record boot_mem_region := mk_region {
  region_base : Z;
  region_length : Z;
  region_type : Z
}.

(** The C field [bitmap] points to the caller's storage; the model keeps the
    bytes themselves ([[]] for the null pointer). *)
Record pmm_state := mk_pmm {
  bitmap : list Z;
  bitmap_bytes : Z;
  max_phys : Z;
  frame_count : Z;
  free_frames : Z;
  used_frames : Z;
  reserved_frames : Z;
  ignored_frames : Z;
  next_hint : Z;
  initialized : bool
}.

Definition set_bitmap (p : pmm_state) (b : list Z) : pmm_state :=
  mk_pmm b (bitmap_bytes p) (max_phys p) (frame_count p) (free_frames p) (used_frames p)
    (reserved_frames p) (ignored_frames p) (next_hint p) (initialized p).
Definition set_free_frames (p : pmm_state) (v : Z) : pmm_state :=
  mk_pmm (bitmap p) (bitmap_bytes p) (max_phys p) (frame_count p) v (used_frames p)
    (reserved_frames p) (ignored_frames p) (next_hint p) (initialized p).
Definition set_used_frames (p : pmm_state) (v : Z) : pmm_state :=
  mk_pmm (bitmap p) (bitmap_bytes p) (max_phys p) (frame_count p) (free_frames p) v
    (reserved_frames p) (ignored_frames p) (next_hint p) (initialized p).
Definition set_reserved_frames (p : pmm_state) (v : Z) : pmm_state :=
  mk_pmm (bitmap p) (bitmap_bytes p) (max_phys p) (frame_count p) (free_frames p) (used_frames p)
    v (ignored_frames p) (next_hint p) (initialized p).
Definition set_ignored_frames (p : pmm_state) (v : Z) : pmm_state :=
  mk_pmm (bitmap p) (bitmap_bytes p) (max_phys p) (frame_count p) (free_frames p) (used_frames p)
    (reserved_frames p) v (next_hint p) (initialized p).
Definition set_next_hint (p : pmm_state) (v : Z) : pmm_state :=
  mk_pmm (bitmap p) (bitmap_bytes p) (max_phys p) (frame_count p) (free_frames p) (used_frames p)
    (reserved_frames p) (ignored_frames p) v (initialized p).
Definition set_initialized (p : pmm_state) (v : bool) : pmm_state :=
  mk_pmm (bitmap p) (bitmap_bytes p) (max_phys p) (frame_count p) (free_frames p) (used_frames p)
    (reserved_frames p) (ignored_frames p) (next_hint p) v.

(** * Helpers *)

Definition align_down (value align : Z) : Z := Z.land value (not64 (u64 (align - 1))).

Definition align_up (value align : Z) : Z :=
  Z.land (u64 (value + align - 1)) (not64 (u64 (align - 1))).

Definition checked_add_u64 (a b : Z) : option Z :=
  if UINT64_MAX - a <? b then None else Some (u64 (a + b)).

Definition bitmap_set (bm : list Z) (index : Z) : option (list Z) :=
  old ← arr_get bm (Z.shiftr index 3);
  arr_set bm (Z.shiftr index 3) (u8 (Z.lor old (u8 (Z.shiftl 1 (Z.land index 7))))).

Definition bitmap_clear (bm : list Z) (index : Z) : option (list Z) :=
  old ← arr_get bm (Z.shiftr index 3);
  arr_set bm (Z.shiftr index 3) (u8 (Z.land old (not8 (u8 (Z.shiftl 1 (Z.land index 7)))))).

Definition bitmap_test (bm : list Z) (index : Z) : option bool :=
  old ← arr_get bm (Z.shiftr index 3);
  Some (negb (Z.land old (u8 (Z.shiftl 1 (Z.land index 7))) =? 0)).

Definition mark_frame_free (p : pmm_state) (frame : Z) : option pmm_state :=
  if frame_count p <=? frame then Some p
  else
    used ← bitmap_test (bitmap p) frame;
    if (used : bool) then
      bm ← bitmap_clear (bitmap p) frame;
      let p := set_bitmap p bm in
      let p := set_free_frames p (u64 (free_frames p + 1)) in
      let p := if 0 <? used_frames p then set_used_frames p (u64 (used_frames p - 1)) else p in
      let p := if frame <? next_hint p then set_next_hint p frame else p in
      Some p
    else Some p.

Definition mark_frame_used (p : pmm_state) (frame : Z) : option pmm_state :=
  if frame_count p <=? frame then Some p
  else
    used ← bitmap_test (bitmap p) frame;
    if negb used then
      bm ← bitmap_set (bitmap p) frame;
      let p := set_bitmap p bm in
      let p := if 0 <? free_frames p then set_free_frames p (u64 (free_frames p - 1)) else p in
      let p := set_used_frames p (u64 (used_frames p + 1)) in
      Some p
    else Some p.

Definition mark_range_free (p : pmm_state) (base length : Z) : option pmm_state :=
  if length =? 0 then Some p
  else
    match checked_add_u64 base length with
    | None => Some p
    | Some end_ =>
        let start := align_up base PMM_PAGE_SIZE in
        let stop := align_down end_ PMM_PAGE_SIZE in
        if stop <=? start then Some p
        else if max_phys p <=? start then Some p
        else
          let (stop, p) :=
            if max_phys p <? stop then
              (max_phys p,
               set_ignored_frames p
                 (u64 (ignored_frames p +
                       u64 (align_down end_ PMM_PAGE_SIZE - max_phys p) / PMM_PAGE_SIZE)))
            else (stop, p) in
          for_loop (loop_fuel start stop PMM_PAGE_SIZE) start stop PMM_PAGE_SIZE
            (fun addr p => mark_frame_free p (addr / PMM_PAGE_SIZE)) p
    end.

Definition mark_range_used (p : pmm_state) (base length : Z) : option pmm_state :=
  if length =? 0 then Some p
  else
    match checked_add_u64 base length with
    | None => Some p
    | Some end_ =>
        let start := align_down base PMM_PAGE_SIZE in
        let stop := align_up end_ PMM_PAGE_SIZE in
        if stop <=? start then Some p
        else if max_phys p <=? start then Some p
        else
          let stop := if max_phys p <? stop then max_phys p else stop in
          for_loop (loop_fuel start stop PMM_PAGE_SIZE) start stop PMM_PAGE_SIZE
            (fun addr p =>
               used ← bitmap_test (bitmap p) (addr / PMM_PAGE_SIZE);
               let was_free := negb used in
               p ← mark_frame_used p (addr / PMM_PAGE_SIZE);
               Some (if was_free then set_reserved_frames p (u64 (reserved_frames p + 1)) else p)) p
    end.

(** * Operations *)

Definition zero_state : pmm_state := mk_pmm [] 0 0 0 0 0 0 0 0 false.

Definition pmm_zero_state (pmm : ptr pmm_state) : ptr pmm_state :=
  match pmm with NULL => NULL | Ref _ => Ref zero_state end.

(** The state that [pmm_init_from_map] builds before it reads the map. *)
Definition init_all_used (storage : list Z) (required frame_count max_phys_bytes : Z) :
    option pmm_state :=
  bm ← for_loop (loop_fuel 0 required 1) 0 required 1 (fun i bm => arr_set bm i 0xff) storage;
  Some (mk_pmm bm required max_phys_bytes frame_count 0 frame_count 0 0 0 false).

Definition mark_regions (select : boot_mem_region -> bool)
    (mark : pmm_state -> Z -> Z -> option pmm_state)
    (regions : list boot_mem_region) (region_count : Z) (p : pmm_state) : option pmm_state :=
  for_loop (loop_fuel 0 region_count 1) 0 region_count 1
    (fun i p =>
       r ← arr_get regions i;
       if select r then mark p (region_base r) (region_length r) else Some p) p.

Definition is_usable (r : boot_mem_region) : bool := region_type r =? BOOT_MEM_USABLE.
Definition not_usable (r : boot_mem_region) : bool := negb (region_type r =? BOOT_MEM_USABLE).

Definition pmm_init_from_map (pmm : ptr pmm_state) (regions : ptr (list boot_mem_region))
    (region_count : Z) (bitmap_storage : ptr (list Z))
    (bitmap_storage_bytes max_phys_bytes : Z) : option (bool * ptr pmm_state) :=
  match pmm, regions, bitmap_storage with
  | Ref _, Ref regions, Ref storage =>
      if region_count =? 0 then Some (false, pmm)
      else if (max_phys_bytes =? 0) || negb (Z.land max_phys_bytes (PMM_PAGE_SIZE - 1) =? 0)
      then Some (false, pmm)
      else
        let frame_count := max_phys_bytes / PMM_PAGE_SIZE in
        let required_bitmap_bytes := u64 (frame_count + 7) / 8 in
        if bitmap_storage_bytes <? required_bitmap_bytes then Some (false, pmm)
        else
          p ← init_all_used storage required_bitmap_bytes frame_count max_phys_bytes;
          p ← mark_regions is_usable mark_range_free regions region_count p;
          p ← mark_range_used p 0 PMM_PAGE_SIZE;
          p ← mark_regions not_usable mark_range_used regions region_count p;
          Some (true, Ref (set_initialized p true))
  | _, _, _ => Some (false, pmm)
  end.

(** One of the two scanning loops of [pmm_alloc_frame], with its [return]. *)
Fixpoint alloc_scan (fuel : nat) (frame limit : Z) (p : pmm_state) {struct fuel} :
    option (option (Z * pmm_state)) :=
  if frame <? limit then
    match fuel with
    | O => None
    | S fuel' =>
        used ← bitmap_test (bitmap p) frame;
        if negb used then
          p' ← mark_frame_used p frame;
          Some (Some (u64 (frame * PMM_PAGE_SIZE), set_next_hint p' (u64 (frame + 1))))
        else alloc_scan fuel' (u64 (frame + 1)) limit p
    end
  else Some None.

Definition pmm_alloc_frame (pmm : ptr pmm_state) : option (Z * ptr pmm_state) :=
  match pmm with
  | NULL => Some (PMM_INVALID_FRAME, NULL)
  | Ref p =>
      if negb (initialized p) || (free_frames p =? 0) then Some (PMM_INVALID_FRAME, Ref p)
      else
        r1 ← alloc_scan (loop_fuel (next_hint p) (frame_count p) 1) (next_hint p) (frame_count p) p;
        match r1 with
        | Some (addr, p') => Some (addr, Ref p')
        | None =>
            r2 ← alloc_scan (loop_fuel 0 (next_hint p) 1) 0 (next_hint p) p;
            match r2 with
            | Some (addr, p') => Some (addr, Ref p')
            | None => Some (PMM_INVALID_FRAME, Ref p)
            end
        end
  end.

Definition pmm_free_frame (pmm : ptr pmm_state) (phys_addr : Z) : option (bool * ptr pmm_state) :=
  match pmm with
  | NULL => Some (false, NULL)
  | Ref p =>
      if negb (initialized p) then Some (false, Ref p)
      else if negb (Z.land phys_addr (PMM_PAGE_SIZE - 1) =? 0) || (phys_addr =? 0)
              || (max_phys p <=? phys_addr)
      then Some (false, Ref p)
      else
        let frame := phys_addr / PMM_PAGE_SIZE in
        used ← bitmap_test (bitmap p) frame;
        if negb used then Some (false, Ref p)
        else p' ← mark_frame_free p frame; Some (true, Ref p')
  end.

Definition pmm_reserve_range (pmm : ptr pmm_state) (base length : Z) :
    option (bool * ptr pmm_state) :=
  match pmm with
  | NULL => Some (false, NULL)
  | Ref p =>
      if negb (initialized p) || (length =? 0) then Some (false, Ref p)
      else p' ← mark_range_used p base length; Some (true, Ref p')
  end.

Definition pmm_is_frame_free (pmm : ptr pmm_state) (phys_addr : Z) : option bool :=
  match pmm with
  | NULL => Some false
  | Ref p =>
      if negb (initialized p) then Some false
      else if negb (Z.land phys_addr (PMM_PAGE_SIZE - 1) =? 0) || (max_phys p <=? phys_addr)
      then Some false
      else used ← bitmap_test (bitmap p) (phys_addr / PMM_PAGE_SIZE); Some (negb used)
  end.

Definition pmm_free_count (pmm : ptr pmm_state) : Z :=
  match pmm with Ref p => free_frames p | NULL => 0 end.
Definition pmm_used_count (pmm : ptr pmm_state) : Z :=
  match pmm with Ref p => used_frames p | NULL => 0 end.
Definition pmm_frame_count (pmm : ptr pmm_state) : Z :=
  match pmm with Ref p => frame_count p | NULL => 0 end.

(** * Specification

    [bit bm f] is the allocation bit of frame [f]: set when the frame is not
    available. *)

Definition bit (bm : list Z) (f : Z) : bool :=
  match bm !! Z.to_nat (f / 8) with Some b => Z.testbit b (f mod 8) | None => true end.

(** The frames a state holds available: the abstract value of a [pmm_state]. *)
Definition free_set (p : pmm_state) : gset Z :=
  list_to_set (filter (fun f => bit (bitmap p) f = false) (seqZ 0 (frame_count p))).

(** Representation invariant of the bitmap and its counters. *)
Record pmm_wf (p : pmm_state) : Prop := {
  wf_frames : 0 < frame_count p;
  wf_max_phys : max_phys p = frame_count p * PMM_PAGE_SIZE;
  wf_max_u64 : max_phys p < 2 ^ 64;
  wf_bytes : bitmap_bytes p = (frame_count p + 7) / 8;
  wf_storage : bitmap_bytes p <= Z.of_nat (length (bitmap p));
  wf_byte : Forall is_u8 (bitmap p);
  wf_free : free_frames p = Z.of_nat (size (free_set p));
  wf_used : used_frames p = frame_count p - free_frames p;
  wf_hint : 0 <= next_hint p <= frame_count p;
  wf_below_hint : forall f, f ∈ free_set p -> next_hint p <= f
}.

(** What holds between public calls once [pmm_init_from_map] has returned true. *)
Definition pmm_ready (p : pmm_state) : Prop :=
  pmm_wf p /\ initialized p = true /\ 0 ∉ free_set p.

(** The fields that fix the geometry of the bitmap. *)
Definition same_geometry (p p' : pmm_state) : Prop :=
  frame_count p' = frame_count p /\ max_phys p' = max_phys p /\
  bitmap_bytes p' = bitmap_bytes p /\ initialized p' = initialized p.

(** Frame [f] lies wholly inside the byte range [base, base+len). *)
Definition frame_inside (base len f : Z) : Prop :=
  base <= f * PMM_PAGE_SIZE /\ (f + 1) * PMM_PAGE_SIZE <= base + len.

(** Frame [f] shares a byte with the (non-empty) range [base, base+len). *)
Definition frame_overlaps (base len f : Z) : Prop :=
  0 < len /\ f * PMM_PAGE_SIZE < base + len /\ base < (f + 1) * PMM_PAGE_SIZE.

(** A memory-map entry whose end, rounded up to a page, is a 64-bit address. *)
Definition region_ok (r : boot_mem_region) : Prop :=
  0 <= region_base r /\ 0 <= region_length r /\
  region_base r + region_length r + PMM_PAGE_SIZE <= 2 ^ 64.

(** Frame [f] is declared usable by the first [n] entries of the map, and no other
    entry claims any byte of it. *)
Definition frame_available (regions : list boot_mem_region) (n f : Z) : Prop :=
  (exists r, r ∈ take (Z.to_nat n) regions /\ region_type r = BOOT_MEM_USABLE /\
     frame_inside (region_base r) (region_length r) f) /\
  (forall r, r ∈ take (Z.to_nat n) regions -> region_type r <> BOOT_MEM_USABLE ->
     ~ frame_overlaps (region_base r) (region_length r) f).

(** ** Abstract machine: a set of free frames

    The observable operations of an initialised manager, their results, and the
    behaviour promised for them on the bare set of free frame numbers below [n]. *)

Inductive pmm_op : Type :=
| OpAlloc
| OpFree (phys_addr : Z)
| OpReserve (base len : Z).

Inductive pmm_res : Type :=
| RAddr (a : Z)
| RBool (b : bool).

#[export] Instance pmm_op_eq_dec : EqDecision pmm_op.
Proof. solve_decision. Defined.
#[export] Instance pmm_res_eq_dec : EqDecision pmm_res.
Proof. solve_decision. Defined.

(** [a] is the address of a frame that is handed out at the moment. *)
Definition allocated (n : Z) (F : gset Z) (a : Z) : Prop :=
  exists f, a = f * PMM_PAGE_SIZE /\ 0 < f < n /\ f ∉ F.

Inductive frames_step (n : Z) : gset Z -> pmm_op -> pmm_res -> gset Z -> Prop :=
| FS_alloc F f :
    f ∈ F -> (forall g, g ∈ F -> f <= g) ->
    frames_step n F OpAlloc (RAddr (f * PMM_PAGE_SIZE)) (F ∖ {[f]})
| FS_exhausted : frames_step n ∅ OpAlloc (RAddr PMM_INVALID_FRAME) ∅
| FS_free F f :
    0 < f < n -> f ∉ F ->
    frames_step n F (OpFree (f * PMM_PAGE_SIZE)) (RBool true) ({[f]} ∪ F)
| FS_free_refused F a : ~ allocated n F a -> frames_step n F (OpFree a) (RBool false) F
| FS_reserve F F' b len :
    0 < len -> b + len + PMM_PAGE_SIZE <= 2 ^ 64 -> (forall f, f ∈ F' <-> f ∈ F /\ ~ frame_overlaps b len f) ->
    frames_step n F (OpReserve b len) (RBool true) F'
| FS_reserve_top F b len :
    0 < len -> 2 ^ 64 < b + len + PMM_PAGE_SIZE -> frames_step n F (OpReserve b len) (RBool true) F
| FS_reserve_empty F b : frames_step n F (OpReserve b 0) (RBool false) F.

(** One call of the public interface. *)
Definition pmm_exec (p : pmm_state) (op : pmm_op) : option (pmm_res * pmm_state) :=
  match op with
  | OpAlloc =>
      r ← pmm_alloc_frame (Ref p);
      match r with (a, Ref p') => Some (RAddr a, p') | (_, NULL) => None end
  | OpFree a =>
      r ← pmm_free_frame (Ref p) a;
      match r with (b, Ref p') => Some (RBool b, p') | (_, NULL) => None end
  | OpReserve b len =>
      r ← pmm_reserve_range (Ref p) b len;
      match r with (ok, Ref p') => Some (RBool ok, p') | (_, NULL) => None end
  end.

Fixpoint pmm_run (p : pmm_state) (ops : list pmm_op) : option (list pmm_res * pmm_state) :=
  match ops with
  | [] => Some ([], p)
  | op :: ops =>
      '(r, p1) ← pmm_exec p op;
      '(rs, p2) ← pmm_run p1 ops;
      Some (r :: rs, p2)
  end.

(** The arguments are 64-bit values. *)
Definition op_ok (op : pmm_op) : Prop :=
  match op with
  | OpAlloc => True
  | OpFree a => is_u64 a
  | OpReserve b len => is_u64 b /\ is_u64 len
  end.

(** * Lemmas: alignment *)

Lemma checked_add_spec a b :
  is_u64 a -> is_u64 b ->
  checked_add_u64 a b = if a + b <? 2 ^ 64 then Some (a + b) else None.
Proof.
  intros Ha Hb. unfold checked_add_u64. unfold is_u64, UINT64_MAX in *.
  destruct (Z.ltb_spec (0xffffffffffffffff - a) b); destruct (Z.ltb_spec (a + b) (2 ^ 64)); try lia; [done|].
  rewrite u64_small by (unfold is_u64; lia). done.
Qed.

Lemma align_down_page v : is_u64 v -> align_down v PMM_PAGE_SIZE = v / 4096 * 4096.
Proof.
  intros Hv. unfold align_down. change (u64 (PMM_PAGE_SIZE - 1)) with (2 ^ 12 - 1).
  rewrite land_high by (auto; lia). change (2 ^ 12) with 4096. pose proof (Z.div_mod v 4096). lia.
Qed.

Lemma align_up_page v :
  0 <= v -> v + 4095 < 2 ^ 64 -> align_up v PMM_PAGE_SIZE = (v + 4095) / 4096 * 4096.
Proof.
  intros Hv Hw. unfold align_up, PMM_PAGE_SIZE.
  rewrite u64_small by (unfold is_u64; lia). replace (v + 4096 - 1) with (v + 4095) by lia.
  apply align_down_page. unfold is_u64. lia.
Qed.

(** * Lemmas: the bitmap *)

Lemma bitmap_index i : 0 <= i ->
  Z.shiftr i 3 = i / 8 /\ u8 (Z.shiftl 1 (Z.land i 7)) = 2 ^ (i mod 8) /\ 0 <= i mod 8 < 8.
Proof.
  intros Hi. assert (0 <= i mod 8 < 8) by (apply Z.mod_pos_bound; lia).
  rewrite Z.shiftr_div_pow2 by lia. change 7 with (2 ^ 3 - 1). rewrite land_low by lia.
  change (2 ^ 3) with 8. rewrite Z.shiftl_1_l. repeat split; try lia.
  apply u8_small. unfold is_u8. split; [lia|]. apply Z.pow_lt_mono_r; lia.
Qed.

Lemma arr_get_byte (bm : list Z) f :
  0 <= f -> f / 8 < Z.of_nat (length bm) ->
  exists b, arr_get bm (f / 8) = Some b /\ bm !! Z.to_nat (f / 8) = Some b.
Proof.
  intros Hf Hl. assert (0 <= f / 8) by (apply Z.div_pos; lia).
  destruct (arr_get_lt bm (f / 8)) as [b Hb]; [lia|].
  exists b. split; [done|]. by apply arr_get_Some in Hb as [_ ?].
Qed.

Lemma bitmap_test_spec bm f :
  0 <= f -> f / 8 < Z.of_nat (length bm) -> bitmap_test bm f = Some (bit bm f).
Proof.
  intros Hf Hl. destruct (bitmap_index f Hf) as (E1 & E2 & E3).
  destruct (arr_get_byte bm f) as (b & Hb & Hb'); [done..|].
  unfold bitmap_test, bit. rewrite E1, E2, Hb, Hb'. cbn -[Z.pow]. by rewrite land_pow2_test by lia.
Qed.

(** Replacing the byte of frame [f] by one that differs at [f mod 8] only. *)
Lemma bit_insert bm f b b' (v : bool) :
  0 <= f -> bm !! Z.to_nat (f / 8) = Some b ->
  (forall k, 0 <= k < 8 -> Z.testbit b' k = if k =? f mod 8 then v else Z.testbit b k) ->
  forall g, 0 <= g ->
  bit (<[Z.to_nat (f / 8) := b']> bm) g = if g =? f then v else bit bm g.
Proof.
  intros Hf Hb Hb' g Hg. unfold bit.
  assert (0 <= g mod 8 < 8) by (apply Z.mod_pos_bound; lia).
  assert (0 <= f / 8) by (apply Z.div_pos; lia). assert (0 <= g / 8) by (apply Z.div_pos; lia).
  assert (Z.to_nat (f / 8) < length bm)%nat by (by eapply lookup_lt_Some).
  destruct (Z.eq_dec (g / 8) (f / 8)) as [E|E].
  - rewrite E, list_lookup_insert_eq, Hb, Hb' by done.
    destruct (Z.eqb_spec g f) as [->|]; [by rewrite Z.eqb_refl|].
    assert (g mod 8 <> f mod 8) as Hne%Z.eqb_neq by (pose proof (Z.div_mod g 8); pose proof (Z.div_mod f 8); lia).
    by rewrite Hne.
  - rewrite list_lookup_insert_ne by lia. destruct (Z.eqb_spec g f); [congruence|done].
Qed.

Lemma bitmap_set_spec bm f :
  0 <= f -> f / 8 < Z.of_nat (length bm) -> Forall is_u8 bm ->
  exists bm', bitmap_set bm f = Some bm' /\ length bm' = length bm /\ Forall is_u8 bm' /\
    forall g, 0 <= g -> bit bm' g = if g =? f then true else bit bm g.
Proof.
  intros Hf Hl Hby. destruct (bitmap_index f Hf) as (E1 & E2 & E3).
  destruct (arr_get_byte bm f) as (b & Hb & Hb'); [done..|].
  assert (0 <= f / 8) by (apply Z.div_pos; lia).
  unfold bitmap_set. rewrite E1, E2, Hb. cbn -[Z.pow]. rewrite arr_set_lt by lia.
  eexists. split; [done|]. split; [apply length_insert|]. split.
  - apply Forall_insert; [done|apply u8_range].
  - apply bit_insert with b; [done..|]. intros k Hk.
    rewrite testbit_u8, Z.lor_spec, testbit_pow2 by lia. rw_true (k <? 8). cbn.
    destruct (k =? f mod 8); [apply orb_true_r|apply orb_false_r].
Qed.

Lemma bitmap_clear_spec bm f :
  0 <= f -> f / 8 < Z.of_nat (length bm) -> Forall is_u8 bm ->
  exists bm', bitmap_clear bm f = Some bm' /\ length bm' = length bm /\ Forall is_u8 bm' /\
    forall g, 0 <= g -> bit bm' g = if g =? f then false else bit bm g.
Proof.
  intros Hf Hl Hby. destruct (bitmap_index f Hf) as (E1 & E2 & E3).
  destruct (arr_get_byte bm f) as (b & Hb & Hb'); [done..|].
  assert (0 <= f / 8) by (apply Z.div_pos; lia).
  unfold bitmap_clear. rewrite E1, E2, Hb. cbn -[Z.pow]. rewrite arr_set_lt by lia.
  eexists. split; [done|]. split; [apply length_insert|]. split.
  - apply Forall_insert; [done|apply u8_range].
  - apply bit_insert with b; [done..|]. intros k Hk. unfold not8.
    rewrite testbit_u8, Z.land_spec, testbit_u8, Z.lnot_spec, testbit_pow2 by lia.
    rw_true (k <? 8). cbn. destruct (k =? f mod 8); [apply andb_false_r|apply andb_true_r].
Qed.

(** * Lemmas: the set of free frames *)

Lemma elem_of_free_set p f :
  f ∈ free_set p <-> 0 <= f < frame_count p /\ bit (bitmap p) f = false.
Proof.
  unfold free_set. rewrite elem_of_list_to_set, list_elem_of_filter, elem_of_seqZ.
  rewrite Z.add_0_l. tauto.
Qed.

Lemma size_all_frames n : 0 <= n -> Z.of_nat (size (list_to_set (seqZ 0 n) : gset Z)) = n.
Proof. intros Hn. rewrite size_list_to_set, length_seqZ by apply NoDup_seqZ. lia. Qed.

Lemma free_set_bounded p (s : gset Z) :
  0 < frame_count p -> (forall f, f ∈ s -> 0 <= f < frame_count p) ->
  Z.of_nat (size s) <= frame_count p.
Proof.
  intros Hn Hs. rewrite <- (size_all_frames (frame_count p)) at 1 by lia.
  apply Nat2Z.inj_le, subseteq_size. intros f Hf%Hs.
  apply elem_of_list_to_set, elem_of_seqZ. lia.
Qed.

Lemma free_frames_range p : pmm_wf p -> 0 <= free_frames p <= frame_count p.
Proof.
  intros W. rewrite (wf_free p W). split; [lia|].
  apply free_set_bounded; [apply W|]. intros f Hf%elem_of_free_set. tauto.
Qed.

Lemma frame_byte p f : pmm_wf p -> 0 <= f < frame_count p -> f / 8 < Z.of_nat (length (bitmap p)).
Proof.
  intros W Hf. pose proof (wf_storage p W). rewrite (wf_bytes p W) in *.
  Z.div_mod_to_equations. lia.
Qed.

Lemma bitmap_test_wf p f :
  pmm_wf p -> 0 <= f < frame_count p -> bitmap_test (bitmap p) f = Some (bit (bitmap p) f).
Proof. intros W Hf. apply bitmap_test_spec; [lia|by apply frame_byte]. Qed.

Lemma frame_count_u64 p : pmm_wf p -> frame_count p < 2 ^ 52.
Proof.
  intros W. pose proof (wf_max_u64 p W). rewrite (wf_max_phys p W) in *.
  unfold PMM_PAGE_SIZE in *. lia.
Qed.

(** [mark_frame_free] adds the frame to the free set and keeps the invariant. *)
Lemma mark_frame_free_spec p f :
  pmm_wf p -> 0 <= f ->
  exists p', mark_frame_free p f = Some p' /\ pmm_wf p' /\ same_geometry p p' /\
    free_set p' = if f <? frame_count p then {[f]} ∪ free_set p else free_set p.
Proof.
  intros W Hf. unfold mark_frame_free. destruct (Z.leb_spec (frame_count p) f).
  { exists p. rw_false (f <? frame_count p). unfold same_geometry. naive_solver. }
  rw_true (f <? frame_count p). rewrite bitmap_test_wf by (done || lia). cbn.
  destruct (bit (bitmap p) f) eqn:Hbit.
  2:{ exists p. unfold same_geometry. split_and!; auto.
      assert (f ∈ free_set p) by (apply elem_of_free_set; split; [lia|done]). set_solver. }
  assert (Hnot : f ∉ free_set p) by (intros [_ ?]%elem_of_free_set; congruence).
  destruct (bitmap_clear_spec (bitmap p) f) as (bm & Hbm & Hlen & Hby & Hbits);
    [lia | apply frame_byte; [done|lia] | apply W |].
  rewrite Hbm. cbn.
  assert (Hset : forall q, bitmap q = bm -> frame_count q = frame_count p ->
    free_set q = {[f]} ∪ free_set p).
  { intros q Hq Hc. apply set_eq. intros g.
    rewrite elem_of_union, elem_of_singleton, !elem_of_free_set, Hq, Hc.
    destruct (Z_lt_le_dec g 0); [lia|]. rewrite Hbits by lia.
    destruct (Z.eqb_spec g f) as [->|]; [intuition lia|intuition congruence]. }
  assert (Hsize : Z.of_nat (size ({[f]} ∪ free_set p)) = free_frames p + 1).
  { rewrite size_union, size_singleton by set_solver. rewrite (wf_free p W). lia. }
  assert (free_frames p + 1 <= frame_count p).
  { rewrite <- Hsize. apply free_set_bounded; [apply W|]. intros g.
    rewrite elem_of_union, elem_of_singleton, elem_of_free_set. lia. }
  pose proof (wf_used p W). pose proof (frame_count_u64 p W). pose proof (free_frames_range p W).
  pose proof (wf_hint p W) as Hhint. pose proof (wf_below_hint p W) as Hbelow.
  rw_true (0 <? used_frames p). cbn.
  destruct (Z.ltb_spec f (next_hint p)); eexists; (split; [done|]);
  repeat split; cbn; try apply W; auto;
    try (rewrite Hlen; apply W); try (erewrite Hset by done);
    rewrite ?u64_small by (unfold is_u64; lia); try lia;
    intros g [->%elem_of_singleton|Hg%Hbelow]%elem_of_union; lia.
Qed.

(** [mark_frame_used] removes the frame from the free set and keeps the invariant. *)
Lemma mark_frame_used_spec p f :
  pmm_wf p -> 0 <= f ->
  exists p', mark_frame_used p f = Some p' /\ pmm_wf p' /\ same_geometry p p' /\
    free_set p' = free_set p ∖ {[f]} /\ next_hint p' = next_hint p.
Proof.
  intros W Hf. unfold mark_frame_used. destruct (Z.leb_spec (frame_count p) f).
  { exists p. unfold same_geometry. split_and!; auto.
    assert (f ∉ free_set p) by (rewrite elem_of_free_set; lia). set_solver. }
  rewrite bitmap_test_wf by (done || lia). cbn.
  destruct (bit (bitmap p) f) eqn:Hbit; cbn.
  { exists p. unfold same_geometry. split_and!; auto.
    assert (f ∉ free_set p) by (intros [_ ?]%elem_of_free_set; congruence). set_solver. }
  assert (Hin : f ∈ free_set p) by (apply elem_of_free_set; split; [lia|done]).
  destruct (bitmap_set_spec (bitmap p) f) as (bm & Hbm & Hlen & Hby & Hbits);
    [lia | apply frame_byte; [done|lia] | apply W |].
  rewrite Hbm. cbn.
  assert (Hset : forall q, bitmap q = bm -> frame_count q = frame_count p ->
    free_set q = free_set p ∖ {[f]}).
  { intros q Hq Hc. apply set_eq. intros g.
    rewrite elem_of_difference, elem_of_singleton, !elem_of_free_set, Hq, Hc.
    destruct (Z_lt_le_dec g 0); [lia|]. rewrite Hbits by lia.
    destruct (Z.eqb_spec g f) as [->|]; intuition congruence. }
  assert (Hsize : Z.of_nat (size (free_set p ∖ {[f]})) = free_frames p - 1 /\ 0 < free_frames p).
  { assert (1 <= size (free_set p))%nat
      by (rewrite <- (size_singleton (C := gset Z) f); apply subseteq_size; set_solver).
    rewrite (wf_free p W), size_difference, size_singleton by set_solver. lia. }
  pose proof (wf_used p W). pose proof (frame_count_u64 p W). pose proof (free_frames_range p W).
  rw_true (0 <? free_frames p). eexists. split; [done|].
  pose proof (wf_hint p W). pose proof (wf_below_hint p W) as Hbelow.
  repeat split; cbn; try apply W; auto; try (rewrite Hlen; apply W); try (erewrite Hset by done);
    rewrite ?u64_small by (unfold is_u64; lia); try lia.
  intros g [Hg _]%elem_of_difference. auto.
Qed.

(** * Lemmas: ranges of frames *)

Lemma same_geometry_refl p : same_geometry p p.
Proof. unfold same_geometry. auto. Qed.

Lemma same_geometry_trans p q r : same_geometry p q -> same_geometry q r -> same_geometry p r.
Proof. unfold same_geometry. intuition congruence. Qed.

#[export] Hint Resolve same_geometry_refl same_geometry_trans : mcsos.

(** A loop over the addresses of the frames [a, b), whose body handles one frame. *)
Lemma frame_loop (body : Z -> pmm_state -> option pmm_state)
    (J : Z -> pmm_state -> Prop) p a b :
  pmm_wf p -> 0 <= a <= b -> b <= frame_count p -> J a p ->
  (forall k q, a <= k < b -> pmm_wf q -> same_geometry p q -> J k q ->
     exists q', body (k * PMM_PAGE_SIZE) q = Some q' /\ pmm_wf q' /\ same_geometry q q' /\ J (k + 1) q') ->
  exists p', for_loop (loop_fuel (a * PMM_PAGE_SIZE) (b * PMM_PAGE_SIZE) PMM_PAGE_SIZE)
      (a * PMM_PAGE_SIZE) (b * PMM_PAGE_SIZE) PMM_PAGE_SIZE body p = Some p' /\
    pmm_wf p' /\ same_geometry p p' /\ J b p'.
Proof.
  intros W Hab Hb HJ Hbody.
  pose proof (wf_max_u64 p W) as Hmax. rewrite (wf_max_phys p W) in Hmax.
  unfold PMM_PAGE_SIZE in *.
  destruct (for_loop_inv (fun i q => exists k, i = k * 4096 /\ a <= k <= b /\
      pmm_wf q /\ same_geometry p q /\ J k q) (b * 4096) 4096 body)
    with (fuel := loop_fuel (a * 4096) (b * 4096) 4096) (i := a * 4096) (s := p)
    as (i' & p' & Hrun & (k & -> & Hk & Wk & Gk & Jk) & Hge & _ & _).
  - lia.
  - lia.
  - intros i q Hi (k & -> & Hk & Wk & Gk & Jk).
    destruct (Hbody k q) as (q' & Hq' & Wq & Gq & Jq); [lia|done..|].
    exists q'. split; [done|]. exists (k + 1). split_and!; eauto with mcsos; lia.
  - lia.
  - by apply loop_fuel_enough.
  - exists a. split_and!; auto with mcsos; lia.
  - exists p'. assert (k = b) as -> by lia. done.
Qed.

Lemma free_frames_loop p a b :
  pmm_wf p -> 0 <= a <= b -> b <= frame_count p ->
  exists p', for_loop (loop_fuel (a * PMM_PAGE_SIZE) (b * PMM_PAGE_SIZE) PMM_PAGE_SIZE)
      (a * PMM_PAGE_SIZE) (b * PMM_PAGE_SIZE) PMM_PAGE_SIZE
      (fun addr p => mark_frame_free p (addr / PMM_PAGE_SIZE)) p = Some p' /\
    pmm_wf p' /\ same_geometry p p' /\
    forall f, f ∈ free_set p' <-> f ∈ free_set p \/ a <= f < b.
Proof.
  intros W Hab Hb.
  apply (frame_loop _ (fun k q => forall f, f ∈ free_set q <-> f ∈ free_set p \/ a <= f < k));
    [done..| intros f; intuition lia |].
  intros k q Hk Wq Gq Hq. unfold PMM_PAGE_SIZE. rewrite Z.div_mul by lia.
  destruct (mark_frame_free_spec q k) as (q' & Hrun & W' & G' & Hset); [done|lia|].
  exists q'. split_and!; auto. intros f. rewrite Hset.
  destruct Gq as [-> _]. rw_true (k <? frame_count p).
  rewrite elem_of_union, elem_of_singleton, Hq. intuition lia.
Qed.

(** [reserved_frames] takes no part in the invariant. *)
Lemma set_reserved_wf p v : pmm_wf p -> pmm_wf (set_reserved_frames p v).
Proof. intros W. split; try apply W. Qed.

Lemma set_ignored_wf p v : pmm_wf p -> pmm_wf (set_ignored_frames p v).
Proof. intros W. split; try apply W. Qed.

Lemma used_frames_loop p a b :
  pmm_wf p -> 0 <= a <= b -> b <= frame_count p ->
  exists p', for_loop (loop_fuel (a * PMM_PAGE_SIZE) (b * PMM_PAGE_SIZE) PMM_PAGE_SIZE)
      (a * PMM_PAGE_SIZE) (b * PMM_PAGE_SIZE) PMM_PAGE_SIZE
      (fun addr p =>
         used ← bitmap_test (bitmap p) (addr / PMM_PAGE_SIZE);
         let was_free := negb used in
         p ← mark_frame_used p (addr / PMM_PAGE_SIZE);
         Some (if was_free then set_reserved_frames p (u64 (reserved_frames p + 1)) else p)) p
      = Some p' /\
    pmm_wf p' /\ same_geometry p p' /\
    forall f, f ∈ free_set p' <-> f ∈ free_set p /\ ~ a <= f < b.
Proof.
  intros W Hab Hb.
  apply (frame_loop _ (fun k q => forall f, f ∈ free_set q <-> f ∈ free_set p /\ ~ a <= f < k));
    [done..| intros f; intuition lia |].
  intros k q Hk Wq Gq Hq. unfold PMM_PAGE_SIZE. rewrite Z.div_mul by lia.
  rewrite bitmap_test_wf by (auto; destruct Gq; lia). cbn.
  destruct (mark_frame_used_spec q k) as (q' & -> & W' & G' & Hset & _); [done|lia|]. cbn.
  eexists. split; [done|].
  assert (forall f, f ∈ free_set q' <-> f ∈ free_set p /\ ~ a <= f < k + 1)
    by (intros f; rewrite Hset, elem_of_difference, elem_of_singleton, Hq; intuition lia).
  destruct (negb _); split_and!; auto using set_reserved_wf.
Qed.

(** Marking the frames that lie inside a byte range. *)
Lemma mark_range_free_spec p base len :
  pmm_wf p -> 0 <= base -> 0 <= len -> base + len + PMM_PAGE_SIZE <= 2 ^ 64 ->
  exists p', mark_range_free p base len = Some p' /\ pmm_wf p' /\ same_geometry p p' /\
    forall f, f ∈ free_set p' <->
      f ∈ free_set p \/ (0 <= f < frame_count p /\ frame_inside base len f).
Proof.
  intros W Hb Hl Hend. unfold PMM_PAGE_SIZE in Hend.
  assert (Hnone : (forall f, 0 <= f < frame_count p -> ~ frame_inside base len f) ->
    exists p', Some p = Some p' /\ pmm_wf p' /\ same_geometry p p' /\
      forall f, f ∈ free_set p' <-> f ∈ free_set p \/ (0 <= f < frame_count p /\ frame_inside base len f))
    by (intros Hno; exists p; split_and!; auto with mcsos; intros f; specialize (Hno f); tauto).
  unfold mark_range_free. destruct (Z.eqb_spec len 0).
  { apply Hnone. unfold frame_inside, PMM_PAGE_SIZE. lia. }
  rewrite checked_add_spec by (unfold is_u64; lia). rw_true (base + len <? 2 ^ 64). cbn -[Z.mul].
  rewrite align_down_page by (unfold is_u64; lia). rewrite align_up_page by lia.
  pose proof (wf_max_phys p W) as Hmp. pose proof (wf_frames p W). unfold PMM_PAGE_SIZE in Hmp.
  set (a := (base + 4095) / 4096). set (b := (base + len) / 4096).
  assert (Hin : forall f, frame_inside base len f <-> a <= f < b)
    by (intros f; unfold frame_inside, PMM_PAGE_SIZE, a, b; Z.div_mod_to_equations; lia).
  assert (0 <= a) by (apply Z.div_pos; lia).
  destruct (Z.leb_spec (b * 4096) (a * 4096)); [apply Hnone; intros f; rewrite Hin; lia|].
  destruct (Z.leb_spec (max_phys p) (a * 4096)); [apply Hnone; intros f; rewrite Hin; lia|].
  destruct (Z.ltb_spec (max_phys p) (b * 4096)).
  - rewrite Hmp. change 4096 with PMM_PAGE_SIZE at 1 2 3 4.
    match goal with |- context [for_loop _ _ _ _ _ (set_ignored_frames p ?v)] =>
      destruct (free_frames_loop (set_ignored_frames p v) a (frame_count p))
        as (p' & Hrun & W' & G' & Hf) end; [by apply set_ignored_wf|lia|cbn; lia|].
    exists p'. split; [exact Hrun|]. split_and!; auto.
    intros f. rewrite Hf, Hin. change (free_set (set_ignored_frames p _)) with (free_set p). intuition lia.
  - destruct (free_frames_loop p a b) as (p' & Hrun & W' & G' & Hf); [done|lia|lia|].
    exists p'. split; [exact Hrun|]. split_and!; auto.
    intros f. rewrite Hf, Hin. intuition lia.
Qed.

(** Marking the frames that share a byte with a range. *)
Lemma mark_range_used_spec p base len :
  pmm_wf p -> 0 <= base -> 0 <= len -> base + len + PMM_PAGE_SIZE <= 2 ^ 64 ->
  exists p', mark_range_used p base len = Some p' /\ pmm_wf p' /\ same_geometry p p' /\
    forall f, f ∈ free_set p' <-> f ∈ free_set p /\ ~ frame_overlaps base len f.
Proof.
  intros W Hb Hl Hend. unfold PMM_PAGE_SIZE in Hend.
  assert (Hnone : (forall f, 0 <= f < frame_count p -> ~ frame_overlaps base len f) ->
    exists p', Some p = Some p' /\ pmm_wf p' /\ same_geometry p p' /\
      forall f, f ∈ free_set p' <-> f ∈ free_set p /\ ~ frame_overlaps base len f).
  { intros Hno. exists p. split_and!; auto with mcsos. intros f. specialize (Hno f).
    split; [|tauto]. intros Hf. pose proof Hf as []%elem_of_free_set. auto. }
  unfold mark_range_used. destruct (Z.eqb_spec len 0).
  { apply Hnone. unfold frame_overlaps. lia. }
  rewrite checked_add_spec by (unfold is_u64; lia). rw_true (base + len <? 2 ^ 64). cbn -[Z.mul].
  rewrite align_down_page by (unfold is_u64; lia). rewrite align_up_page by lia.
  pose proof (wf_max_phys p W) as Hmp. pose proof (wf_frames p W). unfold PMM_PAGE_SIZE in Hmp.
  set (a := base / 4096). set (b := (base + len + 4095) / 4096).
  assert (Hin : forall f, frame_overlaps base len f <-> a <= f < b)
    by (intros f; unfold frame_overlaps, PMM_PAGE_SIZE, a, b; Z.div_mod_to_equations; lia).
  assert (0 <= a) by (apply Z.div_pos; lia).
  destruct (Z.leb_spec (b * 4096) (a * 4096)); [apply Hnone; intros f; rewrite Hin; lia|].
  destruct (Z.leb_spec (max_phys p) (a * 4096)); [apply Hnone; intros f; rewrite Hin; lia|].
  set (c := Z.min b (frame_count p)).
  replace (if max_phys p <? b * 4096 then max_phys p else b * 4096) with (c * 4096)
    by (destruct (Z.ltb_spec (max_phys p) (b * 4096)); lia).
  destruct (used_frames_loop p a c) as (p' & Hrun & W' & G' & Hf); [done|lia|lia|].
  exists p'. split; [exact Hrun|]. split_and!; auto.
  intros f. rewrite Hf, Hin. pose proof (elem_of_free_set p f). intuition lia.
Qed.

(** * Lemmas: initialisation *)

Lemma bit_all_ones bm f :
  bm !! Z.to_nat (f / 8) = Some 0xff -> bit bm f = true.
Proof.
  intros H. unfold bit. rewrite H. change 0xff with (2 ^ 8 - 1).
  pose proof (Z.mod_pos_bound f 8). rewrite testbit_ones_low by lia. apply Z.ltb_lt. lia.
Qed.

Lemma init_all_used_spec storage n max_phys_bytes :
  0 < n -> max_phys_bytes = n * PMM_PAGE_SIZE -> max_phys_bytes < 2 ^ 64 ->
  (n + 7) / 8 <= Z.of_nat (length storage) -> Forall is_u8 storage ->
  exists p, init_all_used storage ((n + 7) / 8) n max_phys_bytes = Some p /\
    pmm_wf p /\ frame_count p = n /\ free_set p = ∅.
Proof.
  intros Hn Hmax Hlt Hst Hby. unfold init_all_used. unfold PMM_PAGE_SIZE in Hmax.
  assert (0 <= (n + 7) / 8) by (apply Z.div_pos; lia).
  assert (n < 2 ^ 52) by lia.
  destruct (for_loop_count (fun i bm => length bm = length storage /\ Forall is_u8 bm /\
      forall j, 0 <= j < i -> bm !! Z.to_nat j = Some 0xff)
      0 ((n + 7) / 8) (fun i bm => arr_set bm i 0xff) storage)
    as (bm & -> & Hlen & Hbm & Hff).
  - lia.
  - Z.div_mod_to_equations; lia.
  - split_and!; auto. lia.
  - intros i bm Hi (Hlen & Hbm & Hff). rewrite arr_set_lt by lia.
    eexists. split; [done|]. split_and!.
    + by rewrite length_insert.
    + apply Forall_insert; [done|]. unfold is_u8. lia.
    + intros j Hj. destruct (Z.eq_dec j i) as [->|].
      * apply list_lookup_insert_eq. lia.
      * rewrite list_lookup_insert_ne by lia. apply Hff. lia.
  - cbn. eexists. split; [done|].
    match goal with |- pmm_wf ?p /\ _ => assert (Hempty : free_set p = ∅) end.
    { apply set_eq. intros f. rewrite elem_of_free_set. cbn. split; [|set_solver].
      intros [Hf Hbit]. rewrite bit_all_ones in Hbit; [done|].
      apply Hff. Z.div_mod_to_equations; lia. }
    split_and!; auto. split; cbn; auto; try lia.
    + rewrite Hempty, size_empty. lia.
    + rewrite Hempty. set_solver.
Qed.

(** The two passes of the initialisation over the memory map. *)
Lemma mark_regions_spec select mark (R : boot_mem_region -> Z -> Prop)
    (combine : Prop -> Prop -> Prop) regions n p :
  (forall p r, pmm_wf p -> region_ok r ->
     exists p', mark p (region_base r) (region_length r) = Some p' /\ pmm_wf p' /\ same_geometry p p' /\
       forall f, f ∈ free_set p' <-> combine (f ∈ free_set p) (0 <= f < frame_count p /\ R r f)) ->
  (forall P Q Q' : Prop, combine (combine P Q) Q' <-> combine P (Q \/ Q')) ->
  (forall P P' Q Q' : Prop, (P <-> P') -> (Q <-> Q') -> (combine P Q <-> combine P' Q')) ->
  (forall P : Prop, combine P False <-> P) ->
  pmm_wf p -> Forall region_ok regions -> 0 <= n <= Z.of_nat (length regions) -> n < 2 ^ 64 ->
  exists p', mark_regions select mark regions n p = Some p' /\ pmm_wf p' /\ same_geometry p p' /\
    forall f, f ∈ free_set p' <->
      combine (f ∈ free_set p)
        (0 <= f < frame_count p /\
         exists r, r ∈ take (Z.to_nat n) regions /\ select r = true /\ R r f).
Proof.
  intros Hmark Hassoc Hcongr Hunit W Hok Hn Hw. unfold mark_regions.
  apply (for_loop_count (fun i q => pmm_wf q /\ same_geometry p q /\ forall f, f ∈ free_set q <->
      combine (f ∈ free_set p) (0 <= f < frame_count p /\
         exists r, r ∈ take (Z.to_nat i) regions /\ select r = true /\ R r f))).
  - lia.
  - lia.
  - split_and!; auto with mcsos. intros f.
    rewrite <- (Hunit (f ∈ free_set p)) at 1. apply Hcongr; [done|].
    rewrite take_0. split; [done|]. intros (_ & r & Hr & _). by apply not_elem_of_nil in Hr.
  - intros i q Hi (Wq & Gq & Hq).
    destruct (arr_get_lt regions i) as [r Hr]; [lia|]. rewrite Hr. cbn.
    apply arr_get_Some in Hr as [_ Hr].
    assert (Htake : take (Z.to_nat (i + 1)) regions = take (Z.to_nat i) regions ++ [r])
      by (replace (Z.to_nat (i + 1)) with (S (Z.to_nat i)) by lia; by apply take_S_r).
    destruct (select r) eqn:Esel.
    + destruct (Hmark q r) as (q' & -> & Wq' & Gq' & Hq'); [done|by eapply Forall_lookup_1|].
      exists q'. split_and!; eauto with mcsos. intros f. rewrite Hq'.
      destruct Gq as [-> _]. rewrite (Hcongr _ _ _ _ (Hq f) (iff_refl _)), Hassoc.
      apply Hcongr; [done|]. rewrite Htake. setoid_rewrite elem_of_app. setoid_rewrite list_elem_of_singleton.
      naive_solver.
    + exists q. split_and!; auto. intros f. rewrite Hq. apply Hcongr; [done|].
      rewrite Htake. setoid_rewrite elem_of_app. setoid_rewrite list_elem_of_singleton.
      naive_solver congruence.
Qed.

Lemma usable_pass regions n p :
  pmm_wf p -> Forall region_ok regions -> 0 <= n <= Z.of_nat (length regions) -> n < 2 ^ 64 ->
  exists p', mark_regions is_usable mark_range_free regions n p = Some p' /\ pmm_wf p' /\
    same_geometry p p' /\ forall f, f ∈ free_set p' <->
      f ∈ free_set p \/ (0 <= f < frame_count p /\
        exists r, r ∈ take (Z.to_nat n) regions /\ is_usable r = true /\
          frame_inside (region_base r) (region_length r) f).
Proof.
  apply (mark_regions_spec is_usable mark_range_free
    (fun r f => frame_inside (region_base r) (region_length r) f) or); try tauto.
  intros q r W (Hb & Hl & He). by apply mark_range_free_spec.
Qed.

Lemma reserved_pass regions n p :
  pmm_wf p -> Forall region_ok regions -> 0 <= n <= Z.of_nat (length regions) -> n < 2 ^ 64 ->
  exists p', mark_regions not_usable mark_range_used regions n p = Some p' /\ pmm_wf p' /\
    same_geometry p p' /\ forall f, f ∈ free_set p' <->
      f ∈ free_set p /\ ~ (0 <= f < frame_count p /\
        exists r, r ∈ take (Z.to_nat n) regions /\ not_usable r = true /\
          frame_overlaps (region_base r) (region_length r) f).
Proof.
  apply (mark_regions_spec not_usable mark_range_used
    (fun r f => frame_overlaps (region_base r) (region_length r) f) (fun P Q => P /\ ~ Q)); try tauto.
  intros q r W (Hb & Hl & He).
  destruct (mark_range_used_spec q (region_base r) (region_length r)) as (q' & ? & ? & ? & Hf);
    [done..|].
  exists q'. split_and!; auto. intros f. rewrite Hf. pose proof (elem_of_free_set q f). tauto.
Qed.

(** The body of [pmm_init_from_map] once its argument checks have passed. *)
Lemma init_passes regions n storage frames max_phys_bytes :
  0 < frames -> max_phys_bytes = frames * PMM_PAGE_SIZE -> max_phys_bytes < 2 ^ 64 ->
  (frames + 7) / 8 <= Z.of_nat (length storage) -> Forall is_u8 storage ->
  Forall region_ok regions -> 0 <= n <= Z.of_nat (length regions) -> n < 2 ^ 64 ->
  exists p,
    (p ← init_all_used storage ((frames + 7) / 8) frames max_phys_bytes;
     p ← mark_regions is_usable mark_range_free regions n p;
     p ← mark_range_used p 0 PMM_PAGE_SIZE;
     mark_regions not_usable mark_range_used regions n p) = Some p /\
    pmm_wf p /\ frame_count p = frames /\
    forall f, f ∈ free_set p <-> 0 < f < frames /\ frame_available regions n f.
Proof.
  intros Hf Hmax Hlt Hst Hby Hok Hn Hw.
  destruct (init_all_used_spec storage frames max_phys_bytes) as (p0 & -> & W0 & C0 & F0); [done..|].
  destruct (usable_pass regions n p0) as (p1 & E1 & W1 & G1 & F1); [done..|].
  destruct (mark_range_used_spec p1 0 PMM_PAGE_SIZE) as (p2 & E2 & W2 & G2 & F2);
    [done|unfold PMM_PAGE_SIZE; lia..|].
  destruct (reserved_pass regions n p2) as (p3 & E3 & W3 & G3 & F3); [done..|].
  exists p3. unfold mbind, option_bind. rewrite E1, E2, E3. split; [done|]. split; [done|].
  destruct G1 as [G1 _], G2 as [G2 _], G3 as [G3 _]. split; [congruence|].
  intros f. rewrite F3, F2, F1, F0, G2, G1, C0. unfold frame_available, is_usable, not_usable.
  setoid_rewrite negb_true_iff. setoid_rewrite Z.eqb_eq. setoid_rewrite Z.eqb_neq.
  assert (frame_overlaps 0 PMM_PAGE_SIZE f <-> f = 0 \/ f < 0 /\ -1 < f)
    as -> by (unfold frame_overlaps, PMM_PAGE_SIZE; lia).
  split.
  - intros [[[Hno|[Hr Hu]] Hz] Hnr]; [set_solver|]. split; [lia|]. split; [done|].
    intros r Hin Ht Ho. apply Hnr. split; [lia|]. eauto.
  - intros [Hr [Hu Hnr]]. split; [split; [right; split; [lia|done]|lia]|].
    intros (_ & r & Hin & Ht & Ho). by eapply Hnr.
Qed.

(** * Lemmas: allocation *)

Lemma alloc_scan_spec p : pmm_wf p -> forall fuel frame limit,
  0 <= frame -> limit <= frame_count p -> limit - frame <= Z.of_nat fuel ->
  exists r, alloc_scan fuel frame limit p = Some r /\
    match r with
    | None => forall f, f ∈ free_set p -> frame <= f < limit -> False
    | Some (a, p') => exists f p1, f ∈ free_set p /\ frame <= f < limit /\
        (forall g, g ∈ free_set p -> frame <= g -> f <= g) /\
        mark_frame_used p f = Some p1 /\
        a = f * PMM_PAGE_SIZE /\ p' = set_next_hint p1 (f + 1)
    end.
Proof.
  intros W. pose proof (frame_count_u64 p W) as Hc.
  induction fuel as [|fuel IH]; intros frame limit H0 Hlim Hfuel; cbn.
  { rw_false (frame <? limit). exists None. split; [done|]. intros f _. lia. }
  destruct (Z.ltb_spec frame limit).
  2:{ exists None. split; [done|]. intros f _. lia. }
  rewrite bitmap_test_wf by (done || lia). cbn.
  destruct (bit (bitmap p) frame) eqn:Hbit; cbn.
  - rewrite u64_small by (unfold is_u64; lia).
    destruct (IH (frame + 1) limit) as (r & Hr & Hcase); [lia..|]. exists r. split; [done|].
    assert (Hno : forall g, g ∈ free_set p -> frame <= g -> frame + 1 <= g).
    { intros g [_ Hg]%elem_of_free_set Hle. destruct (Z.eq_dec g frame) as [->|]; [congruence|lia]. }
    destruct r as [[a p']|].
    + destruct Hcase as (f & p1 & Hf & Hb & Hmin & Hrest). exists f, p1.
      split_and!; try tauto; try lia. intros g Hg Hle. apply Hmin; auto.
    + intros f Hf Hb. apply (Hcase f); auto. specialize (Hno f Hf). lia.
  - destruct (mark_frame_used_spec p frame) as (p1 & Hp1 & W1 & G1 & Hset & Hhint); [done|lia|].
    rewrite Hp1. cbn. eexists. split; [done|]. cbn. exists frame, p1.
    pose proof (wf_max_phys p W). pose proof (wf_max_u64 p W). unfold PMM_PAGE_SIZE in *.
    rewrite !u64_small by (unfold is_u64; lia). split_and!; auto; try lia.
    apply elem_of_free_set. split; [lia|done].
Qed.

(** After the lowest free frame has been taken, the hint may skip past it. *)
Lemma set_next_hint_wf p f :
  pmm_wf p -> 0 <= f < frame_count p -> (forall g, g ∈ free_set p -> f < g) ->
  pmm_wf (set_next_hint p (f + 1)).
Proof.
  intros W Hf Hg. split; cbn; try apply W; [lia|].
  change (free_set (set_next_hint p (f + 1))) with (free_set p). intros g Hg'%Hg. lia.
Qed.

Lemma page_offset a : Z.land a (PMM_PAGE_SIZE - 1) = a mod 4096.
Proof. change (PMM_PAGE_SIZE - 1) with (2 ^ 12 - 1). by rewrite land_low by lia. Qed.

(** The whole of [pmm_init_from_map] on a well-formed map. *)
Lemma init_ready pmm regions n storage storage_bytes frames :
  0 < frames -> frames * PMM_PAGE_SIZE < 2 ^ 64 ->
  (frames + 7) / 8 <= storage_bytes -> storage_bytes <= Z.of_nat (length storage) ->
  Forall is_u8 storage -> Forall region_ok regions ->
  0 < n <= Z.of_nat (length regions) -> n < 2 ^ 64 ->
  exists p,
    pmm_init_from_map (Ref pmm) (Ref regions) n (Ref storage) storage_bytes (frames * PMM_PAGE_SIZE)
      = Some (true, Ref p) /\
    pmm_ready p /\ frame_count p = frames /\
    forall f, f ∈ free_set p <-> 0 < f < frames /\ frame_available regions n f.
Proof.
  intros Hf Hmax Hb Hst Hby Hok Hn Hw.
  destruct (init_passes regions n storage frames (frames * PMM_PAGE_SIZE)) as (p & Hp & W & Hc & Hset);
    [done..| lia | done | done | lia | done |].
  exists (set_initialized p true).
  unfold pmm_init_from_map. rewrite page_offset. unfold PMM_PAGE_SIZE in *.
  rewrite Z.mod_mul, Z.div_mul by lia. rw_false (n =? 0). rw_false (frames * 4096 =? 0).
  cbn -[init_all_used Z.mul mark_range_used]. rewrite u64_small by (unfold is_u64; lia).
  rw_false (storage_bytes <? (frames + 7) / 8).
  split.
  - destruct (init_all_used _ _ _ _) as [p0|]; [|done]. cbn -[mark_range_used] in *.
    destruct (mark_regions is_usable _ _ _ _) as [p1|]; [|done]. cbn -[mark_range_used] in *.
    destruct (mark_range_used _ _ _) as [p2|]; [|done]. cbn in *. by rewrite Hp.
  - change (free_set (set_initialized p true)) with (free_set p).
    split_and!; auto. split_and!; [split; try apply W | done |].
    change (free_set (set_initialized p true)) with (free_set p). rewrite Hset. lia.
Qed.

Lemma alloc_refines p :
  pmm_ready p ->
  exists r p', pmm_exec p OpAlloc = Some (r, p') /\ pmm_ready p' /\ same_geometry p p' /\
    frames_step (frame_count p) (free_set p) OpAlloc r (free_set p').
Proof.
  intros (W & Hi & Hz). unfold pmm_exec, pmm_alloc_frame. rewrite Hi. cbn -[alloc_scan].
  pose proof (wf_free p W) as Hfree.
  destruct (Z.eqb_spec (free_frames p) 0) as [E|E].
  { assert (Hempty : free_set p = ∅) by (apply leibniz_equiv, size_empty_iff; lia).
    cbn. exists (RAddr PMM_INVALID_FRAME), p. split_and!; auto with mcsos.
    - done.
    - rewrite Hempty. constructor. }
  pose proof (wf_hint p W). pose proof (wf_below_hint p W) as Hbelow.
  destruct (alloc_scan_spec p W (loop_fuel (next_hint p) (frame_count p) 1) (next_hint p) (frame_count p))
    as (r & -> & Hr); [lia|lia|pose proof (loop_fuel_enough (next_hint p) (frame_count p) 1); lia|].
  cbn -[alloc_scan]. destruct r as [[a p']|].
  - destruct Hr as (f & p1 & Hf & Hb & Hmin & Hp1 & -> & ->).
    destruct (mark_frame_used_spec p f) as (p1' & Hp1' & W1 & G1 & Hset & _); [done|lia|].
    simplify_eq. cbn -[alloc_scan].
    exists (RAddr (f * PMM_PAGE_SIZE)), (set_next_hint p1 (f + 1)). split; [done|].
    change (free_set (set_next_hint p1 (f + 1))) with (free_set p1).
    assert (Hf0 : 0 <= f < frame_count p) by lia.
    split; [split_and!|split].
    + apply set_next_hint_wf; [done| destruct G1; lia |]. rewrite Hset.
      intros g [Hg Hne]%elem_of_difference. specialize (Hmin g Hg (Hbelow g Hg)).
      assert (g <> f) by set_solver. lia.
    + cbn. destruct G1 as (_ & _ & _ & ->). done.
    + change (free_set (set_next_hint p1 (f + 1))) with (free_set p1). rewrite Hset. set_solver.
    + exact G1.
    + rewrite Hset. constructor; auto.
  - exfalso. destruct (set_choose_or_empty (free_set p)) as [[f Hf]|Hempty].
    + apply (Hr f Hf). split; [auto|]. apply elem_of_free_set in Hf. lia.
    + apply E. rewrite Hfree. apply size_empty_iff in Hempty. lia.
Qed.

Lemma free_refines p a :
  pmm_ready p -> is_u64 a ->
  exists r p', pmm_exec p (OpFree a) = Some (r, p') /\ pmm_ready p' /\ same_geometry p p' /\
    frames_step (frame_count p) (free_set p) (OpFree a) r (free_set p').
Proof.
  intros (W & Hi & Hz) Ha. unfold pmm_exec, pmm_free_frame. rewrite Hi, page_offset. cbn -[Z.div Z.modulo].
  pose proof (wf_max_phys p W) as Hmax. unfold PMM_PAGE_SIZE in Hmax. unfold is_u64 in Ha.
  assert (Hrefuse : ~ allocated (frame_count p) (free_set p) a ->
    exists r p', Some (RBool false, p) = Some (r, p') /\ pmm_ready p' /\ same_geometry p p' /\
      frames_step (frame_count p) (free_set p) (OpFree a) r (free_set p')).
  { intros Hna. exists (RBool false), p. split_and!; auto with mcsos; [done|]. by constructor. }
  assert (a mod 4096 = 0 -> a = a / 4096 * 4096) by (pose proof (Z.div_mod a 4096); lia).
  destruct (negb (a mod 4096 =? 0) || (a =? 0) || (max_phys p <=? a)) eqn:E; bool_to_prop.
  { apply Hrefuse. intros (f & -> & Hf & _). unfold PMM_PAGE_SIZE in E.
    rewrite Z.mod_mul in E by lia. cbn in E. bool_to_prop. destruct E as [E|E]; bool_to_prop; lia. }
  assert (Hf : 0 < a / 4096 < frame_count p) by lia.
  change PMM_PAGE_SIZE with 4096.
  rewrite bitmap_test_wf by (done || lia). cbn -[Z.div].
  destruct (bit (bitmap p) (a / 4096)) eqn:Hbit; cbn -[Z.div].
  - destruct (mark_frame_free_spec p (a / 4096)) as (p' & -> & W' & G' & Hset); [done|lia|].
    cbn. exists (RBool true), p'. split; [done|].
    rewrite Hset. rw_true (a / 4096 <? frame_count p).
    split; [split_and!; [done| destruct G' as (_ & _ & _ & ->); done | rewrite Hset]|split; [done|]].
    + rw_true (a / 4096 <? frame_count p). set_unfold. intros [?|?]; [lia|done].
    + replace (OpFree a) with (OpFree (a / 4096 * PMM_PAGE_SIZE)) by (unfold PMM_PAGE_SIZE; f_equal; lia).
      constructor; [lia|]. rewrite elem_of_free_set. intros [_ ?]. congruence.
  - apply Hrefuse. intros (f & Hfa & Hf' & Hn). apply Hn, elem_of_free_set.
    assert (f = a / 4096) as -> by (subst a; unfold PMM_PAGE_SIZE; rewrite Z.div_mul; lia).
    split; [lia|done].
Qed.

(** A range that ends in the last page or beyond is skipped. *)
Lemma reserve_top p b len :
  initialized p = true -> is_u64 b -> is_u64 len -> 0 < len -> 2 ^ 64 - PMM_PAGE_SIZE < b + len ->
  pmm_reserve_range (Ref p) b len = Some (true, Ref p).
Proof.
  intros Hi Hb Hl Hpos Htop. unfold PMM_PAGE_SIZE in Htop. unfold is_u64 in *.
  unfold pmm_reserve_range. rewrite Hi. rw_false (len =? 0). cbn -[mark_range_used].
  unfold mark_range_used. rw_false (len =? 0). rewrite checked_add_spec by (unfold is_u64; lia).
  destruct (Z.ltb_spec (b + len) (2 ^ 64)); [|done]. cbn.
  assert (align_up (b + len) PMM_PAGE_SIZE = 0) as ->.
  { unfold align_up, PMM_PAGE_SIZE.
    replace (u64 (b + len + 4096 - 1)) with (b + len + 4095 - 2 ^ 64) by (unfold u64; Z.div_mod_to_equations; lia).
    fold PMM_PAGE_SIZE. change (Z.land ?v (not64 _)) with (align_down v PMM_PAGE_SIZE).
    rewrite align_down_page by (unfold is_u64; lia). Z.div_mod_to_equations; lia. }
  rewrite align_down_page by (unfold is_u64; lia).
  assert (0 <= b / 4096 * 4096) by (pose proof (Z.div_pos b 4096); lia).
  by rw_true (0 <=? b / 4096 * 4096).
Qed.

Lemma reserve_refines p b len :
  pmm_ready p -> op_ok (OpReserve b len) ->
  exists r p', pmm_exec p (OpReserve b len) = Some (r, p') /\ pmm_ready p' /\ same_geometry p p' /\
    frames_step (frame_count p) (free_set p) (OpReserve b len) r (free_set p').
Proof.
  intros Hp (Hb & Hl). pose proof Hp as (W & Hi & Hz). destruct (Z.eqb_spec len 0) as [->|Hn].
  { exists (RBool false), p. unfold pmm_exec, pmm_reserve_range. rewrite Hi. cbn. split_and!; auto with mcsos; constructor. }
  destruct (Z.leb_spec (b + len + PMM_PAGE_SIZE) (2 ^ 64)) as [He|He]; unfold pmm_exec; unfold is_u64 in *.
  2:{ rewrite reserve_top by (done || unfold is_u64; lia). exists (RBool true), p. split_and!; auto with mcsos. apply FS_reserve_top; lia. }
  unfold pmm_reserve_range. rewrite Hi. rw_false (len =? 0). cbn -[mark_range_used].
  destruct (mark_range_used_spec p b len) as (p' & -> & W' & G' & Hset); [done || lia..|].
  exists (RBool true), p'. split; [done|].
  split; [split_and!; [done| destruct G' as (_ & _ & _ & ->); done |]|split; [done|]].
  - rewrite Hset. tauto.
  - constructor; [lia|lia|done].
Qed.

Lemma exec_refines p op :
  pmm_ready p -> op_ok op ->
  exists r p', pmm_exec p op = Some (r, p') /\ pmm_ready p' /\ same_geometry p p' /\
    frames_step (frame_count p) (free_set p) op r (free_set p').
Proof. destruct op; eauto using alloc_refines, free_refines, reserve_refines. Qed.

Lemma run_refines ops : forall p,
  pmm_ready p -> Forall op_ok ops ->
  exists rs p', pmm_run p ops = Some (rs, p') /\ pmm_ready p' /\ length rs = length ops.
Proof.
  induction ops as [|op ops IH]; intros p Hp Hok; cbn.
  { exists [], p. auto. }
  apply Forall_cons in Hok as [Hop Hok].
  destruct (exec_refines p op) as (r & p1 & -> & Hp1 & _ & _); [done..|]. cbn.
  destruct (IH p1) as (rs & p2 & -> & Hp2 & Hlen); [done..|].
  exists (r :: rs), p2. cbn. auto.
Qed.

(** Inversion of the abstract steps. *)
Lemma alloc_step_inv n F r F' :
  frames_step n F OpAlloc r F' ->
  (F = ∅ /\ F' = ∅ /\ r = RAddr PMM_INVALID_FRAME) \/
  exists f, f ∈ F /\ (forall g, g ∈ F -> f <= g) /\ r = RAddr (f * PMM_PAGE_SIZE) /\ F' = F ∖ {[f]}.
Proof. inversion 1; subst; eauto 10. Qed.

Lemma free_step_inv n F a r F' :
  frames_step n F (OpFree a) r F' ->
  (~ allocated n F a /\ F' = F /\ r = RBool false) \/
  exists f, a = f * PMM_PAGE_SIZE /\ 0 < f < n /\ (f ∉ F) /\ r = RBool true /\ F' = {[f]} ∪ F.
Proof. inversion 1; subst; eauto 10. Qed.

(** The results of [pmm_exec] are those of the C functions. *)
Lemma pmm_exec_alloc p a p' :
  pmm_exec p OpAlloc = Some (RAddr a, p') <-> pmm_alloc_frame (Ref p) = Some (a, Ref p').
Proof.
  unfold pmm_exec. destruct (pmm_alloc_frame (Ref p)) as [[b [|q]]|]; cbn; naive_solver.
Qed.

Lemma pmm_exec_free p a b p' :
  pmm_exec p (OpFree a) = Some (RBool b, p') <-> pmm_free_frame (Ref p) a = Some (b, Ref p').
Proof.
  unfold pmm_exec. destruct (pmm_free_frame (Ref p) a) as [[c [|q]]|]; cbn; naive_solver.
Qed.

(** A frame that is not free stays so as long as it is not freed. *)
Lemma frames_step_keeps n F op r F' f :
  frames_step n F op r F' -> f ∉ F ->
  ~ (op = OpFree (f * PMM_PAGE_SIZE) /\ r = RBool true) -> f ∉ F'.
Proof.
  intros H Hf Hno. destruct H; set_solver.
Qed.

(** An allocated frame is returned again only after it has been freed. *)
Lemma run_realloc ops : forall p rs p' f j,
  pmm_ready p -> Forall op_ok ops -> pmm_run p ops = Some (rs, p') ->
  f ∉ free_set p -> f < frame_count p -> ops !! j = Some OpAlloc -> rs !! j = Some (RAddr (f * PMM_PAGE_SIZE)) ->
  exists k, (k < j)%nat /\ ops !! k = Some (OpFree (f * PMM_PAGE_SIZE)) /\ rs !! k = Some (RBool true).
Proof.
  induction ops as [|op ops IH]; intros p rs p' f j Hp Hok Hrun Hf Hfn Hop Hr; [done|].
  apply Forall_cons in Hok as [Hop1 Hok]. cbn in Hrun.
  destruct (exec_refines p op) as (r & p1 & Hex & Hp1 & Hg & Hstep); [done..|].
  rewrite Hex in Hrun. cbn in Hrun.
  destruct (pmm_run p1 ops) as [[rs1 p2]|] eqn:Hrun1; [|done]. cbn in Hrun. simplify_eq.
  destruct j as [|j]; cbn in Hop, Hr.
  - simplify_eq. apply alloc_step_inv in Hstep as [(_ & _ & [= E])|(g & Hg1 & _ & [= E] & _)].
    2:{ assert (g = f) by (unfold PMM_PAGE_SIZE in *; lia). subst. done. }
    + pose proof (frame_count_u64 p (proj1 Hp)). unfold PMM_INVALID_FRAME, PMM_PAGE_SIZE in *. lia.
  - destruct (decide (op = OpFree (f * PMM_PAGE_SIZE) /\ r = RBool true)) as [[-> ->]|Hno].
    + exists 0%nat. cbn. split_and!; auto. lia.
    + destruct (IH p1 rs1 p' f j) as (k & Hk & Hk1 & Hk2); auto.
      * eapply frames_step_keeps; eauto.
      * destruct Hg as [-> _]. done.
      * exists (S k). cbn. split_and!; auto. lia.
Qed.

(** * Properties *)

(** A map of sixteen frames, used to instantiate the hypotheses below. *)
Definition demo_regions : list boot_mem_region :=
  [mk_region 0 0x8000 BOOT_MEM_USABLE; mk_region 0x5800 0x1000 BOOT_MEM_RESERVED;
   mk_region 0x9800 0x5000 BOOT_MEM_USABLE].

Definition demo_pmm : pmm_state :=
  Eval vm_compute in
    match pmm_init_from_map (Ref zero_state) (Ref demo_regions) 3 (Ref [0; 0]) 2 0x10000 with
    | Some (_, Ref p) => p
    | _ => zero_state
    end.

(** The same manager after one allocation. *)
Definition demo_pmm_1 : pmm_state :=
  Eval vm_compute in match pmm_alloc_frame (Ref demo_pmm) with Some (_, Ref p) => p | _ => demo_pmm end.

Lemma demo_regions_ok : Forall region_ok demo_regions.
Proof. unfold demo_regions. forall_cons; unfold region_ok, PMM_PAGE_SIZE; cbn; lia. Qed.

Lemma demo_storage_ok : Forall is_u8 [0; 0].
Proof. forall_cons; unfold is_u8; lia. Qed.

(** [pmm_init_from_map], on a map whose entries end below the last page of the
    address space, never reads or writes out of bounds, returns true, establishes the
    invariant (counters equal to the number of clear bits, hint below every free
    frame, frame 0 unavailable), and leaves free exactly the frames other than
    frame 0 that lie wholly inside a usable entry and share no byte with an entry
    of any other type. *)
Theorem pmm_init_from_map_exact pmm regions n storage storage_bytes frames :
  0 < frames -> frames * PMM_PAGE_SIZE < 2 ^ 64 ->
  (frames + 7) / 8 <= storage_bytes -> storage_bytes <= Z.of_nat (length storage) ->
  Forall is_u8 storage -> Forall region_ok regions ->
  0 < n <= Z.of_nat (length regions) -> n < 2 ^ 64 ->
  exists p,
    pmm_init_from_map (Ref pmm) (Ref regions) n (Ref storage) storage_bytes (frames * PMM_PAGE_SIZE)
      = Some (true, Ref p) /\
    pmm_ready p /\ frame_count p = frames /\
    forall f, f ∈ free_set p <-> 0 < f < frames /\ frame_available regions n f.
Proof. apply init_ready. Qed.

Lemma demo_pmm_ready : pmm_ready demo_pmm /\
  forall f, f ∈ free_set demo_pmm <-> 0 < f < 16 /\ frame_available demo_regions 3 f.
Proof.
  destruct (init_passes demo_regions 3 [0; 0] 16 0x10000) as (p & Hp & W & Hc & Hset);
    [lia | reflexivity | lia | by vm_compute | apply demo_storage_ok | apply demo_regions_ok | cbn; lia | lia |].
  vm_compute in Hp. injection Hp as <-.
  split; [|exact Hset]. split_and!; [split; try apply W | done |].
  intros Hin. apply (Hset 0) in Hin. lia.
Qed.

Lemma pmm_init_from_map_exact_witness :
  exists p,
    pmm_init_from_map (Ref zero_state) (Ref demo_regions) 3 (Ref [0; 0]) 2 (16 * PMM_PAGE_SIZE)
      = Some (true, Ref p) /\
    pmm_ready p /\ frame_count p = 16 /\
    forall f, f ∈ free_set p <-> 0 < f < 16 /\ frame_available demo_regions 3 f.
Proof.
  apply (pmm_init_from_map_exact zero_state demo_regions 3 [0; 0] 2 16);
    [lia | unfold PMM_PAGE_SIZE; lia | by vm_compute | by vm_compute | apply demo_storage_ok
    | apply demo_regions_ok | cbn; lia | lia].
Defined.

(** The argument checks of [pmm_init_from_map]: with a null pointer, no entry, a
    size that is zero or not a multiple of the page size, or a bitmap too small for
    one bit per frame, it returns false and leaves the manager as it was. *)
Theorem pmm_init_from_map_rejects pmm regions n storage storage_bytes max_phys_bytes :
  0 <= max_phys_bytes < 2 ^ 64 ->
  pmm = NULL \/ regions = NULL \/ storage = NULL \/ n = 0 \/ max_phys_bytes = 0 \/
    max_phys_bytes mod PMM_PAGE_SIZE <> 0 \/
    storage_bytes < (max_phys_bytes / PMM_PAGE_SIZE + 7) / 8 ->
  pmm_init_from_map pmm regions n storage storage_bytes max_phys_bytes = Some (false, pmm).
Proof.
  intros Hm H. unfold pmm_init_from_map. destruct pmm as [|p]; [done|].
  destruct regions as [|regions]; [done|]. destruct storage as [|storage]; [done|].
  destruct (Z.eqb_spec n 0); [done|]. rewrite page_offset. unfold PMM_PAGE_SIZE in *.
  destruct (Z.eqb_spec max_phys_bytes 0); [done|].
  destruct (Z.eqb_spec (max_phys_bytes mod 4096) 0) as [E|E]; [|done].
  cbn -[init_all_used Z.div mark_range_used].
  assert (0 <= max_phys_bytes / 4096 < 2 ^ 52) by (Z.div_mod_to_equations; lia).
  rewrite u64_small by (unfold is_u64; lia).
  destruct (Z.ltb_spec storage_bytes ((max_phys_bytes / 4096 + 7) / 8)); [done|].
  intuition (congruence || lia).
Qed.

Lemma pmm_init_from_map_rejects_witness :
  pmm_init_from_map (Ref zero_state) (Ref demo_regions) 3 (Ref [0]) 1 0x10000
    = Some (false, Ref zero_state).
Proof. apply pmm_init_from_map_rejects; [lia|]. do 6 right. by vm_compute. Defined.

(** C3. Refinement: on an initialised manager every call of [pmm_alloc_frame],
    [pmm_free_frame] and [pmm_reserve_range] terminates without an out-of-bounds
    access, keeps the invariant, and acts on the set of free frames as the abstract
    machine does: allocation returns the lowest free frame and fails only when none
    is left; freeing succeeds exactly on the address of a frame in use other than
    frame 0, so double frees, misaligned and out-of-range addresses are refused;
    reserving a range that ends below the last page of the address space removes exactly the overlapping frames, and a
    range that ends there or wraps is reported as reserved although nothing changes. *)
Theorem pmm_refines_frames p op :
  pmm_ready p -> op_ok op ->
  exists r p', pmm_exec p op = Some (r, p') /\ pmm_ready p' /\ frame_count p' = frame_count p /\
    frames_step (frame_count p) (free_set p) op r (free_set p').
Proof.
  intros Hp Hop. destruct (exec_refines p op Hp Hop) as (r & p' & H & Hp' & [Hg _] & Hs).
  eauto 10.
Qed.

Lemma pmm_refines_frames_witness :
  exists r p', pmm_exec demo_pmm OpAlloc = Some (r, p') /\ pmm_ready p' /\
    frame_count p' = frame_count demo_pmm /\
    frames_step (frame_count demo_pmm) (free_set demo_pmm) OpAlloc r (free_set p').
Proof. apply pmm_refines_frames; [apply demo_pmm_ready|exact I]. Defined.

(** C19. No frame is handed out twice: in every run of public calls, if two allocations
    return the same address then a successful free of that address lies between them. *)
Theorem pmm_no_double_alloc p ops rs p' i j f :
  pmm_ready p -> Forall op_ok ops -> pmm_run p ops = Some (rs, p') -> (i < j)%nat ->
  ops !! i = Some OpAlloc -> ops !! j = Some OpAlloc ->
  rs !! i = Some (RAddr (f * PMM_PAGE_SIZE)) -> rs !! j = Some (RAddr (f * PMM_PAGE_SIZE)) ->
  exists k, (i < k < j)%nat /\ ops !! k = Some (OpFree (f * PMM_PAGE_SIZE)) /\
    rs !! k = Some (RBool true).
Proof.
  revert p rs i j. induction ops as [|op ops IH]; intros p rs i j Hp Hok Hrun Hij Hi Hj Hri Hrj; [done|].
  apply Forall_cons in Hok as [Hop Hok]. cbn in Hrun.
  destruct (exec_refines p op) as (r & p1 & Hex & Hp1 & Hg & Hstep); [done..|].
  rewrite Hex in Hrun. cbn in Hrun.
  destruct (pmm_run p1 ops) as [[rs1 p2]|] eqn:Hrun1; [|done]. cbn in Hrun. simplify_eq.
  destruct j as [|j]; [lia|]. cbn in Hj, Hrj. destruct i as [|i]; cbn in Hi, Hri.
  - simplify_eq. assert (Hnf : (f ∉ free_set p1) /\ f < frame_count p).
    { apply alloc_step_inv in Hstep as [(_ & _ & [= E])|(g & Hg1 & _ & [= E] & ->)].
      - unfold PMM_INVALID_FRAME, PMM_PAGE_SIZE in *. lia.
      - assert (g = f) as -> by (unfold PMM_PAGE_SIZE in *; lia). split; [set_solver|].
        apply elem_of_free_set in Hg1. lia. }
    destruct (run_realloc ops p1 rs1 p' f j) as (k & Hk & Hk1 & Hk2); try tauto.
    { destruct Hg as [-> _]. tauto. }
    exists (S k). cbn. split_and!; auto; lia.
  - destruct (IH p1 rs1 i j) as (k & Hk & Hk1 & Hk2); auto; [lia|].
    exists (S k). cbn. split_and!; auto; lia.
Qed.

Lemma pmm_no_double_alloc_witness :
  exists k, (0 < k < 2)%nat /\
    [OpAlloc; OpFree (1 * PMM_PAGE_SIZE); OpAlloc] !! k = Some (OpFree (1 * PMM_PAGE_SIZE)) /\
    [RAddr (1 * PMM_PAGE_SIZE); RBool true; RAddr (1 * PMM_PAGE_SIZE)] !! k = Some (RBool true).
Proof.
  apply (pmm_no_double_alloc demo_pmm [OpAlloc; OpFree (1 * PMM_PAGE_SIZE); OpAlloc]
    [RAddr (1 * PMM_PAGE_SIZE); RBool true; RAddr (1 * PMM_PAGE_SIZE)]
    (match pmm_run demo_pmm [OpAlloc; OpFree 4096; OpAlloc] with Some (_, p) => p | None => demo_pmm end)
    0 2 1); [apply demo_pmm_ready | | vm_compute; reflexivity | lia | reflexivity..].
  forall_cons; try exact I.
  unfold op_ok, is_u64, PMM_PAGE_SIZE. lia.
Defined.

(** Freeing the frame just allocated undoes the allocation: the free set and both
    counters are what they were, and the next allocation returns the same address. *)
Theorem pmm_alloc_free_roundtrip p a p1 :
  pmm_ready p -> pmm_alloc_frame (Ref p) = Some (a, Ref p1) -> a <> PMM_INVALID_FRAME ->
  exists p2 p3, pmm_free_frame (Ref p1) a = Some (true, Ref p2) /\
    free_set p2 = free_set p /\ free_frames p2 = free_frames p /\ used_frames p2 = used_frames p /\
    pmm_alloc_frame (Ref p2) = Some (a, Ref p3).
Proof.
  intros Hp Ha Hne.
  destruct (alloc_refines p Hp) as (r & q1 & Hex & Hp1 & [Hc1 _] & Hs1).
  apply pmm_exec_alloc in Ha. rewrite Ha in Hex. injection Hex as <- <-.
  apply alloc_step_inv in Hs1 as [(_ & _ & [= ->])|(f & Hf & Hmin & [= ->] & Hset1)]; [done|].
  pose proof Hf as [Hfr _]%elem_of_free_set.
  assert (f <> 0) by (intros ->; by apply Hp).
  pose proof (wf_max_phys p (proj1 Hp)). pose proof (wf_max_u64 p (proj1 Hp)).
  destruct (free_refines p1 (f * PMM_PAGE_SIZE) Hp1) as (r2 & p2 & Hex2 & Hp2 & [Hc2 _] & Hs2);
    [unfold is_u64, PMM_PAGE_SIZE in *; lia|].
  apply free_step_inv in Hs2 as [(Hno & _ & _)|(g & Hg & Hgr & Hgn & -> & Hset2)].
  { destruct Hno. exists f. rewrite Hc1, Hset1. split_and!; [done|lia..|set_solver]. }
  assert (g = f) as -> by (unfold PMM_PAGE_SIZE in *; lia).
  assert (Hset : free_set p2 = free_set p).
  { rewrite Hset2, Hset1. apply set_eq. intros x. destruct (decide (x = f)) as [->|]; set_solver. }
  destruct (alloc_refines p2 Hp2) as (r3 & p3 & Hex3 & _ & _ & Hs3). rewrite Hset in Hs3.
  apply alloc_step_inv in Hs3 as [(He & _ & _)|(h & Hh & Hminh & -> & _)]; [set_solver|].
  assert (h = f) as -> by (specialize (Hmin h Hh); specialize (Hminh f Hf); lia).
  exists p2, p3. apply pmm_exec_free in Hex2. apply pmm_exec_alloc in Hex3.
  rewrite (wf_used p2 (proj1 Hp2)), (wf_used p (proj1 Hp)), (wf_free p2 (proj1 Hp2)), (wf_free p (proj1 Hp)).
  rewrite Hset. split_and!; auto. lia.
Qed.

Lemma pmm_alloc_free_roundtrip_witness :
  exists p2 p3, pmm_free_frame (Ref demo_pmm_1) 4096 = Some (true, Ref p2) /\
    free_set p2 = free_set demo_pmm /\ free_frames p2 = free_frames demo_pmm /\
    used_frames p2 = used_frames demo_pmm /\ pmm_alloc_frame (Ref p2) = Some (4096, Ref p3).
Proof.
  apply (pmm_alloc_free_roundtrip demo_pmm 4096 demo_pmm_1);
    [apply demo_pmm_ready | vm_compute; reflexivity | done].
Defined.

(** [align_up] wraps to 0 for an address in the last page: a usable entry that
    starts there, however short, makes [mark_range_free] mark every frame of the
    machine free. *)
Theorem mark_range_free_last_page_frees_all p b len :
  pmm_wf p -> 2 ^ 64 - PMM_PAGE_SIZE < b -> 0 < len -> b + len < 2 ^ 64 ->
  exists p', mark_range_free p b len = Some p' /\
    forall f, 0 <= f < frame_count p -> f ∈ free_set p'.
Proof.
  intros W Hb Hl He. unfold PMM_PAGE_SIZE in Hb. unfold mark_range_free.
  rw_false (len =? 0). rewrite checked_add_spec by (unfold is_u64; lia). rw_true (b + len <? 2 ^ 64).
  cbn -[Z.mul]. rewrite align_down_page by (unfold is_u64; lia).
  assert (align_up b PMM_PAGE_SIZE = 0) as ->.
  { unfold align_up, PMM_PAGE_SIZE.
    replace (u64 (b + 4096 - 1)) with (b + 4095 - 2 ^ 64) by (unfold u64; Z.div_mod_to_equations; lia).
    fold PMM_PAGE_SIZE. change (Z.land ?v (not64 _)) with (align_down v PMM_PAGE_SIZE).
    rewrite align_down_page by (unfold is_u64; lia). Z.div_mod_to_equations; lia. }
  replace ((b + len) / 4096 * 4096) with (2 ^ 64 - 4096) by (Z.div_mod_to_equations; lia).
  pose proof (wf_max_phys p W) as Hm. pose proof (wf_max_u64 p W). pose proof (wf_frames p W).
  unfold PMM_PAGE_SIZE in Hm. rw_false (2 ^ 64 - 4096 <=? 0). rw_false (max_phys p <=? 0).
  assert (Hall : forall q, pmm_wf q -> frame_count q = frame_count p ->
    exists p', for_loop (loop_fuel 0 (max_phys p) PMM_PAGE_SIZE) 0 (max_phys p) PMM_PAGE_SIZE
      (fun addr p => mark_frame_free p (addr / PMM_PAGE_SIZE)) q = Some p' /\
      forall f, 0 <= f < frame_count p -> f ∈ free_set p').
  { intros q Wq Hq. destruct (free_frames_loop q 0 (frame_count p)) as (p' & Hrun & _ & _ & Hset);
      [done|lia..|].
    exists p'. rewrite Hm. split; [exact Hrun|]. intros f Hf. rewrite Hset. lia. }
  destruct (Z.ltb_spec (max_phys p) (2 ^ 64 - 4096)) as [Hlt|Hge].
  - apply Hall; [by apply set_ignored_wf|done].
  - replace (2 ^ 64 - 4096) with (max_phys p) by lia. by apply Hall.
Qed.

Lemma mark_range_free_last_page_frees_all_witness :
  exists p', mark_range_free demo_pmm 0xfffffffffffff001 1 = Some p' /\
    forall f, 0 <= f < 16 -> f ∈ free_set p'.
Proof.
  apply (mark_range_free_last_page_frees_all demo_pmm 0xfffffffffffff001 1);
    [apply demo_pmm_ready | unfold PMM_PAGE_SIZE; lia | lia | lia].
Defined.

(** [pmm_reserve_range] fails open at the top of the address space: a range whose
    end lies in the last page, or past it, is reported as reserved although no
    frame has been marked. *)
Theorem pmm_reserve_range_top_ignored p b len :
  initialized p = true -> is_u64 b -> is_u64 len -> 0 < len -> 2 ^ 64 - PMM_PAGE_SIZE < b + len ->
  pmm_reserve_range (Ref p) b len = Some (true, Ref p).
Proof. apply reserve_top. Qed.

Lemma pmm_reserve_range_top_ignored_witness :
  pmm_reserve_range (Ref demo_pmm) 0 0xffffffffffffffff = Some (true, Ref demo_pmm).
Proof.
  apply pmm_reserve_range_top_ignored; [done | unfold is_u64, PMM_PAGE_SIZE; lia..].
Defined.
