(* ===== verification/Mem.v ===== *)
(** Byte-addressed memory, little-endian loads and stores, and the freestanding
    routines of kernel/lib/memory.c. *)

From S2P Require Import Prelude.

(** * Memory

    A memory gives the byte at every address. Its initial contents are arbitrary. *)

Definition mem : Type := Z -> Z.

Definition load8 (m : mem) (a : Z) : Z := u8 (m a).

Definition store8 (m : mem) (a v : Z) : mem := fun x => if x =? a then u8 v else m x.

(** [n]-byte little-endian accesses. *)
Fixpoint load (n : nat) (m : mem) (a : Z) : Z :=
  match n with
  | O => 0
  | S n' => load8 m a + 256 * load n' m (a + 1)
  end.

Fixpoint store (n : nat) (m : mem) (a v : Z) : mem :=
  match n with
  | O => m
  | S n' => store8 (store n' m (a + 1) (v / 256)) a v
  end.

Definition load64 (m : mem) (a : Z) : Z := load 8 m a.
Definition store64 (m : mem) (a v : Z) : mem := store 8 m a v.

#[global] Arguments load64 : simpl never.
#[global] Arguments store64 : simpl never.

(** * kernel/lib/memory.c *)

(** [while (count-- != 0u) *d++ = (unsigned char)value;] *)
Fixpoint memset_loop (count : nat) (m : mem) (d value : Z) : mem :=
  match count with
  | O => m
  | S count' => memset_loop count' (store8 m d (u8 value)) (d + 1) value
  end.

Definition memset (m : mem) (dest value count : Z) : mem * Z :=
  (memset_loop (Z.to_nat count) m dest value, dest).

(** [while (count-- != 0u) *d++ = *s++;] *)
Fixpoint copy_forward (count : nat) (m : mem) (d s : Z) : mem :=
  match count with
  | O => m
  | S count' => copy_forward count' (store8 m d (load8 m s)) (d + 1) (s + 1)
  end.

Definition memcpy (m : mem) (dest src count : Z) : mem * Z :=
  (copy_forward (Z.to_nat count) m dest src, dest).

(** [while (count-- != 0u) *--d = *--s;] *)
Fixpoint copy_backward (count : nat) (m : mem) (d s : Z) : mem :=
  match count with
  | O => m
  | S count' => copy_backward count' (store8 m (d - 1) (load8 m (s - 1))) (d - 1) (s - 1)
  end.

Definition memmove (m : mem) (dest src count : Z) : mem * Z :=
  if (dest =? src) || (count =? 0) then (m, dest)
  else if dest <? src then (copy_forward (Z.to_nat count) m dest src, dest)
  else (copy_backward (Z.to_nat count) m (dest + count) (src + count), dest).

(** * Lemmas: loads and stores *)

Lemma load_range n : forall m a, 0 <= load n m a < 256 ^ Z.of_nat n.
Proof.
  induction n as [|n IH]; intros m a; cbn [load]; [cbn; lia|].
  specialize (IH m (a + 1)). pose proof (u8_range (m a)) as Hb. unfold is_u8 in Hb.
  rewrite Nat2Z.inj_succ, Z.pow_succ_r by lia. unfold load8. lia.
Qed.

Lemma load64_range m a : is_u64 (load64 m a).
Proof. unfold is_u64, load64. pose proof (load_range 8 m a) as H. cbn -[load] in H. lia. Qed.

Lemma load_ext n : forall m m' a,
  (forall x, a <= x < a + Z.of_nat n -> m x = m' x) -> load n m a = load n m' a.
Proof.
  induction n as [|n IH]; intros m m' a H; cbn [load]; [done|].
  unfold load8. rewrite (H a), (IH m m' (a + 1)); [done| |lia]. intros x Hx. apply H. lia.
Qed.

Lemma store_other n : forall m a v x, ~ a <= x < a + Z.of_nat n -> store n m a v x = m x.
Proof.
  induction n as [|n IH]; intros m a v x Hx; cbn [store]; [done|].
  unfold store8. rw_false (x =? a). apply IH. lia.
Qed.

Lemma load_store_disjoint n k m a b v :
  a + Z.of_nat n <= b \/ b + Z.of_nat k <= a -> load n (store k m b v) a = load n m a.
Proof. intros H. apply load_ext. intros x Hx. apply store_other. lia. Qed.

Lemma load_store_same n : forall m a v, load n (store n m a v) a = v mod 256 ^ Z.of_nat n.
Proof.
  induction n as [|n IH]; intros m a v; cbn [load store].
  { cbn. by rewrite Z.mod_1_r. }
  unfold load8, store8 at 1. rewrite Z.eqb_refl, (u8_small (u8 v)) by apply u8_range.
  rewrite (load_ext n _ (store n m (a + 1) (v / 256))).
  2:{ intros x Hx. unfold store8. by rw_false (x =? a). }
  rewrite IH, Nat2Z.inj_succ, Z.pow_succ_r, Z.rem_mul_r by lia. done.
Qed.

Lemma load64_store64_same m a v : is_u64 v -> load64 (store64 m a v) a = v.
Proof. intros Hv. unfold load64, store64. rewrite load_store_same. by apply Z.mod_small. Qed.

Lemma load64_store64_other m a b v :
  a + 8 <= b \/ b + 8 <= a -> load64 (store64 m b v) a = load64 m a.
Proof. intros H. apply load_store_disjoint. lia. Qed.

(** * Lemmas: the copy loops *)

Lemma copy_forward_spec n : forall m d s,
  d <= s \/ s + Z.of_nat n <= d -> forall x,
  u8 (copy_forward n m d s x) =
    if (d <=? x) && (x <? d + Z.of_nat n) then u8 (m (s + (x - d))) else u8 (m x).
Proof.
  induction n as [|n IH]; intros m d s Hds x; cbn [copy_forward].
  { rewrite Z.add_0_r. destruct (Z.leb_spec d x), (Z.ltb_spec x d); cbn; try done; lia. }
  destruct (Z.eq_dec d s) as [->|Hne].
  - assert (Hid : forall y, u8 (store8 m s (load8 m s) y) = u8 (m y)).
    { intros y. unfold store8, load8. destruct (Z.eqb_spec y s) as [->|]; [|done].
      rewrite !(u8_small (u8 _)) by apply u8_range. done. }
    rewrite IH by lia. rewrite !Hid. repeat case_bool; try lia; try (f_equal; f_equal; lia).
    all: rewrite ?Hid; do 2 f_equal; lia.
  - rewrite IH by lia. unfold store8.
    destruct (Z.leb_spec (d + 1) x), (Z.ltb_spec x (d + 1 + Z.of_nat n)),
      (Z.leb_spec d x), (Z.ltb_spec x (d + Z.of_nat (S n))); cbn [andb]; try lia.
    + rw_false (s + 1 + (x - (d + 1)) =? d). do 2 f_equal. lia.
    + by rw_false (x =? d).
    + assert (x = d) as -> by lia. rewrite Z.eqb_refl. unfold load8.
      rewrite !(u8_small (u8 _)) by apply u8_range. do 2 f_equal. lia.
    + by rw_false (x =? d).
Qed.

Lemma copy_backward_spec n : forall m d s,
  s < d -> forall x,
  u8 (copy_backward n m d s x) =
    if (d - Z.of_nat n <=? x) && (x <? d) then u8 (m (s + (x - d))) else u8 (m x).
Proof.
  induction n as [|n IH]; intros m d s Hds x; cbn [copy_backward].
  { rewrite Z.sub_0_r. destruct (Z.leb_spec d x), (Z.ltb_spec x d); cbn; try done; lia. }
  rewrite IH by lia. unfold store8.
  destruct (Z.leb_spec (d - 1 - Z.of_nat n) x), (Z.ltb_spec x (d - 1)),
    (Z.leb_spec (d - Z.of_nat (S n)) x), (Z.ltb_spec x d); cbn [andb]; try lia.
  - rw_false (s - 1 + (x - (d - 1)) =? d - 1). do 2 f_equal. lia.
  - assert (x = d - 1) as -> by lia. rewrite Z.eqb_refl. unfold load8.
    rewrite !(u8_small (u8 _)) by apply u8_range. do 2 f_equal. lia.
  - by rw_false (x =? d - 1).
  - by rw_false (x =? d - 1).
Qed.

Lemma memset_loop_spec n : forall m d v x,
  u8 (memset_loop n m d v x) = if (d <=? x) && (x <? d + Z.of_nat n) then u8 v else u8 (m x).
Proof.
  induction n as [|n IH]; intros m d v x; cbn [memset_loop].
  { rewrite Z.add_0_r. destruct (Z.leb_spec d x), (Z.ltb_spec x d); cbn; try done; lia. }
  rewrite IH. unfold store8.
  destruct (Z.leb_spec (d + 1) x), (Z.ltb_spec x (d + 1 + Z.of_nat n)),
    (Z.leb_spec d x), (Z.ltb_spec x (d + Z.of_nat (S n))); cbn [andb]; try lia; try done.
  - by rw_false (x =? d).
  - assert (x = d) as -> by lia. rewrite Z.eqb_refl. by rewrite !(u8_small (u8 _)) by apply u8_range.
  - by rw_false (x =? d).
Qed.

(** * Properties *)

(** C30. [memmove] copies correctly whatever the overlap of source and destination: every
    destination byte takes the value its source byte had before the call, every
    other byte is unchanged, and the destination is returned. *)
Theorem memmove_correct m dest src count x :
  0 <= count ->
  let '(m', r) := memmove m dest src count in
  r = dest /\
  load8 m' x = if (dest <=? x) && (x <? dest + count) then load8 m (src + (x - dest)) else load8 m x.
Proof.
  intros Hc. unfold memmove. destruct (Z.eqb_spec dest src) as [->|Hne]; cbn [orb].
  { split; [done|]. case_bool; [|done]. f_equal. lia. }
  destruct (Z.eqb_spec count 0) as [->|Hc0].
  { split; [done|]. case_bool; [lia|done]. }
  destruct (Z.ltb_spec dest src); (split; [done|]); unfold load8.
  - rewrite copy_forward_spec by lia. by rewrite Z2Nat.id by lia.
  - rewrite copy_backward_spec by lia. rewrite Z2Nat.id by lia.
    replace (dest + count - count) with dest by lia. case_bool; [|done]. do 2 f_equal. lia.
Qed.

Lemma memmove_correct_witness :
  let '(m', r) := memmove (fun x => x) 12 10 5 in
  r = 12 /\ load8 m' 14 = if (12 <=? 14) && (14 <? 12 + 5) then load8 (fun x => x) (10 + (14 - 12)) else load8 (fun x => x) 14.
Proof. apply (memmove_correct (fun x => x) 12 10 5 14). lia. Defined.
