(* ===== verification/FrameAlloc.v ===== *)
(** Interface between the physical and the virtual memory manager: what a page-table
    builder may assume of the frame allocator and of the window through which it
    reaches physical frames. The typedefs [vmm_alloc_frame_fn], [vmm_free_frame_fn]
    and [vmm_phys_to_virt_fn] of kernel/include/vmm.h are the C side of it. *)

From S2P Require Import Prelude.

(** A frame address: page aligned and below [limit]. *)
Definition frame_addr (limit a : Z) : Prop := 0 <= a < limit /\ a mod 4096 = 0.

(** The address an allocator returns when it has no frame to give. *)
Definition no_frame : Z := 0xffffffffffffffff.

(** An allocator over the state [A]. The calls return [None] on undefined behaviour;
    the laws say that there is none. [fa_avail] are the addresses of the frames the
    allocator may still give out. *)
Class FrameAllocator (A : Type) (limit : Z) := {
  fa_alloc : A -> option (Z * A);
  fa_free : A -> Z -> option A;
  fa_inv : A -> Prop;
  fa_avail : A -> gset Z;
  fa_avail_frames a p : fa_inv a -> p ∈ fa_avail a -> frame_addr limit p;
  fa_alloc_ok a : fa_inv a ->
    exists r a', fa_alloc a = Some (r, a') /\ fa_inv a' /\
      ((fa_avail a = ∅ /\ r = no_frame /\ fa_avail a' = ∅) \/
       (r ∈ fa_avail a /\ fa_avail a' = fa_avail a ∖ {[r]}));
  fa_free_ok a p : fa_inv a -> frame_addr limit p ->
    exists a', fa_free a p = Some a' /\ fa_inv a' /\
      fa_avail a ⊆ fa_avail a' /\ fa_avail a' ⊆ {[p]} ∪ fa_avail a
}.

(** A window onto the frames below [limit]: a non-null address for each, with the
    pages of distinct frames disjoint. *)
Class PhysWindow (limit : Z) (p2v : Z -> Z) : Prop := {
  pw_limit : 0 <= limit <= 2 ^ 52;
  pw_nonnull p : frame_addr limit p -> p2v p <> 0;
  pw_disjoint p q : frame_addr limit p -> frame_addr limit q -> p <> q ->
    p2v p + 4096 <= p2v q \/ p2v q + 4096 <= p2v p
}.
