(* ===== verification/Vmm.v ===== *)
(** Virtual memory manager: kernel/core/vmm.c and kernel/include/vmm.h. *)

From S2P Require Import Prelude Mem FrameAlloc.

(** * Constants *)

Definition VMM_PAGE_SIZE : Z := 4096.
Definition VMM_ENTRIES_PER_TABLE : nat := 512.
Definition VMM_INVALID_PHYS : Z := 0xffffffffffffffff.

Definition VMM_PTE_PRESENT : Z := 2 ^ 0.
Definition VMM_PTE_WRITABLE : Z := 2 ^ 1.
Definition VMM_PTE_USER : Z := 2 ^ 2.
Definition VMM_PTE_WRITE_THROUGH : Z := 2 ^ 3.
Definition VMM_PTE_CACHE_DISABLE : Z := 2 ^ 4.
Definition VMM_PTE_ACCESSED : Z := 2 ^ 5.
Definition VMM_PTE_DIRTY : Z := 2 ^ 6.
Definition VMM_PTE_HUGE : Z := 2 ^ 7.
Definition VMM_PTE_GLOBAL : Z := 2 ^ 8.
Definition VMM_PTE_NO_EXECUTE : Z := 2 ^ 63.
Definition VMM_PTE_ADDR_MASK : Z := 0x000ffffffffff000.

Definition VMM_MAP_OK : Z := 0.
Definition VMM_ERR_INVAL : Z := -1.
Definition VMM_ERR_NOMEM : Z := -2.
Definition VMM_ERR_EXISTS : Z := -3.
Definition VMM_ERR_NOT_FOUND : Z := -4.

(** * Data

    The callbacks of a [struct vmm_space] share the allocator state [A] behind the
    C field [ctx], which the model threads through the world. *)

Record vmm_space (A : Type) := mk_space {
  root_paddr : Z;
  alloc_frame : ptr (A -> option (Z * A));
  free_frame : ptr (A -> Z -> option A);
  phys_to_virt : ptr (Z -> Z)
}.
Arguments mk_space {A} _ _ _ _.
Arguments root_paddr {A} _.
Arguments alloc_frame {A} _.
Arguments free_frame {A} _.
Arguments phys_to_virt {A} _.

Record vmm_mapping := mk_mapping { map_vaddr : Z; map_paddr : Z; map_flags : Z }.

(** What the functions act on: memory, the allocator behind [ctx], and the addresses
    for which [invlpg] has been executed (most recent first). *)
Record vmm_world (A : Type) := mk_world {
  wmem : mem;
  wctx : A;
  invalidated : list Z
}.
Arguments mk_world {A} _ _ _.
Arguments wmem {A} _.
Arguments wctx {A} _.
Arguments invalidated {A} _.

Definition set_mem {A} (w : vmm_world A) (m : mem) : vmm_world A := mk_world m (wctx w) (invalidated w).
Definition set_ctx {A} (w : vmm_world A) (c : A) : vmm_world A := mk_world (wmem w) c (invalidated w).

(** [(e & flag) != 0] *)
Definition has_flag (e flag : Z) : bool := negb (Z.land e flag =? 0).

(** * Operations *)

(** [for (i = 0; i < VMM_ENTRIES_PER_TABLE; i++) page[i] = 0;] *)
Fixpoint zero_entries (n : nat) (i : Z) (m : mem) (page : Z) : mem :=
  match n with
  | O => m
  | S n' => zero_entries n' (i + 1) (store64 m (page + 8 * i) 0) page
  end.

Definition vmm_zero_page (m : mem) (page : Z) : mem := zero_entries VMM_ENTRIES_PER_TABLE 0 m page.

Definition vmm_is_aligned_4k (value : Z) : bool := Z.land value (VMM_PAGE_SIZE - 1) =? 0.

Definition vmm_is_canonical (vaddr : Z) : bool :=
  let sign := Z.land (Z.shiftr vaddr 47) 1 in
  let upper := Z.shiftr vaddr 48 in
  if negb (sign =? 0) then upper =? 0xFFFF else upper =? 0.

Definition idx_pml4 (vaddr : Z) : Z := Z.land (Z.shiftr vaddr 39) 0x1FF.
Definition idx_pdpt (vaddr : Z) : Z := Z.land (Z.shiftr vaddr 30) 0x1FF.
Definition idx_pd (vaddr : Z) : Z := Z.land (Z.shiftr vaddr 21) 0x1FF.
Definition idx_pt (vaddr : Z) : Z := Z.land (Z.shiftr vaddr 12) 0x1FF.

Section operations.
Context {A : Type}.

(** The address of a table, 0 for the null pointer. *)
Definition table_from_phys (space : ptr (vmm_space A)) (paddr : Z) : Z :=
  match space with
  | NULL => 0
  | Ref space =>
      match phys_to_virt space with
      | NULL => 0
      | Ref p2v => if negb (vmm_is_aligned_4k paddr) then 0 else p2v paddr
      end
  end.

(** Returns the status, the table stored through [out] (0 when none is), and the world. *)
Definition get_or_alloc_next_table (space : vmm_space A) (w : vmm_world A) (table index : Z) :
    option (Z * Z * vmm_world A) :=
  let entry := load64 (wmem w) (table + 8 * index) in
  if has_flag entry VMM_PTE_PRESENT then
    if has_flag entry VMM_PTE_HUGE then Some (VMM_ERR_EXISTS, 0, w)
    else
      let next_paddr := Z.land entry VMM_PTE_ADDR_MASK in
      let next := table_from_phys (Ref space) next_paddr in
      if next =? 0 then Some (VMM_ERR_INVAL, 0, w) else Some (VMM_MAP_OK, next, w)
  else
    match alloc_frame space with
    | NULL => Some (VMM_ERR_NOMEM, 0, w)
    | Ref alloc =>
        '(new_paddr, c) ← alloc (wctx w);
        let w := set_ctx w c in
        if (new_paddr =? VMM_INVALID_PHYS) || negb (vmm_is_aligned_4k new_paddr)
        then Some (VMM_ERR_NOMEM, 0, w)
        else
          let new_table := table_from_phys (Ref space) new_paddr in
          if new_table =? 0 then
            match free_frame space with
            | NULL => Some (VMM_ERR_INVAL, 0, w)
            | Ref free => c ← free (wctx w) new_paddr; Some (VMM_ERR_INVAL, 0, set_ctx w c)
            end
          else
            let m := vmm_zero_page (wmem w) new_table in
            let m := store64 m (table + 8 * index)
              (Z.lor (Z.lor (Z.land new_paddr VMM_PTE_ADDR_MASK) VMM_PTE_PRESENT) VMM_PTE_WRITABLE) in
            Some (VMM_MAP_OK, new_table, set_mem w m)
    end.

Definition vmm_space_init (space : ptr (vmm_space A)) (root_paddr : Z)
    (alloc_frame : ptr (A -> option (Z * A))) (free_frame : ptr (A -> Z -> option A))
    (phys_to_virt : ptr (Z -> Z)) : Z * ptr (vmm_space A) :=
  if is_null space || is_null phys_to_virt || negb (vmm_is_aligned_4k root_paddr)
  then (VMM_ERR_INVAL, space)
  else (VMM_MAP_OK, Ref (mk_space root_paddr alloc_frame free_frame phys_to_virt)).

Definition vmm_map_allowed : Z :=
  Z.lor (Z.lor (Z.lor (Z.lor (Z.lor VMM_PTE_WRITABLE VMM_PTE_USER) VMM_PTE_WRITE_THROUGH)
    VMM_PTE_CACHE_DISABLE) VMM_PTE_GLOBAL) VMM_PTE_NO_EXECUTE.

Definition vmm_map_page (space : ptr (vmm_space A)) (w : vmm_world A) (vaddr paddr flags : Z) :
    option (Z * vmm_world A) :=
  match space with
  | NULL => Some (VMM_ERR_INVAL, w)
  | Ref sp =>
      if negb (vmm_is_canonical vaddr) || negb (vmm_is_aligned_4k vaddr) || negb (vmm_is_aligned_4k paddr)
      then Some (VMM_ERR_INVAL, w)
      else
        let pml4 := table_from_phys space (root_paddr sp) in
        if pml4 =? 0 then Some (VMM_ERR_INVAL, w)
        else
          '(rc, pdpt, w) ← get_or_alloc_next_table sp w pml4 (idx_pml4 vaddr);
          if negb (rc =? VMM_MAP_OK) then Some (rc, w) else
          '(rc, pd, w) ← get_or_alloc_next_table sp w pdpt (idx_pdpt vaddr);
          if negb (rc =? VMM_MAP_OK) then Some (rc, w) else
          '(rc, pt, w) ← get_or_alloc_next_table sp w pd (idx_pd vaddr);
          if negb (rc =? VMM_MAP_OK) then Some (rc, w) else
          let pti := idx_pt vaddr in
          if has_flag (load64 (wmem w) (pt + 8 * pti)) VMM_PTE_PRESENT then Some (VMM_ERR_EXISTS, w)
          else
            Some (VMM_MAP_OK,
              set_mem w (store64 (wmem w) (pt + 8 * pti)
                (Z.lor (Z.lor (Z.land paddr VMM_PTE_ADDR_MASK) VMM_PTE_PRESENT)
                   (Z.land flags vmm_map_allowed))))
  end.

(** One of the three steps down the tables that query and unmap make: the next
    table, or the status to return. *)
Definition descend (space : ptr (vmm_space A)) (m : mem) (table index : Z) : Z + Z :=
  let e := load64 m (table + 8 * index) in
  if negb (has_flag e VMM_PTE_PRESENT) || has_flag e VMM_PTE_HUGE then inr VMM_ERR_NOT_FOUND
  else
    let next := table_from_phys space (Z.land e VMM_PTE_ADDR_MASK) in
    if next =? 0 then inr VMM_ERR_INVAL else inl next.

(** The common prefix of query and unmap, down to the last-level table. *)
Definition find_pt (space : ptr (vmm_space A)) (root : Z) (m : mem) (vaddr : Z) : Z + Z :=
  let pml4 := table_from_phys space root in
  if pml4 =? 0 then inr VMM_ERR_INVAL else
  match descend space m pml4 (idx_pml4 vaddr) with
  | inr rc => inr rc
  | inl pdpt =>
      match descend space m pdpt (idx_pdpt vaddr) with
      | inr rc => inr rc
      | inl pd => descend space m pd (idx_pd vaddr)
      end
  end.

(** Returns the status and what [out] designates afterwards. *)
Definition vmm_query_page (space : ptr (vmm_space A)) (w : vmm_world A) (vaddr : Z)
    (out : ptr vmm_mapping) : Z * ptr vmm_mapping :=
  match space with
  | NULL => (VMM_ERR_INVAL, out)
  | Ref sp =>
      if is_null out || negb (vmm_is_canonical vaddr) || negb (vmm_is_aligned_4k vaddr)
      then (VMM_ERR_INVAL, out)
      else
        match find_pt space (root_paddr sp) (wmem w) vaddr with
        | inr rc => (rc, out)
        | inl pt =>
            let e := load64 (wmem w) (pt + 8 * idx_pt vaddr) in
            if negb (has_flag e VMM_PTE_PRESENT) then (VMM_ERR_NOT_FOUND, out)
            else (VMM_MAP_OK,
                  Ref (mk_mapping vaddr (Z.land e VMM_PTE_ADDR_MASK)
                         (Z.land e (not64 VMM_PTE_ADDR_MASK))))
        end
  end.

Definition vmm_invalidate_page (w : vmm_world A) (vaddr : Z) : vmm_world A :=
  mk_world (wmem w) (wctx w) (vaddr :: invalidated w).

Definition vmm_unmap_page (space : ptr (vmm_space A)) (w : vmm_world A) (vaddr : Z) :
    Z * vmm_world A :=
  match space with
  | NULL => (VMM_ERR_INVAL, w)
  | Ref sp =>
      if negb (vmm_is_canonical vaddr) || negb (vmm_is_aligned_4k vaddr) then (VMM_ERR_INVAL, w)
      else
        match find_pt space (root_paddr sp) (wmem w) vaddr with
        | inr rc => (rc, w)
        | inl pt =>
            let pti := idx_pt vaddr in
            if negb (has_flag (load64 (wmem w) (pt + 8 * pti)) VMM_PTE_PRESENT)
            then (VMM_ERR_NOT_FOUND, w)
            else (VMM_MAP_OK,
                  vmm_invalidate_page (set_mem w (store64 (wmem w) (pt + 8 * pti) 0)) vaddr)
        end
  end.

End operations.

(** * Specification: page tables as trees *)

Section specification.
Context (limit : Z) (p2v : Z -> Z).

(** Entry [i] of the table in frame [p]. *)
Definition entry_at (m : mem) (p i : Z) : Z := load64 m (p2v p + 8 * i).

(** The table that entry [i] of the table in frame [p] points to. *)
Definition next_table (m : mem) (p i : Z) : option Z :=
  let e := entry_at m p i in
  if has_flag e VMM_PTE_PRESENT && negb (has_flag e VMM_PTE_HUGE)
  then Some (Z.land e VMM_PTE_ADDR_MASK) else None.

(** The table reached from [p] along a list of indices, outermost first. *)
Fixpoint walk (m : mem) (p : Z) (l : list Z) : option Z :=
  match l with
  | [] => Some p
  | i :: l => q ← next_table m p i; walk m q l
  end.

Definition path_of (vaddr : Z) : list Z := [idx_pml4 vaddr; idx_pdpt vaddr; idx_pd vaddr].

(** The address space a root table describes: frame and flags of each mapped page. *)
Definition xlate (m : mem) (root vaddr : Z) : option (Z * Z) :=
  pt ← walk m root (path_of vaddr);
  let e := entry_at m pt (idx_pt vaddr) in
  if has_flag e VMM_PTE_PRESENT
  then Some (Z.land e VMM_PTE_ADDR_MASK, Z.land e (not64 VMM_PTE_ADDR_MASK)) else None.

Definition is_idx (i : Z) : Prop := 0 <= i < 512.

(** The processor lets user mode use a page when the user bit is set in the entry of
    every level that leads to it. *)
Fixpoint user_walk (m : mem) (p : Z) (l : list Z) : bool :=
  match l with
  | [] => true
  | i :: l =>
      has_flag (entry_at m p i) VMM_PTE_USER &&
      match l with
      | [] => true
      | _ => match next_table m p i with Some q => user_walk m q l | None => false end
      end
  end.

Definition user_accessible (m : mem) (root vaddr : Z) : bool :=
  user_walk m root (path_of vaddr ++ [idx_pt vaddr]).

(** No entry of the root table has the user bit. *)
Definition supervisor_root (m : mem) (root : Z) : Prop :=
  forall i, is_idx i -> has_flag (entry_at m root i) VMM_PTE_USER = false.

(** An index path from the root to a table: at most three steps. *)
Definition good_path (l : list Z) : Prop := Forall is_idx l /\ (length l <= 3)%nat.

(** The frames in [T] hold the tables reachable from [root], which form a tree with
    no large-page entry in its inner levels. *)
Record pt_wf (root : Z) (T : gset Z) (m : mem) : Prop := {
  pt_root : root ∈ T;
  pt_frames : forall p, p ∈ T -> frame_addr limit p;
  pt_closed : forall l p, good_path l -> walk m root l = Some p -> p ∈ T;
  pt_tree : forall l1 l2 p, good_path l1 -> good_path l2 ->
    walk m root l1 = Some p -> walk m root l2 = Some p -> l1 = l2;
  pt_no_huge : forall l p i, good_path l -> (length l < 3)%nat -> is_idx i ->
    walk m root l = Some p -> has_flag (entry_at m p i) VMM_PTE_PRESENT = true ->
    has_flag (entry_at m p i) VMM_PTE_HUGE = false
}.

End specification.

#[global] Arguments entry_at : simpl never.
#[global] Arguments has_flag : simpl never.
#[global] Arguments vmm_zero_page : simpl never.
#[global] Arguments table_from_phys : simpl never.

(** The flags that [vmm_map_page] gives a page: present, and those of the requested
    flags that it lets through. *)
Definition leaf_flags (flags : Z) : Z := Z.lor VMM_PTE_PRESENT (Z.land flags vmm_map_allowed).

(** A page address: canonical and aligned. *)
Definition page_addr (va : Z) : Prop :=
  is_u64 va /\ vmm_is_canonical va = true /\ vmm_is_aligned_4k va = true.

(** The abstract address space: a finite map from page addresses to frame and flags.
    The results of its operations are the status of the C call and, for a query, the
    mapping written through [out]. *)
Inductive vmm_op :=
| OpMap (va pa flags : Z)
| OpQuery (va : Z)
| OpUnmap (va : Z).

Inductive space_step : gmap Z (Z * Z) -> vmm_op -> Z * option vmm_mapping -> gmap Z (Z * Z) -> Prop :=
| step_map_ok S va pa fl :
    page_addr va -> pa mod 4096 = 0 -> S !! va = None ->
    space_step S (OpMap va pa fl) (VMM_MAP_OK, None) (<[va := (pa, leaf_flags fl)]> S)
| step_map_exists S va pa fl :
    page_addr va -> pa mod 4096 = 0 -> S !! va <> None ->
    space_step S (OpMap va pa fl) (VMM_ERR_EXISTS, None) S
| step_map_nomem S va pa fl :
    page_addr va -> pa mod 4096 = 0 -> S !! va = None ->
    space_step S (OpMap va pa fl) (VMM_ERR_NOMEM, None) S
| step_map_inval S va pa fl :
    ~ (page_addr va /\ pa mod 4096 = 0) -> space_step S (OpMap va pa fl) (VMM_ERR_INVAL, None) S
| step_query_ok S va pa fl :
    page_addr va -> S !! va = Some (pa, fl) ->
    space_step S (OpQuery va) (VMM_MAP_OK, Some (mk_mapping va pa fl)) S
| step_query_none S va :
    page_addr va -> S !! va = None -> space_step S (OpQuery va) (VMM_ERR_NOT_FOUND, None) S
| step_query_inval S va : ~ page_addr va -> space_step S (OpQuery va) (VMM_ERR_INVAL, None) S
| step_unmap_ok S va :
    page_addr va -> S !! va <> None -> space_step S (OpUnmap va) (VMM_MAP_OK, None) (delete va S)
| step_unmap_none S va :
    page_addr va -> S !! va = None -> space_step S (OpUnmap va) (VMM_ERR_NOT_FOUND, None) S
| step_unmap_inval S va : ~ page_addr va -> space_step S (OpUnmap va) (VMM_ERR_INVAL, None) S.

(** A run of the abstract address space. *)
Inductive space_run : gmap Z (Z * Z) -> list vmm_op -> list (Z * option vmm_mapping) ->
    gmap Z (Z * Z) -> Prop :=
| run_nil S : space_run S [] [] S
| run_cons S o r S1 ops rs S2 :
    space_step S o r S1 -> space_run S1 ops rs S2 -> space_run S (o :: ops) (r :: rs) S2.

(** Arguments the C types allow, with physical addresses the entry format can hold. *)
Definition vmm_op_ok (o : vmm_op) : Prop :=
  match o with
  | OpMap va pa fl => is_u64 va /\ 0 <= pa < 2 ^ 52 /\ is_u64 fl
  | OpQuery va | OpUnmap va => is_u64 va
  end.

(** The C function each operation calls; the query has an [out] structure to write to. *)
Definition vmm_exec {A} (space : ptr (vmm_space A)) (w : vmm_world A) (o : vmm_op) :
    option (Z * option vmm_mapping * vmm_world A) :=
  match o with
  | OpMap va pa fl => '(rc, w') ← vmm_map_page space w va pa fl; Some (rc, None, w')
  | OpQuery va =>
      let '(rc, out) := vmm_query_page space w va (Ref (mk_mapping 0 0 0)) in
      Some (rc, match out with Ref x => if rc =? VMM_MAP_OK then Some x else None | NULL => None end, w)
  | OpUnmap va => let '(rc, w') := vmm_unmap_page space w va in Some (rc, None, w')
  end.

Fixpoint vmm_run {A} (space : ptr (vmm_space A)) (w : vmm_world A) (ops : list vmm_op) :
    option (list (Z * option vmm_mapping) * vmm_world A) :=
  match ops with
  | [] => Some ([], w)
  | o :: ops =>
      '(rc, x, w') ← vmm_exec space w o; '(rs, w'') ← vmm_run space w' ops; Some ((rc, x) :: rs, w'')
  end.

(** * Lemmas: bits of addresses and entries *)

Lemma aligned_4k_spec v : vmm_is_aligned_4k v = true <-> v mod 4096 = 0.
Proof.
  unfold vmm_is_aligned_4k. change (VMM_PAGE_SIZE - 1) with (2 ^ 12 - 1).
  rewrite land_low by lia. apply Z.eqb_eq.
Qed.

Lemma canonical_spec v :
  is_u64 v -> vmm_is_canonical v = true <-> v < 2 ^ 47 \/ 2 ^ 64 - 2 ^ 47 <= v.
Proof.
  intros Hv. unfold vmm_is_canonical, is_u64 in *.
  change 1 with (2 ^ 1 - 1) at 1. rewrite land_low, !Z.shiftr_div_pow2 by lia.
  destruct (Z.eqb_spec ((v / 2 ^ 47) mod 2 ^ 1) 0); cbn [negb]; rewrite Z.eqb_eq;
    Z.div_mod_to_equations; lia.
Qed.

Lemma idx_spec v k : 0 <= k -> Z.land (Z.shiftr v k) 0x1FF = (v / 2 ^ k) mod 512.
Proof. intros Hk. change 0x1FF with (2 ^ 9 - 1). by rewrite land_low, Z.shiftr_div_pow2 by lia. Qed.

Lemma idx_range v k : 0 <= k -> is_idx (Z.land (Z.shiftr v k) 0x1FF).
Proof. intros Hk. rewrite idx_spec by lia. apply Z.mod_pos_bound. lia. Qed.

(** The four indices determine a page address. *)
Lemma indices_inj v v' :
  page_addr v -> page_addr v' -> path_of v = path_of v' -> idx_pt v = idx_pt v' -> v = v'.
Proof.
  intros (Hu & Hc%canonical_spec & Ha%aligned_4k_spec) (Hu' & Hc'%canonical_spec & Ha'%aligned_4k_spec); [|done..].
  unfold path_of, idx_pml4, idx_pdpt, idx_pd, idx_pt, is_u64 in *.
  rewrite !idx_spec by lia. intros [= H4 H3 H2] H1. Z.div_mod_to_equations. lia.
Qed.

Lemma path_of_good v : good_path (path_of v).
Proof.
  split; [|cbn; lia]. unfold path_of, idx_pml4, idx_pdpt, idx_pd.
  forall_cons; apply idx_range; lia.
Qed.

Lemma idx_pt_range v : is_idx (idx_pt v).
Proof. apply idx_range. lia. Qed.

Lemma testbit_addr_mask i : 0 <= i -> Z.testbit VMM_PTE_ADDR_MASK i = (12 <=? i) && (i <? 52).
Proof.
  intros Hi. change VMM_PTE_ADDR_MASK with (Z.shiftl (2 ^ 40 - 1) 12).
  destruct (Z.leb_spec 12 i).
  - rewrite Z.shiftl_spec, testbit_ones_low by lia. cbn [andb].
    destruct (Z.ltb_spec (i - 12) 40), (Z.ltb_spec i 52); try done; lia.
  - by rewrite Z.shiftl_spec_low by lia.
Qed.

Lemma testbit_aligned v i : v mod 4096 = 0 -> 0 <= i < 12 -> Z.testbit v i = false.
Proof.
  intros Ha Hi. replace v with (v / 4096 * 2 ^ 12) by (pose proof (Z.div_mod v 4096); lia).
  apply Z.mul_pow2_bits_low. lia.
Qed.

Lemma land_addr_mask v : 0 <= v < 2 ^ 52 -> v mod 4096 = 0 -> Z.land v VMM_PTE_ADDR_MASK = v.
Proof.
  intros Hv Ha. apply Z.bits_inj'. intros i Hi. rewrite Z.land_spec, testbit_addr_mask by lia.
  destruct (Z.leb_spec 12 i), (Z.ltb_spec i 52); cbn [andb]; try lia.
  - apply andb_true_r.
  - rewrite (testbit_high 52 v) by lia. done.
  - rewrite (testbit_aligned v) by lia. done.
Qed.

(** Whatever an entry holds, the address it designates is page aligned. *)
Lemma land_mask_frame e : 0 <= e ->
  (Z.land e VMM_PTE_ADDR_MASK) mod 4096 = 0 /\ 0 <= Z.land e VMM_PTE_ADDR_MASK < 2 ^ 52.
Proof.
  intros He. split.
  - change 4096 with (2 ^ 12). rewrite <- Z.land_ones, <- Z.land_assoc by lia.
    change (Z.land VMM_PTE_ADDR_MASK (Z.ones 12)) with 0. apply Z.land_0_r.
  - split; [apply Z.land_nonneg; auto|].
    assert (Z.land e VMM_PTE_ADDR_MASK = Z.land e VMM_PTE_ADDR_MASK mod 2 ^ 52) as ->.
    { rewrite <- Z.land_ones, <- Z.land_assoc by lia. done. }
    apply Z.mod_pos_bound. lia.
Qed.

(** An entry made of an aligned address and flag bits outside the address field. *)
Lemma entry_fields p fl :
  0 <= p < 2 ^ 52 -> p mod 4096 = 0 -> 0 <= fl < 2 ^ 64 -> Z.land fl VMM_PTE_ADDR_MASK = 0 ->
  let e := Z.lor p fl in
  is_u64 e /\ Z.land e VMM_PTE_ADDR_MASK = p /\ Z.land e (not64 VMM_PTE_ADDR_MASK) = fl /\
  forall k, 0 <= k < 12 -> has_flag e (2 ^ k) = Z.testbit fl k.
Proof.
  intros Hp Ha Hfl Hdisj e. split_and!.
  - unfold is_u64. split; [apply Z.lor_nonneg; lia|].
    destruct (Z.eq_dec e 0) as [->|]; [lia|]. apply Z.log2_lt_pow2.
    { assert (0 <= e) by (apply Z.lor_nonneg; lia). lia. }
    unfold e. rewrite Z.log2_lor by lia.
    assert (Hb : forall x, 0 <= x < 2 ^ 64 -> Z.log2 x < 64).
    { intros x Hx. destruct (Z.eq_dec x 0) as [->|]; [cbn; lia|]. apply Z.log2_lt_pow2; lia. }
    pose proof (Hb p). pose proof (Hb fl). lia.
  - unfold e. rewrite Z.land_lor_distr_l, Hdisj, Z.lor_0_r. by apply land_addr_mask.
  - apply Z.bits_inj'. intros i Hi. unfold e, not64.
    rewrite Z.land_spec, Z.lor_spec, testbit_u64, Z.lnot_spec, testbit_addr_mask by lia.
    assert (Hd : Z.testbit (Z.land fl VMM_PTE_ADDR_MASK) i = false) by (rewrite Hdisj; apply Z.testbit_0_l).
    rewrite Z.land_spec, testbit_addr_mask in Hd by lia.
    destruct (Z.leb_spec 12 i), (Z.ltb_spec i 52), (Z.ltb_spec i 64); cbn [andb negb] in *; try lia;
      rewrite ?andb_true_r, ?andb_false_r in *.
    + done.
    + by rewrite (testbit_high 52 p) by lia.
    + by rewrite (testbit_high 64 fl) by lia.
    + by rewrite (testbit_aligned p) by lia.
  - intros k Hk. unfold has_flag. rewrite land_pow2_test by lia. unfold e.
    rewrite Z.lor_spec, (testbit_aligned p) by lia. done.
Qed.

Lemma has_flag_zero k : has_flag 0 k = false.
Proof. unfold has_flag. by rewrite Z.land_0_l. Qed.

(** * Lemmas: walks *)

Lemma good_path_snoc l i : good_path (l ++ [i]) <-> Forall is_idx l /\ is_idx i /\ (length l < 3)%nat.
Proof.
  unfold good_path. rewrite Forall_app, Forall_singleton, length_app. cbn. intuition lia.
Qed.

Lemma good_path_init l i : good_path (l ++ [i]) -> good_path l.
Proof. rewrite good_path_snoc. unfold good_path. intuition lia. Qed.

Lemma good_path_nil : good_path [].
Proof. split; [apply Forall_nil_2|cbn; lia]. Qed.

(** A reachable table lies in one of the frames of a well-formed tree. *)
Ltac in_tables Hwf :=
  eapply (pt_closed _ _ _ _ _ Hwf); [|eassumption]; first [assumption | apply path_of_good].

(** Two walks of a well-formed tree to the same table are the same walk. *)
Ltac same_walk Hwf :=
  eapply (pt_tree _ _ _ _ _ Hwf); [| |eassumption|eassumption];
  first [assumption | apply path_of_good | by eapply good_path_init].

Section trees.
Context (limit : Z) (p2v : Z -> Z).

Lemma walk_snoc m p l i :
  walk p2v m p (l ++ [i]) = (q ← walk p2v m p l; next_table p2v m q i).
Proof.
  revert p. induction l as [|j l IH]; intros p; cbn.
  - by destruct (next_table p2v m p i).
  - destruct (next_table p2v m p j); cbn; [apply IH|done].
Qed.

(** Linking a fresh, empty table below an absent entry adds exactly one walk. *)
Section link.
Context (root : Z) (T : gset Z) (m m' : mem) (l : list Z) (p i n e : Z).
Hypothesis Hwf : pt_wf limit p2v root T m.
Hypothesis Hl : good_path (l ++ [i]).
Hypothesis Hp : walk p2v m root l = Some p.
Hypothesis Habsent : next_table p2v m p i = None.
Hypothesis Hnew : n ∉ T.
Hypothesis Hframe : frame_addr limit n.
Hypothesis Hentry : entry_at p2v m' p i = e.
Hypothesis Hpresent : has_flag e VMM_PTE_PRESENT = true.
Hypothesis Hnothuge : has_flag e VMM_PTE_HUGE = false.
Hypothesis Haddr : Z.land e VMM_PTE_ADDR_MASK = n.
Hypothesis Hsame : forall q j, q ∈ T -> is_idx j -> (q, j) <> (p, i) ->
  entry_at p2v m' q j = entry_at p2v m q j.
Hypothesis Hzero : forall j, is_idx j -> entry_at p2v m' n j = 0.

Lemma link_next_same q j :
  q ∈ T -> is_idx j -> (q, j) <> (p, i) -> next_table p2v m' q j = next_table p2v m q j.
Proof. intros. unfold next_table. by rewrite Hsame. Qed.

Lemma link_next_new : next_table p2v m' p i = Some n.
Proof. unfold next_table. by rewrite Hentry, Hpresent, Hnothuge, Haddr. Qed.

Lemma link_next_zero j : is_idx j -> next_table p2v m' n j = None.
Proof. intros Hj. unfold next_table. by rewrite Hzero, has_flag_zero. Qed.

Lemma link_old_none : walk p2v m root (l ++ [i]) = None.
Proof. rewrite walk_snoc, Hp. exact Habsent. Qed.

Lemma link_walk l' :
  good_path l' ->
  walk p2v m' root l' = if decide (l' = l ++ [i]) then Some n else walk p2v m root l'.
Proof.
  induction l' as [|j l0 IH] using rev_ind; intros Hg.
  { case_decide as Hd; [|done]. symmetry in Hd. by apply app_nil in Hd as [_ ?]. }
  rewrite !walk_snoc, IH by by eapply good_path_init.
  apply good_path_snoc in Hg as (Hg0 & Hj & Hlen).
  case_decide as Hd; [subst l0|].
  - rewrite link_old_none. cbn. rewrite link_next_zero by done.
    rewrite decide_False; [done|]. intros Heq. apply (f_equal length) in Heq.
    rewrite !length_app in Heq. cbn in Heq. lia.
  - destruct (walk p2v m root l0) as [q|] eqn:Hq; cbn.
    2:{ rewrite decide_False; [done|]. intros [-> ->]%app_inj_tail. congruence. }
    assert (good_path l0) by (split; [done|lia]).
    assert (q ∈ T) by in_tables Hwf.
    destruct (decide ((q, j) = (p, i))) as [[= -> ->]|Hne].
    + rewrite link_next_new.
      assert (l0 = l) as ->.
      { same_walk Hwf. }
      by rewrite decide_True.
    + rewrite link_next_same by done. rewrite decide_False; [done|].
      intros [-> ->]%app_inj_tail. apply Hne. congruence.
Qed.

Lemma link_wf : pt_wf limit p2v root ({[n]} ∪ T) m'.
Proof.
  split.
  - apply elem_of_union_r, Hwf.
  - intros q [->%elem_of_singleton|Hq]%elem_of_union; [done|by apply (pt_frames _ _ _ _ _ Hwf)].
  - intros l' q Hg Hw. rewrite link_walk in Hw by done. case_decide; simplify_eq; [set_solver|].
    apply elem_of_union_r. in_tables Hwf.
  - intros l1 l2 q Hg1 Hg2 H1 H2. rewrite link_walk in H1, H2 by done.
    repeat case_decide; simplify_eq; try done.
    + exfalso. apply Hnew. in_tables Hwf.
    + exfalso. apply Hnew. in_tables Hwf.
    + same_walk Hwf.
  - intros l' q j Hg Hlen Hj Hw Hpr. rewrite link_walk in Hw by done. case_decide; simplify_eq.
    + rewrite Hzero, has_flag_zero in Hpr by done. done.
    + assert (q ∈ T) by in_tables Hwf.
      destruct (decide ((q, j) = (p, i))) as [[= -> ->]|Hne]; [congruence|].
      rewrite Hsame in * by done. by eapply (pt_no_huge _ _ _ _ _ Hwf).
Qed.

Lemma link_xlate va : xlate p2v m' root va = xlate p2v m root va.
Proof.
  unfold xlate. rewrite link_walk by apply path_of_good. case_decide as Hd.
  - rewrite Hd, link_old_none. cbn. rewrite Hzero by apply idx_pt_range. by rewrite has_flag_zero.
  - destruct (walk p2v m root (path_of va)) as [q|] eqn:Hq; cbn; [|done].
    assert (q ∈ T) by in_tables Hwf.
    rewrite Hsame; [done|done|apply idx_pt_range|]. intros [= -> _].
    assert (path_of va = l) as Heq.
    { same_walk Hwf. }
    apply good_path_snoc in Hl as (_ & _ & Hlen). rewrite <- Heq in Hlen. cbn in Hlen. lia.
Qed.
End link.

(** Writing an entry of a last-level table changes the translation of one page. *)
Section leaf.
Context (root : Z) (T : gset Z) (m m' : mem) (l : list Z) (pt i e : Z).
Hypothesis Hwf : pt_wf limit p2v root T m.
Hypothesis Hl : good_path l.
Hypothesis Hlen : length l = 3%nat.
Hypothesis Hpt : walk p2v m root l = Some pt.
Hypothesis Hentry : entry_at p2v m' pt i = e.
Hypothesis Hsame : forall q j, q ∈ T -> is_idx j -> (q, j) <> (pt, i) ->
  entry_at p2v m' q j = entry_at p2v m q j.

(** Tables above the last level are not the one written to. *)
Lemma leaf_not_inner l0 q j :
  good_path l0 -> (length l0 < 3)%nat -> walk p2v m root l0 = Some q -> (q, j) <> (pt, i).
Proof.
  intros Hg H0 Hq [= -> _]. assert (l0 = l) as -> by same_walk Hwf. lia.
Qed.

Lemma leaf_walk l' : good_path l' -> walk p2v m' root l' = walk p2v m root l'.
Proof.
  induction l' as [|j l0 IH] using rev_ind; intros Hg; [done|].
  rewrite !walk_snoc, IH by by eapply good_path_init.
  pose proof (good_path_init _ _ Hg) as Hg0. apply good_path_snoc in Hg as (_ & Hj & H0).
  destruct (walk p2v m root l0) as [q|] eqn:Hq; cbn; [|done].
  unfold next_table. rewrite Hsame; [done| |done|].
  - in_tables Hwf.
  - by eapply leaf_not_inner.
Qed.

Lemma leaf_wf : pt_wf limit p2v root T m'.
Proof.
  split; try apply Hwf.
  - intros l' q Hg Hw. rewrite leaf_walk in Hw by done. in_tables Hwf.
  - intros l1 l2 q Hg1 Hg2 H1 H2. rewrite leaf_walk in H1, H2 by done. same_walk Hwf.
  - intros l' q j Hg H0 Hj Hw Hpr. rewrite leaf_walk in Hw by done.
    assert (q ∈ T) by in_tables Hwf.
    assert ((q, j) <> (pt, i)) by by eapply leaf_not_inner.
    rewrite Hsame in * by done. by eapply (pt_no_huge _ _ _ _ _ Hwf).
Qed.

Lemma leaf_xlate va :
  xlate p2v m' root va =
    if decide (path_of va = l /\ idx_pt va = i) then
      if has_flag e VMM_PTE_PRESENT
      then Some (Z.land e VMM_PTE_ADDR_MASK, Z.land e (not64 VMM_PTE_ADDR_MASK)) else None
    else xlate p2v m root va.
Proof.
  unfold xlate. rewrite leaf_walk by apply path_of_good. case_decide as Hd.
  - destruct Hd as [Hd <-]. rewrite Hd, Hpt. cbn. by rewrite Hentry.
  - destruct (walk p2v m root (path_of va)) as [q|] eqn:Hq; cbn; [|done].
    rewrite Hsame; [done| |apply idx_pt_range|].
    + in_tables Hwf.
    + intros [= -> Hi]. apply Hd. split; [|done].
      same_walk Hwf.
Qed.
End leaf.
End trees.

(** * Lemmas: the manager over an allocator and a window *)

Section manager.
Context {A : Type} {limit : Z} {p2v : Z -> Z}.
Context `{FA : FrameAllocator A limit} `{PW : PhysWindow limit p2v}.
Context (root : Z).

(** The space under study. *)
Definition the_space : vmm_space A := mk_space root (Ref fa_alloc) (Ref fa_free) (Ref p2v).

(** The tables of the tree and the frames of the allocator are disjoint. *)
Definition world_ok (T : gset Z) (w : vmm_world A) : Prop :=
  pt_wf limit p2v root T (wmem w) /\ fa_inv (wctx w) /\ T ## fa_avail (wctx w).

Definition vmm_inv (w : vmm_world A) : Prop := exists T, world_ok T w.

(** [w'] has all the tables of [w] and the same address space. *)
Definition extends (w w' : vmm_world A) : Prop :=
  invalidated w' = invalidated w /\
  (forall va, xlate p2v (wmem w') root va = xlate p2v (wmem w) root va) /\
  (forall l q, good_path l -> walk p2v (wmem w) root l = Some q -> walk p2v (wmem w') root l = Some q) /\
  (supervisor_root p2v (wmem w) root -> supervisor_root p2v (wmem w') root).

#[export] Instance extends_preorder : PreOrder extends.
Proof.
  split.
  - intros w. unfold extends. auto.
  - intros w1 w2 w3 (I1 & X1 & W1 & S1) (I2 & X2 & W2 & S2). split_and!; [congruence| |auto..].
    intros va. by rewrite X2, X1.
Qed.

Lemma frame_addr_bound p : frame_addr limit p -> 0 <= p < 2 ^ 52 /\ p mod 4096 = 0.
Proof. intros [Hp Ha]. pose proof (pw_limit (PhysWindow := PW)). lia. Qed.

Lemma entry_store_same m p i v :
  is_u64 v -> entry_at p2v (store64 m (p2v p + 8 * i) v) p i = v.
Proof. apply load64_store64_same. Qed.

Lemma entry_store_other m p i q j v :
  frame_addr limit p -> frame_addr limit q -> is_idx i -> is_idx j -> (q, j) <> (p, i) ->
  entry_at p2v (store64 m (p2v p + 8 * i) v) q j = entry_at p2v m q j.
Proof.
  intros Hp Hq Hi Hj Hne. unfold is_idx in *. apply load64_store64_other.
  destruct (Z.eq_dec q p) as [->|Hqp].
  - assert (j <> i) by congruence. lia.
  - destruct (pw_disjoint q p Hq Hp Hqp); lia.
Qed.

Lemma zero_entries_out n : forall i m page a,
  a + 8 <= page + 8 * i \/ page + 8 * (i + Z.of_nat n) <= a ->
  load64 (zero_entries n i m page) a = load64 m a.
Proof.
  induction n as [|n IH]; intros i m page a H; cbn [zero_entries]; [done|].
  rewrite IH by lia. apply load64_store64_other. lia.
Qed.

Lemma zero_entries_at n : forall i m page k,
  i <= k < i + Z.of_nat n -> load64 (zero_entries n i m page) (page + 8 * k) = 0.
Proof.
  induction n as [|n IH]; intros i m page k Hk; [lia|]. cbn [zero_entries].
  destruct (Z.eq_dec k i) as [->|]; [|apply IH; lia].
  rewrite zero_entries_out by lia. apply load64_store64_same. unfold is_u64. lia.
Qed.

Lemma zero_page_same m n j : is_idx j -> entry_at p2v (vmm_zero_page m (p2v n)) n j = 0.
Proof. intros Hj. unfold is_idx in *. apply zero_entries_at. change (Z.of_nat _) with 512. lia. Qed.

Lemma zero_page_other m n q j :
  frame_addr limit n -> frame_addr limit q -> is_idx j -> q <> n ->
  entry_at p2v (vmm_zero_page m (p2v n)) q j = entry_at p2v m q j.
Proof.
  intros Hn Hq Hj Hne. unfold is_idx in *. apply zero_entries_out. change (Z.of_nat _) with 512.
  destruct (pw_disjoint q n Hq Hn Hne); lia.
Qed.

Lemma table_from_frame p : frame_addr limit p -> table_from_phys (Ref the_space) p = p2v p.
Proof.
  intros [_ Ha]. unfold table_from_phys. cbn. assert (vmm_is_aligned_4k p = true) as -> by by apply aligned_4k_spec. done.
Qed.

Lemma table_nonnull p : frame_addr limit p -> (p2v p =? 0) = false.
Proof. intros Hp. apply Z.eqb_neq. by apply pw_nonnull. Qed.

(** The entry that links a new table. *)
Lemma inner_entry n :
  frame_addr limit n ->
  let e := Z.lor (Z.lor (Z.land n VMM_PTE_ADDR_MASK) VMM_PTE_PRESENT) VMM_PTE_WRITABLE in
  is_u64 e /\ Z.land e VMM_PTE_ADDR_MASK = n /\
  has_flag e VMM_PTE_PRESENT = true /\ has_flag e VMM_PTE_HUGE = false /\
  has_flag e VMM_PTE_USER = false.
Proof.
  intros (Hn & Ha)%frame_addr_bound. cbn zeta. rewrite land_addr_mask, <- Z.lor_assoc by done.
  destruct (entry_fields n (Z.lor VMM_PTE_PRESENT VMM_PTE_WRITABLE)) as (H1 & H2 & _ & H3);
    [done|done|split; vm_compute; congruence|done|].
  split_and!; [done|done|apply (H3 0); lia|apply (H3 7); lia|apply (H3 2); lia].
Qed.

Lemma avail_frame w T p :
  world_ok T w -> p ∈ fa_avail (wctx w) -> frame_addr limit p /\ p ∉ T.
Proof.
  intros (_ & Hi & Hd) Hp. split; [by eapply fa_avail_frames|set_solver].
Qed.

(** One step of [vmm_map_page] towards the last-level table. *)
Lemma get_or_alloc_spec w T l p i :
  world_ok T w -> good_path (l ++ [i]) -> walk p2v (wmem w) root l = Some p ->
  exists rc out w', get_or_alloc_next_table the_space w (p2v p) i = Some (rc, out, w') /\
    vmm_inv w' /\ extends w w' /\
    (size (fa_avail (wctx w)) <= S (size (fa_avail (wctx w'))))%nat /\
    ((rc = VMM_MAP_OK /\ exists q, out = p2v q /\ walk p2v (wmem w') root (l ++ [i]) = Some q) \/
     (rc = VMM_ERR_NOMEM /\ fa_avail (wctx w) = ∅ /\ walk p2v (wmem w) root (l ++ [i]) = None)).
Proof.
  intros Hok Hl Hp. pose proof Hok as (Hwf & Hinv & Hdisj).
  pose proof (good_path_init _ _ Hl) as Hl0. pose proof Hl as (_ & Hi & Hlen)%good_path_snoc.
  assert (Hpt : p ∈ T) by in_tables Hwf. pose proof (pt_frames _ _ _ _ _ Hwf p Hpt) as Hpf.
  unfold get_or_alloc_next_table. change (load64 (wmem w) (p2v p + 8 * i)) with (entry_at p2v (wmem w) p i).
  destruct (has_flag (entry_at p2v (wmem w) p i) VMM_PTE_PRESENT) eqn:Hpr.
  - (* the entry designates a table *)
    assert (Hh : has_flag (entry_at p2v (wmem w) p i) VMM_PTE_HUGE = false)
      by by eapply (pt_no_huge _ _ _ _ _ Hwf). rewrite Hh.
    set (q := Z.land (entry_at p2v (wmem w) p i) VMM_PTE_ADDR_MASK).
    assert (Hq : walk p2v (wmem w) root (l ++ [i]) = Some q)
      by (rewrite walk_snoc, Hp; cbn; unfold next_table; by rewrite Hpr, Hh).
    assert (q ∈ T) by in_tables Hwf. assert (frame_addr limit q) by by apply (pt_frames _ _ _ _ _ Hwf).
    rewrite table_from_frame, table_nonnull by done.
    exists VMM_MAP_OK, (p2v q), w. split_and!; [done|by exists T|reflexivity|lia|]. left. eauto.
  - cbn -[entry_at]. destruct (fa_alloc_ok (wctx w) Hinv) as (r & c & -> & Hc & Hr). cbn -[table_from_phys].
    assert (Hnone : next_table p2v (wmem w) p i = None) by (unfold next_table; by rewrite Hpr).
    destruct Hr as [(He & -> & He')|(Hr & Havail)].
    + (* no frame left *)
      eexists _, _, _. split; [done|]. cbn. split_and!.
      * exists T. split_and!; cbn; [done|done|]. rewrite He'. set_solver.
      * unfold extends. auto.
      * rewrite He, size_empty. lia.
      * right. rewrite walk_snoc, Hp. auto.
    + (* a fresh table is linked *)
      destruct (avail_frame w T r Hok Hr) as [Hrf HrT]. pose proof (frame_addr_bound r Hrf) as [Hrb Hra].
      unfold VMM_INVALID_PHYS. rw_false (r =? 0xffffffffffffffff).
      assert (vmm_is_aligned_4k r = true) as -> by by apply aligned_4k_spec. cbn [negb orb].
      rewrite table_from_frame, table_nonnull by done.
      destruct (inner_entry r Hrf) as (Heu & Hea & Hep & Heh & Hes).
      set (e := Z.lor _ VMM_PTE_WRITABLE) in *.
      set (m1 := vmm_zero_page (wmem w) (p2v r)).
      assert (Hsame : forall q j, q ∈ T -> is_idx j -> (q, j) <> (p, i) ->
        entry_at p2v (store64 m1 (p2v p + 8 * i) e) q j = entry_at p2v (wmem w) q j).
      { intros q j Hq Hj Hne. pose proof (pt_frames _ _ _ _ _ Hwf q Hq).
        rewrite entry_store_other by done. apply zero_page_other; auto. congruence. }
      assert (Hzero : forall j, is_idx j -> entry_at p2v (store64 m1 (p2v p + 8 * i) e) r j = 0).
      { intros j Hj. rewrite entry_store_other by (done || congruence). by apply zero_page_same. }
      assert (Hent : entry_at p2v (store64 m1 (p2v p + 8 * i) e) p i = e) by by apply entry_store_same.
      eexists _, _, _. split; [done|]. cbn. split_and!.
      * exists ({[r]} ∪ T). split_and!; cbn; [eapply link_wf; eauto|done|]. rewrite Havail. set_solver.
      * split_and!; cbn; [done| | |].
        -- intros va. eapply link_xlate; eauto.
        -- intros l' q Hg Hq. rewrite (link_walk limit p2v root T (wmem w) _ l p i r e) by done.
           case_decide; [|done]. subst l'. rewrite walk_snoc, Hp in Hq. cbn in Hq. congruence.
        -- intros Hsup j Hj. destruct (decide ((root, j) = (p, i))) as [[= -> ->]|Hne].
           ++ by rewrite Hent.
           ++ rewrite Hsame by (try apply Hwf; done). by apply Hsup.
      * rewrite Havail, size_difference, size_singleton by set_solver. lia.
      * left. split; [done|]. exists r. split; [done|].
        rewrite (link_walk limit p2v root T (wmem w) _ l p i r e) by done. by rewrite decide_True.
Qed.

Lemma leaf_flags_range fl :
  0 <= fl -> 0 <= leaf_flags fl < 2 ^ 64 /\ Z.land (leaf_flags fl) VMM_PTE_ADDR_MASK = 0 /\
  Z.testbit (leaf_flags fl) 0 = true.
Proof.
  intros Hfl. unfold leaf_flags. split_and!.
  - apply Z.lor_nonneg. split; [done|]. apply Z.land_nonneg. auto.
  - assert (Z.lor VMM_PTE_PRESENT (Z.land fl vmm_map_allowed) =
      Z.lor VMM_PTE_PRESENT (Z.land fl vmm_map_allowed) mod 2 ^ 64) as ->.
    { rewrite <- Z.land_ones, Z.land_lor_distr_l, <- Z.land_assoc by lia. done. }
    apply Z.mod_pos_bound. lia.
  - rewrite Z.land_lor_distr_l, <- Z.land_assoc.
    change (Z.land vmm_map_allowed VMM_PTE_ADDR_MASK) with 0. by rewrite Z.land_0_r.
  - by rewrite Z.lor_spec.
Qed.

(** The entry that maps a page. *)
Lemma leaf_entry pa fl :
  0 <= pa < 2 ^ 52 -> pa mod 4096 = 0 -> 0 <= fl ->
  let e := Z.lor (Z.lor (Z.land pa VMM_PTE_ADDR_MASK) VMM_PTE_PRESENT) (Z.land fl vmm_map_allowed) in
  is_u64 e /\ Z.land e VMM_PTE_ADDR_MASK = pa /\
  Z.land e (not64 VMM_PTE_ADDR_MASK) = leaf_flags fl /\ has_flag e VMM_PTE_PRESENT = true.
Proof.
  intros Hpa Ha Hfl. cbn zeta. rewrite land_addr_mask, <- Z.lor_assoc by done.
  destruct (leaf_flags_range fl Hfl) as (Hr & Hd & Hb).
  destruct (entry_fields pa (leaf_flags fl)) as (H1 & H2 & H3 & H4); [done..|].
  split_and!; [done..|]. rewrite <- Hb. apply (H4 0). lia.
Qed.

Lemma walk_app_none m p l l' : walk p2v m p l = None -> walk p2v m p (l ++ l') = None.
Proof.
  revert p. induction l as [|i l IH]; intros p H; cbn in *; [done|].
  destruct (next_table p2v m p i); cbn in *; auto.
Qed.

Lemma descend_spec m p i :
  (forall q, next_table p2v m p i = Some q -> frame_addr limit q) ->
  descend (Ref the_space) m (p2v p) i =
    match next_table p2v m p i with Some q => inl (p2v q) | None => inr VMM_ERR_NOT_FOUND end.
Proof.
  intros Hq. unfold descend, next_table in *.
  change (load64 m (p2v p + 8 * i)) with (entry_at p2v m p i).
  destruct (has_flag (entry_at p2v m p i) VMM_PTE_PRESENT); cbn [andb negb orb] in *; [|done].
  destruct (has_flag (entry_at p2v m p i) VMM_PTE_HUGE); cbn [andb negb orb] in *; [done|].
  specialize (Hq _ eq_refl). by rewrite table_from_frame, table_nonnull.
Qed.

Lemma find_pt_spec T m va :
  pt_wf limit p2v root T m ->
  find_pt (Ref the_space) root m va =
    match walk p2v m root (path_of va) with
    | Some pt => inl (p2v pt)
    | None => inr VMM_ERR_NOT_FOUND
    end.
Proof.
  intros Hwf. pose proof (path_of_good va) as [Hidx _].
  assert (Hreach : forall l p, good_path l -> walk p2v m root l = Some p -> frame_addr limit p).
  { intros l p Hg Hw. apply (pt_frames _ _ _ _ _ Hwf). in_tables Hwf. }
  unfold find_pt, path_of in *. apply Forall_cons in Hidx as [H4 Hidx].
  apply Forall_cons in Hidx as [H3 Hidx]. apply Forall_cons in Hidx as [H2 _].
  pose proof (Hreach [] root good_path_nil eq_refl) as Hr0.
  rewrite table_from_frame, table_nonnull by done.
  assert (Hg1 : good_path [idx_pml4 va]) by (split; [by forall_cons|cbn; lia]).
  assert (Hg2 : good_path [idx_pml4 va; idx_pdpt va]) by (split; [by forall_cons|cbn; lia]).
  assert (Hg3 : good_path [idx_pml4 va; idx_pdpt va; idx_pd va]) by (split; [by forall_cons|cbn; lia]).
  cbn [walk]. rewrite descend_spec.
  2:{ intros q Hq. apply (Hreach _ q Hg1). cbn. by rewrite Hq. }
  destruct (next_table p2v m root (idx_pml4 va)) as [p3|] eqn:E3; cbn [mbind option_bind]; [|done].
  rewrite descend_spec.
  2:{ intros q Hq. apply (Hreach _ q Hg2). cbn. rewrite E3. cbn. by rewrite Hq. }
  destruct (next_table p2v m p3 (idx_pdpt va)) as [p2|] eqn:E2; cbn [mbind option_bind]; [|done].
  rewrite descend_spec.
  2:{ intros q Hq. apply (Hreach _ q Hg3). cbn. rewrite E3. cbn. rewrite E2. cbn. by rewrite Hq. }
  destruct (next_table p2v m p2 (idx_pd va)) as [p1|] eqn:E1; done.
Qed.

Lemma query_spec w va out :
  vmm_inv w -> page_addr va ->
  vmm_query_page (Ref the_space) w va (Ref out) =
    match xlate p2v (wmem w) root va with
    | Some (pa, fl) => (VMM_MAP_OK, Ref (mk_mapping va pa fl))
    | None => (VMM_ERR_NOT_FOUND, Ref out)
    end.
Proof.
  intros (T & Hwf & _) (_ & Hc & Ha). unfold vmm_query_page, xlate. rewrite Hc, Ha. cbn [negb orb is_null].
  change (root_paddr the_space) with root. rewrite (find_pt_spec T) by done.
  destruct (walk p2v (wmem w) root (path_of va)) as [pt|]; cbn [mbind option_bind]; [|done].
  change (load64 (wmem w) (p2v pt + 8 * idx_pt va)) with (entry_at p2v (wmem w) pt (idx_pt va)).
  by destruct (has_flag _ _).
Qed.

(** The page that a leaf entry of [va] belongs to is [va]. *)
Lemma same_page va va' :
  page_addr va -> page_addr va' -> (path_of va' = path_of va /\ idx_pt va' = idx_pt va) <-> va' = va.
Proof. intros Hva Hva'. split; [intros [? ?]; by apply indices_inj|by intros ->]. Qed.

Lemma leaf_store w T va pt e :
  world_ok T w -> page_addr va -> walk p2v (wmem w) root (path_of va) = Some pt -> is_u64 e ->
  let m' := store64 (wmem w) (p2v pt + 8 * idx_pt va) e in
  pt_wf limit p2v root T m' /\
  (supervisor_root p2v (wmem w) root -> supervisor_root p2v m' root) /\
  forall va', page_addr va' -> xlate p2v m' root va' =
    if decide (va' = va) then
      if has_flag e VMM_PTE_PRESENT
      then Some (Z.land e VMM_PTE_ADDR_MASK, Z.land e (not64 VMM_PTE_ADDR_MASK)) else None
    else xlate p2v (wmem w) root va'.
Proof.
  intros (Hwf & _ & _) Hva Hpt He m'.
  assert (HptT : pt ∈ T) by in_tables Hwf.
  assert (Hsame : forall q j, q ∈ T -> is_idx j -> (q, j) <> (pt, idx_pt va) ->
    entry_at p2v m' q j = entry_at p2v (wmem w) q j).
  { intros q j Hq Hj Hne. apply entry_store_other; auto using idx_pt_range; by apply (pt_frames _ _ _ _ _ Hwf). }
  assert (Hent : entry_at p2v m' pt (idx_pt va) = e) by by apply entry_store_same.
  split; [by eapply leaf_wf; eauto using path_of_good|]. split.
  { intros Hsup j Hj. rewrite Hsame; [by apply Hsup|apply Hwf|done|].
    eapply leaf_not_inner; [exact Hwf|apply path_of_good|done|exact Hpt|exact good_path_nil|cbn; lia|done]. }
  intros va' Hva'. erewrite (leaf_xlate limit p2v root T (wmem w) m' (path_of va)); eauto using path_of_good.
  destruct (decide (va' = va)) as [->|Hne]; [by rewrite decide_True|].
  rewrite decide_False; [done|]. by rewrite same_page.
Qed.

(** What the caller of [vmm_map_page] observes when no page has been mapped. *)
Definition map_failed (w w' : vmm_world A) (va rc : Z) : Prop :=
  extends w w' /\
  ((rc = VMM_ERR_EXISTS /\ xlate p2v (wmem w) root va <> None) \/
   (rc = VMM_ERR_NOMEM /\ xlate p2v (wmem w) root va = None /\ (size (fa_avail (wctx w)) < 3)%nat)).

(** The page tables of a mapped page already exist. *)
Lemma xlate_none_prefix m va l l' :
  path_of va = l ++ l' -> walk p2v m root l = None -> xlate p2v m root va = None.
Proof. intros Hl Hw. unfold xlate. rewrite Hl, walk_app_none; done. Qed.

(** The three calls of [get_or_alloc_next_table] in [vmm_map_page], then [k] on the
    last-level table. *)
Definition map_tables (w : vmm_world A) (va : Z)
    (k : Z -> vmm_world A -> option (Z * vmm_world A)) : option (Z * vmm_world A) :=
  '(rc, pdpt, w) ← get_or_alloc_next_table the_space w (p2v root) (idx_pml4 va);
  if negb (rc =? VMM_MAP_OK) then Some (rc, w) else
  '(rc, pd, w) ← get_or_alloc_next_table the_space w pdpt (idx_pdpt va);
  if negb (rc =? VMM_MAP_OK) then Some (rc, w) else
  '(rc, pt, w) ← get_or_alloc_next_table the_space w pd (idx_pd va);
  if negb (rc =? VMM_MAP_OK) then Some (rc, w) else k pt w.

Lemma map_tables_spec w va k :
  vmm_inv w ->
  (exists w', map_tables w va k = Some (VMM_ERR_NOMEM, w') /\ vmm_inv w' /\
     map_failed w w' va VMM_ERR_NOMEM) \/
  (exists pt w', map_tables w va k = k (p2v pt) w' /\ vmm_inv w' /\ extends w w' /\
     walk p2v (wmem w') root (path_of va) = Some pt).
Proof.
  intros (T0 & Hok0). pose proof (path_of_good va) as [Hidx _]. unfold path_of in Hidx.
  apply Forall_cons in Hidx as [H4 Hidx]. apply Forall_cons in Hidx as [H3 Hidx].
  apply Forall_cons in Hidx as [H2 _]. unfold map_tables.
  destruct (get_or_alloc_spec w T0 [] root (idx_pml4 va))
    as (rc1 & t1 & w1 & -> & (T1 & Hok1) & Hx1 & Hs1 & Hr1);
    [done|apply (good_path_snoc []); split_and!; [done|done|cbn; lia]|done|]. cbn [mbind option_bind app] in *.
  destruct Hr1 as [(-> & q1 & -> & Hw1)|(-> & He & Hw1)]; cbn -[get_or_alloc_next_table].
  2:{ left. exists w1. split_and!; [done|by exists T1|]. split; [done|]. right. split_and!; [done| |rewrite He, size_empty; lia].
      by apply (xlate_none_prefix _ va [idx_pml4 va] [idx_pdpt va; idx_pd va]). }
  destruct (get_or_alloc_spec w1 T1 [idx_pml4 va] q1 (idx_pdpt va))
    as (rc2 & t2 & w2 & -> & (T2 & Hok2) & Hx2 & Hs2 & Hr2);
    [done|apply good_path_snoc; split_and!; [by forall_cons|done|cbn; lia]|done|]. cbn [mbind option_bind app] in *.
  destruct Hr2 as [(-> & q2 & -> & Hw2)|(-> & He & Hw2)]; cbn -[get_or_alloc_next_table].
  2:{ left. exists w2. split_and!; [done|by exists T2|]. split; [by transitivity w1|]. right.
      split_and!; [done| |rewrite He, size_empty in Hs1; lia].
      rewrite <- (proj1 (proj2 Hx1)).
      by apply (xlate_none_prefix _ va [idx_pml4 va; idx_pdpt va] [idx_pd va]). }
  destruct (get_or_alloc_spec w2 T2 [idx_pml4 va; idx_pdpt va] q2 (idx_pd va))
    as (rc3 & t3 & w3 & -> & (T3 & Hok3) & Hx3 & Hs3 & Hr3);
    [done|apply good_path_snoc; split_and!; [by forall_cons|done|cbn; lia]|done|]. cbn [mbind option_bind app] in *.
  assert (Hx13 : extends w w3) by (transitivity w1; [done|by transitivity w2]).
  destruct Hr3 as [(-> & q3 & -> & Hw3)|(-> & He & Hw3)]; cbn -[get_or_alloc_next_table].
  2:{ left. exists w3. split_and!; [done|by exists T3|]. split; [done|]. right.
      split_and!; [done| |rewrite He, size_empty in Hs2; lia].
      rewrite <- (proj1 (proj2 Hx1)), <- (proj1 (proj2 Hx2)).
      by apply (xlate_none_prefix _ va (path_of va) []). }
  right. exists q3, w3. split_and!; [done|by exists T3|done|done].
Qed.

(** The outcomes of [vmm_map_page] on well-formed arguments. *)
Lemma map_spec w va pa fl :
  vmm_inv w -> page_addr va -> 0 <= pa < 2 ^ 52 -> pa mod 4096 = 0 -> 0 <= fl ->
  exists rc w', vmm_map_page (Ref the_space) w va pa fl = Some (rc, w') /\ vmm_inv w' /\
    (map_failed w w' va rc \/
     (rc = VMM_MAP_OK /\ invalidated w' = invalidated w /\ xlate p2v (wmem w) root va = None /\
      (supervisor_root p2v (wmem w) root -> supervisor_root p2v (wmem w') root) /\
      forall va', page_addr va' -> xlate p2v (wmem w') root va' =
        if decide (va' = va) then Some (pa, leaf_flags fl) else xlate p2v (wmem w) root va')).
Proof.
  intros Hinv Hva Hpa Hpaa Hfl. pose proof Hva as (_ & Hc & Ha). unfold vmm_map_page.
  rewrite Hc, Ha. assert (vmm_is_aligned_4k pa = true) as -> by by apply aligned_4k_spec. cbn [negb orb].
  assert (Hroot : frame_addr limit root).
  { destruct Hinv as (T & Hwf & _). apply (pt_frames _ _ _ _ _ Hwf), Hwf. }
  change (root_paddr the_space) with root. rewrite table_from_frame, table_nonnull by done.
  match goal with |- context [get_or_alloc_next_table _ _ _ _ ≫= ?f] =>
    change (get_or_alloc_next_table the_space w (p2v root) (idx_pml4 va) ≫= f) with
      (map_tables w va (fun pt w =>
        if has_flag (load64 (wmem w) (pt + 8 * idx_pt va)) VMM_PTE_PRESENT then Some (VMM_ERR_EXISTS, w)
        else Some (VMM_MAP_OK, set_mem w (store64 (wmem w) (pt + 8 * idx_pt va)
                (Z.lor (Z.lor (Z.land pa VMM_PTE_ADDR_MASK) VMM_PTE_PRESENT)
                   (Z.land fl vmm_map_allowed)))))) end.
  destruct (leaf_entry pa fl) as (Heu & Hea & Hef & Hep); [done..|].
  match goal with |- context [map_tables w va ?k] => destruct (map_tables_spec w va k Hinv)
    as [(w' & -> & Hinv' & Hfail)|(pt & w' & -> & (T & Hok) & Hx & Hw)] end.
  { exists VMM_ERR_NOMEM, w'. auto. }
  change (load64 (wmem w') (p2v pt + 8 * idx_pt va)) with (entry_at p2v (wmem w') pt (idx_pt va)).
  assert (Hxl : xlate p2v (wmem w') root va =
    if has_flag (entry_at p2v (wmem w') pt (idx_pt va)) VMM_PTE_PRESENT
    then Some (Z.land (entry_at p2v (wmem w') pt (idx_pt va)) VMM_PTE_ADDR_MASK,
               Z.land (entry_at p2v (wmem w') pt (idx_pt va)) (not64 VMM_PTE_ADDR_MASK)) else None)
    by (unfold xlate; by rewrite Hw).
  pose proof Hx as (Hi & Hxs & _ & Hsup). rewrite Hxs in Hxl.
  destruct (has_flag (entry_at p2v (wmem w') pt (idx_pt va)) VMM_PTE_PRESENT).
  - exists VMM_ERR_EXISTS, w'. split_and!; [done|by exists T|]. left. split; [done|]. left.
    split; [done|]. by rewrite Hxl.
  - eexists _, _. split; [done|].
    destruct (leaf_store w' T va pt _ Hok Hva Hw Heu) as (Hwf' & Hsup' & Hx').
    split; [|right; split_and!; [done|done|done|auto|]].
    + exists T. destruct Hok as (_ & ? & ?). by split_and!.
    + intros va' Hva'. cbn [wmem set_mem]. rewrite Hx' by done. rewrite Hxs, Hep, Hea, Hef. done.
Qed.

(** The outcomes of [vmm_unmap_page]. *)
Lemma unmap_spec w va :
  vmm_inv w -> page_addr va ->
  match xlate p2v (wmem w) root va with
  | None => vmm_unmap_page (Ref the_space) w va = (VMM_ERR_NOT_FOUND, w)
  | Some _ => exists w', vmm_unmap_page (Ref the_space) w va = (VMM_MAP_OK, w') /\ vmm_inv w' /\
      wctx w' = wctx w /\ invalidated w' = va :: invalidated w /\
      forall va', page_addr va' -> xlate p2v (wmem w') root va' =
        if decide (va' = va) then None else xlate p2v (wmem w) root va'
  end.
Proof.
  intros (T & Hok) Hva. pose proof Hva as (_ & Hc & Ha). pose proof Hok as (Hwf & Hi & Hd).
  unfold vmm_unmap_page. rewrite Hc, Ha. cbn [negb orb].
  change (root_paddr the_space) with root. rewrite (find_pt_spec T) by done. unfold xlate at 1.
  destruct (walk p2v (wmem w) root (path_of va)) as [pt|] eqn:Hw; cbn [mbind option_bind]; [|done].
  change (load64 (wmem w) (p2v pt + 8 * idx_pt va)) with (entry_at p2v (wmem w) pt (idx_pt va)).
  destruct (has_flag (entry_at p2v (wmem w) pt (idx_pt va)) VMM_PTE_PRESENT); cbn [negb]; [|done].
  eexists. split; [done|]. destruct (leaf_store w T va pt 0 Hok Hva Hw) as (Hwf' & Hsup' & Hx'); [done|].
  split_and!; [by exists T|done|done|].
  intros va' Hva'. cbn [wmem set_mem vmm_invalidate_page]. rewrite Hx' by done. by rewrite has_flag_zero.
Qed.

(** A root table of zeros is a well-formed empty address space. *)
Lemma empty_tree m :
  frame_addr limit root -> (forall i, is_idx i -> entry_at p2v m root i = 0) ->
  pt_wf limit p2v root {[root]} m /\ supervisor_root p2v m root /\ forall va, xlate p2v m root va = None.
Proof.
  intros Hr Hz.
  assert (Hn : forall i, is_idx i -> next_table p2v m root i = None).
  { intros i Hi. unfold next_table. by rewrite Hz, has_flag_zero. }
  assert (Hw : forall l p, good_path l -> walk p2v m root l = Some p -> l = [] /\ p = root).
  { intros [|i l] p Hg Hw; [by injection Hw as <-|]. exfalso. cbn in Hw.
    destruct Hg as [Hg%Forall_cons _]. rewrite Hn in Hw by apply Hg. done. }
  split_and!.
  - split.
    + set_solver.
    + intros p ->%elem_of_singleton. done.
    + intros l p Hg Hl. destruct (Hw l p Hg Hl) as [_ ->]. set_solver.
    + intros l1 l2 p H1 H2 W1 W2. destruct (Hw _ _ H1 W1), (Hw _ _ H2 W2). congruence.
    + intros l p i Hg _ Hi Hl Hp. destruct (Hw l p Hg Hl) as [_ ->].
      rewrite Hz, has_flag_zero in Hp by done. done.
  - intros i Hi. by rewrite Hz, has_flag_zero.
  - intros va. unfold xlate. destruct (walk p2v m root (path_of va)) as [p|] eqn:E; [|done].
    destruct (Hw _ _ (path_of_good va) E) as [? _]. done.
Qed.

(** Ill-formed arguments are rejected and change nothing. *)
Lemma bad_page va : is_u64 va ->
  ~ page_addr va -> negb (vmm_is_canonical va) || negb (vmm_is_aligned_4k va) = true.
Proof.
  intros Hu Hb. unfold page_addr in Hb.
  destruct (vmm_is_canonical va), (vmm_is_aligned_4k va); cbn; try done. destruct Hb. auto.
Qed.

#[export] Instance page_addr_dec va : Decision (page_addr va).
Proof. unfold page_addr, is_u64. apply _. Defined.

(** The address space that a world represents. *)
Definition represents (w : vmm_world A) (S : gmap Z (Z * Z)) : Prop :=
  vmm_inv w /\ forall va, page_addr va -> xlate p2v (wmem w) root va = S !! va.

Lemma map_refines w S va pa fl :
  represents w S -> is_u64 va -> 0 <= pa < 2 ^ 52 -> is_u64 fl ->
  exists r w' S', vmm_exec (Ref the_space) w (OpMap va pa fl) = Some (r, w') /\
    space_step S (OpMap va pa fl) r S' /\ represents w' S'.
Proof.
  intros [Hinv Hx] Hu Hpa Hfl. unfold vmm_exec.
  destruct (decide (page_addr va /\ pa mod 4096 = 0)) as [[Hva Ha]|Hbad].
  - destruct (map_spec w va pa fl) as (rc & w' & -> & Hinv' & H); [done..|apply Hfl|]. cbn [mbind option_bind].
    pose proof (Hx va Hva) as Hxva.
    destruct H as [[(_ & Hx' & _) [[-> Hex]|(-> & Hno & _)]]|(-> & _ & Hno & _ & Hx')].
    + eexists _, _, S. split; [done|]. split; [constructor; congruence|].
      split; [done|]. intros. rewrite Hx'. auto.
    + eexists _, _, S. split; [done|]. split; [constructor; congruence|].
      split; [done|]. intros. rewrite Hx'. auto.
    + eexists _, _, _. split; [done|]. split; [constructor; congruence|]. split; [done|].
      intros va' Hva'. rewrite Hx' by done. case_decide as Hd; [subst; by rewrite lookup_insert_eq|].
      rewrite lookup_insert_ne by congruence. auto.
  - exists (VMM_ERR_INVAL, None), w, S. split_and!; [|by constructor|by split].
    unfold vmm_map_page. destruct (decide (page_addr va)) as [Hva|Hva%bad_page]; [|by rewrite Hva|done].
    pose proof Hva as (_ & -> & ->). destruct (vmm_is_aligned_4k pa) eqn:E; [|done].
    apply aligned_4k_spec in E. tauto.
Qed.

Lemma query_refines w S va :
  represents w S -> is_u64 va ->
  exists r S', vmm_exec (Ref the_space) w (OpQuery va) = Some (r, w) /\
    space_step S (OpQuery va) r S' /\ represents w S'.
Proof.
  intros [Hinv Hx] Hu. unfold vmm_exec. destruct (decide (page_addr va)) as [Hva|Hva].
  - rewrite query_spec by done. rewrite Hx by done. destruct (S !! va) as [[pa fl]|] eqn:E.
    + eexists _, S. split; [done|]. split; [by constructor|by split].
    + eexists _, S. split; [done|]. split; [by constructor|by split].
  - eexists _, S. unfold vmm_query_page. cbn [is_null orb]. rewrite bad_page by done.
    split; [done|]. split; [by constructor|by split].
Qed.

Lemma unmap_refines w S va :
  represents w S -> is_u64 va ->
  exists r w' S', vmm_exec (Ref the_space) w (OpUnmap va) = Some (r, w') /\
    space_step S (OpUnmap va) r S' /\ represents w' S'.
Proof.
  intros [Hinv Hx] Hu. unfold vmm_exec. destruct (decide (page_addr va)) as [Hva|Hva].
  - pose proof (unmap_spec w va Hinv Hva) as H. pose proof (Hx va Hva) as Hxva.
    destruct (xlate p2v (wmem w) root va) as [x|] eqn:E.
    + destruct H as (w' & -> & Hinv' & _ & _ & Hx'). eexists _, _, _. split; [done|].
      split; [constructor; congruence|]. split; [done|]. intros va' Hva'. rewrite Hx' by done.
      case_decide; [subst; by rewrite lookup_delete_eq|]. rewrite lookup_delete_ne by congruence. auto.
    + rewrite H. eexists _, _, S. split; [done|]. split; [constructor; congruence|by split].
  - eexists _, _, S. unfold vmm_unmap_page. rewrite bad_page by done.
    split; [done|]. split; [by constructor|by split].
Qed.

(** Runs refine runs of the abstract address space. *)
Lemma run_refines_space w S ops :
  represents w S -> Forall vmm_op_ok ops ->
  exists rs w' S', vmm_run (Ref the_space) w ops = Some (rs, w') /\
    space_run S ops rs S' /\ represents w' S'.
Proof.
  revert w S. induction ops as [|o ops IH]; intros w S Hr Hok.
  { eexists [], w, S. split_and!; [done|constructor|done]. }
  apply Forall_cons in Hok as [Ho Hok].
  assert (exists r w1 S1, vmm_exec (Ref the_space) w o = Some (r, w1) /\ space_step S o r S1 /\
    represents w1 S1) as ([rc x] & w1 & S1 & He & Hstep & Hr1).
  { destruct o as [va pa fl|va|va]; cbn [vmm_op_ok] in Ho.
    - destruct Ho as (? & ? & ?). by apply map_refines.
    - destruct (query_refines w S va Hr Ho) as (r & S1 & ? & ? & ?). by exists r, w, S1.
    - by apply unmap_refines. }
  destruct (IH w1 S1 Hr1 Hok) as (rs & w2 & S2 & Hrun & Hruns & Hr2).
  exists ((rc, x) :: rs), w2, S2. cbn [vmm_run]. rewrite He. cbn [mbind option_bind]. rewrite Hrun.
  split_and!; [done|by econstructor|done].
Qed.

(** User mode reaches no page below a root table without user bits. *)
Lemma supervisor_no_user m va : supervisor_root p2v m root -> user_accessible p2v m root va = false.
Proof.
  intros Hs. unfold user_accessible, path_of. cbn [app user_walk]. rewrite Hs; [done|].
  apply idx_range. lia.
Qed.

End manager.

(** * A small allocator and window, for concrete runs *)

(** A stack of free frames. *)
Definition stack_alloc (l : list Z) : option (Z * list Z) :=
  Some (match l with [] => (no_frame, []) | p :: l => (p, l) end).

Definition stack_free (l : list Z) (p : Z) : option (list Z) :=
  Some (if decide (p ∈ l) then l else p :: l).

#[export] Instance stack_allocator (limit : Z) : FrameAllocator (list Z) limit.
Proof.
  refine {| fa_alloc := stack_alloc; fa_free := stack_free;
            fa_inv := fun l => NoDup l /\ Forall (frame_addr limit) l;
            fa_avail := fun l => list_to_set l |}.
  - intros l p [_ Hl] Hp%elem_of_list_to_set. by eapply Forall_forall.
  - intros [|p l] [Hnd Hl]; (eexists _, _; split; [done|]).
    + split; [done|]. left. done.
    + apply NoDup_cons in Hnd as [Hp Hnd]. apply Forall_cons in Hl as [_ Hl]. split; [done|]. right. set_solver.
  - intros l p [Hnd Hl] Hp. unfold stack_free. case_decide; (eexists; split; [done|]).
    + set_solver.
    + split; [split; [by constructor|by constructor]|set_solver].
Defined.

(** Frame [p] is visible at [0x1000000 + p]. *)
Definition demo_window (p : Z) : Z := 0x1000000 + p.
Definition demo_limit : Z := 0x100000.

#[export] Instance demo_phys_window : PhysWindow demo_limit demo_window.
Proof.
  split; unfold demo_limit, demo_window, frame_addr.
  - lia.
  - intros. lia.
  - intros. Z.div_mod_to_equations. lia.
Qed.

(** Zeroed memory, five free frames, the root table in frame [0x1000]. *)
Definition demo_space : vmm_space (list Z) := the_space (limit := demo_limit) (p2v := demo_window) 0x1000.
Definition demo_world : vmm_world (list Z) :=
  mk_world (fun _ => 0) [0x2000; 0x3000; 0x4000; 0x5000; 0x6000] [].
Definition demo_va : Z := 0xffff800000403000.

Lemma demo_world_inv :
  vmm_inv (limit := demo_limit) (p2v := demo_window) 0x1000 demo_world /\
  supervisor_root demo_window (wmem demo_world) 0x1000 /\
  forall va, xlate demo_window (wmem demo_world) 0x1000 va = None.
Proof.
  destruct (empty_tree (limit := demo_limit) (p2v := demo_window) 0x1000 (wmem demo_world))
    as (Hwf & Hs & Hx); [by vm_compute|done|].
  split_and!; [|done..]. exists {[0x1000]}. split_and!; [done| |].
  - split; [repeat constructor; set_solver|]. forall_cons; by vm_compute.
  - apply (bool_decide_unpack _). by vm_compute.
Qed.

(** * Properties *)

(** C1. The virtual memory manager implements a finite map from pages to frames.
    Over any frame allocator and physical window that meet their interfaces, every
    sequence of map, query and unmap calls on machine arguments runs without undefined
    behaviour, and its statuses and query results are those of a run of the abstract
    address space: a page is mapped once, a query returns the frame and flags given at
    the mapping, unmapping removes that page only, and ill-formed addresses are
    rejected without effect. *)
Theorem vmm_refines_space {A limit p2v} `{FrameAllocator A limit} `{PhysWindow limit p2v} root w S ops :
  represents (limit := limit) (p2v := p2v) root w S -> Forall vmm_op_ok ops ->
  exists rs w' S', vmm_run (Ref (the_space (p2v := p2v) root)) w ops = Some (rs, w') /\
    space_run S ops rs S' /\ represents (limit := limit) (p2v := p2v) root w' S'.
Proof. apply run_refines_space. Qed.

Lemma vmm_refines_space_witness :
  exists rs w' S', vmm_run (Ref demo_space) demo_world
      [OpMap demo_va 0x9000 3; OpQuery demo_va; OpUnmap demo_va; OpQuery demo_va] = Some (rs, w') /\
    space_run ∅ [OpMap demo_va 0x9000 3; OpQuery demo_va; OpUnmap demo_va; OpQuery demo_va] rs S' /\
    represents (limit := demo_limit) (p2v := demo_window) 0x1000 w' S'.
Proof.
  apply (vmm_refines_space (limit := demo_limit) (p2v := demo_window) 0x1000).
  - destruct demo_world_inv as (Hi & _ & Hx). split; [done|]. intros va _. by rewrite Hx.
  - forall_cons; by vm_compute.
Defined.

(** The run above in numbers. *)
Example demo_run_results :
  fst <$> vmm_run (Ref demo_space) demo_world
    [OpMap demo_va 0x9000 3; OpMap demo_va 0x8000 3; OpQuery demo_va; OpUnmap demo_va; OpQuery demo_va]
  = Some [(0, None); (-3, None); (0, Some (mk_mapping demo_va 0x9000 3)); (0, None); (-4, None)].
Proof. by vm_compute. Qed.

(** C20. [vmm_map_page] on a page-aligned canonical address and an aligned frame below
    2^52: it maps the page to the frame with the present bit and the permitted flags when
    the page is free and the tables can be built, it returns VMM_ERR_EXISTS exactly when the page
    is mapped, it never runs out of memory while the allocator has three frames, and
    in every case no other page changes and the tables stay a well-formed tree disjoint
    from the allocator's frames. *)
Theorem vmm_map_page_correct {A limit p2v} `{FrameAllocator A limit} `{PhysWindow limit p2v} root w va pa fl :
  vmm_inv (limit := limit) (p2v := p2v) root w -> page_addr va -> 0 <= pa < 2 ^ 52 ->
  pa mod 4096 = 0 -> is_u64 fl ->
  exists rc w', vmm_map_page (Ref (the_space (p2v := p2v) root)) w va pa fl = Some (rc, w') /\
    vmm_inv (limit := limit) (p2v := p2v) root w' /\
    (rc = VMM_MAP_OK \/ rc = VMM_ERR_EXISTS \/ rc = VMM_ERR_NOMEM) /\
    (rc = VMM_ERR_EXISTS <-> xlate p2v (wmem w) root va <> None) /\
    (rc = VMM_ERR_NOMEM -> (size (fa_avail (wctx w)) < 3)%nat) /\
    (forall va', page_addr va' -> xlate p2v (wmem w') root va' =
       if decide (va' = va /\ rc = VMM_MAP_OK) then Some (pa, leaf_flags fl)
       else xlate p2v (wmem w) root va').
Proof.
  intros Hi Hva Hpa Ha Hfl.
  destruct (map_spec root w va pa fl) as (rc & w' & -> & Hi' & Hout); [done..|apply Hfl|].
  exists rc, w'. split; [done|]. split; [done|].
  destruct Hout as [[(_ & Hx & _) [[-> Hex]|(-> & Hno & Hsz)]]|(-> & _ & Hno & _ & Hx)].
  - split_and!; [by auto|tauto|done|]. intros va' _. by rewrite decide_False by (intros [_ ?]; done).
  - split_and!; [by auto|split; [done|congruence]|done|].
    intros va' _. by rewrite decide_False by (intros [_ ?]; done).
  - split_and!; [by auto|split; [done|congruence]|done|].
    intros va' Hva'. rewrite Hx by done. repeat case_decide; tauto.
Qed.

Lemma vmm_map_page_correct_witness :
  exists rc w', vmm_map_page (Ref demo_space) demo_world demo_va 0x9000 3 = Some (rc, w') /\
    vmm_inv (limit := demo_limit) (p2v := demo_window) 0x1000 w' /\
    (rc = VMM_MAP_OK \/ rc = VMM_ERR_EXISTS \/ rc = VMM_ERR_NOMEM) /\
    (rc = VMM_ERR_EXISTS <-> xlate demo_window (wmem demo_world) 0x1000 demo_va <> None) /\
    (rc = VMM_ERR_NOMEM -> (size (fa_avail (limit := demo_limit) (wctx demo_world)) < 3)%nat) /\
    (forall va', page_addr va' -> xlate demo_window (wmem w') 0x1000 va' =
       if decide (va' = demo_va /\ rc = VMM_MAP_OK) then Some (0x9000, leaf_flags 3)
       else xlate demo_window (wmem demo_world) 0x1000 va').
Proof.
  apply (vmm_map_page_correct (limit := demo_limit) (p2v := demo_window) 0x1000).
  - apply demo_world_inv.
  - by vm_compute.
  - lia.
  - reflexivity.
  - unfold is_u64. lia.
Defined.

(** [vmm_unmap_page] removes the mapping of exactly the given page and then executes
    [invlpg] for that page, so that no stale translation survives; a page that is not
    mapped is reported as VMM_ERR_NOT_FOUND and neither memory nor the translation
    cache is touched. The frames of the tables are not returned to the allocator. *)
Theorem vmm_unmap_page_correct {A limit p2v} `{FrameAllocator A limit} `{PhysWindow limit p2v} root w va :
  vmm_inv (limit := limit) (p2v := p2v) root w -> page_addr va ->
  exists rc w', vmm_unmap_page (Ref (the_space (p2v := p2v) root)) w va = (rc, w') /\
    vmm_inv (limit := limit) (p2v := p2v) root w' /\ wctx w' = wctx w /\
    (forall va', page_addr va' -> xlate p2v (wmem w') root va' =
       if decide (va' = va) then None else xlate p2v (wmem w) root va') /\
    match xlate p2v (wmem w) root va with
    | Some _ => rc = VMM_MAP_OK /\ invalidated w' = va :: invalidated w
    | None => rc = VMM_ERR_NOT_FOUND /\ w' = w
    end.
Proof.
  intros Hi Hva. pose proof (unmap_spec root w va Hi Hva) as H'.
  destruct (xlate p2v (wmem w) root va) as [x|] eqn:E.
  - destruct H' as (w' & -> & Hi' & Hc & Hinv & Hx). exists VMM_MAP_OK, w'. by split_and!.
  - rewrite H'. exists VMM_ERR_NOT_FOUND, w. split_and!; try done. intros va' _. case_decide; congruence.
Qed.

Lemma vmm_unmap_page_correct_witness :
  exists rc w', vmm_unmap_page (Ref demo_space) demo_world demo_va = (rc, w') /\
    vmm_inv (limit := demo_limit) (p2v := demo_window) 0x1000 w' /\ wctx w' = wctx demo_world /\
    (forall va', page_addr va' -> xlate demo_window (wmem w') 0x1000 va' =
       if decide (va' = demo_va) then None else xlate demo_window (wmem demo_world) 0x1000 va') /\
    match xlate demo_window (wmem demo_world) 0x1000 demo_va with
    | Some _ => rc = VMM_MAP_OK /\ invalidated w' = demo_va :: invalidated demo_world
    | None => rc = VMM_ERR_NOT_FOUND /\ w' = demo_world
    end.
Proof.
  apply (vmm_unmap_page_correct (limit := demo_limit) (p2v := demo_window) 0x1000).
  - apply demo_world_inv.
  - by vm_compute.
Defined.

(** A page mapped with VMM_PTE_USER is not usable from user mode: the entries that
    [vmm_map_page] creates in the upper tables carry no user bit, so starting from a root table
    without user bits no sequence of calls makes any page accessible from user mode, although
    the flags that [vmm_query_page] reports for the page contain VMM_PTE_USER. *)
Theorem vmm_user_pages_unreachable {A limit p2v} `{FrameAllocator A limit} `{PhysWindow limit p2v} root w va pa fl w' :
  vmm_inv (limit := limit) (p2v := p2v) root w -> supervisor_root p2v (wmem w) root ->
  page_addr va -> 0 <= pa < 2 ^ 52 -> pa mod 4096 = 0 -> is_u64 fl -> has_flag fl VMM_PTE_USER = true ->
  vmm_map_page (Ref (the_space (p2v := p2v) root)) w va pa fl = Some (VMM_MAP_OK, w') ->
  vmm_query_page (Ref (the_space (p2v := p2v) root)) w' va (Ref (mk_mapping 0 0 0)) =
    (VMM_MAP_OK, Ref (mk_mapping va pa (leaf_flags fl))) /\
  has_flag (leaf_flags fl) VMM_PTE_USER = true /\
  supervisor_root p2v (wmem w') root /\ forall va', user_accessible p2v (wmem w') root va' = false.
Proof.
  intros Hi Hs Hva Hpa Ha Hfl Huser Hmap.
  destruct (map_spec root w va pa fl) as (rc & w1 & Hmap' & Hi' & Hout); [done..|apply Hfl|].
  rewrite Hmap in Hmap'. injection Hmap' as <- <-.
  destruct Hout as [[_ [[? _]|[? _]]]|(_ & _ & _ & Hsup & Hx)]; [done..|].
  split_and!.
  - rewrite query_spec by done. by rewrite Hx, decide_True by done.
  - unfold has_flag, leaf_flags, VMM_PTE_USER in *. rewrite land_pow2_test in * by lia.
    rewrite Z.lor_spec, Z.land_spec, Huser. done.
  - by apply Hsup.
  - intros va'. apply supervisor_no_user. by apply Hsup.
Qed.

(** The world after one mapping. *)
Definition demo_world_user : vmm_world (list Z) :=
  match vmm_map_page (Ref demo_space) demo_world demo_va 0x9000 7 with
  | Some (_, w) => w
  | None => demo_world
  end.

Lemma vmm_user_pages_unreachable_witness :
  vmm_query_page (Ref demo_space) demo_world_user demo_va (Ref (mk_mapping 0 0 0)) =
    (VMM_MAP_OK, Ref (mk_mapping demo_va 0x9000 (leaf_flags 7))) /\
  has_flag (leaf_flags 7) VMM_PTE_USER = true /\
  supervisor_root demo_window (wmem demo_world_user) 0x1000 /\
  forall va', user_accessible demo_window (wmem demo_world_user) 0x1000 va' = false.
Proof.
  apply (vmm_user_pages_unreachable (limit := demo_limit) (p2v := demo_window) 0x1000 demo_world).
  - apply demo_world_inv.
  - apply demo_world_inv.
  - by vm_compute.
  - lia.
  - reflexivity.
  - unfold is_u64. lia.
  - reflexivity.
  - reflexivity.
Defined.
