(* ===== verification/KernelMem.v ===== *)
(** Memory bring-up: the adapters and initialisation functions of kernel/core/kmain.c that
    put the virtual memory manager (Vmm) on top of the physical one (Pmm).

    The boot loader is not part of the repository: the responses it leaves in memory are arguments,
    and the numeric values of its memory-map types are a parameter
    of which nothing is assumed. Log output is not modelled. *)

From S2P Require Import Prelude Mem FrameAlloc Pmm Vmm.

(** * Data *)

(** The memory-map types of the boot protocol. *)
Record limine_types := mk_limine {
  LIMINE_MEMMAP_USABLE : Z;
  LIMINE_MEMMAP_RESERVED : Z;
  LIMINE_MEMMAP_ACPI_RECLAIMABLE : Z;
  LIMINE_MEMMAP_ACPI_NVS : Z;
  LIMINE_MEMMAP_BAD_MEMORY : Z;
  LIMINE_MEMMAP_BOOTLOADER_RECLAIMABLE : Z;
  LIMINE_MEMMAP_KERNEL_AND_MODULES : Z;
  LIMINE_MEMMAP_FRAMEBUFFER : Z
}.

(** A memory-map entry of the boot loader, and its response. *)
Record limine_memmap_entry := mk_entry { entry_base : Z; entry_length : Z; entry_type : Z }.
Record limine_memmap_response := mk_response { entry_count : Z; entries : list limine_memmap_entry }.

(** [KERNEL_PANIC] does not return. *)
Inductive outcome (A : Type) := Panic (code : Z) | Done (a : A).
Arguments Panic {A} code.
Arguments Done {A} a.

Definition MAX_BOOT_REGIONS : Z := 64.
Definition PMM_BITMAP_BYTES : Z := PMM_MAX_PHYS_BYTES / PMM_PAGE_SIZE / 8.

(** * Adapters *)

Definition kernel_vmm_alloc (kernel_pmm : pmm_state) : option (Z * pmm_state) :=
  '(a, p) ← pmm_alloc_frame (Ref kernel_pmm);
  match p with Ref p => Some (a, p) | NULL => None end.

Definition kernel_vmm_free (kernel_pmm : pmm_state) (frame_paddr : Z) : option pmm_state :=
  '(_, p) ← pmm_free_frame (Ref kernel_pmm) frame_paddr;
  match p with Ref p => Some p | NULL => None end.

Definition kernel_vmm_phys_to_virt (kernel_hhdm_offset paddr : Z) : Z := u64 (kernel_hhdm_offset + paddr).

Definition limine_type_to_boot_mem (L : limine_types) (limine_type : Z) : Z :=
  if limine_type =? LIMINE_MEMMAP_USABLE L then BOOT_MEM_USABLE
  else if limine_type =? LIMINE_MEMMAP_RESERVED L then BOOT_MEM_RESERVED
  else if limine_type =? LIMINE_MEMMAP_ACPI_RECLAIMABLE L then BOOT_MEM_ACPI_RECLAIMABLE
  else if limine_type =? LIMINE_MEMMAP_ACPI_NVS L then BOOT_MEM_ACPI_NVS
  else if limine_type =? LIMINE_MEMMAP_BAD_MEMORY L then BOOT_MEM_BAD_MEMORY
  else if limine_type =? LIMINE_MEMMAP_BOOTLOADER_RECLAIMABLE L then BOOT_MEM_BOOTLOADER_RECLAIMABLE
  else if limine_type =? LIMINE_MEMMAP_KERNEL_AND_MODULES L then BOOT_MEM_KERNEL_AND_MODULES
  else if limine_type =? LIMINE_MEMMAP_FRAMEBUFFER L then BOOT_MEM_FRAMEBUFFER
  else BOOT_MEM_RESERVED.

(** * Initialisation *)

(** [regions] and [bitmap] are the static arrays. *)
Definition kernel_memory_init (L : limine_types) (response : ptr limine_memmap_response) (kernel_pmm : pmm_state)
    (regions : list boot_mem_region) (bitmap : list Z) : option (outcome pmm_state) :=
  match response with
  | NULL => Some (Panic 0)
  | Ref resp =>
      let count := if MAX_BOOT_REGIONS <? entry_count resp then MAX_BOOT_REGIONS else entry_count resp in
      regions ← for_loop (loop_fuel 0 count 1) 0 count 1
        (fun i rs =>
           e ← arr_get (entries resp) i;
           arr_set rs i (Pmm.mk_region (entry_base e) (entry_length e) (limine_type_to_boot_mem L (entry_type e)))) regions;
      '(ok, p) ← pmm_init_from_map (Ref kernel_pmm) (Ref regions) count (Ref bitmap) PMM_BITMAP_BYTES PMM_MAX_PHYS_BYTES;
      if negb ok then Some (Panic 0)
      else
        '(f, p) ← pmm_alloc_frame p;
        if f =? PMM_INVALID_FRAME then Some (Panic 0)
        else
          '(freed, p) ← pmm_free_frame p f;
          if negb freed then Some (Panic 0)
          else match p with Ref p => Some (Done p) | NULL => None end
  end.

(** [response] holds the offset of the direct map; the result is the address space, memory and the allocator. *)
Definition kernel_vmm_init (response : ptr Z) (kernel_pmm : pmm_state) (m : mem) (kernel_vmm : vmm_space pmm_state) :
    option (outcome (vmm_space pmm_state * vmm_world pmm_state)) :=
  match response with
  | NULL => Some (Panic 0)
  | Ref kernel_hhdm_offset =>
      '(root_paddr, p) ← pmm_alloc_frame (Ref kernel_pmm);
      if root_paddr =? PMM_INVALID_FRAME then Some (Panic 0)
      else
        let root_virt := u64 (kernel_hhdm_offset + root_paddr) in
        let '(m, _) := memset m root_virt 0 4096 in
        let '(rc, space) := vmm_space_init (Ref kernel_vmm) root_paddr (Ref kernel_vmm_alloc) (Ref kernel_vmm_free)
          (Ref (kernel_vmm_phys_to_virt kernel_hhdm_offset)) in
        if negb (rc =? VMM_MAP_OK) then Some (Panic (u64 rc))
        else
          match space, p with
          | Ref space, Ref p => Some (Done (space, mk_world m p []))
          | _, _ => None
          end
  end.

(** The boot sequence of the memory managers: [kernel_memory_init] and [kernel_vmm_init] as [kmain] calls them. *)
Definition kmain_memory (L : limine_types) (memmap : ptr limine_memmap_response) (hhdm : ptr Z) (kernel_pmm : pmm_state)
    (regions : list boot_mem_region) (bitmap : list Z) (m : mem) (kernel_vmm : vmm_space pmm_state) :
    option (outcome (vmm_space pmm_state * vmm_world pmm_state)) :=
  o ← kernel_memory_init L memmap kernel_pmm regions bitmap;
  match o with
  | Panic c => Some (Panic c)
  | Done p => kernel_vmm_init hhdm p m kernel_vmm
  end.

(** * Specification *)

(** What is stored for an entry. *)
Definition region_of (L : limine_types) (e : limine_memmap_entry) : boot_mem_region :=
  Pmm.mk_region (entry_base e) (entry_length e) (limine_type_to_boot_mem L (entry_type e)).

(** A response: at least one entry, as many as it says, none ending in the last page. *)
Definition response_ok (resp : limine_memmap_response) : Prop :=
  0 < entry_count resp < 2 ^ 64 /\ entry_count resp <= Z.of_nat (length (entries resp)) /\
  Forall (fun e => 0 <= entry_base e /\ 0 <= entry_length e /\ entry_base e + entry_length e + PMM_PAGE_SIZE <= 2 ^ 64)
    (entries resp).

(** The entries that are looked at. *)
Definition boot_entries (resp : limine_memmap_response) : list limine_memmap_entry :=
  take (Z.to_nat (Z.min (entry_count resp) MAX_BOOT_REGIONS)) (entries resp).

(** A frame that the boot loader says is usable, and no other entry touches. *)
Definition boot_available (L : limine_types) (resp : limine_memmap_response) (f : Z) : Prop :=
  (exists e, e ∈ boot_entries resp /\ entry_type e = LIMINE_MEMMAP_USABLE L /\
     frame_inside (entry_base e) (entry_length e) f) /\
  (forall e, e ∈ boot_entries resp -> entry_type e <> LIMINE_MEMMAP_USABLE L ->
     ~ frame_overlaps (entry_base e) (entry_length e) f).

(** The frames the kernel manages. *)
Definition boot_frames : Z := PMM_MAX_PHYS_BYTES / PMM_PAGE_SIZE.

(** A direct map of all physical memory that is managed. *)
Definition hhdm_ok (off : Z) : Prop := 0 < off /\ off + PMM_MAX_PHYS_BYTES <= 2 ^ 64.

(** * The physical manager provides frames *)

Definition pmm_avail (p : pmm_state) : gset Z := set_map (fun f => f * 4096) (free_set p).

Lemma elem_of_pmm_avail p a : a ∈ pmm_avail p <-> exists f, a = f * 4096 /\ f ∈ free_set p.
Proof. unfold pmm_avail. by rewrite elem_of_map. Qed.

Lemma pmm_avail_difference p p' f : free_set p' = free_set p ∖ {[f]} -> pmm_avail p' = pmm_avail p ∖ {[f * 4096]}.
Proof.
  intros E. apply set_eq. intros a. rewrite elem_of_difference, !elem_of_pmm_avail, E, elem_of_singleton.
  setoid_rewrite elem_of_difference. setoid_rewrite elem_of_singleton. split.
  - intros (g & -> & Hg & Hne). split; [by exists g|]. lia.
  - intros [(g & -> & Hg) Hne]. exists g. split_and!; [done|done|]. intros ->. done.
Qed.

(** Allocation through the adapter. *)
Lemma kernel_vmm_alloc_spec p :
  pmm_ready p ->
  exists a p', kernel_vmm_alloc p = Some (a, p') /\ pmm_alloc_frame (Ref p) = Some (a, Ref p') /\
    pmm_ready p' /\ same_geometry p p' /\
    ((free_set p = ∅ /\ a = no_frame /\ free_set p' = ∅) \/
     (exists f, a = f * 4096 /\ f ∈ free_set p /\ free_set p' = free_set p ∖ {[f]})).
Proof.
  intros Hp. destruct (alloc_refines p Hp) as (r & p' & He & Hp' & Hg & Hstep).
  apply alloc_step_inv in Hstep as [(H1 & H2 & ->)|(f & Hf & _ & -> & Hset)];
    apply pmm_exec_alloc in He; (eexists _, p'; unfold kernel_vmm_alloc; rewrite He;
    split; [reflexivity|]; split; [reflexivity|]; split; [done|]; split; [done|]); [by left|right].
  by exists f.
Qed.

(** Release through the adapter. *)
Lemma kernel_vmm_free_spec p a :
  pmm_ready p -> is_u64 a ->
  exists b p', kernel_vmm_free p a = Some p' /\ pmm_free_frame (Ref p) a = Some (b, Ref p') /\
    pmm_ready p' /\ same_geometry p p' /\
    ((b = false /\ ~ allocated (frame_count p) (free_set p) a /\ free_set p' = free_set p) \/
     (exists f, b = true /\ a = f * 4096 /\ free_set p' = {[f]} ∪ free_set p)).
Proof.
  intros Hp Ha. destruct (free_refines p a Hp Ha) as (r & p' & He & Hp' & Hg & Hstep).
  apply free_step_inv in Hstep as [(H1 & H2 & ->)|(f & -> & Hf & Hn & -> & Hset)];
    apply pmm_exec_free in He; (eexists _, p'; unfold kernel_vmm_free; rewrite He;
    split; [reflexivity|]; split; [reflexivity|]; split; [done|]; split; [done|]); [by left|right].
  by exists f.
Qed.

(** The physical memory manager meets the interface of the virtual one. *)
#[export] Instance pmm_frame_allocator : FrameAllocator pmm_state PMM_MAX_PHYS_BYTES.
Proof.
  refine {| fa_alloc := kernel_vmm_alloc; fa_free := kernel_vmm_free;
            fa_inv := fun p => pmm_ready p /\ max_phys p <= PMM_MAX_PHYS_BYTES; fa_avail := pmm_avail |}.
  - intros p a [(W & _ & _) Hm] (f & -> & Hf)%elem_of_pmm_avail. apply elem_of_free_set in Hf as [Hf _].
    pose proof (wf_max_phys p W) as Hmax. unfold PMM_PAGE_SIZE in Hmax. split; [lia|]. apply Z.mod_mul. lia.
  - intros p [Hp Hm]. destruct (kernel_vmm_alloc_spec p Hp) as (a & p' & He & _ & Hp' & (_ & Hmx & _) & Hc).
    exists a, p'. rewrite Hmx. split_and!; [done..|]. destruct Hc as [(H1 & -> & H2)|(f & -> & Hf & Hset)]; [left|right].
    + unfold pmm_avail. by rewrite H1, H2.
    + split; [apply elem_of_pmm_avail; eauto|by apply pmm_avail_difference].
  - intros p a [Hp Hm] [Ha Hal]. destruct (kernel_vmm_free_spec p a Hp) as (b & p' & He & _ & Hp' & (_ & Hmx & _) & Hc).
    { unfold is_u64, PMM_MAX_PHYS_BYTES in *. lia. }
    exists p'. rewrite Hmx. split_and!; [done..| |];
      intros x (g & -> & Hg)%elem_of_pmm_avail; destruct Hc as [(_ & _ & E)|(f & _ & -> & E)];
      rewrite ?elem_of_union, ?elem_of_singleton, elem_of_pmm_avail; rewrite E in *; set_solver.
Defined.

(** The direct map is a window onto physical memory. *)
Lemma hhdm_window off : hhdm_ok off -> PhysWindow PMM_MAX_PHYS_BYTES (kernel_vmm_phys_to_virt off).
Proof.
  intros [H0 H1]. unfold PMM_MAX_PHYS_BYTES in *.
  assert (Hs : forall p, frame_addr (64 * 1024 * 1024 * 1024) p -> kernel_vmm_phys_to_virt off p = off + p).
  { intros p [Hp _]. apply u64_small. unfold is_u64. lia. }
  split.
  - lia.
  - intros p Hp. rewrite Hs by done. destruct Hp. lia.
  - intros p q Hp Hq Hne. rewrite !Hs by done. destruct Hp, Hq. Z.div_mod_to_equations. lia.
Qed.

(** * Lemmas: the translation of the memory map *)

Lemma usable_type L t :
  limine_type_to_boot_mem L t = BOOT_MEM_USABLE <-> t = LIMINE_MEMMAP_USABLE L.
Proof.
  unfold limine_type_to_boot_mem. split.
  - repeat case_bool; intros; try done.
  - intros ->. by rewrite Z.eqb_refl.
Qed.

Lemma regions_loop L resp (regions : list boot_mem_region) count :
  Z.of_nat (length regions) = MAX_BOOT_REGIONS -> Forall Pmm.region_ok regions ->
  response_ok resp -> count = Z.min (entry_count resp) MAX_BOOT_REGIONS ->
  exists rs,
    for_loop (loop_fuel 0 count 1) 0 count 1
      (fun i rs =>
         e ← arr_get (entries resp) i;
         arr_set rs i (Pmm.mk_region (entry_base e) (entry_length e) (limine_type_to_boot_mem L (entry_type e))))
      regions = Some rs /\
    Z.of_nat (length rs) = MAX_BOOT_REGIONS /\ Forall Pmm.region_ok rs /\
    take (Z.to_nat count) rs = region_of L <$> boot_entries resp.
Proof.
  intros Hl Hrs (Hc & Hlen & Hes) Hcount. unfold MAX_BOOT_REGIONS in *.
  destruct (for_loop_count
    (fun i rs => Z.of_nat (length rs) = 64 /\ Forall Pmm.region_ok rs /\
       take (Z.to_nat i) rs = region_of L <$> take (Z.to_nat i) (entries resp)) 0 count
    (fun i rs =>
         e ← arr_get (entries resp) i;
         arr_set rs i (Pmm.mk_region (entry_base e) (entry_length e) (limine_type_to_boot_mem L (entry_type e))))
    regions) as (rs & -> & H1 & H2 & H3); [lia..|done| |].
  - intros i rs Hi (Hr1 & Hr2 & Hr3).
    destruct (arr_get_lt (entries resp) i) as [e He]; [lia|]. rewrite He. cbn [mbind option_bind].
    rewrite arr_set_lt by lia. eexists. split; [done|]. rewrite length_insert. split; [done|].
    apply arr_get_Some in He as [_ He]. split.
    + apply Forall_insert; [done|]. by apply (Forall_lookup_1 _ _ _ _ Hes He).
    + replace (Z.to_nat (i + 1)) with (S (Z.to_nat i)) by lia.
      rewrite (take_S_r _ _ e He), fmap_app, <- Hr3.
      rewrite (take_S_r _ _ (region_of L e)) by (apply list_lookup_insert_eq; lia).
      f_equal. by rewrite take_insert_ge by lia.
  - exists rs. split; [done|]. split; [done|]. split; [done|]. rewrite H3. unfold boot_entries, MAX_BOOT_REGIONS.
    by subst count.
Qed.

Lemma available_translated L resp rs n f :
  take (Z.to_nat n) rs = region_of L <$> boot_entries resp ->
  frame_available rs n f <-> boot_available L resp f.
Proof.
  intros E. unfold frame_available, boot_available. rewrite E. clear E.
  pose proof (usable_type L) as Hu. split.
  - intros [(r & (e & -> & He)%list_elem_of_fmap & Ht & Hin) Hno]. split.
    + exists e. cbn in *. rewrite Hu in Ht. done.
    + intros e' He' Ht'. apply (Hno (region_of L e')); [by apply list_elem_of_fmap_2|]. cbn. by rewrite Hu.
  - intros [(e & He & Ht & Hin) Hno]. split.
    + exists (region_of L e). split_and!; [by apply list_elem_of_fmap_2| |done]. cbn. by rewrite Hu.
    + intros r (e' & -> & He')%list_elem_of_fmap Ht'. cbn in *. rewrite Hu in Ht'. by apply Hno.
Qed.

(** * Lemmas: the root table *)

Lemma load_zero n : forall m a, (forall x, a <= x < a + Z.of_nat n -> u8 (m x) = 0) -> load n m a = 0.
Proof.
  induction n as [|n IH]; intros m a H; cbn [load]; [done|].
  unfold load8. rewrite H, IH by (lia || (intros; apply H; lia)). done.
Qed.

Lemma memset_zero_entries (p2v : Z -> Z) m root i :
  is_idx i -> entry_at p2v (memset m (p2v root) 0 4096).1 root i = 0.
Proof.
  intros Hi. unfold entry_at, load64. apply load_zero. intros x Hx. unfold memset, is_idx in *. cbn [fst].
  rewrite memset_loop_spec. change (Z.of_nat 8) with 8 in Hx. rewrite Z2Nat.id by lia.
  rw_true (p2v root <=? x). by rw_true (x <? p2v root + 4096).
Qed.

Lemma memset_outside m d v n x : 0 <= n -> ~ d <= x < d + n -> u8 ((memset m d v n).1 x) = u8 (m x).
Proof.
  intros Hn Hx. unfold memset. cbn [fst]. rewrite memset_loop_spec, Z2Nat.id by lia. case_bool; [lia|done].
Qed.

Lemma memory_init_spec L resp pmm regions bitmap :
  response_ok resp -> Z.of_nat (length regions) = MAX_BOOT_REGIONS -> Forall Pmm.region_ok regions ->
  Z.of_nat (length bitmap) = PMM_BITMAP_BYTES -> Forall is_u8 bitmap ->
  exists o, kernel_memory_init L (Ref resp) pmm regions bitmap = Some o /\
    match o with
    | Panic _ => forall f, 0 < f < boot_frames -> ~ boot_available L resp f
    | Done p => pmm_ready p /\ frame_count p = boot_frames /\ free_set p <> ∅ /\
        forall f, f ∈ free_set p <-> 0 < f < boot_frames /\ boot_available L resp f
    end.
Proof.
  intros Hresp Hl Hrs Hb Hby. unfold kernel_memory_init. cbv zeta.
  replace (if MAX_BOOT_REGIONS <? entry_count resp then MAX_BOOT_REGIONS else entry_count resp)
    with (Z.min (entry_count resp) MAX_BOOT_REGIONS) by (case_bool; lia).
  set (count := Z.min _ _).
  destruct (regions_loop L resp regions count Hl Hrs Hresp eq_refl) as (rs & -> & Hlr & Hok & Htake).
  cbn [mbind option_bind].
  assert (Hcount : 0 < count <= MAX_BOOT_REGIONS) by (destruct Hresp; unfold count, MAX_BOOT_REGIONS in *; lia).
  change PMM_MAX_PHYS_BYTES with (boot_frames * PMM_PAGE_SIZE).
  destruct (init_ready pmm rs count bitmap PMM_BITMAP_BYTES boot_frames) as (p & -> & Hp & Hc & Hset);
    [by vm_compute..| by vm_compute | lia | done | done | lia | unfold MAX_BOOT_REGIONS in *; lia |].
  cbn [negb mbind option_bind]. setoid_rewrite (available_translated L resp rs count _ Htake) in Hset.
  destruct (kernel_vmm_alloc_spec p Hp) as (a & p1 & _ & -> & Hp1 & G1 & Hcase). cbn [mbind option_bind].
  destruct Hcase as [(He & -> & _)|(f & -> & Hf & Hset1)].
  { cbn. eexists. split; [done|]. intros f Hf Ha. assert (f ∈ free_set p) by (apply Hset; done). set_solver. }
  assert (Hfr : 0 < f < boot_frames) by (apply Hset in Hf; lia).
  assert (Hsmall : boot_frames = 16777216) by done.
  assert (Hne : (f * 4096 =? PMM_INVALID_FRAME) = false) by (apply Z.eqb_neq; unfold PMM_INVALID_FRAME; lia).
  rewrite Hne.
  destruct (kernel_vmm_free_spec p1 (f * 4096) Hp1) as (b & p2 & _ & -> & Hp2 & G2 & Hcase).
  { unfold is_u64. lia. }
  destruct G1 as [G1 _], G2 as [G2 _]. cbn [mbind option_bind].
  destruct Hcase as [(-> & Hna & _)|(g & -> & Hg & Hset2)].
  { destruct Hna. exists f. rewrite G1, Hc, Hset1. split_and!; [done|lia|lia|set_solver]. }
  cbn [negb]. eexists. split; [done|]. assert (g = f) as -> by lia.
  assert (Hback : free_set p2 = free_set p).
  { rewrite Hset2, Hset1. apply set_eq. intros x. destruct (decide (x = f)); set_solver. }
  rewrite Hback. split_and!; [done|congruence|set_solver|done].
Qed.

(** The kernel's address space over a direct map at [off]. *)
Abbreviation kernel_space off := (the_space (limit := PMM_MAX_PHYS_BYTES) (p2v := kernel_vmm_phys_to_virt off)).
Abbreviation kernel_represents off :=
  (represents (limit := PMM_MAX_PHYS_BYTES) (p2v := kernel_vmm_phys_to_virt off)).

Lemma vmm_init_spec off p m vmm :
  pmm_ready p -> max_phys p <= PMM_MAX_PHYS_BYTES -> hhdm_ok off ->
  exists o, kernel_vmm_init (Ref off) p m vmm = Some o /\
    match o with
    | Panic _ => free_set p = ∅
    | Done (space, w) => exists root, root * 4096 ∈ pmm_avail p /\
        space = kernel_space off (root * 4096) /\ kernel_represents off (root * 4096) w ∅ /\
        (root ∉ free_set (wctx w)) /\ free_set (wctx w) ⊆ free_set p /\
        forall x, ~ off + root * 4096 <= x < off + (root + 1) * 4096 -> u8 (wmem w x) = u8 (m x)
    end.
Proof.
  intros Hp Hm Hoff. unfold kernel_vmm_init.
  destruct (kernel_vmm_alloc_spec p Hp) as (a & p1 & _ & -> & Hp1 & G1 & Hcase). cbn [mbind option_bind].
  destruct Hcase as [(He & -> & _)|(f & -> & Hf & Hset1)].
  { eexists. by split; [reflexivity|]. }
  assert (Hav : f * 4096 ∈ pmm_avail p) by (apply elem_of_pmm_avail; eauto).
  assert (Hfa : frame_addr PMM_MAX_PHYS_BYTES (f * 4096)) by (apply (fa_avail_frames p); [by split|done]).
  pose proof (hhdm_window off Hoff) as W. pose proof Hfa as [Hb Hal].
  assert (Hne : (f * 4096 =? PMM_INVALID_FRAME) = false)
    by (apply Z.eqb_neq; unfold PMM_INVALID_FRAME, PMM_MAX_PHYS_BYTES in *; lia).
  rewrite Hne. change (u64 (off + f * 4096)) with (kernel_vmm_phys_to_virt off (f * 4096)).
  pose proof (memset_zero_entries (kernel_vmm_phys_to_virt off) m (f * 4096)) as Hzero.
  pose proof (memset_outside m (kernel_vmm_phys_to_virt off (f * 4096)) 0 4096) as Hout.
  unfold memset in *. generalize dependent (memset_loop (Z.to_nat 4096) m (kernel_vmm_phys_to_virt off (f * 4096)) 0).
  cbn [fst]. intros m1 Hzero Hout.
  destruct (empty_tree (limit := PMM_MAX_PHYS_BYTES) (p2v := kernel_vmm_phys_to_virt off) (f * 4096) m1)
    as (Hwf & _ & Hx); [done..|].
  unfold vmm_space_init. cbn [is_null orb fst].
  destruct (aligned_4k_spec (f * 4096)) as [_ ->]; [|done]. cbn [negb].
  rewrite Z.eqb_refl. cbn [negb]. eexists. split; [reflexivity|]. exists f. cbn [wctx wmem].
  split; [done|]. split; [done|]. destruct G1 as (_ & Hmx & _). split.
  - split; [|intros va _; apply Hx]. exists {[f * 4096]}. split; [done|]. cbn [wctx]. split.
    + split; [done|]. by rewrite Hmx.
    + intros x ->%elem_of_singleton (g & Hg & Hin)%elem_of_pmm_avail. assert (g = f) as -> by lia. set_solver.
  - split_and!; [set_solver..|]. intros x Hx'. apply Hout; [lia|].
    unfold kernel_vmm_phys_to_virt. destruct Hoff. rewrite u64_small by (unfold is_u64; lia). lia.
Qed.

(** * A concrete boot *)

Definition demo_limine : limine_types := mk_limine 0 1 2 3 4 5 6 7.

(** One usable entry that overlaps a reserved one. *)
Definition demo_response : limine_memmap_response :=
  mk_response 2 [mk_entry 0x100000 0x40000 0; mk_entry 0x13f000 0x2000 1].

Definition demo_static_regions : list boot_mem_region := replicate (Z.to_nat MAX_BOOT_REGIONS) (Pmm.mk_region 0 0 0).
Definition demo_bitmap : list Z := replicate (Z.to_nat PMM_BITMAP_BYTES) 0.
Definition demo_hhdm : Z := 0xffff800000000000.
Definition demo_vmm : vmm_space pmm_state := mk_space 0 NULL NULL NULL.

Lemma demo_response_ok : response_ok demo_response.
Proof. split; [cbn; lia|]. split; [cbn; lia|]. forall_cons; by vm_compute. Qed.

Lemma demo_regions_static :
  Z.of_nat (length demo_static_regions) = MAX_BOOT_REGIONS /\ Forall Pmm.region_ok demo_static_regions.
Proof. split; [done|]. apply Forall_replicate. by vm_compute. Qed.

Lemma demo_bitmap_ok : Z.of_nat (length demo_bitmap) = PMM_BITMAP_BYTES /\ Forall is_u8 demo_bitmap.
Proof.
  unfold demo_bitmap. split; [|apply Forall_replicate; by vm_compute].
  rewrite length_replicate, Z2Nat.id by by vm_compute. done.
Qed.

Lemma demo_hhdm_ok : hhdm_ok demo_hhdm.
Proof. by vm_compute. Qed.

Lemma demo_frame_range : 0 < 0x120 < boot_frames.
Proof. by vm_compute. Qed.

Lemma demo_available : boot_available demo_limine demo_response 0x120.
Proof.
  split.
  - exists (mk_entry 0x100000 0x40000 0). split; [left|]. split; [done|]. by vm_compute.
  - intros e [->|[->|[]%elem_of_nil]%elem_of_cons]%elem_of_cons Ht; [by destruct Ht|].
    intros (_ & _ & H). vm_compute in H. done.
Qed.

(** * Properties *)

(** Bringing up the physical manager from the boot loader's memory map: for every response
    with at least one entry and none ending in the last page, [kernel_memory_init] makes no access out of bounds
    (more than 64 entries included, of which it reads 64), and either panics, when no frame is available, or leaves a
    consistent manager of 64 GiB whose free frames are exactly those, frame 0 excluded, inside a usable entry and
    overlapped by no entry of another type; types that the kernel does not know count as reserved,
    and the trial allocation leaves no trace. *)
Theorem kernel_memory_init_correct L resp pmm regions bitmap :
  response_ok resp -> Z.of_nat (length regions) = MAX_BOOT_REGIONS -> Forall Pmm.region_ok regions ->
  Z.of_nat (length bitmap) = PMM_BITMAP_BYTES -> Forall is_u8 bitmap ->
  exists o, kernel_memory_init L (Ref resp) pmm regions bitmap = Some o /\
    match o with
    | Panic _ => forall f, 0 < f < boot_frames -> ~ boot_available L resp f
    | Done p => pmm_ready p /\ frame_count p = boot_frames /\ free_set p <> ∅ /\
        forall f, f ∈ free_set p <-> 0 < f < boot_frames /\ boot_available L resp f
    end.
Proof. apply memory_init_spec. Qed.

Lemma kernel_memory_init_correct_witness :
  exists p, kernel_memory_init demo_limine (Ref demo_response) zero_state demo_static_regions demo_bitmap = Some (Done p) /\
    0x120 ∈ free_set p.
Proof.
  destruct demo_regions_static as [Hl Hr]. destruct demo_bitmap_ok as [Hb Hu].
  destruct (kernel_memory_init_correct demo_limine demo_response zero_state demo_static_regions demo_bitmap
    demo_response_ok Hl Hr Hb Hu) as ([c|p] & E & H).
  - clear E. destruct (H 0x120 demo_frame_range). apply demo_available.
  - destruct H as (_ & _ & _ & H). exists p. split; [exact E|]. apply H. split; [apply demo_frame_range|apply demo_available].
Defined.


