(* ===== verification/Kmem.v ===== *)
(** The kernel heap: kernel/mm/kmem.c and include/mcsos/kmem.h.

    The arena is part of byte-addressed memory and the block headers lie in it, at the offsets that the
    x86-64 ABI gives the fields of [kmem_block_t]; a pointer is its address, 0 when null. Pointer
    arithmetic is not wrapped (it is undefined outside the arena), sizes are. *)

From S2P Require Import Prelude Mem.

(** * Constants *)

Definition KMEM_ALIGN : Z := 16.
Definition KMEM_MAGIC : Z := 0x4d43534f53484541.
Definition KMEM_MIN_SPLIT : Z := 32.

(** [sizeof(kmem_block_t)] *)
Definition KMEM_HEADER : Z := 48.

(** * Data *)

(** The fields of the header at [b]; the two reserved fields, at 20 and 24, are never accessed. *)
Definition blk_magic (m : mem) (b : Z) : Z := load 8 m b.
Definition blk_size (m : mem) (b : Z) : Z := load 8 m (b + 8).
Definition blk_free (m : mem) (b : Z) : Z := load 4 m (b + 16).
Definition blk_prev (m : mem) (b : Z) : Z := load 8 m (b + 32).
Definition blk_next (m : mem) (b : Z) : Z := load 8 m (b + 40).

Definition set_magic (m : mem) (b v : Z) : mem := store 8 m b v.
Definition set_size (m : mem) (b v : Z) : mem := store 8 m (b + 8) v.
Definition set_free (m : mem) (b v : Z) : mem := store 4 m (b + 16) v.
Definition set_prev (m : mem) (b v : Z) : mem := store 8 m (b + 32) v.
Definition set_next (m : mem) (b v : Z) : mem := store 8 m (b + 40) v.

(** The static variables. *)
Record kmem_state := mk_kmem {
  g_heap_base : Z;
  g_heap_end : Z;
  g_head : Z;
  g_initialized : Z
}.

Record kmem_stats := mk_stats {
  total_bytes : Z;
  used_bytes : Z;
  free_bytes : Z;
  block_count : Z;
  free_count : Z;
  largest_free : Z
}.

(** A list of blocks that do not overlap has at most this many elements in the arena; the loops that
    follow [next] get one turn more. *)
Definition kmem_fuel (st : kmem_state) : nat := Z.to_nat ((g_heap_end st - g_heap_base st) / KMEM_HEADER + 2).

(** * Operations *)

Definition kmem_align_up_size (value align : Z) : Z :=
  if align =? 0 then value
  else
    let mask := align - 1 in
    if negb (Z.land align mask =? 0) then 0
    else if UINT64_MAX - mask <? value then 0
    else Z.land (u64 (value + mask)) (not64 mask).

Definition kmem_align_up_ptr (value align : Z) : Z :=
  let mask := u64 (align - 1) in
  if negb (Z.land align mask =? 0) then 0
  else if UINT64_MAX - mask <? value then 0
  else Z.land (u64 (value + mask)) (not64 mask).

(** [while (bytes-- > 0u) *p++ = (unsigned char)value;] *)
Definition kmem_memset (m : mem) (dst value bytes : Z) : mem := memset_loop (Z.to_nat bytes) m dst value.

Definition kmem_payload (block : Z) : Z := block + KMEM_HEADER.
Definition kmem_header_from_payload (ptr : Z) : Z := ptr - KMEM_HEADER.

Definition kmem_ptr_in_heap (st : kmem_state) (ptr : Z) : bool :=
  negb (g_initialized st =? 0) && (g_heap_base st <=? ptr) && (ptr <? g_heap_end st).

Definition kmem_split_if_useful (st : kmem_state) (m : mem) (block wanted : Z) : mem :=
  let header := kmem_align_up_size KMEM_HEADER KMEM_ALIGN in
  if header =? 0 then m
  else if blk_size m block <? u64 (wanted + header + KMEM_MIN_SPLIT) then m
  else
    let new_addr := kmem_payload block + wanted in
    let new_addr := kmem_align_up_ptr new_addr KMEM_ALIGN in
    if new_addr =? 0 then m
    else if g_heap_end st <=? new_addr + KMEM_HEADER then m
    else
      let consumed := u64 (new_addr - kmem_payload block) in
      if blk_size m block <=? u64 (consumed + KMEM_HEADER + KMEM_MIN_SPLIT) then m
      else
        let new_block := new_addr in
        let m := set_magic m new_block KMEM_MAGIC in
        let m := set_size m new_block (u64 (blk_size m block - consumed - KMEM_HEADER)) in
        let m := set_free m new_block 1 in
        let m := set_prev m new_block block in
        let m := set_next m new_block (blk_next m block) in
        let m := if negb (blk_next m block =? 0) then set_prev m (blk_next m block) new_block else m in
        let m := set_next m block new_block in
        set_size m block wanted.

(** [None] when the fuel runs out. *)
Fixpoint kmem_coalesce_forward (fuel : nat) (m : mem) (block : Z) : option mem :=
  match fuel with
  | O => None
  | S fuel =>
      if negb (block =? 0) && negb (blk_next m block =? 0) && negb (blk_free m (blk_next m block) =? 0) then
        let next := blk_next m block in
        let expected := kmem_payload block + blk_size m block in
        let expected := kmem_align_up_ptr expected KMEM_ALIGN in
        if negb (expected =? next) then Some m
        else
          let m := set_size m block (u64 (blk_size m block + u64 (KMEM_HEADER + blk_size m next))) in
          let m := set_next m block (blk_next m next) in
          let m := if negb (blk_next m next =? 0) then set_prev m (blk_next m next) block else m in
          let m := set_magic m next 0 in
          let m := set_size m next 0 in
          let m := set_prev m next 0 in
          let m := set_next m next 0 in
          kmem_coalesce_forward fuel m block
      else Some m
  end.

(** The loop of [kmem_validate] from [cur] on. *)
Fixpoint validate_loop (fuel : nat) (st : kmem_state) (m : mem) (cur prev cursor guard : Z) : option Z :=
  if cur =? 0 then Some 0
  else
    match fuel with
    | O => None
    | S fuel =>
        let guard := u64 (guard + 1) in
        if 1048576 <? guard then Some (-3)
        else if negb (cur =? cursor) then Some (-4)
        else if (cur <? g_heap_base st) || (g_heap_end st <? cur + KMEM_HEADER) then Some (-5)
        else if negb (blk_magic m cur =? KMEM_MAGIC) then Some (-6)
        else if negb (blk_prev m cur =? prev) then Some (-7)
        else if u64 (g_heap_end st - kmem_payload cur) <? blk_size m cur then Some (-8)
        else
          let cursor := kmem_payload cur + blk_size m cur in
          let cursor := kmem_align_up_ptr cursor KMEM_ALIGN in
          if (cursor =? 0) || (g_heap_end st <? cursor) then Some (-9)
          else validate_loop fuel st m (blk_next m cur) cur cursor guard
    end.

Definition kmem_validate (st : kmem_state) (m : mem) : option Z :=
  if (g_initialized st =? 0) || (g_heap_base st =? 0) || (g_heap_end st <=? g_heap_base st) || (g_head st =? 0)
  then Some (-1)
  else if negb (g_head st =? g_heap_base st) then Some (-2)
  else validate_loop (kmem_fuel st) st m (g_head st) 0 (g_heap_base st) 0.

(** Returns the status, the static variables and memory. *)
Definition kmem_init (st : kmem_state) (m : mem) (base bytes : Z) : option (Z * kmem_state * mem) :=
  if (base =? 0) || (bytes <? KMEM_HEADER + KMEM_MIN_SPLIT) then Some (-1, st, m)
  else
    let start := kmem_align_up_ptr base KMEM_ALIGN in
    if (start =? 0) || (start <? base) then Some (-2, st, m)
    else
      let lost := start - base in
      if bytes <=? u64 (lost + KMEM_HEADER + KMEM_MIN_SPLIT) then Some (-3, st, m)
      else
        let usable := u64 (bytes - lost) in
        let usable := Z.land usable (not64 (KMEM_ALIGN - 1)) in
        if usable <=? KMEM_HEADER + KMEM_MIN_SPLIT then Some (-4, st, m)
        else
          let st := mk_kmem start (start + usable) start 1 in
          let m := set_magic m start KMEM_MAGIC in
          let m := set_size m start (u64 (usable - KMEM_HEADER)) in
          let m := set_free m start 1 in
          let m := set_prev m start 0 in
          let m := set_next m start 0 in
          rc ← kmem_validate st m;
          Some (rc, st, m).

(** The loop of [kmem_alloc] from [cur] on. *)
Fixpoint alloc_loop (fuel : nat) (st : kmem_state) (m : mem) (cur wanted : Z) : option (Z * mem) :=
  if cur =? 0 then Some (0, m)
  else
    match fuel with
    | O => None
    | S fuel =>
        if negb (blk_magic m cur =? KMEM_MAGIC) then Some (0, m)
        else if negb (blk_free m cur =? 0) && (wanted <=? blk_size m cur) then
          let m := kmem_split_if_useful st m cur wanted in
          let m := set_free m cur 0 in
          Some (kmem_payload cur, m)
        else alloc_loop fuel st m (blk_next m cur) wanted
    end.

Definition kmem_alloc (st : kmem_state) (m : mem) (bytes : Z) : option (Z * mem) :=
  if (g_initialized st =? 0) || (bytes =? 0) then Some (0, m)
  else
    let wanted := kmem_align_up_size bytes KMEM_ALIGN in
    if wanted =? 0 then Some (0, m)
    else alloc_loop (kmem_fuel st) st m (g_head st) wanted.

Definition kmem_calloc (st : kmem_state) (m : mem) (count bytes : Z) : option (Z * mem) :=
  if negb (count =? 0) && (UINT64_MAX / count <? bytes) then Some (0, m)
  else
    let total := u64 (count * bytes) in
    '(ptr, m) ← kmem_alloc st m total;
    let m := if negb (ptr =? 0) then kmem_memset m ptr 0 total else m in
    Some (ptr, m).

Definition kmem_free_checked (st : kmem_state) (m : mem) (ptr : Z) : option (Z * mem) :=
  if ptr =? 0 then Some (0, m)
  else if negb (kmem_ptr_in_heap st ptr) then Some (-1, m)
  else if negb (Z.land ptr (KMEM_ALIGN - 1) =? 0) then Some (-2, m)
  else
    let block := kmem_header_from_payload ptr in
    if negb (kmem_ptr_in_heap st block) || negb (blk_magic m block =? KMEM_MAGIC) then Some (-3, m)
    else if negb (blk_free m block =? 0) then Some (-4, m)
    else
      let m := set_free m block 1 in
      m ← kmem_coalesce_forward (kmem_fuel st) m block;
      m ← (if negb (blk_prev m block =? 0) && negb (blk_free m (blk_prev m block) =? 0)
           then kmem_coalesce_forward (kmem_fuel st) m (blk_prev m block)
           else Some m);
      rc ← kmem_validate st m;
      Some (rc, m).

(** The loop of [kmem_get_stats] from [cur] on. *)
Fixpoint stats_loop (fuel : nat) (m : mem) (cur : Z) (out : kmem_stats) : option kmem_stats :=
  if cur =? 0 then Some out
  else
    match fuel with
    | O => None
    | S fuel =>
        let sz := blk_size m cur in
        let out :=
          if negb (blk_free m cur =? 0) then
            mk_stats (total_bytes out) (used_bytes out) (u64 (free_bytes out + sz)) (u64 (block_count out + 1))
              (u64 (free_count out + 1)) (if largest_free out <? sz then sz else largest_free out)
          else
            mk_stats (total_bytes out) (u64 (used_bytes out + sz)) (free_bytes out) (u64 (block_count out + 1))
              (free_count out) (largest_free out) in
        stats_loop fuel m (blk_next m cur) out
    end.

Definition kmem_get_stats (st : kmem_state) (m : mem) (out : ptr kmem_stats) : option (ptr kmem_stats) :=
  match out with
  | NULL => Some NULL
  | Ref _ =>
      if g_initialized st =? 0 then Some (Ref (mk_stats 0 0 0 0 0 0))
      else
        out ← stats_loop (kmem_fuel st) m (g_head st) (mk_stats (g_heap_end st - g_heap_base st) 0 0 0 0 0);
        Some (Ref out)
  end.

(** * Specification *)

(** A block is its size and whether it is free; a heap is the list of its blocks in address order. *)
Definition ablock : Type := Z * bool.

(** The bytes that blocks take, headers included. *)
Fixpoint span (bs : list ablock) : Z :=
  match bs with [] => 0 | (sz, _) :: bs => KMEM_HEADER + sz + span bs end.

(** The header at [a]. *)
Definition header (m : mem) (a sz : Z) (fr : bool) (prev next : Z) : Prop :=
  blk_magic m a = KMEM_MAGIC /\ blk_size m a = sz /\ blk_free m a = (if fr then 1 else 0) /\
  blk_prev m a = prev /\ blk_next m a = next.

(** The blocks [bs] lie in memory from [a] on, linked both ways, between a block at [p] and one at [nx]. *)
Fixpoint seg (m : mem) (a p : Z) (bs : list ablock) (nx : Z) : Prop :=
  match bs with
  | [] => True
  | (sz, fr) :: bs' =>
      header m a sz fr p (match bs' with [] => nx | _ => a + KMEM_HEADER + sz end) /\
      16 <= sz /\ sz mod 16 = 0 /\ seg m (a + KMEM_HEADER + sz) a bs' nx
  end.

(** The address of the last block, [p] when there is none. *)
Fixpoint last_addr (p a : Z) (bs : list ablock) : Z :=
  match bs with [] => p | (sz, _) :: bs => last_addr a (a + KMEM_HEADER + sz) bs end.

(** The arena is tiled by the blocks [bs]. *)
Record heap_rep (st : kmem_state) (m : mem) (bs : list ablock) : Prop := {
  hr_init : g_initialized st = 1;
  hr_base : 0 < g_heap_base st;
  hr_align : g_heap_base st mod 16 = 0;
  hr_head : g_head st = g_heap_base st;
  hr_nonempty : bs <> [];
  hr_end : g_heap_end st = g_heap_base st + span bs;
  hr_limit : g_heap_end st <= 2 ^ 64 - 32;
  hr_seg : seg m (g_heap_base st) 0 bs 0
}.

(** No two neighbours are free. *)
Definition head_free (bs : list ablock) : bool := match bs with (_, fr) :: _ => fr | [] => false end.
Definition last_free (bs : list ablock) : bool := match last bs with Some (_, fr) => fr | None => false end.

Fixpoint coalesced (bs : list ablock) : Prop :=
  match bs with
  | [] => True
  | (_, fr) :: bs => (fr = true -> head_free bs = false) /\ coalesced bs
  end.

(** The payloads in use, address and size. *)
Fixpoint used (a : Z) (bs : list ablock) : list (Z * Z) :=
  match bs with
  | [] => []
  | (sz, fr) :: bs' => (if fr then [] else [(a + KMEM_HEADER, sz)]) ++ used (a + KMEM_HEADER + sz) bs'
  end.

(** ** Abstract operations *)

(** First fit; a block is split when more than a header and 32 bytes remain. The result is the
    offset of the payload and the new blocks. *)
Definition cut (w sz : Z) : list ablock :=
  if w + 80 <? sz then [(w, false); (sz - w - KMEM_HEADER, true)] else [(sz, false)].

Fixpoint first_fit (w : Z) (bs : list ablock) : option (Z * list ablock) :=
  match bs with
  | [] => None
  | (sz, fr) :: bs' =>
      if fr && (w <=? sz) then Some (KMEM_HEADER, cut w sz ++ bs')
      else '(o, bs'') ← first_fit w bs'; Some (KMEM_HEADER + sz + o, (sz, fr) :: bs'')
  end.

(** Absorb the free blocks at the front of the list into a block of size [sz]. *)
Fixpoint absorb (sz : Z) (bs : list ablock) : ablock * list ablock :=
  match bs with
  | (sz', true) :: bs' => absorb (sz + KMEM_HEADER + sz') bs'
  | _ => ((sz, true), bs)
  end.

(** Releasing the block of size [sz] between [pre] and [post]. *)
Definition release (pre : list ablock) (sz : Z) (post : list ablock) : list ablock :=
  let '((sz1, _), post1) := absorb sz post in
  match last pre with
  | Some (psz, true) => removelast pre ++ (psz + KMEM_HEADER + sz1, true) :: post1
  | _ => pre ++ (sz1, true) :: post1
  end.

(** * Lemmas: headers in memory *)

#[local] Opaque load store.

(** Reads of memory after writes. *)
Ltac mem_simpl :=
  unfold blk_magic, blk_size, blk_free, blk_prev, blk_next, set_magic, set_size, set_free, set_prev, set_next in *;
  repeat match goal with
  | |- context [load ?n (store ?k ?m ?b ?v) ?a] =>
      first [rewrite (load_store_disjoint n k m a b v) by lia | rewrite (load_store_same n m a v)]
  end.

Lemma header_ext m m' a sz fr p nx :
  (forall x, a <= x < a + KMEM_HEADER -> m' x = m x) -> header m a sz fr p nx -> header m' a sz fr p nx.
Proof.
  unfold KMEM_HEADER. intros H (H1 & H2 & H3 & H4 & H5). unfold header. mem_simpl.
  split_and!; (etrans; [|eassumption]); apply load_ext; intros x Hx; apply H; lia.
Qed.

(** The start addresses of the blocks. *)
Fixpoint starts (a : Z) (bs : list ablock) : list Z :=
  match bs with [] => [] | (sz, _) :: bs => a :: starts (a + KMEM_HEADER + sz) bs end.

Lemma seg_ext m m' bs : forall a p nx,
  (forall b x, b ∈ starts a bs -> b <= x < b + KMEM_HEADER -> m' x = m x) -> seg m a p bs nx -> seg m' a p bs nx.
Proof.
  induction bs as [|[sz fr] bs IH]; intros a p nx H; cbn; [done|]. intros (Hh & Hs & Hm & Hr). split_and!; [|done..|].
  - eapply header_ext; [|done]. intros x Hx. apply (H a); [left|done].
  - apply IH; [|done]. intros b x Hb. apply H. by right.
Qed.

Lemma span_app l1 l2 : span (l1 ++ l2) = span l1 + span l2.
Proof. induction l1 as [|[sz fr] l1 IH]; cbn; lia. Qed.

Lemma seg_span_nonneg m bs : forall a p nx, seg m a p bs nx -> 64 * Z.of_nat (length bs) <= span bs /\ span bs mod 16 = 0.
Proof.
  induction bs as [|[sz fr] bs IH]; intros a p nx; cbn [seg span length]; [by split|].
  intros (_ & H1 & H2 & H3%IH). unfold KMEM_HEADER in *. split; [lia|]. Z.div_mod_to_equations. lia.
Qed.

Lemma seg_starts m bs : forall a p nx b, seg m a p bs nx -> b ∈ starts a bs -> a <= b /\ b + 64 <= a + span bs.
Proof.
  induction bs as [|[sz fr] bs IH]; intros a p nx b; cbn [starts span seg]; [intros _ []%elem_of_nil|].
  intros (_ & H1 & H2 & H3) [->|Hb]%elem_of_cons; unfold KMEM_HEADER in *.
  - apply seg_span_nonneg in H3. lia.
  - eapply IH in Hb; [|done]. lia.
Qed.

Lemma seg_app m l1 l2 : forall a p nx,
  seg m a p (l1 ++ l2) nx <->
  seg m a p l1 (match l2 with [] => nx | _ => a + span l1 end) /\ seg m (a + span l1) (last_addr p a l1) l2 nx.
Proof.
  induction l1 as [|[sz fr] l1 IH]; intros a p nx; cbn [app seg span last_addr].
  - rewrite Z.add_0_r. tauto.
  - rewrite IH. replace (a + KMEM_HEADER + sz + span l1) with (a + (KMEM_HEADER + sz + span l1)) by lia.
    destruct l1 as [|y l1]; cbn [app].
    + destruct l2; cbn [span]; rewrite ?Z.add_0_r; [tauto|].
      replace (a + (KMEM_HEADER + sz)) with (a + KMEM_HEADER + sz) by lia. tauto.
    + tauto.
Qed.

Lemma last_addr_app l1 l2 : forall p a, last_addr p a (l1 ++ l2) = last_addr (last_addr p a l1) (a + span l1) l2.
Proof.
  induction l1 as [|[sz fr] l1 IH]; intros p a; cbn [app last_addr span]; [by rewrite Z.add_0_r|].
  rewrite IH. f_equal. lia.
Qed.

Lemma starts_app l1 l2 : forall a, starts a (l1 ++ l2) = starts a l1 ++ starts (a + span l1) l2.
Proof.
  induction l1 as [|[sz fr] l1 IH]; intros a; cbn [app starts span]; [by rewrite Z.add_0_r|].
  rewrite IH. do 2 f_equal. f_equal. lia.
Qed.

Lemma used_app l1 l2 : forall a, used a (l1 ++ l2) = used a l1 ++ used (a + span l1) l2.
Proof.
  induction l1 as [|[sz fr] l1 IH]; intros a; cbn [app used span]; [by rewrite Z.add_0_r|].
  rewrite IH, app_assoc. do 2 f_equal. lia.
Qed.

(** * Lemmas: alignment *)

Lemma align_up_16 v : is_u64 v -> v <= 2 ^ 64 - 16 ->
  Z.land (u64 (v + 15)) (not64 15) = (v + 15) / 16 * 16.
Proof.
  intros Hv Hl. unfold is_u64 in *. rewrite u64_small by ulia. change 15 with (2 ^ 4 - 1) at 2.
  rewrite land_high by (unfold is_u64; lia). change (2 ^ 4) with 16. pose proof (Z.div_mod (v + 15) 16). lia.
Qed.

Lemma align_up_size_spec v : is_u64 v ->
  kmem_align_up_size v KMEM_ALIGN = if 2 ^ 64 - 16 <? v then 0 else (v + 15) / 16 * 16.
Proof.
  intros Hv. unfold kmem_align_up_size, KMEM_ALIGN, UINT64_MAX. change (16 =? 0) with false. cbv zeta.
  change (16 - 1) with 15. change (negb (Z.land 16 15 =? 0)) with false. change (0xffffffffffffffff - 15) with (2 ^ 64 - 16).
  cbn iota. case_bool; [done|]. by apply align_up_16.
Qed.

Lemma align_up_ptr_spec v : is_u64 v ->
  kmem_align_up_ptr v KMEM_ALIGN = if 2 ^ 64 - 16 <? v then 0 else (v + 15) / 16 * 16.
Proof.
  intros Hv. unfold kmem_align_up_ptr, KMEM_ALIGN, UINT64_MAX. cbv zeta.
  change (u64 (16 - 1)) with 15. change (negb (Z.land 16 15 =? 0)) with false. change (0xffffffffffffffff - 15) with (2 ^ 64 - 16).
  cbn iota. case_bool; [done|]. by apply align_up_16.
Qed.

(** An aligned address is its own rounding. *)
Lemma align_up_ptr_id v : 0 <= v <= 2 ^ 64 - 16 -> v mod 16 = 0 -> kmem_align_up_ptr v KMEM_ALIGN = v.
Proof.
  intros Hv Hm. rewrite align_up_ptr_spec by (unfold is_u64; lia). rw_false (2 ^ 64 - 16 <? v).
  Z.div_mod_to_equations. lia.
Qed.

(** * Lemmas: one block of the heap *)

(** The heap seen from one of its blocks. *)
Lemma seg_focus m a p pre sz fr post nx :
  seg m a p (pre ++ (sz, fr) :: post) nx <->
  seg m a p pre (a + span pre) /\
  header m (a + span pre) sz fr (last_addr p a pre) (match post with [] => nx | _ => a + span pre + KMEM_HEADER + sz end) /\
  16 <= sz /\ sz mod 16 = 0 /\ seg m (a + span pre + KMEM_HEADER + sz) (a + span pre) post nx.
Proof. by rewrite seg_app. Qed.

(** The link back of the first block. *)
Lemma seg_set_prev m a p p' bs nx :
  is_u64 p' -> seg m a p bs nx -> seg (match bs with [] => m | _ => set_prev m a p' end) a p' bs nx.
Proof.
  intros Hp. destruct bs as [|[sz fr] bs]; cbn [seg]; [done|]. intros ((H1 & H2 & H3 & H4 & H5) & Hs & Hm & Hr).
  split_and!; [|done..|].
  - unfold header. mem_simpl. split_and!; try done. by apply Z.mod_small.
  - eapply seg_ext; [|done]. intros b x Hb Hx. eapply seg_starts in Hb; [|done]. unfold set_prev, KMEM_HEADER in *.
    apply store_other. lia.
Qed.

(** Where a block lies. *)
Lemma rep_block st m pre sz fr post :
  heap_rep st m (pre ++ (sz, fr) :: post) ->
  let a := g_heap_base st + span pre in
  16 <= a /\ a mod 16 = 0 /\ 16 <= sz /\ sz mod 16 = 0 /\ g_heap_base st <= a /\
  a + KMEM_HEADER + sz + span post = g_heap_end st /\ 0 <= span post /\ g_heap_end st <= 2 ^ 64 - 32 /\
  (post <> [] -> 64 <= span post).
Proof.
  intros [Hi Hb Ha Hh Hn He Hl Hs] a. apply seg_focus in Hs as (S1 & _ & Hsz & Hm & S2).
  apply seg_span_nonneg in S1, S2. rewrite span_app in He. cbn [span] in He. unfold a.
  assert (post <> [] -> 64 <= span post) by (destruct post; cbn [length] in *; [done|lia]).
  split_and!; try lia; try done; Z.div_mod_to_equations; lia.
Qed.

(** What the operations on the blocks between [a] and [c] may change: those blocks, and the link back to
    them. *)
Definition changes (a c : Z) (post : list ablock) (m m' : mem) : Prop :=
  forall x, ~ a <= x < c -> ~ (post <> [] /\ c + 32 <= x < c + 40) -> m' x = m x.

(** Exchanging some of the blocks. *)
Lemma rep_replace st m m' pre old mid post :
  heap_rep st m (pre ++ old ++ post) ->
  let a := g_heap_base st + span pre in
  let c := a + span old in
  old <> [] -> mid <> [] -> span mid = span old -> changes a c post m m' ->
  seg m' a (last_addr 0 (g_heap_base st) pre) mid (match post with [] => 0 | _ => c end) ->
  (post <> [] -> blk_prev m' c = last_addr (last_addr 0 (g_heap_base st) pre) a mid) ->
  heap_rep st m' (pre ++ mid ++ post).
Proof.
  intros [Hi Hb Ha Hh Hn He Hl Hs] a c Ho Hmid Hsp Hch Hseg Hprev.
  apply seg_app in Hs as [S1 S2]. apply seg_app in S2 as [So S2]. fold a c in S1, So, S2.
  assert (Hne : forall l (x y : Z), l <> [] -> match l ++ post with [] => x | _ => y end = y) by (intros [|??]; done).
  rewrite Hne in S1 by done.
  pose proof (seg_span_nonneg _ _ _ _ _ So) as [Hso _].
  split; try done.
  - intros E. apply app_eq_nil in E as [_ E]. by apply app_eq_nil in E as [? _].
  - rewrite He, !span_app. lia.
  - apply seg_app. fold a. rewrite Hne by done. split.
    + eapply seg_ext; [|done]. intros b x Hin Hx. eapply seg_starts in Hin; [|done].
      unfold KMEM_HEADER in *. apply Hch; unfold a, c in *; lia.
    + apply seg_app. rewrite Hsp. fold c. split; [done|].
      destruct post as [|[sz fr] post]; [done|]. cbn [seg] in *. destruct S2 as (Hh2 & Hz & Hzm & S2).
      specialize (Hprev ltac:(done)). assert (Hout : forall x, c <= x -> ~ c + 32 <= x < c + 40 -> m' x = m x).
      { intros x H1 H2. apply Hch; [lia|]. intros [_ ?]. lia. }
      split_and!; [|done..|].
      * destruct Hh2 as (E1 & E2 & E3 & E4 & E5). unfold header. rewrite Hprev.
        unfold blk_magic, blk_size, blk_free, blk_next in *.
        split_and!; try done; (etrans; [|eassumption]); apply load_ext; intros x Hx; apply Hout; lia.
      * eapply seg_ext; [|done]. intros b x Hin Hx. eapply seg_starts in Hin; [|done].
        unfold KMEM_HEADER in *. apply Hout; lia.
Qed.

Lemma set_free_spec st m pre sz fr (fr' : bool) post :
  heap_rep st m (pre ++ (sz, fr) :: post) ->
  let a := g_heap_base st + span pre in
  let m' := set_free m a (if fr' then 1 else 0) in
  heap_rep st m' (pre ++ (sz, fr') :: post) /\ forall x, ~ a + 16 <= x < a + 20 -> m' x = m x.
Proof.
  intros Hr a m'. pose proof (rep_block _ _ _ _ _ _ Hr) as H. fold a in H. destruct H as (H0 & H1 & H2 & H3 & H4 & H5 & H6 & H7 & H8).
  assert (Hout : forall x, ~ a + 16 <= x < a + 20 -> m' x = m x).
  { intros x Hx. unfold m', set_free. apply store_other. lia. }
  split; [|done]. unfold KMEM_HEADER in *.
  pose proof (hr_seg _ _ _ Hr) as Hs. apply seg_focus in Hs as (_ & (E1 & E2 & E3 & E4 & E5) & _ & _ & S2).
  fold a in E1, E2, E3, E4, E5, S2. unfold KMEM_HEADER in *.
  apply (rep_replace st m m' pre [(sz, fr)] [(sz, fr')] post Hr); [done|done|done| | |]; fold a; cbn [span seg last_addr]; unfold KMEM_HEADER.
  - intros x Hx _. apply Hout. lia.
  - split_and!; [|done..]. unfold header, m'. mem_simpl. rewrite Z.add_0_r. replace (a + (48 + sz)) with (a + 48 + sz) by lia.
    split_and!; try done. by destruct fr'.
  - intros Hp. unfold m'. mem_simpl. destruct post as [|[sz2 fr2] post]; [done|]. cbn [seg] in S2.
    destruct S2 as ((_ & _ & _ & E & _) & _). unfold blk_prev in E. etrans; [|exact E]. f_equal. lia.
Qed.

Lemma split_spec st m pre sz post w :
  heap_rep st m (pre ++ (sz, true) :: post) -> 16 <= w <= sz -> w mod 16 = 0 ->
  let a := g_heap_base st + span pre in
  let m' := kmem_split_if_useful st m a w in
  heap_rep st m' (pre ++ (if w + 80 <? sz then [(w, true); (sz - w - KMEM_HEADER, true)] else [(sz, true)]) ++ post) /\
  changes a (a + KMEM_HEADER + sz) post m m'.
Proof.
  intros Hr Hw Hwm a m'. pose proof (rep_block _ _ _ _ _ _ Hr) as H. fold a in H. destruct H as (H0 & H1 & H2 & H3 & H4 & H5 & H6 & H7 & H8).
  pose proof (hr_seg _ _ _ Hr) as Hs. apply seg_focus in Hs as (_ & (E1 & E2 & E3 & E4 & E5) & _ & _ & S2).
  fold a in E1, E2, E3, E4, E5, S2. unfold KMEM_HEADER in *.
  assert (Hnx : blk_next m a = 0 /\ post = [] \/ blk_next m a = a + 48 + sz /\ post <> []) by (destruct post; auto).
  unfold m', kmem_split_if_useful, kmem_payload, KMEM_MIN_SPLIT, KMEM_HEADER. clear m'.
  change (kmem_align_up_size 48 KMEM_ALIGN) with 48. change (48 =? 0) with false. cbv zeta. cbn iota. rewrite E2.
  rewrite align_up_ptr_id by (Z.div_mod_to_equations; lia).
  rewrite (u64_small (w + 48 + 32)) by ulia. replace (a + 48 + w - (a + 48)) with w by lia. rewrite (u64_small w) by ulia.
  rewrite (u64_small (w + 48 + 32)) by ulia. replace (w + 48 + 32) with (w + 80) by lia.
  destruct (Z.ltb_spec (w + 80) sz) as [Hlt|Hge].
  2:{ assert (Hm : (if sz <? w + 80 then m else if a + 48 + w =? 0 then m else if g_heap_end st <=? a + 48 + w + 48 then m else
        if sz <=? w + 80 then m else m) = m) by (repeat case_bool; done).
      repeat case_bool; try lia; (split; [done|intros x _ _; done]). }
  rw_false (sz <? w + 80). rw_false (a + 48 + w =? 0). rw_false (g_heap_end st <=? a + 48 + w + 48). rw_false (sz <=? w + 80).
  unfold blk_next, blk_size in *. mem_simpl. rewrite E2. set (n := a + 48 + w) in *.
  rewrite (u64_small (sz - w - 48)) by ulia.
  match goal with |- heap_rep _ ?M _ /\ _ => set (m' := M) end.
  assert (Hch : changes a (a + 48 + sz) post m m').
  { intros x Hx Hx'. unfold m'. destruct Hnx as [[E ->]|[E Hp]]; rewrite E; case_bool; try lia; rewrite !store_other; try lia; done || naive_solver lia. }
  split; [|done].
  apply (rep_replace st m m' pre [(sz, true)] [(w, true); (sz - w - 48, true)] post Hr); [done|done|cbn; unfold KMEM_HEADER; lia| | |];
    fold a; cbn [span seg last_addr]; unfold KMEM_HEADER; rewrite ?Z.add_0_r.
  - by replace (a + (48 + sz)) with (a + 48 + sz) by lia.
  - fold n. unfold m', header. destruct Hnx as [[E ->]|[E Hp]]; rewrite E; case_bool; try lia; mem_simpl;
      change (256 ^ Z.of_nat 8) with (2 ^ 64); rewrite ?Z.mod_small by lia; split_and!; try done; try lia; try (Z.div_mod_to_equations; lia).
    destruct post; [done|]. rewrite Z.mod_small by lia. lia.
  - intros Hp. fold n. destruct Hnx as [[E ->]|[E _]]; [done|]. unfold m'. rewrite E. case_bool; [|lia].
    replace (a + (48 + sz)) with (a + 48 + sz) by lia. mem_simpl. apply Z.mod_small. lia.
Qed.

(** * Lemmas: allocation *)

(** The pointer to the first of the blocks that follow. *)
Definition first_ptr (a : Z) (bs : list ablock) : Z := match bs with [] => 0 | _ => a end.

(** What a loop along the list reads at a block. *)
Lemma rep_header st m pre sz fr post :
  heap_rep st m (pre ++ (sz, fr) :: post) ->
  let a := g_heap_base st + span pre in
  header m a sz fr (last_addr 0 (g_heap_base st) pre) (first_ptr (a + KMEM_HEADER + sz) post).
Proof. intros Hr a. by pose proof (hr_seg _ _ _ Hr) as (_ & Hh & _)%seg_focus. Qed.

Lemma rep_head st m bs : heap_rep st m bs -> g_head st = first_ptr (g_heap_base st + span []) bs.
Proof. intros Hr. rewrite (hr_head _ _ _ Hr). pose proof (hr_nonempty _ _ _ Hr). destruct bs; [done|]. cbn. lia. Qed.

Lemma rep_fuel st m bs : heap_rep st m bs -> (length bs < kmem_fuel st)%nat.
Proof.
  intros Hr. pose proof (seg_span_nonneg _ _ _ _ _ (hr_seg _ _ _ Hr)). pose proof (hr_end _ _ _ Hr).
  unfold kmem_fuel, KMEM_HEADER. Z.div_mod_to_equations. lia.
Qed.

Lemma first_fit_Some w bs o bs' :
  first_fit w bs = Some (o, bs') ->
  exists l1 sz l2, bs = l1 ++ (sz, true) :: l2 /\ w <= sz /\ Forall (fun b => b.2 && (w <=? b.1) = false) l1 /\
    o = span l1 + KMEM_HEADER /\ bs' = l1 ++ cut w sz ++ l2.
Proof.
  revert o bs'. induction bs as [|[sz fr] bs IH]; intros o bs'; cbn; [done|].
  destruct (fr && (w <=? sz)) eqn:E.
  - intros [= <- <-]. bool_to_prop. subst fr. exists [], sz, bs. split_and!; [done|done|constructor|done|done].
  - destruct (first_fit w bs) as [[o1 bs1]|]; [|done]. intros [= <- <-].
    destruct (IH o1 bs1 eq_refl) as (l1 & sz1 & l2 & -> & Hw & Hl & -> & ->).
    exists ((sz, fr) :: l1), sz1, l2. cbn. split_and!; [done|done|by constructor|lia|done].
Qed.

Lemma first_fit_None w bs : first_fit w bs = None -> Forall (fun b => b.2 && (w <=? b.1) = false) bs.
Proof.
  induction bs as [|[sz fr] bs IH]; cbn; [constructor|]. destruct (fr && (w <=? sz)) eqn:E; [done|].
  destruct (first_fit w bs) as [[]|]; [done|]. constructor; auto.
Qed.

Lemma free_flag (fr : bool) : negb ((if fr then 1 else 0) =? 0) = fr.
Proof. by destruct fr. Qed.

(** Blocks that do not fit are passed over. *)
Lemma alloc_skip st m w l2 fuel : forall l1 pre,
  heap_rep st m (pre ++ l1 ++ l2) -> Forall (fun b => b.2 && (w <=? b.1) = false) l1 ->
  let a := g_heap_base st + span pre in
  alloc_loop (length l1 + fuel) st m (first_ptr a (l1 ++ l2)) w = alloc_loop fuel st m (first_ptr (a + span l1) l2) w.
Proof.
  induction l1 as [|[sz fr] l1 IH]; intros pre Hr Hl a.
  { cbn [app length Nat.add span]. by rewrite Z.add_0_r. }
  apply Forall_cons in Hl as [Hf Hl]. rewrite <- app_comm_cons in *. cbn [first_ptr length Nat.add span].
  pose proof (rep_block _ _ _ _ _ _ Hr) as (Hb & _). pose proof (rep_header _ _ _ _ _ _ Hr) as (E1 & E2 & E3 & E4 & E5).
  fold a in Hb, E1, E2, E3, E4, E5. cbn [alloc_loop]. rw_false (a =? 0). rewrite E1, E2, E3, E5, free_flag, Z.eqb_refl.
  cbn [fst snd negb] in *. rewrite Hf. specialize (IH (pre ++ [(sz, fr)])). rewrite <- app_assoc in IH.
  specialize (IH Hr Hl). rewrite span_app in IH. cbn [span] in IH. rewrite Z.add_0_r in IH.
  replace (g_heap_base st + (span pre + (KMEM_HEADER + sz))) with (a + KMEM_HEADER + sz) in IH by (unfold a; lia).
  rewrite IH. f_equal. f_equal. lia.
Qed.

Lemma changes_trans a c post m1 m2 m3 : changes a c post m1 m2 -> changes a c post m2 m3 -> changes a c post m1 m3.
Proof. intros H1 H2 x Hx Hx'. by rewrite H2, H1. Qed.

(** Allocation in a block that fits. *)
Lemma alloc_at st m pre sz post w :
  heap_rep st m (pre ++ (sz, true) :: post) -> 16 <= w <= sz -> w mod 16 = 0 ->
  let a := g_heap_base st + span pre in
  let m' := set_free (kmem_split_if_useful st m a w) a 0 in
  heap_rep st m' (pre ++ cut w sz ++ post) /\ changes a (a + KMEM_HEADER + sz) post m m'.
Proof.
  intros Hr Hw Hwm a m'. pose proof (rep_block _ _ _ _ _ _ Hr) as (_ & _ & H2 & _).
  destruct (split_spec st m pre sz post w Hr Hw Hwm) as [Hs Hc]. fold a in Hs, Hc. unfold cut.
  assert (Hf : forall z post' m1, heap_rep st m1 (pre ++ (z, true) :: post') ->
    heap_rep st (set_free m1 a 0) (pre ++ (z, false) :: post') /\ changes a (a + KMEM_HEADER + sz) post m1 (set_free m1 a 0)).
  { intros z post' m1 H. destruct (set_free_spec st m1 pre z true false post' H) as [H1 Hx].
    split; [done|]. intros x Ho _. apply Hx. unfold KMEM_HEADER in *. fold a. lia. }
  destruct (w + 80 <? sz); cbn [app] in *; apply Hf in Hs as [Hs Hc']; split; try done; by eapply changes_trans.
Qed.

Lemma alloc_spec st m bs n :
  heap_rep st m bs -> is_u64 n ->
  let w := (n + 15) / 16 * 16 in
  match (if (n =? 0) || (2 ^ 64 - 16 <? n) then None else first_fit w bs) with
  | None => kmem_alloc st m n = Some (0, m)
  | Some (o, bs') => exists m' l1 sz l2, kmem_alloc st m n = Some (g_heap_base st + o, m') /\ heap_rep st m' bs' /\
      bs = l1 ++ (sz, true) :: l2 /\ bs' = l1 ++ cut w sz ++ l2 /\ o = span l1 + KMEM_HEADER /\ n <= w <= sz /\ 16 <= w /\
      changes (g_heap_base st + span l1) (g_heap_base st + span l1 + KMEM_HEADER + sz) l2 m m'
  end.
Proof.
  intros Hr Hn w. unfold kmem_alloc. rewrite (hr_init _ _ _ Hr), (rep_head _ _ _ Hr). change (1 =? 0) with false. cbn [orb].
  destruct (Z.eqb_spec n 0); cbn [orb]; [done|]. rewrite align_up_size_spec by done.
  destruct (Z.ltb_spec (2 ^ 64 - 16) n); [done|]. unfold is_u64 in Hn. fold w.
  assert (Hw : 16 <= w /\ n <= w /\ w mod 16 = 0) by (unfold w; Z.div_mod_to_equations; lia). rw_false (w =? 0).
  pose proof (rep_fuel _ _ _ Hr) as Hfuel.
  destruct (first_fit w bs) as [[o bs']|] eqn:Ef.
  - apply first_fit_Some in Ef as (l1 & sz & l2 & -> & Hsz & Hl & -> & ->).
    rewrite length_app in Hfuel. cbn [length] in Hfuel.
    replace (kmem_fuel st) with (length l1 + S (kmem_fuel st - length l1 - 1))%nat by lia.
    rewrite (alloc_skip st m w ((sz, true) :: l2) _ l1 [] Hr Hl). cbn [span first_ptr]. rewrite Z.add_0_r.
    pose proof (rep_block _ _ _ _ _ _ Hr) as (Hb & _). pose proof (rep_header _ _ _ _ _ _ Hr) as (E1 & E2 & E3 & _).
    cbn [alloc_loop]. rw_false (g_heap_base st + span l1 =? 0). rewrite E1, E2, E3, Z.eqb_refl. cbn [negb].
    rw_true (w <=? sz). cbn [negb Z.eqb andb].
    destruct (alloc_at st m l1 sz l2 w Hr) as [Hr' Hc]; [lia|lia|].
    eexists _, l1, sz, l2. split_and!; try done; try lia. unfold kmem_payload. do 2 f_equal. lia.
  - apply first_fit_None in Ef. replace (kmem_fuel st) with (length bs + (kmem_fuel st - length bs))%nat by lia.
    rewrite <- (app_nil_r bs) in Hr. pose proof (alloc_skip st m w [] (kmem_fuel st - length bs) bs [] Hr Ef) as H'.
    rewrite app_nil_r in H'. rewrite H'. by destruct (kmem_fuel st - length bs)%nat.
Qed.

(** * Lemmas: release *)

Lemma changes_mono a c c' post post' m m' : a <= c -> c + 40 <= c' -> changes a c post m m' -> changes a c' post' m m'.
Proof. intros Ha Hc H x H1 H2. apply H; lia. Qed.

Lemma seg_sizes m bs : forall a p nx, seg m a p bs nx -> Forall (fun b => 16 <= b.1) bs.
Proof.
  induction bs as [|[sz fr] bs IH]; intros a p nx; cbn [seg]; [constructor|]. intros (_ & H & _ & Hr). constructor; eauto.
Qed.

Lemma absorb_grows bs : forall sz, Forall (fun b => 16 <= b.1) bs -> sz <= (absorb sz bs).1.1.
Proof.
  induction bs as [|[sz' [|]] bs IH]; intros sz Hb; cbn; [lia| |lia]. apply Forall_cons in Hb as [H Hb]. cbn in H.
  specialize (IH (sz + KMEM_HEADER + sz') Hb). unfold KMEM_HEADER in *. lia.
Qed.

(** The memory after one turn of the loop of [kmem_coalesce_forward]. *)
Definition merged (m : mem) (a n sz nn : Z) : mem :=
  let m := set_size m a sz in
  let m := set_next m a nn in
  let m := if negb (nn =? 0) then set_prev m nn a else m in
  set_next (set_prev (set_size (set_magic m n 0) n 0) n 0) n 0.

Lemma merge_spec st m pre sz fr sz' post :
  heap_rep st m (pre ++ (sz, fr) :: (sz', true) :: post) ->
  let a := g_heap_base st + span pre in
  let n := a + KMEM_HEADER + sz in
  let c := n + KMEM_HEADER + sz' in
  let m' := merged m a n (sz + KMEM_HEADER + sz') (first_ptr c post) in
  heap_rep st m' (pre ++ (sz + KMEM_HEADER + sz', fr) :: post) /\ changes a c post m m'.
Proof.
  intros Hr a n c m'. pose proof (rep_block _ _ _ _ _ _ Hr) as H. fold a in H.
  destruct H as (H0 & H1 & H2 & H3 & H4 & H5 & H6 & H7 & _). cbn [span] in H5.
  pose proof (hr_seg _ _ _ Hr) as Hs. apply seg_focus in Hs as (_ & (E1 & E2 & E3 & E4 & _) & _ & _ & S2).
  cbn [seg] in S2. fold a n in E1, E2, E3, E4, S2. destruct S2 as (_ & G2 & G3 & S3). fold c in S3.
  pose proof (seg_span_nonneg _ _ _ _ _ S3) as [G4 _].
  unfold KMEM_HEADER in *.
  assert (Hp : post = [] \/ post <> [] /\ 64 <= span post) by (destruct post; [by left|right; cbn [length] in *; split; [done|lia]]).
  assert (Hch : changes a c post m m').
  { intros x Hx Hx'. unfold m', merged, set_size, set_next, set_prev, set_magic. cbv zeta. destruct Hp as [->|[Hp _]].
    - cbn [first_ptr]. cbn [Z.eqb negb]. rewrite !store_other by lia. done.
    - assert (Hx'' : ~ c + 32 <= x < c + 40) by naive_solver. destruct post; [done|]. cbn [first_ptr].
      rw_false (c =? 0). cbn [negb]. rewrite !store_other by lia. done. }
  split; [|done].
  change (heap_rep st m (pre ++ [(sz, fr); (sz', true)] ++ post)) in Hr.
  apply (rep_replace st m m' pre _ [(sz + 48 + sz', fr)] post Hr); [done|done|cbn; unfold KMEM_HEADER; lia| | |];
    fold a; cbn [span seg last_addr]; unfold KMEM_HEADER; rewrite ?Z.add_0_r;
    replace (a + (48 + sz + (48 + sz'))) with c by (unfold c, n; lia).
  - done.
  - split_and!; [|lia|Z.div_mod_to_equations; lia|done].
    unfold m', merged, header. cbv zeta. destruct post as [|b post]; cbn [first_ptr].
    + cbn [Z.eqb negb]. mem_simpl. change (256 ^ Z.of_nat 8) with (2 ^ 64). rewrite !Z.mod_small by lia. done.
    + rw_false (c =? 0). cbn [negb]. mem_simpl. change (256 ^ Z.of_nat 8) with (2 ^ 64). rewrite !Z.mod_small by lia. done.
  - intros Hne. destruct Hp as [?|[_ Hp]]; [done|]. unfold m', merged. cbv zeta. destruct post as [|b post]; [done|].
    cbn [first_ptr]. rw_false (c =? 0). cbn [negb]. mem_simpl. change (256 ^ Z.of_nat 8) with (2 ^ 64). apply Z.mod_small. lia.
Qed.

Lemma coalesce_step st m pre sz fr sz' post fuel :
  heap_rep st m (pre ++ (sz, fr) :: (sz', true) :: post) ->
  let a := g_heap_base st + span pre in
  let n := a + KMEM_HEADER + sz in
  kmem_coalesce_forward (S fuel) m a =
    kmem_coalesce_forward fuel (merged m a n (sz + KMEM_HEADER + sz') (first_ptr (n + KMEM_HEADER + sz') post)) a.
Proof.
  intros Hr a n. pose proof (rep_block _ _ _ _ _ _ Hr) as H. fold a in H.
  destruct H as (H0 & H1 & H2 & H3 & H4 & H5 & H6 & H7 & _). cbn [span] in H5.
  pose proof (hr_seg _ _ _ Hr) as Hs. apply seg_focus in Hs as (_ & (E1 & E2 & E3 & E4 & E5) & _ & _ & S2).
  cbn [seg] in S2. fold a n in E1, E2, E3, E4, E5, S2. destruct S2 as ((G1 & G2 & G3 & G4 & G5) & Hz & Hzm & S3).
  fold (first_ptr (n + KMEM_HEADER + sz') post) in G5.
  pose proof (seg_span_nonneg _ _ _ _ _ S3) as [G6 _]. unfold KMEM_HEADER in *.
  cbn [kmem_coalesce_forward]. rewrite E5, E2, G3. rw_false (a =? 0). rw_false (n =? 0). cbn [negb andb Z.eqb].
  unfold kmem_payload, KMEM_HEADER. rewrite align_up_ptr_id by (Z.div_mod_to_equations; lia). fold n. rewrite Z.eqb_refl. cbn [negb].
  unfold merged. cbv zeta. mem_simpl. rewrite G2, G5.
  rewrite (u64_small (48 + sz')), (u64_small (sz + (48 + sz'))) by ulia.
  replace (sz + (48 + sz')) with (sz + 48 + sz') by lia. reflexivity.
Qed.

Lemma absorb_span bs : forall sz, span (let '(b, bs') := absorb sz bs in b :: bs') = KMEM_HEADER + sz + span bs.
Proof.
  induction bs as [|[sz' [|]] bs IH]; intros sz; cbn [absorb span]; [done| |done]. rewrite IH. lia.
Qed.

Lemma coalesce_spec st post : forall m pre sz fuel,
  heap_rep st m (pre ++ (sz, true) :: post) -> (length post < fuel)%nat ->
  let a := g_heap_base st + span pre in
  exists m', kmem_coalesce_forward fuel m a = Some m' /\
    heap_rep st m' (pre ++ (absorb sz post).1 :: (absorb sz post).2) /\
    changes a (a + KMEM_HEADER + (absorb sz post).1.1) (absorb sz post).2 m m'.
Proof.
  induction post as [|[sz' fr'] post IH]; intros m pre sz fuel Hr Hf a.
  { pose proof (rep_header _ _ _ _ _ _ Hr) as (_ & _ & _ & _ & E5). fold a in E5. destruct fuel as [|fuel]; [lia|].
    exists m. cbn [kmem_coalesce_forward absorb fst snd]. rewrite E5. cbn [first_ptr Z.eqb negb].
    rewrite andb_false_r. split_and!; [done|done|intros x _ _; done]. }
  destruct fuel as [|fuel]; [lia|]. cbn [length] in Hf. destruct fr'; cbn [absorb].
  - unfold a. rewrite (coalesce_step _ _ _ _ _ _ _ _ Hr). fold a.
    destruct (merge_spec _ _ _ _ _ _ _ Hr) as [Hr' Hc]. fold a in Hr', Hc.
    generalize dependent (merged m a (a + KMEM_HEADER + sz) (sz + KMEM_HEADER + sz')
      (first_ptr (a + KMEM_HEADER + sz + KMEM_HEADER + sz') post)). intros m1 Hr' Hc.
    destruct (IH _ _ _ fuel Hr') as (m' & Hm & Hrm & Hcm); [lia|]. fold a in Hm, Hcm.
    exists m'. split_and!; [done|done|]. eapply changes_trans; [|done].
    pose proof (seg_sizes _ _ _ _ _ (hr_seg _ _ _ Hr')) as Hz. apply Forall_app in Hz as [_ [Hz Hzs]%Forall_cons]. cbn in Hz.
    replace (a + KMEM_HEADER + sz + KMEM_HEADER + sz') with (a + KMEM_HEADER + (sz + KMEM_HEADER + sz')) in Hc by lia.
    destruct post as [|[z [|]] post]; [exact Hc| |exact Hc]. apply Forall_cons in Hzs as [Hz1 Hzs]. cbn in Hz1.
    pose proof (absorb_grows post (sz + KMEM_HEADER + sz' + KMEM_HEADER + z) Hzs). cbn [absorb]. unfold KMEM_HEADER in *.
    eapply changes_mono; [| |exact Hc]; lia.
  - pose proof (rep_header _ _ _ _ _ _ Hr) as (_ & _ & _ & _ & E5). fold a in E5. cbn [first_ptr] in E5.
    pose proof (hr_seg _ _ _ Hr) as Hs. apply seg_focus in Hs as (_ & _ & _ & _ & S2). cbn [seg] in S2.
    fold a in S2. destruct S2 as ((_ & _ & G3 & _) & _).
    exists m. cbn [kmem_coalesce_forward fst snd]. rewrite E5, G3. cbn [Z.eqb negb]. rewrite andb_false_r.
    split_and!; [done|done|intros x _ _; done].
Qed.

(** * Lemmas: neighbours *)

Lemma last_free_snoc l sz fr : last_free (l ++ [(sz, fr)]) = fr.
Proof. unfold last_free. by rewrite last_snoc. Qed.

Lemma coalesced_app l1 l2 :
  coalesced (l1 ++ l2) <-> coalesced l1 /\ coalesced l2 /\ (last_free l1 = true -> head_free l2 = false).
Proof.
  induction l1 as [|[sz fr] l1 IH]; cbn [app coalesced]; [unfold last_free; cbn; naive_solver|].
  rewrite IH. destruct l1 as [|[sz' fr'] l1]; cbn [app head_free coalesced].
  - unfold last_free. cbn. naive_solver.
  - change (last_free ((sz, fr) :: (sz', fr') :: l1)) with (last_free ((sz', fr') :: l1)). tauto.
Qed.

Lemma cut_coalesced l1 w sz l2 : coalesced (l1 ++ (sz, true) :: l2) -> coalesced (l1 ++ cut w sz ++ l2).
Proof.
  rewrite !coalesced_app. unfold cut. destruct (w + 80 <? sz); cbn; naive_solver.
Qed.

Lemma absorb_head sz bs : head_free (absorb sz bs).2 = false.
Proof. revert sz. induction bs as [|[z [|]] bs IH]; intros sz; cbn; auto. Qed.

Lemma absorb_coalesced sz bs : coalesced bs -> coalesced (absorb sz bs).2.
Proof. revert sz. induction bs as [|[z [|]] bs IH]; intros sz; cbn; [done| |done]. intros [_ H]. auto. Qed.

Lemma absorb_flag bs : forall sz, (absorb sz bs).1.2 = true.
Proof. induction bs as [|[z [|]] bs IH]; intros sz; cbn; auto. Qed.

(** An empty list, or one with a last block. *)
Lemma snoc_cases (l : list ablock) : l = [] \/ exists l' sz fr, l = l' ++ [(sz, fr)].
Proof. destruct l as [|[sz fr] l _] using rev_ind; eauto. Qed.

Lemma release_coalesced pre sz post :
  coalesced (pre ++ (sz, false) :: post) -> coalesced (release pre sz post).
Proof.
  intros H. apply coalesced_app in H as (Hp & [_ Hq] & _). unfold release.
  pose proof (absorb_head sz post) as Hh. pose proof (absorb_coalesced sz post Hq) as Hc.
  destruct (absorb sz post) as [[s1 f1] post1]. cbn in *.
  destruct (snoc_cases pre) as [->|(pre' & psz & [|] & ->)].
  - cbn. auto.
  - rewrite last_snoc, removelast_last. apply coalesced_app in Hp as (Hp & _ & Hl).
    apply coalesced_app. cbn in *. split_and!; auto.
  - rewrite last_snoc. apply coalesced_app. rewrite last_free_snoc. cbn. auto.
Qed.

(** * Lemmas: the consistency check *)

Lemma validate_rep st m : forall bs pre fuel guard,
  heap_rep st m (pre ++ bs) -> (length bs < fuel)%nat -> 0 <= guard <= 1048576 ->
  let a := g_heap_base st + span pre in
  validate_loop fuel st m (first_ptr a bs) (last_addr 0 (g_heap_base st) pre) a guard =
    Some (if guard + Z.of_nat (length bs) <=? 1048576 then 0 else -3).
Proof.
  induction bs as [|[sz fr] bs IH]; intros pre fuel guard Hr Hf Hg a; (destruct fuel as [|fuel]; [lia|]); cbn [first_ptr].
  { cbn [validate_loop length Z.eqb]. by rw_true (guard + Z.of_nat 0 <=? 1048576). }
  pose proof (rep_block _ _ _ _ _ _ Hr) as H. fold a in H. destruct H as (H0 & H1 & H2 & H3 & H4 & H5 & H6 & H7 & _).
  pose proof (rep_header _ _ _ _ _ _ Hr) as (E1 & E2 & _ & E4 & E5). fold a in E1, E2, E4, E5.
  cbn [validate_loop length] in *. rw_false (a =? 0). rewrite (u64_small (guard + 1)) by ulia.
  destruct (Z.ltb_spec 1048576 (guard + 1)).
  { by rw_false (guard + Z.of_nat (S (length bs)) <=? 1048576). }
  rewrite Z.eqb_refl. cbn [negb]. unfold kmem_payload, KMEM_HEADER in *. rw_false (a <? g_heap_base st).
  rw_false (g_heap_end st <? a + 48). cbn [orb]. rewrite E1, E4, E2, E5, !Z.eqb_refl. cbn [negb].
  rewrite (u64_small (g_heap_end st - (a + 48))) by ulia. rw_false (g_heap_end st - (a + 48) <? sz).
  rewrite align_up_ptr_id by (Z.div_mod_to_equations; lia).
  rw_false (a + 48 + sz =? 0). rw_false (g_heap_end st <? a + 48 + sz). cbn [orb].
  specialize (IH (pre ++ [(sz, fr)]) fuel (guard + 1)). rewrite <- app_assoc in IH. specialize (IH Hr ltac:(lia) ltac:(lia)).
  rewrite span_app, last_addr_app in IH. cbn [span last_addr] in IH. fold a in IH. unfold KMEM_HEADER in IH. rewrite Z.add_0_r in IH.
  replace (g_heap_base st + (span pre + (48 + sz))) with (a + 48 + sz) in IH by (unfold a; lia). rewrite IH.
  by replace (guard + 1 + Z.of_nat (length bs)) with (guard + Z.of_nat (S (length bs))) by lia.
Qed.

Lemma validate_spec st m bs :
  heap_rep st m bs -> kmem_validate st m = Some (if Z.of_nat (length bs) <=? 1048576 then 0 else -3).
Proof.
  intros Hr. pose proof (validate_rep st m bs [] (kmem_fuel st) 0 Hr (rep_fuel _ _ _ Hr) ltac:(lia)) as H.
  pose proof (rep_head _ _ _ Hr) as Hh. pose proof (hr_base _ _ _ Hr). pose proof (hr_end _ _ _ Hr).
  pose proof (seg_span_nonneg _ _ _ _ _ (hr_seg _ _ _ Hr)) as [Hs _]. pose proof (hr_nonempty _ _ _ Hr).
  assert (0 < span bs) by (destruct bs; cbn [length] in *; [done|lia]).
  unfold kmem_validate. rewrite (hr_init _ _ _ Hr), (hr_head _ _ _ Hr), Z.eqb_refl. rw_false (1 =? 0). rw_false (g_heap_base st =? 0).
  rw_false (g_heap_end st <=? g_heap_base st). cbn [orb negb].
  cbv zeta in H. rewrite <- Hh, (hr_head _ _ _ Hr) in H. cbn [span last_addr] in H. by rewrite Z.add_0_r in H.
Qed.

(** * Lemmas: payloads *)

(** Memory outside the arena and the payloads [U] is the same. *)
Definition preserved (st : kmem_state) (U : list (Z * Z)) (m m' : mem) : Prop :=
  forall x, ~ g_heap_base st <= x < g_heap_end st \/ (exists p n, (p, n) ∈ U /\ p <= x < p + n) -> m' x = m x.

#[export] Instance preserved_preorder st U : PreOrder (preserved st U).
Proof. split; [intros m x _; done|]. intros m1 m2 m3 H1 H2 x Hx. by rewrite H2, H1. Qed.

Lemma used_bounds m bs : forall a p nx q n,
  seg m a p bs nx -> (q, n) ∈ used a bs -> a + KMEM_HEADER <= q /\ 16 <= n /\ q + n <= a + span bs /\ q mod 16 = a mod 16.
Proof.
  induction bs as [|[sz fr] bs IH]; intros a p nx q n; cbn [seg used span]; [intros _ []%elem_of_nil|].
  intros (_ & Hz & Hm & Hr). pose proof (seg_span_nonneg _ _ _ _ _ Hr) as [Hs _]. unfold KMEM_HEADER in *.
  rewrite elem_of_app. intros [Hin|Hin].
  - destruct fr; [by apply elem_of_nil in Hin|]. apply list_elem_of_singleton in Hin as [= -> ->]. split_and!; try lia. Z.div_mod_to_equations. lia.
  - destruct (IH _ _ _ _ _ Hr Hin) as (? & ? & ? & ?). split_and!; try lia. Z.div_mod_to_equations. lia.
Qed.

(** The payloads in use do not overlap. *)
Lemma used_disjoint m bs : forall a p nx q1 n1 q2 n2,
  seg m a p bs nx -> (q1, n1) ∈ used a bs -> (q2, n2) ∈ used a bs ->
  (q1, n1) = (q2, n2) \/ q1 + n1 <= q2 \/ q2 + n2 <= q1.
Proof.
  induction bs as [|[sz fr] bs IH]; intros a p nx q1 n1 q2 n2; cbn [seg used]; [intros _ []%elem_of_nil|].
  intros (_ & Hz & Hm & Hr). rewrite !elem_of_app.
  assert (Hb : forall q n, (q, n) ∈ used (a + KMEM_HEADER + sz) bs -> a + KMEM_HEADER + sz <= q).
  { intros q n Hin. destruct (used_bounds _ _ _ _ _ _ _ Hr Hin) as (? & _). unfold KMEM_HEADER in *. lia. }
  assert (Hf : forall q n, (q, n) ∈ (if fr then [] else [(a + KMEM_HEADER, sz)]) -> q = a + KMEM_HEADER /\ n = sz).
  { intros q n Hin. destruct fr; [by apply elem_of_nil in Hin|]. by apply list_elem_of_singleton in Hin as [= -> ->]. }
  intros [H1|H1] [H2|H2].
  - apply Hf in H1 as [-> ->], H2 as [-> ->]. by left.
  - apply Hf in H1 as [-> ->]. apply Hb in H2. right. lia.
  - apply Hf in H2 as [-> ->]. apply Hb in H1. right. lia.
  - eauto.
Qed.

(** Operations on some blocks leave the payloads of the others alone. *)
Lemma changes_preserved st m m' pre old post :
  heap_rep st m (pre ++ old ++ post) ->
  let a := g_heap_base st + span pre in
  let c := a + span old in
  changes a c post m m' -> preserved st (used (g_heap_base st) pre ++ used c post) m m'.
Proof.
  intros [Hi Hb Ha Hh Hn He Hl Hs] a c Hc x Hx. rewrite !span_app in He.
  apply seg_app in Hs as [S1 S2]. apply seg_app in S2 as [So S2]. fold a c in S1, So, S2.
  pose proof (seg_span_nonneg _ _ _ _ _ S1) as [? _]. pose proof (seg_span_nonneg _ _ _ _ _ So) as [? _].
  pose proof (seg_span_nonneg _ _ _ _ _ S2) as [Hsp _].
  apply Hc; destruct Hx as [Hx|(p & n & [Hin|Hin]%elem_of_app & Hx)];
    try (destruct (used_bounds _ _ _ _ _ _ _ S1 Hin) as (? & ? & ? & _));
    try (destruct (used_bounds _ _ _ _ _ _ _ S2 Hin) as (? & ? & ? & _)); unfold KMEM_HEADER, a, c in *; try lia.
  intros [Hne Hx']. assert (64 <= span post) by (destruct post; [done|cbn [length] in *; lia]). lia.
Qed.

Lemma preserved_sub st U U' m m' : U' ⊆ U -> preserved st U m m' -> preserved st U' m m'.
Proof. intros Hs H x [Hx|(p & n & Hin & Hx)]; apply H; [by left|right]. exists p, n. split; [by apply Hs|done]. Qed.

Lemma absorb_done sz bs : head_free bs = false -> absorb sz bs = ((sz, true), bs).
Proof. destruct bs as [|[z [|]] bs]; cbn; done. Qed.

Lemma used_absorb bs : forall a sz,
  used (a + KMEM_HEADER + (absorb sz bs).1.1) (absorb sz bs).2 = used (a + KMEM_HEADER + sz) bs.
Proof.
  induction bs as [|[z [|]] bs IH]; intros a sz; cbn [absorb used fst snd app]; [done| |done].
  rewrite IH. f_equal. lia.
Qed.

(** Coalescing after a block has been marked free. *)
Lemma coalesce_preserved st m pre sz post fuel :
  heap_rep st m (pre ++ (sz, true) :: post) -> (length post < fuel)%nat ->
  let a := g_heap_base st + span pre in
  exists m', kmem_coalesce_forward fuel m a = Some m' /\
    heap_rep st m' (pre ++ ((absorb sz post).1.1, true) :: (absorb sz post).2) /\
    preserved st (used (g_heap_base st) (pre ++ (sz, true) :: post)) m m'.
Proof.
  intros Hr Hf a. destruct (coalesce_spec st post m pre sz fuel Hr Hf) as (m' & Hm & Hr' & Hc). fold a in Hm, Hc.
  exists m'. split; [done|]. pose proof (absorb_flag post sz) as Hfl. pose proof (used_absorb post a sz) as Hu.
  destruct (absorb sz post) as [[s1 f1] post1]. cbn [fst snd] in *. subst f1. split; [done|].
  rewrite used_app. cbn [used app]. fold a. rewrite <- Hu.
  assert (Hc' : changes a (a + span [(s1, true)]) post1 m' m).
  { cbn [span]. replace (a + (KMEM_HEADER + s1 + 0)) with (a + KMEM_HEADER + s1) by lia. intros x H1 H2. by rewrite Hc. }
  pose proof (changes_preserved st m' m pre [(s1, true)] post1 Hr' Hc') as Hp. cbn [span] in Hp.
  replace (a + KMEM_HEADER + s1) with (a + (KMEM_HEADER + s1 + 0)) by lia. intros x Hx. symmetry. by apply Hp.
Qed.

Lemma in_heap_spec st m bs p : heap_rep st m bs -> g_heap_base st <= p < g_heap_end st -> kmem_ptr_in_heap st p = true.
Proof.
  intros Hr Hp. unfold kmem_ptr_in_heap. rewrite (hr_init _ _ _ Hr). rw_true (g_heap_base st <=? p). by rw_true (p <? g_heap_end st).
Qed.

(** The second half of [kmem_free_checked]: the block is free and its successor absorbed. *)
Lemma coalesce_prev st m pre sz post :
  heap_rep st m (pre ++ (sz, true) :: post) -> head_free post = false ->
  let a := g_heap_base st + span pre in
  let bs' := match last pre with
             | Some (psz, true) => removelast pre ++ (psz + KMEM_HEADER + sz, true) :: post
             | _ => pre ++ (sz, true) :: post
             end in
  exists m',
    (if negb (blk_prev m a =? 0) && negb (blk_free m (blk_prev m a) =? 0)
     then kmem_coalesce_forward (kmem_fuel st) m (blk_prev m a) else Some m) = Some m' /\
    heap_rep st m' bs' /\ preserved st (used (g_heap_base st) (pre ++ (sz, true) :: post)) m m'.
Proof.
  intros Hr Hh a bs'. pose proof (rep_header _ _ _ _ _ _ Hr) as (_ & _ & _ & E4 & _). fold a in E4.
  destruct (snoc_cases pre) as [->|(pre' & psz & pf & ->)].
  { cbn [last_addr] in E4. rewrite E4. cbn. exists m. by split_and!. }
  unfold bs'. rewrite last_snoc, removelast_last. rewrite last_addr_app in E4. cbn [last_addr] in E4.
  assert (Hr0 := Hr). rewrite <- app_assoc in Hr0. cbn [app] in Hr0.
  pose proof (rep_block _ _ _ _ _ _ Hr0) as (Hb & _). pose proof (rep_header _ _ _ _ _ _ Hr0) as (_ & _ & F3 & _).
  rewrite E4, F3, free_flag. rw_false (g_heap_base st + span pre' =? 0). cbn [negb andb]. destruct pf.
  - pose proof (rep_fuel _ _ _ Hr0) as Hfuel. rewrite length_app in Hfuel. cbn [length] in Hfuel.
    destruct (coalesce_preserved st m pre' psz ((sz, true) :: post) (kmem_fuel st) Hr0) as (m' & Hm & Hr' & Hp); [cbn [length]; lia|].
    exists m'. split; [done|]. cbn [absorb] in Hr'. rewrite absorb_done in Hr' by done. split; [done|].
    by rewrite <- app_assoc.
  - exists m. by split_and!.
Qed.

Lemma land_15 p : Z.land p (KMEM_ALIGN - 1) = p mod 16.
Proof. unfold KMEM_ALIGN. change (16 - 1) with (2 ^ 4 - 1). by rewrite land_low by lia. Qed.

Lemma free_spec st m pre sz post :
  heap_rep st m (pre ++ (sz, false) :: post) ->
  let a := g_heap_base st + span pre in
  let bs' := release pre sz post in
  exists m', kmem_free_checked st m (a + KMEM_HEADER) = Some (if Z.of_nat (length bs') <=? 1048576 then 0 else -3, m') /\
    heap_rep st m' bs' /\ preserved st (used (g_heap_base st) (pre ++ (sz, true) :: post)) m m'.
Proof.
  intros Hr a bs'. pose proof (rep_block _ _ _ _ _ _ Hr) as H. fold a in H. destruct H as (H0 & H1 & H2 & H3 & H4 & H5 & H6 & H7 & _).
  pose proof (rep_header _ _ _ _ _ _ Hr) as (E1 & _ & E3 & _). fold a in E1, E3.
  pose proof (rep_fuel _ _ _ Hr) as Hfuel. rewrite length_app in Hfuel. cbn [length] in Hfuel.
  destruct (set_free_spec st m pre sz false true post Hr) as [Hr1 Hx1]. fold a in Hr1, Hx1.
  assert (Hp1 : preserved st (used (g_heap_base st) (pre ++ (sz, true) :: post)) m (set_free m a 1)).
  { rewrite used_app. cbn [used app]. fold a.
    pose proof (changes_preserved st m (set_free m a 1) pre [(sz, false)] post Hr) as Hp. fold a in Hp. cbn [span] in Hp.
    replace (a + (KMEM_HEADER + sz + 0)) with (a + KMEM_HEADER + sz) in Hp by lia. apply Hp.
    intros x Hx _. apply Hx1. unfold KMEM_HEADER in *. lia. }
  destruct (coalesce_preserved st (set_free m a 1) pre sz post (kmem_fuel st) Hr1) as (m2 & Hm2 & Hr2 & Hp2); [lia|].
  fold a in Hm2. pose proof (absorb_head sz post) as Hh. pose proof (used_absorb post a sz) as Hu. unfold bs', release.
  destruct (absorb sz post) as [[s1 f1] post1]. cbn [fst snd] in *.
  destruct (coalesce_prev st m2 pre s1 post1 Hr2 Hh) as (m3 & Hm3 & Hr3 & Hp3). fold a in Hm3.
  rewrite used_app in Hp3. cbn [used app] in Hp3. fold a in Hp3. rewrite Hu in Hp3.
  exists m3. split_and!; [|done|].
  - unfold kmem_free_checked, kmem_header_from_payload. rewrite land_15. unfold KMEM_HEADER in *. rw_false (a + 48 =? 0).
    rewrite (in_heap_spec _ _ _ (a + 48) Hr) by lia. replace ((a + 48) mod 16) with 0 by (Z.div_mod_to_equations; lia).
    cbn [negb Z.eqb]. replace (a + 48 - 48) with a by lia. rewrite (in_heap_spec _ _ _ a Hr) by lia.
    rewrite E1, E3, Z.eqb_refl. cbn [negb orb Z.eqb]. rewrite Hm2. cbn [mbind option_bind]. rewrite Hm3. cbn [mbind option_bind].
    by rewrite (validate_spec _ _ _ Hr3).
  - etrans; [exact Hp1|]. etrans; [exact Hp2|]. rewrite used_app. cbn [used app]. exact Hp3.
Qed.

Lemma used_release a pre sz post :
  used a (release pre sz post) = used a pre ++ used (a + span pre + KMEM_HEADER + sz) post.
Proof.
  unfold release. pose proof (used_absorb post (a + span pre) sz) as Hu.
  destruct (absorb sz post) as [[s1 f1] post1]. cbn [fst snd] in Hu.
  destruct (snoc_cases pre) as [->|(pre' & psz & [|] & ->)]; rewrite ?last_snoc, ?removelast_last.
  - cbn [span] in *. rewrite <- Hu. cbn [last app used]. by rewrite Z.add_0_r.
  - rewrite !used_app, <- Hu. cbn [used app]. rewrite app_nil_r. do 2 f_equal. rewrite span_app. cbn [span]. lia.
  - rewrite used_app. cbn [used app]. by rewrite <- Hu.
Qed.

Lemma used_cut a w sz l2 :
  used a (cut w sz ++ l2) = (a + KMEM_HEADER, if w + 80 <? sz then w else sz) :: used (a + KMEM_HEADER + sz) l2.
Proof.
  unfold cut. destruct (w + 80 <? sz); cbn [app used]; [|done]. do 2 f_equal. lia.
Qed.

(** * Lemmas: initialisation *)

(** The arena [base, base + bytes) does not reach the last 32 bytes of the address space. *)
Definition arena_ok (base bytes : Z) : Prop := 0 <= base /\ 0 <= bytes /\ base + bytes <= 2 ^ 64 - 32.

(** The aligned part of the arena. *)
Definition arena_start (base : Z) : Z := (base + 15) / 16 * 16.
Definition arena_size (base bytes : Z) : Z := (base + bytes) / 16 * 16 - arena_start base.

Lemma init_rep st m base bytes :
  arena_ok base bytes ->
  exists rc st' m', kmem_init st m base bytes = Some (rc, st', m') /\
    (rc = 0 <-> base <> 0 /\ 80 < arena_size base bytes) /\
    (rc <> 0 -> st' = st /\ m' = m) /\
    (rc = 0 -> st' = mk_kmem (arena_start base) (arena_start base + arena_size base bytes) (arena_start base) 1 /\
       heap_rep st' m' [(arena_size base bytes - KMEM_HEADER, true)] /\
       forall x, ~ arena_start base <= x < arena_start base + KMEM_HEADER -> m' x = m x).
Proof.
  intros (Hb & Hn & Hl). unfold kmem_init, KMEM_MIN_SPLIT, KMEM_HEADER. 
  assert (Hsz : arena_size base bytes <= bytes - (arena_start base - base) /\
    arena_start base + arena_size base bytes = (base + bytes) / 16 * 16 /\ base <= arena_start base < base + 16 /\
    arena_start base mod 16 = 0 /\ arena_size base bytes mod 16 = 0 /\ arena_start base + arena_size base bytes <= base + bytes)
    by (unfold arena_size, arena_start; Z.div_mod_to_equations; lia).
  destruct Hsz as (Hs1 & Hs2 & Hs3 & Hs4 & Hs5 & Hs6).
  assert (Hfail : forall c, c <> 0 -> ~ (base <> 0 /\ 80 < arena_size base bytes) -> exists rc st' m', Some (c, st, m) = Some (rc, st', m') /\
    (rc = 0 <-> base <> 0 /\ 80 < arena_size base bytes) /\ (rc <> 0 -> st' = st /\ m' = m) /\
    (rc = 0 -> st' = mk_kmem (arena_start base) (arena_start base + arena_size base bytes) (arena_start base) 1 /\
       heap_rep st' m' [(arena_size base bytes - 48, true)] /\
       forall x, ~ arena_start base <= x < arena_start base + 48 -> m' x = m x)).
  { intros c Hc Hno. exists c, st, m. naive_solver. }
  destruct (Z.eqb_spec base 0); cbn [orb]; [apply Hfail; lia|].
  destruct (Z.ltb_spec bytes (48 + 32)); [apply Hfail; lia|].
  rewrite align_up_ptr_spec by (unfold is_u64; lia). rw_false (2 ^ 64 - 16 <? base). fold (arena_start base). cbv zeta.
  rw_false (arena_start base =? 0). rw_false (arena_start base <? base). cbn [orb].
  rewrite (u64_small (_ + 48 + 32)) by ulia. destruct (Z.leb_spec bytes (arena_start base - base + 48 + 32)); [apply Hfail; lia|].
  rewrite (u64_small (bytes - _)) by ulia. unfold KMEM_ALIGN. change (16 - 1) with (2 ^ 4 - 1).
  rewrite land_high by ulia. change (2 ^ 4) with 16.
  replace (bytes - (arena_start base - base) - (bytes - (arena_start base - base)) mod 16) with (arena_size base bytes)
    by (clear Hfail; Z.div_mod_to_equations; lia).
  destruct (Z.leb_spec (arena_size base bytes) (48 + 32)); [apply Hfail; lia|]. clear Hfail.
  set (a := arena_start base) in *. set (u := arena_size base bytes) in *. rewrite (u64_small (u - 48)) by ulia.
  set (m' := set_next _ _ _). set (st' := mk_kmem _ _ _ _).
  assert (Hr : heap_rep st' m' [(u - 48, true)]).
  { split; cbn [g_initialized g_heap_base g_heap_end g_head st' span seg]; unfold KMEM_HEADER; try lia; try done.
    split_and!; [|lia|Z.div_mod_to_equations; lia|done]. unfold m', header. mem_simpl. change (256 ^ Z.of_nat 8) with (2 ^ 64).
    rewrite (Z.mod_small (u - 48)) by lia. done. }
  rewrite (validate_spec _ _ _ Hr). cbn [mbind option_bind length Z.of_nat]. change (Z.of_nat 1 <=? 1048576) with true. cbn iota.
  exists 0, st', m'. split_and!; try done; try lia. intros _. split_and!; [done|done|].
  intros x Hx. unfold m', set_magic, set_size, set_free, set_prev, set_next. rewrite !store_other by lia. done.
Qed.

(** * Clients *)

(** What the kernel does with the heap: it allocates, releases what it has allocated, and writes inside its
    allocations. [L] holds the live allocations with the sizes asked for. *)
Inductive heap_step (st : kmem_state) : mem * gmap Z Z -> mem * gmap Z Z -> Prop :=
| hs_alloc m L n p m' : is_u64 n -> kmem_alloc st m n = Some (p, m') ->
    heap_step st (m, L) (m', if p =? 0 then L else <[p := n]> L)
| hs_calloc m L k n p m' : is_u64 k -> is_u64 n -> kmem_calloc st m k n = Some (p, m') ->
    heap_step st (m, L) (m', if p =? 0 then L else <[p := k * n]> L)
| hs_free m L p n rc m' : L !! p = Some n -> kmem_free_checked st m p = Some (rc, m') ->
    heap_step st (m, L) (m', delete p L)
| hs_write m L p n x v : L !! p = Some n -> p <= x < p + n -> heap_step st (m, L) (store8 m x v, L).

(** The blocks in use are the live allocations. *)
Definition heap_inv (st : kmem_state) (m : mem) (L : gmap Z Z) : Prop :=
  exists bs, heap_rep st m bs /\ coalesced bs /\
    (forall p, is_Some (L !! p) <-> exists sz, (p, sz) ∈ used (g_heap_base st) bs) /\
    (forall p n sz, L !! p = Some n -> (p, sz) ∈ used (g_heap_base st) bs -> 0 < n <= sz).

(** The bytes of the live allocations and those outside the arena are the same. *)
Definition keeps (st : kmem_state) (L : gmap Z Z) (m m' : mem) : Prop :=
  forall x, ~ g_heap_base st <= x < g_heap_end st \/ (exists p n, L !! p = Some n /\ p <= x < p + n) -> m' x = m x.

(** Two payloads at the same address are the same. *)
Lemma used_fun st m bs p n1 n2 : heap_rep st m bs ->
  (p, n1) ∈ used (g_heap_base st) bs -> (p, n2) ∈ used (g_heap_base st) bs -> n1 = n2.
Proof.
  intros Hr H1 H2. pose proof (hr_seg _ _ _ Hr) as Hs.
  destruct (used_bounds _ _ _ _ _ _ _ Hs H1) as (_ & ? & _). destruct (used_bounds _ _ _ _ _ _ _ Hs H2) as (_ & ? & _).
  destruct (used_disjoint _ _ _ _ _ _ _ _ _ Hs H1 H2) as [[= ->]|[?|?]]; [done|lia|lia].
Qed.

Lemma inv_keeps st m m' (L : gmap Z Z) bs U :
  heap_rep st m bs -> (forall p n, L !! p = Some n -> exists sz, (p, sz) ∈ U /\ n <= sz) -> preserved st U m m' -> keeps st L m m'.
Proof.
  intros Hr HL Hp x [Hx|(p & n & Hn & Hx)]; apply Hp; [by left|right]. destruct (HL p n Hn) as (sz & Hin & Hsz).
  exists p, sz. split; [done|lia].
Qed.

Lemma inv_live st m (L : gmap Z Z) bs : heap_rep st m bs ->
  (forall p, is_Some (L !! p) <-> exists sz, (p, sz) ∈ used (g_heap_base st) bs) ->
  (forall p n sz, L !! p = Some n -> (p, sz) ∈ used (g_heap_base st) bs -> 0 < n <= sz) ->
  forall p n, L !! p = Some n -> exists sz, (p, sz) ∈ used (g_heap_base st) bs /\ n <= sz.
Proof.
  intros Hr H1 H2 p n Hn. destruct (proj1 (H1 p)) as [sz Hin]; [by exists n|]. exists sz. split; [done|].
  by destruct (H2 p n sz Hn Hin).
Qed.

(** Allocation, at the level of live allocations. *)
Lemma alloc_inv st m L n :
  heap_inv st m L -> is_u64 n ->
  exists p m', kmem_alloc st m n = Some (p, m') /\ keeps st L m m' /\
    (p = 0 -> m' = m) /\
    (p <> 0 -> L !! p = None /\ 0 < n <= 2 ^ 64 - 16 /\ heap_inv st m' (<[p := n]> L)).
Proof.
  intros (bs & Hr & Hc & HL & Hsz) Hn. pose proof (alloc_spec st m bs n Hr Hn) as H. cbv zeta in H.
  destruct (if (n =? 0) || (2 ^ 64 - 16 <? n) then None else first_fit ((n + 15) / 16 * 16) bs) as [[o bs']|] eqn:Eo.
  2:{ exists 0, m. by split_and!. }
  destruct H as (m' & l1 & sz & l2 & Hm & Hr' & -> & -> & -> & Hw & Hw16 & Hch).
  destruct ((n =? 0) || (2 ^ 64 - 16 <? n)) eqn:En; [done|]. clear Eo. bool_to_prop. unfold is_u64 in Hn.
  set (w := (n + 15) / 16 * 16) in *. set (a := g_heap_base st + span l1) in *.
  replace (g_heap_base st + (span l1 + KMEM_HEADER)) with (a + KMEM_HEADER) in Hm by (unfold a; lia).
  pose proof (rep_block _ _ _ _ _ _ Hr) as (Ha & _). fold a in Ha.
  assert (Hpres : preserved st (used (g_heap_base st) (l1 ++ (sz, true) :: l2)) m m').
  { rewrite used_app. cbn [used app]. fold a. pose proof (changes_preserved st m m' l1 [(sz, true)] l2 Hr) as Hp. fold a in Hp.
    cbn [span] in Hp. replace (a + (KMEM_HEADER + sz + 0)) with (a + KMEM_HEADER + sz) in Hp by lia. by apply Hp. }
  assert (HU : forall q k, (q, k) ∈ used (g_heap_base st) (l1 ++ cut w sz ++ l2) <->
    (q, k) = (a + KMEM_HEADER, if w + 80 <? sz then w else sz) \/ (q, k) ∈ used (g_heap_base st) (l1 ++ (sz, true) :: l2)).
  { intros q k. rewrite (used_app l1 (cut w sz ++ l2)), (used_app l1 ((sz, true) :: l2)). fold a. rewrite used_cut. cbn [used app]. rewrite !elem_of_app, elem_of_cons. tauto. }
  assert (Hnew : L !! (a + KMEM_HEADER) = None).
  { apply eq_None_not_Some. intros [k Hk]%HL. rewrite used_app in Hk. cbn [used app] in Hk. fold a in Hk.
    pose proof (hr_seg _ _ _ Hr) as Hs. apply seg_focus in Hs as (S1 & _ & ? & _ & S2). fold a in S1, S2.
    apply elem_of_app in Hk as [Hk|Hk].
    - destruct (used_bounds _ _ _ _ _ _ _ S1 Hk) as (_ & ? & ? & _). unfold a, KMEM_HEADER in *. lia.
    - destruct (used_bounds _ _ _ _ _ _ _ S2 Hk) as (? & ? & ? & _). unfold a, KMEM_HEADER in *. lia. }
  exists (a + KMEM_HEADER), m'. split; [done|]. split; [by eapply inv_keeps; [| |exact Hpres]; [exact Hr|eapply inv_live]|].
  split; [unfold KMEM_HEADER in *; lia|]. intros _. split_and!; [done|lia|lia|].
  exists (l1 ++ cut w sz ++ l2). split_and!; [done|by apply cut_coalesced| |].
  - intros q. setoid_rewrite HU. destruct (decide (q = a + KMEM_HEADER)) as [->|Hne].
    + rewrite lookup_insert_eq. split; [|done]. intros _. eexists. by left.
    + rewrite lookup_insert_ne by done. rewrite HL. split; intros [k Hk]; exists k; [by right|]. destruct Hk as [[= -> _]|?]; done.
  - intros q k s Hq Hin%HU. destruct (decide (q = a + KMEM_HEADER)) as [->|Hne].
    + rewrite lookup_insert_eq in Hq. injection Hq as <-. destruct Hin as [[= ->]|Hin]; [case_match; lia|].
      exfalso. apply (eq_None_not_Some (L !! (a + KMEM_HEADER))); [done|]. apply HL. eauto.
    + rewrite lookup_insert_ne in Hq by done. destruct Hin as [[= -> _]|Hin]; [done|eauto].
Qed.

(** Payloads and headers do not overlap. *)
Lemma used_starts m bs : forall a p nx q n b,
  seg m a p bs nx -> (q, n) ∈ used a bs -> b ∈ starts a bs -> b + KMEM_HEADER <= q \/ q + n <= b.
Proof.
  induction bs as [|[sz fr] bs IH]; intros a p nx q n b; cbn [seg used starts]; [intros _ []%elem_of_nil|].
  intros (_ & Hz & Hm & Hr). rewrite elem_of_app, elem_of_cons.
  assert (Hf : (q, n) ∈ (if fr then [] else [(a + KMEM_HEADER, sz)]) -> q = a + KMEM_HEADER /\ n = sz).
  { intros Hin. destruct fr; [by apply elem_of_nil in Hin|]. by apply list_elem_of_singleton in Hin as [= -> ->]. }
  intros [[-> ->]%Hf|H1] [->|H2].
  - lia.
  - destruct (seg_starts _ _ _ _ _ _ Hr H2). lia.
  - destruct (used_bounds _ _ _ _ _ _ _ Hr H1) as (? & _). unfold KMEM_HEADER in *. lia.
  - eauto.
Qed.

(** Writing inside an allocation. *)
Lemma write_inv st m m' L p n :
  heap_inv st m L -> L !! p = Some n -> (forall x, ~ p <= x < p + n -> m' x = m x) -> heap_inv st m' L.
Proof.
  intros (bs & Hr & Hc & HL & Hsz) Hp Hout. exists bs. split_and!; try done. destruct (proj1 (HL p)) as [sz Hin]; [eauto|].
  pose proof (Hsz p n sz Hp Hin). destruct Hr. split; try done.
  eapply seg_ext; [|done]. intros b x Hb Hx. apply Hout.
  destruct (used_starts _ _ _ _ _ _ _ _ hr_seg0 Hin Hb); lia.
Qed.

Lemma memset_loop_other n : forall m d v x, ~ d <= x < d + Z.of_nat n -> memset_loop n m d v x = m x.
Proof.
  induction n as [|n IH]; intros m d v x Hx; cbn [memset_loop]; [done|]. rewrite IH by lia. unfold store8. by rw_false (x =? d).
Qed.

Lemma keeps_trans st L m1 m2 m3 : keeps st L m1 m2 -> keeps st L m2 m3 -> keeps st L m1 m3.
Proof. intros H1 H2 x Hx. by rewrite H2, H1. Qed.

(** The geometry of the live allocations. *)
Lemma live_geometry st m L : heap_inv st m L ->
  (forall p n, L !! p = Some n -> p mod 16 = 0 /\ 0 < n /\ g_heap_base st <= p /\ p + n <= g_heap_end st) /\
  (forall p n q k, L !! p = Some n -> L !! q = Some k -> p <> q -> p + n <= q \/ q + k <= p).
Proof.
  intros (bs & Hr & Hc & HL & Hsz). pose proof (hr_seg _ _ _ Hr) as Hs. split.
  - intros p n Hn. destruct (proj1 (HL p)) as [sz Hin]; [eauto|]. destruct (Hsz p n sz Hn Hin).
    destruct (used_bounds _ _ _ _ _ _ _ Hs Hin) as (? & ? & ? & Hm). rewrite (hr_align _ _ _ Hr) in Hm.
    rewrite (hr_end _ _ _ Hr). unfold KMEM_HEADER in *. split_and!; [done|lia..].
  - intros p n q k Hp Hq Hne. destruct (proj1 (HL p)) as [s1 H1]; [eauto|]. destruct (proj1 (HL q)) as [s2 H2]; [eauto|].
    destruct (Hsz _ _ _ Hp H1), (Hsz _ _ _ Hq H2). destruct (used_disjoint _ _ _ _ _ _ _ _ _ Hs H1 H2) as [[= -> _]|[?|?]]; [done|lia|lia].
Qed.

Lemma calloc_inv st m L k n :
  heap_inv st m L -> is_u64 k -> is_u64 n ->
  exists p m', kmem_calloc st m k n = Some (p, m') /\ keeps st L m m' /\ (p = 0 -> m' = m) /\
    (p <> 0 -> L !! p = None /\ k * n < 2 ^ 64 /\ heap_inv st m' (<[p := k * n]> L) /\
       forall x, p <= x < p + k * n -> load8 m' x = 0).
Proof.
  intros Hi Hk Hn. unfold kmem_calloc, is_u64 in *.
  destruct (negb (k =? 0) && (UINT64_MAX / k <? n)) eqn:E.
  { exists 0, m. by split_and!. }
  assert (Hov : 0 <= k * n < 2 ^ 64).
  { bool_to_prop. destruct E as [E|E]; bool_to_prop; [subst; lia|]. unfold UINT64_MAX in E.
    destruct (decide (k = 0)) as [->|]; [lia|]. pose proof (Z.mul_div_le 0xffffffffffffffff k). nia. }
  rewrite (u64_small (k * n)) by (unfold is_u64; lia).
  destruct (alloc_inv st m L (k * n) Hi) as (p & m1 & -> & Hkeep & H0 & H1); [unfold is_u64; lia|]. cbn [mbind option_bind].
  destruct (Z.eqb_spec p 0) as [->|Hp]; cbn [negb].
  { exists 0, m1. by split_and!. }
  destruct (H1 Hp) as (Hfresh & Hb & Hi1). exists p, (kmem_memset m1 p 0 (k * n)). unfold kmem_memset.
  assert (Hout : forall x, ~ p <= x < p + k * n -> memset_loop (Z.to_nat (k * n)) m1 p 0 x = m1 x).
  { intros x Hx. apply memset_loop_other. lia. }
  split; [done|]. split.
  { eapply keeps_trans; [done|]. intros x Hx. apply Hout. destruct (live_geometry _ _ _ Hi1) as [G1 G2].
    destruct (G1 p (k * n)) as (_ & _ & ? & ?); [apply lookup_insert_eq|].
    destruct Hx as [Hx|(q & j & Hq & Hx)]; [lia|]. assert (q <> p) by congruence.
    destruct (G2 p (k * n) q j); [apply lookup_insert_eq|by rewrite lookup_insert_ne|done|lia|lia]. }
  split; [done|]. intros _. split_and!; [done|lia| |].
  - eapply write_inv; [done|apply lookup_insert_eq|done].
  - intros x Hx. unfold load8. rewrite memset_loop_spec. rw_true (p <=? x). by rw_true (x <? p + Z.of_nat (Z.to_nat (k * n))).
Qed.

Lemma used_split a bs p sz : (p, sz) ∈ used a bs ->
  exists pre post, bs = pre ++ (sz, false) :: post /\ p = a + span pre + KMEM_HEADER.
Proof.
  revert a. induction bs as [|[z fr] bs IH]; intros a; cbn [used]; [intros []%elem_of_nil|].
  rewrite elem_of_app. intros [Hin|Hin].
  - destruct fr; [by apply elem_of_nil in Hin|]. apply list_elem_of_singleton in Hin as [= -> ->]. exists [], bs. cbn. split; [done|lia].
  - destruct (IH _ Hin) as (pre & post & -> & ->). exists ((z, fr) :: pre), post. cbn. split; [done|lia].
Qed.

Lemma free_inv st m L p n :
  heap_inv st m L -> L !! p = Some n ->
  exists rc m', kmem_free_checked st m p = Some (rc, m') /\ keeps st (delete p L) m m' /\
    heap_inv st m' (delete p L) /\ (rc = 0 \/ rc = -3 /\ 64 * 1048576 < g_heap_end st - g_heap_base st).
Proof.
  intros (bs & Hr & Hc & HL & Hsz) Hp. destruct (proj1 (HL p)) as [sz Hin]; [eauto|].
  destruct (used_split _ _ _ _ Hin) as (pre & post & -> & ->). set (a := g_heap_base st + span pre) in *.
  destruct (free_spec st m pre sz post Hr) as (m' & Hm & Hr' & Hpres). fold a in Hm.
  assert (HU : forall q k, (q, k) ∈ used (g_heap_base st) (pre ++ (sz, false) :: post) <->
    (q, k) = (a + KMEM_HEADER, sz) \/ (q, k) ∈ used (g_heap_base st) (release pre sz post)).
  { intros q k. rewrite used_release, used_app. cbn [used app]. fold a. rewrite !elem_of_app, elem_of_cons. tauto. }
  assert (HU' : used (g_heap_base st) (pre ++ (sz, true) :: post) = used (g_heap_base st) (release pre sz post)).
  { rewrite used_release, used_app. cbn [used app]. by fold a. }
  assert (Hnot : forall k, (a + KMEM_HEADER, k) ∉ used (g_heap_base st) (release pre sz post)).
  { intros k Hk. rewrite <- HU' in Hk. rewrite used_app in Hk. cbn [used app] in Hk. fold a in Hk.
    pose proof (hr_seg _ _ _ Hr) as Hs. apply seg_focus in Hs as (S1 & _ & ? & _ & S2). fold a in S1, S2.
    apply elem_of_app in Hk as [Hk|Hk].
    - destruct (used_bounds _ _ _ _ _ _ _ S1 Hk) as (_ & ? & ? & _). unfold a, KMEM_HEADER in *. lia.
    - destruct (used_bounds _ _ _ _ _ _ _ S2 Hk) as (? & ? & ? & _). unfold a, KMEM_HEADER in *. lia. }
  assert (HL' : forall q, is_Some (delete (a + KMEM_HEADER) L !! q) <-> exists k, (q, k) ∈ used (g_heap_base st) (release pre sz post)).
  { intros q. destruct (decide (q = a + KMEM_HEADER)) as [->|Hne].
    - rewrite lookup_delete_eq. split; [by intros []|]. intros [k Hk]. by apply Hnot in Hk.
    - rewrite lookup_delete_ne by done. rewrite HL. setoid_rewrite HU. split; intros [k Hk]; exists k; [|by right].
      destruct Hk as [[= -> _]|]; done. }
  assert (Hsz' : forall q k s, delete (a + KMEM_HEADER) L !! q = Some k -> (q, s) ∈ used (g_heap_base st) (release pre sz post) -> 0 < k <= s).
  { intros q k s [Hne Hq]%lookup_delete_Some Hs. eapply Hsz; [done|]. apply HU. by right. }
  eexists _, m'. split; [exact Hm|]. split_and!.
  - rewrite HU' in Hpres. eapply inv_keeps; [exact Hr| |exact Hpres]. by eapply inv_live.
  - exists (release pre sz post). split_and!; [done|by apply release_coalesced|done|done].
  - destruct (Z.leb_spec (Z.of_nat (length (release pre sz post))) 1048576); [by left|right]. split; [done|].
    pose proof (seg_span_nonneg _ _ _ _ _ (hr_seg _ _ _ Hr')) as [? _]. rewrite (hr_end _ _ _ Hr'). lia.
Qed.

Lemma step_inv st m L m' L' : heap_step st (m, L) (m', L') -> heap_inv st m L ->
  heap_inv st m' L' /\ forall x, ~ g_heap_base st <= x < g_heap_end st -> m' x = m x.
Proof.
  inversion 1 as [? ? n p ? Hn Ha|? ? k n p ? Hk Hn Ha|? ? p n rc ? Hp Hf|? ? p n x v Hp Hx]; subst; intros Hi.
  - destruct (alloc_inv st m L n Hi Hn) as (p' & m1 & Ha' & Hkeep & H0 & H1). rewrite Ha in Ha'. injection Ha' as Ep Em. subst p' m1.
    split; [|intros x Hx; apply Hkeep; by left]. destruct (Z.eqb_spec p 0) as [Ez|Hp]; [by rewrite (H0 Ez)|]. by apply H1.
  - destruct (calloc_inv st m L k n Hi Hk Hn) as (p' & m1 & Ha' & Hkeep & H0 & H1). rewrite Ha in Ha'. injection Ha' as Ep Em. subst p' m1.
    split; [|intros x Hx; apply Hkeep; by left]. destruct (Z.eqb_spec p 0) as [Ez|Hp]; [by rewrite (H0 Ez)|]. by apply H1.
  - destruct (free_inv st m L p n Hi Hp) as (rc' & m1 & Hf' & Hkeep & Hi' & _). rewrite Hf in Hf'. injection Hf' as Ec Em. subst rc' m1.
    split; [done|]. intros x Hx. apply Hkeep. by left.
  - split.
    + eapply write_inv; [done..|]. intros y Hy. unfold store8. destruct (Z.eqb_spec y x); [lia|done].
    + intros y Hy. destruct (live_geometry _ _ _ Hi) as [G _]. destruct (G p n Hp) as (_ & _ & ? & ?).
      unfold store8. destruct (Z.eqb_spec y x); [lia|done].
Qed.

(** * Lemmas: alloc and free are inverse *)

Lemma last_free_false l : last_free l = false -> forall {B} (f : Z -> B) (d : B),
  match last l with Some (psz, true) => f psz | _ => d end = d.
Proof. unfold last_free. intros H B f d. destruct (last l) as [[z [|]]|]; done. Qed.

Lemma release_cut l1 w sz l2 : coalesced (l1 ++ (sz, true) :: l2) ->
  exists s post, cut w sz ++ l2 = (s, false) :: post /\ release l1 s post = l1 ++ (sz, true) :: l2.
Proof.
  intros H. apply coalesced_app in H as (_ & [Hh _] & Hl). specialize (Hh eq_refl). cbn [head_free] in Hl.
  assert (Hlf : last_free l1 = false) by (destruct (last_free l1); [by specialize (Hl eq_refl)|done]).
  unfold cut. destruct (w + 80 <? sz).
  - exists w, ((sz - w - KMEM_HEADER, true) :: l2). split; [done|]. unfold release. cbn [absorb]. rewrite absorb_done by done.
    rewrite (last_free_false _ Hlf). do 3 f_equal. lia.
  - exists sz, l2. split; [done|]. unfold release. rewrite absorb_done by done. by rewrite (last_free_false _ Hlf).
Qed.

(** * Lemmas: statistics *)

Fixpoint sum_free (bs : list ablock) : Z := match bs with [] => 0 | (sz, fr) :: bs => (if fr then sz else 0) + sum_free bs end.
Fixpoint sum_used (bs : list ablock) : Z := match bs with [] => 0 | (sz, fr) :: bs => (if fr then 0 else sz) + sum_used bs end.
Fixpoint count_free (bs : list ablock) : Z := match bs with [] => 0 | (_, fr) :: bs => (if fr then 1 else 0) + count_free bs end.
Fixpoint max_free (bs : list ablock) : Z := match bs with [] => 0 | (sz, fr) :: bs => Z.max (if fr then sz else 0) (max_free bs) end.

Lemma span_sums bs : span bs = sum_used bs + sum_free bs + KMEM_HEADER * Z.of_nat (length bs).
Proof. induction bs as [|[sz [|]] bs IH]; cbn [span sum_used sum_free length]; lia. Qed.

Lemma sums_nonneg m bs : forall a p nx, seg m a p bs nx -> 0 <= sum_used bs /\ 0 <= sum_free bs /\ 0 <= count_free bs <= Z.of_nat (length bs) /\ 0 <= max_free bs.
Proof.
  induction bs as [|[sz [|]] bs IH]; intros a p nx; cbn [seg sum_used sum_free count_free max_free length]; [lia| |];
    intros (_ & ? & _ & (? & ? & ? & ?)%IH); split_and!; lia.
Qed.

Lemma stats_rep st m : forall bs pre fuel t u f c k l,
  heap_rep st m (pre ++ bs) -> (length bs < fuel)%nat ->
  u = sum_used pre -> f = sum_free pre -> c = Z.of_nat (length pre) -> k = count_free pre -> 0 <= l ->
  stats_loop fuel m (first_ptr (g_heap_base st + span pre) bs) (mk_stats t u f c k l) =
    Some (mk_stats t (u + sum_used bs) (f + sum_free bs) (c + Z.of_nat (length bs)) (k + count_free bs) (Z.max l (max_free bs))).
Proof.
  induction bs as [|[sz fr] bs IH]; intros pre fuel t u f c k l Hr Hf Hu Hfr Hc Hk Hl; (destruct fuel as [|fuel]; [lia|]).
  { cbn [stats_loop first_ptr sum_used sum_free length count_free max_free]. f_equal. f_equal; lia. }
  pose proof (rep_block _ _ _ _ _ _ Hr) as (H0 & _ & H2 & _ & _ & H5 & H6 & H7 & _).
  pose proof (rep_header _ _ _ _ _ _ Hr) as (_ & E2 & E3 & _ & E5).
  pose proof (hr_seg _ _ _ Hr) as Hs. apply seg_focus in Hs as (S1 & _ & _ & _ & S2). apply sums_nonneg in S1, S2. pose proof (span_sums pre) as Hsp.
  pose proof (hr_base _ _ _ Hr). set (a := g_heap_base st + span pre) in *. unfold KMEM_HEADER in Hsp, H5.
  cbn [first_ptr stats_loop]. rw_false (a =? 0). rewrite E2, E3, E5, free_flag. cbn [total_bytes used_bytes free_bytes block_count free_count largest_free].
  rewrite (u64_small (f + sz)), (u64_small (c + 1)), (u64_small (k + 1)), (u64_small (u + sz)) by ulia.
  specialize (IH (pre ++ [(sz, fr)]) fuel). rewrite <- app_assoc in IH.
  replace (a + KMEM_HEADER + sz) with (g_heap_base st + span (pre ++ [(sz, fr)])) by (rewrite span_app; cbn [span]; unfold a; lia).
  assert (Hsu : forall l1 l2, sum_used (l1 ++ l2) = sum_used l1 + sum_used l2) by (intros l1 l2; induction l1 as [|[? []] l1]; cbn [app sum_used] in *; lia).
  assert (Hsf : forall l1 l2, sum_free (l1 ++ l2) = sum_free l1 + sum_free l2) by (intros l1 l2; induction l1 as [|[? []] l1]; cbn [app sum_free] in *; lia).
  assert (Hcf : forall l1 l2, count_free (l1 ++ l2) = count_free l1 + count_free l2) by (intros l1 l2; induction l1 as [|[? []] l1]; cbn [app count_free] in *; lia).
  cbn [length] in Hf. destruct fr; rewrite IH; rewrite ?length_app, ?Hsu, ?Hsf, ?Hcf; cbn [sum_used sum_free count_free max_free length]; try done; try lia;
    repeat case_bool; do 2 f_equal; lia.
Qed.

Lemma stats_spec st m bs o :
  heap_rep st m bs ->
  kmem_get_stats st m (Ref o) = Some (Ref (mk_stats (g_heap_end st - g_heap_base st) (sum_used bs) (sum_free bs)
    (Z.of_nat (length bs)) (count_free bs) (max_free bs))).
Proof.
  intros Hr. unfold kmem_get_stats. rewrite (hr_init _ _ _ Hr), (rep_head _ _ _ Hr). change (1 =? 0) with false. cbn iota.
  rewrite (stats_rep st m bs [] (kmem_fuel st) _ 0 0 0 0 0 Hr (rep_fuel _ _ _ Hr)) by done. cbn [mbind option_bind]. do 3 f_equal.
  pose proof (hr_seg _ _ _ Hr) as Hs%sums_nonneg. lia.
Qed.

(** First fit succeeds exactly when the largest free block is large enough. *)
Lemma first_fit_max w bs : 0 < w -> is_Some (first_fit w bs) <-> w <= max_free bs.
Proof.
  intros Hw. induction bs as [|[sz fr] bs IH]; cbn [first_fit max_free]; [split; [by intros []|lia]|].
  destruct fr; cbn [andb].
  - destruct (Z.leb_spec w sz); [split; [lia|eauto]|]. destruct (first_fit w bs) as [[]|]; cbn.
    + split; [|eauto]. intros _. destruct IH as [IH _]. specialize (IH ltac:(eauto)). lia.
    + split; [by intros []|]. intros Hm. destruct IH as [_ IH]. destruct IH; [lia|done].
  - destruct (first_fit w bs) as [[]|]; cbn.
    + split; [|eauto]. intros _. destruct IH as [IH _]. specialize (IH ltac:(eauto)). lia.
    + split; [by intros []|]. intros Hm. destruct IH as [_ IH]. destruct IH; [lia|done].
Qed.

(** A heap without allocations is one free block. *)
Lemma empty_heap a bs : coalesced bs -> used a bs = [] -> bs <> [] -> exists sz, bs = [(sz, true)].
Proof.
  destruct bs as [|[sz [|]] [|[sz' [|]] bs]]; cbn; try done; [eauto|]. intros [H _]. by specialize (H eq_refl).
Qed.

(** * Lemmas: the consistency check on any memory *)

(** The links from [cur] on pass through [l]: every block starts where its predecessor ends, rounded up, lies
    in the arena, has the magic number and the link back. *)
Inductive chain_ok (st : kmem_state) (m : mem) : Z -> Z -> Z -> list Z -> Prop :=
| chain_end prev cursor : chain_ok st m 0 prev cursor []
| chain_block cur prev l :
    cur <> 0 -> g_heap_base st <= cur -> cur + KMEM_HEADER + blk_size m cur <= g_heap_end st ->
    blk_magic m cur = KMEM_MAGIC -> blk_prev m cur = prev ->
    kmem_align_up_ptr (cur + KMEM_HEADER + blk_size m cur) KMEM_ALIGN <> 0 ->
    kmem_align_up_ptr (cur + KMEM_HEADER + blk_size m cur) KMEM_ALIGN <= g_heap_end st ->
    chain_ok st m (blk_next m cur) cur (kmem_align_up_ptr (cur + KMEM_HEADER + blk_size m cur) KMEM_ALIGN) l ->
    chain_ok st m cur prev cur (cur :: l).

Lemma validate_loop_exact st m : 0 <= g_heap_base st -> g_heap_end st < 2 ^ 64 ->
  forall fuel cur prev cursor guard,
  cursor <= g_heap_end st -> g_heap_end st - cursor < KMEM_HEADER * Z.of_nat fuel -> 0 <= guard <= 1048576 ->
  exists rc, validate_loop fuel st m cur prev cursor guard = Some rc /\
    (rc = 0 <-> exists l, chain_ok st m cur prev cursor l /\ guard + Z.of_nat (length l) <= 1048576).
Proof.
  intros Hb He. induction fuel as [|fuel IH]; intros cur prev cursor guard Hc Hf Hg; unfold KMEM_HEADER in Hf; [lia|]. cbn [validate_loop].
  destruct (Z.eqb_spec cur 0) as [->|Hcur].
  { exists 0. split; [done|]. split; [|done]. intros _. exists []. split; [constructor|cbn; lia]. }
  assert (Hinv : forall l, chain_ok st m cur prev cursor l -> cur = cursor /\ g_heap_base st <= cur /\
    cur + KMEM_HEADER + blk_size m cur <= g_heap_end st /\ blk_magic m cur = KMEM_MAGIC /\ blk_prev m cur = prev /\
    kmem_align_up_ptr (cur + KMEM_HEADER + blk_size m cur) KMEM_ALIGN <> 0 /\
    kmem_align_up_ptr (cur + KMEM_HEADER + blk_size m cur) KMEM_ALIGN <= g_heap_end st /\
    exists l', l = cur :: l' /\
      chain_ok st m (blk_next m cur) cur (kmem_align_up_ptr (cur + KMEM_HEADER + blk_size m cur) KMEM_ALIGN) l').
  { inversion 1; subst; [done|]. split_and!; eauto. }
  assert (Hfail : forall c, c <> 0 -> (forall l, chain_ok st m cur prev cursor l -> guard + Z.of_nat (length l) <= 1048576 -> False) ->
    exists rc, Some c = Some rc /\ (rc = 0 <-> exists l, chain_ok st m cur prev cursor l /\ guard + Z.of_nat (length l) <= 1048576)).
  { intros c Hz Hno. exists c. split; [done|]. naive_solver. }
  rewrite (u64_small (guard + 1)) by ulia. destruct (Z.ltb_spec 1048576 (guard + 1)).
  { apply Hfail; [done|]. intros l Hl Hlen. destruct (Hinv l Hl) as (_ & _ & _ & _ & _ & _ & _ & l' & -> & _). cbn [length] in Hlen. lia. }
  destruct (Z.eqb_spec cur cursor) as [<-|Hne]; cbn [negb].
  2:{ apply Hfail; [done|]. intros l Hl _. by destruct (Hinv l Hl). }
  pose proof (load_range 8 m (cur + 8)) as Hsz. change (256 ^ Z.of_nat 8) with (2 ^ 64) in Hsz. fold (blk_size m cur) in Hsz.
  unfold kmem_payload, KMEM_HEADER in *.
  destruct (_ || _) eqn:E1.
  { apply Hfail; [done|]. intros l Hl _. destruct (Hinv l Hl) as (_ & ? & ? & _). bool_to_prop. destruct E1; bool_to_prop; lia. }
  bool_to_prop. destruct (Z.eqb_spec (blk_magic m cur) KMEM_MAGIC); cbn [negb].
  2:{ apply Hfail; [done|]. intros l Hl _. by destruct (Hinv l Hl) as (_ & _ & _ & ? & _). }
  destruct (Z.eqb_spec (blk_prev m cur) prev); cbn [negb].
  2:{ apply Hfail; [done|]. intros l Hl _. by destruct (Hinv l Hl) as (_ & _ & _ & _ & ? & _). }
  rewrite (u64_small (g_heap_end st - (cur + 48))) by (unfold is_u64; lia).
  destruct (Z.ltb_spec (g_heap_end st - (cur + 48)) (blk_size m cur)).
  { apply Hfail; [done|]. intros l Hl _. destruct (Hinv l Hl) as (_ & _ & ? & _). lia. }
  destruct (_ || _) eqn:E2.
  { apply Hfail; [done|]. intros l Hl _. destruct (Hinv l Hl) as (_ & _ & _ & _ & _ & ? & ? & _). bool_to_prop. destruct E2; bool_to_prop; lia. }
  bool_to_prop.
  assert (Hup : cur + 48 <= kmem_align_up_ptr (cur + 48 + blk_size m cur) KMEM_ALIGN).
  { rewrite align_up_ptr_spec in * by (unfold is_u64; lia). case_bool; [done|]. Z.div_mod_to_equations. lia. }
  destruct (IH (blk_next m cur) cur (kmem_align_up_ptr (cur + 48 + blk_size m cur) KMEM_ALIGN) (guard + 1)) as (rc & -> & Hrc);
    [lia|lia|lia|]. exists rc. split; [done|]. rewrite Hrc. split.
  - intros (l & Hl & Hlen). exists (cur :: l). split; [constructor; unfold KMEM_HEADER; auto; lia|]. cbn [length]. lia.
  - intros (l & Hl & Hlen). destruct (Hinv l Hl) as (_ & _ & _ & _ & _ & _ & _ & l' & -> & Hl'). exists l'. split; [done|]. cbn [length] in Hlen. lia.
Qed.

Lemma reach_inv st m1 m L : heap_inv st m1 ∅ -> rtc (heap_step st) (m1, ∅) (m, L) ->
  heap_inv st m L /\ forall x, ~ g_heap_base st <= x < g_heap_end st -> m x = m1 x.
Proof.
  intros H0 Hr. remember (m1, ∅ : gmap Z Z) as s0 eqn:E0. remember (m, L) as s eqn:E.
  assert (Hg : forall s s', rtc (heap_step st) s s' -> heap_inv st s.1 s.2 ->
    heap_inv st s'.1 s'.2 /\ forall x, ~ g_heap_base st <= x < g_heap_end st -> s'.1 x = s.1 x).
  { induction 1 as [[m2 L2]|[m2 L2] [m3 L3] s' Hs _ IH]; [done|]. intros Hi. destruct (step_inv _ _ _ _ _ Hs Hi) as [Hi' Hx].
    destruct (IH Hi') as [Hi2 Hx2]. split; [done|]. intros x Hx'. by rewrite Hx2, Hx. }
  destruct (Hg s0 s Hr) as [Hi Hx]; [by rewrite E0|]. by subst.
Qed.

Lemma init_inv st0 m0 base bytes st m1 : arena_ok base bytes -> kmem_init st0 m0 base bytes = Some (0, st, m1) ->
  heap_inv st m1 ∅ /\ g_heap_base st = arena_start base /\ g_heap_end st = arena_start base + arena_size base bytes /\
  80 < arena_size base bytes /\ heap_rep st m1 [(arena_size base bytes - KMEM_HEADER, true)] /\
  forall x, ~ arena_start base <= x < arena_start base + KMEM_HEADER -> m1 x = m0 x.
Proof.
  intros Ha Hi. destruct (init_rep st0 m0 base bytes Ha) as (rc & st' & m' & E & Hrc & _ & Hok). rewrite Hi in E. injection E as <- <- <-.
  destruct (Hok eq_refl) as (-> & Hr & Hx). destruct Hrc as [Hrc _]. destruct (Hrc eq_refl) as [_ Hsz].
  split_and!; try done. exists [(arena_size base bytes - KMEM_HEADER, true)]. split_and!; [done|done| |].
  - intros p. rewrite lookup_empty. split; [by intros []|]. intros [sz []%elem_of_nil].
  - intros p n sz. by rewrite lookup_empty.
Qed.

(** Releasing a pointer into an allocation whose bytes look like a header of a block in use is accepted: the pointer need
    not come from the allocator. *)
Lemma kmem_free_accepts_forged st m L p n :
  heap_inv st m L -> L !! p = Some n -> KMEM_HEADER < n ->
  header m p 16 false 0 0 ->
  exists rc m', kmem_free_checked st m (p + KMEM_HEADER) = Some (rc, m') /\ L !! (p + KMEM_HEADER) = None /\
    (g_heap_end st - g_heap_base st <= 64 * 1048576 -> rc = 0).
Proof.
  intros Hi Hp Hn (E1 & E2 & E3 & E4 & E5). destruct (live_geometry _ _ _ Hi) as [G1 G2]. destruct (G1 p n Hp) as (Hal & _ & Hb & He).
  unfold KMEM_HEADER in *.
  assert (Hi' : heap_inv st (set_free m p 1) L).
  { eapply write_inv; [done..|]. intros x Hx. unfold set_free. apply store_other. lia. }
  assert (Hfresh : L !! (p + 48) = None).
  { apply eq_None_not_Some. intros [k Hk]. destruct (G1 _ _ Hk) as (_ & ? & _). destruct (G2 p n _ k Hp Hk); lia. }
  destruct Hi as (bs & Hr & _). destruct Hi' as (bs' & Hr' & _).
  pose proof (hr_base _ _ _ Hr). pose proof (seg_span_nonneg _ _ _ _ _ (hr_seg _ _ _ Hr')) as [Hs _]. pose proof (hr_end _ _ _ Hr').
  assert (F4 : blk_prev (set_free m p 1) p = 0) by by mem_simpl.
  assert (F5 : blk_next (set_free m p 1) p = 0) by by mem_simpl.
  unfold kmem_free_checked, kmem_header_from_payload. rewrite land_15. unfold KMEM_HEADER. rw_false (p + 48 =? 0).
  rewrite (in_heap_spec _ _ _ (p + 48) Hr) by lia. replace ((p + 48) mod 16) with 0 by (Z.div_mod_to_equations; lia). cbn [negb Z.eqb].
  replace (p + 48 - 48) with p by lia. rewrite (in_heap_spec _ _ _ p Hr) by lia. rewrite E1, E3, Z.eqb_refl. cbn [negb orb Z.eqb].
  destruct (kmem_fuel st) as [|fuel] eqn:Ef; [pose proof (rep_fuel _ _ _ Hr); lia|].
  cbn [kmem_coalesce_forward]. rewrite F5. cbn [Z.eqb negb]. rewrite andb_false_r. cbn [andb mbind option_bind].
  rewrite F4. cbn [Z.eqb negb andb]. cbn [mbind option_bind]. rewrite (validate_spec _ _ _ Hr'). eexists _, _. split_and!; [done|done|].
  intros Hle. by rw_true (Z.of_nat (length bs') <=? 1048576).
Qed.

(** Without live allocations, the arena is one free block. *)
Lemma empty_inv_block st m : heap_inv st m ∅ -> exists sz, heap_rep st m [(sz, true)].
Proof.
  intros (bs & Hrep & Hc & HL & _). destruct (empty_heap (g_heap_base st) bs) as [sz ->]; [done| |by eapply hr_nonempty|by exists sz].
  destruct (used (g_heap_base st) bs) as [|[p k] u] eqn:E; [done|]. destruct (proj2 (HL p)) as [? Hx].
  - rewrite ?E. exists k. left.
  - by rewrite lookup_empty in Hx.
Qed.

(** * Properties *)

(** C7. The heap is safe for clients that stay inside their allocations. From a successful [kmem_init] on, after any sequence
    of allocations, zeroed allocations, releases of live allocations and writes inside live allocations:
    every live allocation is 16-byte aligned and lies in the arena, and no two overlap; the next
    [kmem_alloc], [kmem_calloc] or [kmem_free_checked] terminates, changes no byte of another live allocation nor any byte outside the arena, returns an address that is
    not live (whose bytes are zero for [kmem_calloc], which also refuses products that overflow), and releases successfully (the status is -3 only on heaps of more than 64 MiB, where the consistency check
    gives up after 2^20 blocks); and no byte outside the arena has changed since before the initialisation. *)
Theorem kmem_clients_safe st0 m0 base bytes st m1 m L :
  arena_ok base bytes -> kmem_init st0 m0 base bytes = Some (0, st, m1) -> rtc (heap_step st) (m1, ∅) (m, L) ->
  (forall p n, L !! p = Some n -> p mod 16 = 0 /\ base <= p /\ p + n <= base + bytes) /\
  (forall p n q k, L !! p = Some n -> L !! q = Some k -> p <> q -> p + n <= q \/ q + k <= p) /\
  (forall n, is_u64 n -> exists p m', kmem_alloc st m n = Some (p, m') /\ keeps st L m m' /\ (p <> 0 -> L !! p = None)) /\
  (forall k n, is_u64 k -> is_u64 n -> exists p m', kmem_calloc st m k n = Some (p, m') /\ keeps st L m m' /\
     (p <> 0 -> L !! p = None /\ k * n < 2 ^ 64 /\ forall x, p <= x < p + k * n -> load8 m' x = 0)) /\
  (forall p n, L !! p = Some n -> exists rc m', kmem_free_checked st m p = Some (rc, m') /\ keeps st (delete p L) m m' /\
     (rc = 0 \/ rc = -3 /\ 64 * 1048576 < bytes)) /\
  (forall x, ~ base <= x < base + bytes -> m x = m0 x).
Proof.
  intros Ha Hi Hr. destruct (init_inv _ _ _ _ _ _ Ha Hi) as (Hinv & Hbase & Hend & Hsz & _ & Hx0).
  destruct (reach_inv _ _ _ _ Hinv Hr) as [Hinv' Hx].
  assert (Hb : base <= arena_start base /\ arena_start base + arena_size base bytes <= base + bytes)
    by (unfold arena_size, arena_start; Z.div_mod_to_equations; lia).
  destruct (live_geometry _ _ _ Hinv') as [G1 G2]. split_and!.
  - intros p n Hp. destruct (G1 p n Hp) as (? & _ & ? & ?). split_and!; [done|lia..].
  - done.
  - intros n Hn. destruct (alloc_inv st m L n Hinv' Hn) as (p & m' & ? & ? & _ & H). exists p, m'. split_and!; [done..|]. intros Hp. by apply H.
  - intros k n Hk Hn. destruct (calloc_inv st m L k n Hinv' Hk Hn) as (p & m' & ? & ? & _ & H). exists p, m'. split_and!; [done..|].
    intros Hp. destruct (H Hp) as (? & ? & _ & ?). by split_and!.
  - intros p n Hp. destruct (free_inv st m L p n Hinv' Hp) as (rc & m' & ? & ? & _ & Hrc). exists rc, m'. split_and!; [done..|].
    destruct Hrc as [|[-> ?]]; [by left|right]. split; [done|]. lia.
  - intros x Hout. unfold KMEM_HEADER in *. rewrite Hx by lia. apply Hx0. lia.
Qed.

(** The blank state, and an arena that is not aligned. *)
Definition demo_kmem : kmem_state := mk_kmem 0 0 0 0.

Lemma demo_init : exists st m1, kmem_init demo_kmem (fun _ => 0xa5) 0x100008 512 = Some (0, st, m1) /\ arena_ok 0x100008 512.
Proof.
  assert (Ha : arena_ok 0x100008 512) by (unfold arena_ok; lia).
  assert (Hsz : 80 < arena_size 0x100008 512) by by vm_compute.
  destruct (init_rep demo_kmem (fun _ => 0xa5) 0x100008 512 Ha) as (rc & st & m1 & E & Hrc & _).
  assert (rc = 0) as -> by (apply Hrc; split; [lia|exact Hsz]). exists st, m1. split; assumption.
Qed.

(** Two allocations are made. *)
Lemma kmem_clients_safe_witness :
  exists st m1 m L, kmem_init demo_kmem (fun _ => 0xa5) 0x100008 512 = Some (0, st, m1) /\
    rtc (heap_step st) (m1, ∅) (m, L) /\ (exists p, L !! p = Some 24) /\
    (forall p n q k, L !! p = Some n -> L !! q = Some k -> p <> q -> p + n <= q \/ q + k <= p).
Proof.
  destruct demo_init as (st & m1 & Hi & Ha).
  destruct (kmem_clients_safe demo_kmem (fun _ => 0xa5) 0x100008 512 st m1 m1 ∅ Ha Hi (rtc_refl _ _)) as (_ & _ & Hal & _).
  destruct (Hal 24) as (p & m2 & Hp & _); [unfold is_u64; lia|].
  assert (Hnz : p <> 0).
  { destruct (init_inv _ _ _ _ _ _ Ha Hi) as (_ & _ & _ & Hsz & Hr & _). pose proof (alloc_spec _ _ _ 24 Hr ltac:(unfold is_u64; lia)) as H.
    vm_compute (arena_size _ _) in H. cbn in H. destruct H as (m' & l1 & sz & l2 & E & _). rewrite Hp in E. injection E as -> _.
    pose proof (hr_base _ _ _ Hr). unfold KMEM_HEADER. lia. }
  assert (Hstep : rtc (heap_step st) (m1, ∅) (m2, <[p := 24]> ∅)).
  { apply rtc_once. pose proof (hs_alloc st m1 ∅ 24 p m2 ltac:(unfold is_u64; lia) Hp) as Hs. by rewrite (proj2 (Z.eqb_neq p 0) Hnz) in Hs. }
  exists st, m1, m2, (<[p := 24]> ∅). split_and!; [done|done|exists p; apply lookup_insert_eq|].
  by destruct (kmem_clients_safe demo_kmem (fun _ => 0xa5) 0x100008 512 st m1 m2 _ Ha Hi Hstep) as (_ & G & _).
Defined.

(** C33. Nothing leaks: when every allocation has been released, the arena is one free block again, whatever the order of the
    calls; [kmem_validate] accepts the heap, [kmem_get_stats] reports no byte in use and all but one header
    free, and a request for all of that succeeds. *)
Theorem kmem_no_leak st0 m0 base bytes st m1 m o :
  arena_ok base bytes -> kmem_init st0 m0 base bytes = Some (0, st, m1) -> rtc (heap_step st) (m1, ∅) (m, ∅) ->
  let all := arena_size base bytes - KMEM_HEADER in
  kmem_validate st m = Some 0 /\
  kmem_get_stats st m (Ref o) = Some (Ref (mk_stats (arena_size base bytes) 0 all 1 1 all)) /\
  exists m', kmem_alloc st m all = Some (arena_start base + KMEM_HEADER, m').
Proof.
  intros Ha Hi Hr all. destruct (init_inv _ _ _ _ _ _ Ha Hi) as (Hinv & Hbase & Hend & Hsz & _).
  destruct (reach_inv _ _ _ _ Hinv Hr) as [Hinv' _]. destruct (empty_inv_block st m Hinv') as [sz Hrep].
  pose proof (rep_block st m [] sz true [] Hrep) as (_ & _ & Hz & Hzm & _). pose proof (hr_end _ _ _ Hrep) as He. cbn [span] in He.
  pose proof (hr_limit _ _ _ Hrep) as Hlim. assert (sz = all) as -> by (unfold all; lia). clearbody all. split_and!.
  - by rewrite (validate_spec _ _ _ Hrep).
  - rewrite (stats_spec _ _ _ o Hrep). cbn [sum_used sum_free count_free max_free length]. do 3 f_equal; lia.
  - assert (Hu : is_u64 all) by (pose proof (hr_base _ _ _ Hrep); unfold is_u64, KMEM_HEADER in *; lia).
    pose proof (alloc_spec _ _ _ _ Hrep Hu) as H. cbv zeta in H.
    replace ((all + 15) / 16 * 16) with all in H by (Z.div_mod_to_equations; lia).
    assert (Ef : (all =? 0) || (2 ^ 64 - 16 <? all) = false) by (apply orb_false_iff; split; [apply Z.eqb_neq|apply Z.ltb_ge]; unfold is_u64, KMEM_HEADER in *;
      pose proof (hr_base _ _ _ Hrep); lia).
    rewrite Ef in H. cbn [first_fit] in H. rewrite Z.leb_refl in H. cbn [andb] in H.
    destruct H as (m' & l1 & s & l2 & Hm & _). exists m'. by rewrite Hbase in Hm.
Qed.

(** An arena in which 24 and then 100 bytes are allocated and released in the same order. *)
Definition demo_arena : kmem_state * mem :=
  match kmem_init demo_kmem (fun _ => 0xa5) 0x100008 512 with Some (_, st, m) => (st, m) | None => (demo_kmem, fun _ => 0) end.

Definition demo_run : list mem :=
  let st := demo_arena.1 in
  let m1 := from_option snd (fun _ => 0) (kmem_alloc st demo_arena.2 24) in
  let m2 := from_option snd (fun _ => 0) (kmem_alloc st m1 100) in
  let m3 := from_option snd (fun _ => 0) (kmem_free_checked st m2 0x100040) in
  [m1; m2; m3; from_option snd (fun _ => 0) (kmem_free_checked st m3 0x100090)].

Definition demo_mem (i : nat) : mem := nth i demo_run (fun _ => 0).

Lemma result_is {A B} (x : option (A * B)) a d : fst <$> x = Some a -> x = Some (a, from_option snd d x).
Proof. destruct x as [[a' b]|]; [|done]. by intros [= ->]. Qed.

Lemma kmem_no_leak_witness :
  rtc (heap_step demo_arena.1) (demo_arena.2, ∅) (demo_mem 3, ∅) /\
  kmem_alloc demo_arena.1 demo_arena.2 24 = Some (0x100040, demo_mem 0) /\ kmem_alloc demo_arena.1 (demo_mem 0) 100 = Some (0x100090, demo_mem 1) /\
  kmem_validate demo_arena.1 (demo_mem 3) = Some 0 /\
  exists m', kmem_alloc demo_arena.1 (demo_mem 3) (arena_size 0x100008 512 - KMEM_HEADER) = Some (arena_start 0x100008 + KMEM_HEADER, m').
Proof.
  assert (Hi : kmem_init demo_kmem (fun _ => 0xa5) 0x100008 512 = Some (0, demo_arena.1, demo_arena.2)).
  { destruct demo_init as (st & m1 & Hi & _). unfold demo_arena. by rewrite Hi. }
  assert (A1 : kmem_alloc demo_arena.1 demo_arena.2 24 = Some (0x100040, demo_mem 0)) by (apply result_is; vm_compute; reflexivity).
  assert (A2 : kmem_alloc demo_arena.1 (demo_mem 0) 100 = Some (0x100090, demo_mem 1)) by (apply result_is; vm_compute; reflexivity).
  assert (F1 : kmem_free_checked demo_arena.1 (demo_mem 1) 0x100040 = Some (0, demo_mem 2)) by (apply result_is; vm_compute; reflexivity).
  assert (F2 : kmem_free_checked demo_arena.1 (demo_mem 2) 0x100090 = Some (0, demo_mem 3)) by (apply result_is; vm_compute; reflexivity).
  assert (Hr : rtc (heap_step demo_arena.1) (demo_arena.2, ∅) (demo_mem 3, ∅)).
  { set (L1 := <[0x100040 := 24]> (∅ : gmap Z Z)). set (L2 := <[0x100090 := 100]> L1). set (L3 := delete 0x100040 L2).
    apply (rtc_l _ _ (demo_mem 0, L1)); [exact (hs_alloc _ _ ∅ 24 _ _ ltac:(unfold is_u64; lia) A1)|].
    apply (rtc_l _ _ (demo_mem 1, L2)); [exact (hs_alloc _ _ L1 100 _ _ ltac:(unfold is_u64; lia) A2)|].
    assert (H3 : L3 !! 0x100090 = Some 100) by (vm_compute; reflexivity). assert (H4 : delete 0x100090 L3 = ∅) by (vm_compute; reflexivity).
    apply (rtc_l _ _ (demo_mem 2, L3)); [apply (hs_free _ _ L2 0x100040 24 0 (demo_mem 2)); [vm_compute; reflexivity|exact F1]|].
    rewrite <- H4. apply rtc_once. exact (hs_free _ _ L3 _ _ _ _ H3 F2). }
  destruct (kmem_no_leak demo_kmem (fun _ => 0xa5) 0x100008 512 demo_arena.1 demo_arena.2 (demo_mem 3) (mk_stats 0 0 0 0 0 0) ltac:(unfold arena_ok; lia) Hi Hr) as (H1 & _ & H2).
  split; [exact Hr|]. split; [exact A1|]. split; [exact A2|]. split; [exact H1|exact H2].
Defined.

(** C15. [kmem_alloc] is first fit: on a heap with the blocks [bs] it takes the first free block that holds the
    request rounded up to 16 bytes, splits it when more than a header and 32 bytes would remain, and leaves exactly the
    blocks that the reference [first_fit] computes; otherwise it returns null and changes nothing. It succeeds exactly when the rounded request
    is at most the largest free block that [kmem_get_stats] reports, and those figures add up to
    the size of the arena. *)
Theorem kmem_alloc_first_fit st m bs n o :
  heap_rep st m bs -> 0 < n <= 2 ^ 64 - 16 ->
  exists p m' s, kmem_alloc st m n = Some (p, m') /\ kmem_get_stats st m (Ref o) = Some (Ref s) /\
    total_bytes s = used_bytes s + free_bytes s + KMEM_HEADER * block_count s /\
    (p <> 0 <-> (n + 15) / 16 * 16 <= largest_free s) /\
    match first_fit ((n + 15) / 16 * 16) bs with
    | Some (off, bs') => p = g_heap_base st + off /\ heap_rep st m' bs'
    | None => p = 0 /\ m' = m
    end.
Proof.
  intros Hr Hn. assert (Hu : is_u64 n) by (unfold is_u64; lia). pose proof (alloc_spec st m bs n Hr Hu) as H. cbv zeta in H.
  assert (Ef : (n =? 0) || (2 ^ 64 - 16 <? n) = false) by (apply orb_false_iff; split; [apply Z.eqb_neq|apply Z.ltb_ge]; lia).
  rewrite Ef in H. set (w := (n + 15) / 16 * 16) in *. assert (Hw : 0 < w) by (unfold w; Z.div_mod_to_equations; lia).
  pose proof (first_fit_max w bs Hw) as Hmax. pose proof (span_sums bs) as Hsp. pose proof (hr_end _ _ _ Hr) as He.
  pose proof (hr_base _ _ _ Hr). rewrite (stats_spec _ _ _ o Hr). destruct (first_fit w bs) as [[off bs']|].
  - destruct H as (m' & l1 & sz & l2 & Hm & Hr' & -> & _ & Ho & _).
    pose proof (rep_block _ _ _ _ _ _ Hr) as (Hb & _).
    eexists _, m', _. split_and!; [exact Hm|done|cbn [total_bytes used_bytes free_bytes block_count]; lia| |done|done].
    cbn [largest_free]. destruct Hmax as [Hmax _]. specialize (Hmax ltac:(eauto)). unfold KMEM_HEADER in *. split; [done|lia].
  - eexists 0, m, _. split_and!; [exact H|done|cbn [total_bytes used_bytes free_bytes block_count]; lia| |done|done].
    cbn [largest_free]. split; [done|]. intros Hle. destruct Hmax as [_ Hmax]. by destruct (Hmax Hle).
Qed.

Lemma kmem_alloc_first_fit_witness :
  exists st m p m' s, kmem_alloc st m 100 = Some (p, m') /\ kmem_get_stats st m (Ref (mk_stats 0 0 0 0 0 0)) = Some (Ref s) /\
    total_bytes s = used_bytes s + free_bytes s + KMEM_HEADER * block_count s /\ (p <> 0 <-> (100 + 15) / 16 * 16 <= largest_free s).
Proof.
  destruct demo_init as (st & m1 & Hi & Ha). destruct (init_inv _ _ _ _ _ _ Ha Hi) as (_ & _ & _ & _ & Hr & _).
  destruct (kmem_alloc_first_fit st m1 _ 100 (mk_stats 0 0 0 0 0 0) Hr) as (p & m' & s & H1 & H2 & H3 & H4 & _); [lia|].
  exists st, m1, p, m', s. split_and!; assumption.
Defined.

(** [kmem_free_checked] undoes [kmem_alloc]: on a heap without adjacent free blocks, releasing the address just
    allocated gives back exactly the blocks from before, so that the remainder of a split is merged again, and the payloads
    in use keep their bytes. *)
Theorem kmem_alloc_free_roundtrip st m bs n p m1 :
  heap_rep st m bs -> coalesced bs -> is_u64 n -> kmem_alloc st m n = Some (p, m1) -> p <> 0 ->
  exists m2, kmem_free_checked st m1 p = Some (if Z.of_nat (length bs) <=? 1048576 then 0 else -3, m2) /\ heap_rep st m2 bs /\
    preserved st (used (g_heap_base st) bs) m m2.
Proof.
  intros Hr Hc Hn Hal Hp. pose proof (alloc_spec st m bs n Hr Hn) as H. cbv zeta in H.
  destruct (if (n =? 0) || (2 ^ 64 - 16 <? n) then None else first_fit ((n + 15) / 16 * 16) bs) as [[o bs']|].
  2:{ rewrite Hal in H. injection H as -> _. done. }
  destruct H as (m' & l1 & sz & l2 & Hm & Hr' & -> & -> & -> & _ & _ & Hch). rewrite Hal in Hm. injection Hm as -> <-.
  destruct (release_cut l1 ((n + 15) / 16 * 16) sz l2 Hc) as (s & post & Ecut & Erel). rewrite Ecut in Hr'.
  destruct (free_spec st m1 l1 s post Hr') as (m2 & Hm2 & Hr2 & Hpres). rewrite Erel in *. exists m2.
  replace (g_heap_base st + (span l1 + KMEM_HEADER)) with (g_heap_base st + span l1 + KMEM_HEADER) by lia.
  split_and!; [exact Hm2|done|].
  assert (HU : used (g_heap_base st) (l1 ++ (s, true) :: post) = used (g_heap_base st) (l1 ++ (sz, true) :: l2)).
  { rewrite <- Erel, used_release, used_app. cbn [used app]. done. }
  rewrite HU in Hpres. etrans; [|exact Hpres].
  pose proof (changes_preserved st m m1 l1 [(sz, true)] l2 Hr) as Hp1. cbn [span] in Hp1. rewrite used_app. cbn [used app].
  replace (g_heap_base st + span l1 + (KMEM_HEADER + sz + 0)) with (g_heap_base st + span l1 + KMEM_HEADER + sz) in Hp1 by lia.
  by apply Hp1.
Qed.

Lemma kmem_alloc_free_roundtrip_witness :
  exists st m bs p m1 m2, kmem_alloc st m 40 = Some (p, m1) /\ p <> 0 /\ kmem_free_checked st m1 p = Some (0, m2) /\ heap_rep st m2 bs.
Proof.
  destruct demo_init as (st & m1 & Hi & Ha). destruct (init_inv _ _ _ _ _ _ Ha Hi) as (_ & _ & _ & _ & Hr & _).
  pose proof (alloc_spec _ _ _ 40 Hr ltac:(unfold is_u64; lia)) as H. vm_compute (arena_size _ _) in H. cbn in H.
  destruct H as (m' & l1 & sz & l2 & Hal & _).
  assert (Hp : g_heap_base st + KMEM_HEADER <> 0) by (pose proof (hr_base _ _ _ Hr); unfold KMEM_HEADER; lia).
  destruct (kmem_alloc_free_roundtrip st m1 _ 40 (g_heap_base st + KMEM_HEADER) m' Hr) as (m2 & Hf & Hr2 & _);
    [split; [intros _|]; exact I || reflexivity|unfold is_u64; lia|exact Hal|exact Hp|].
  exists st, m1, [(arena_size 0x100008 512 - KMEM_HEADER, true)], (g_heap_base st + KMEM_HEADER), m', m2. split_and!; assumption.
Defined.

(** C34. [kmem_validate] returns on every memory, cyclic and corrupted lists included, and answers 0 exactly when the static variables are set and the links from the
    head pass through at most 2^20 blocks, each of which starts where its predecessor ends, lies in the arena, and has the magic
    number and the link back. *)
Theorem kmem_validate_exact st m :
  0 <= g_heap_base st -> g_heap_end st < 2 ^ 64 ->
  exists rc, kmem_validate st m = Some rc /\
    (rc = 0 <-> g_initialized st <> 0 /\ 0 < g_heap_base st < g_heap_end st /\ g_head st = g_heap_base st /\
       exists l, chain_ok st m (g_head st) 0 (g_heap_base st) l /\ Z.of_nat (length l) <= 1048576).
Proof.
  intros Hb He. unfold kmem_validate.
  destruct ((g_initialized st =? 0) || (g_heap_base st =? 0) || (g_heap_end st <=? g_heap_base st) || (g_head st =? 0)) eqn:E.
  { exists (-1). split; [done|]. split; [done|]. intros (? & ? & Hh & _). rewrite Hh in E. bool_to_prop. lia. }
  destruct (Z.eqb_spec (g_head st) (g_heap_base st)) as [Hh|Hh]; cbn [negb].
  2:{ exists (-2). split; [done|]. split; [done|]. by intros (_ & _ & ? & _). }
  bool_to_prop. destruct (validate_loop_exact st m Hb He (kmem_fuel st) (g_head st) 0 (g_heap_base st) 0) as (rc & Hrc & Hiff); [lia| |lia|].
  { unfold kmem_fuel, KMEM_HEADER. assert (0 <= (g_heap_end st - g_heap_base st) / 48) by (apply Z.div_pos; lia).
    rewrite Z2Nat.id by lia. Z.div_mod_to_equations. lia. }
  exists rc. split; [exact Hrc|]. rewrite Hiff. split.
  - intros Hl. split_and!; [lia..|done|exact Hl].
  - by intros (_ & _ & _ & Hl).
Qed.

(** A heap whose only block links to itself. *)
Lemma kmem_validate_exact_witness :
  let st := mk_kmem 0x1000 0x1100 0x1000 1 in
  exists rc, kmem_validate st (set_next (set_magic (fun _ => 0) 0x1000 KMEM_MAGIC) 0x1000 0x1000) = Some rc /\
    (rc = 0 <-> g_initialized st <> 0 /\ 0 < g_heap_base st < g_heap_end st /\ g_head st = g_heap_base st /\
       exists l, chain_ok st (set_next (set_magic (fun _ => 0) 0x1000 KMEM_MAGIC) 0x1000 0x1000) (g_head st) 0 (g_heap_base st) l /\
         Z.of_nat (length l) <= 1048576).
Proof. intros st. apply kmem_validate_exact; cbn; lia. Defined.
