(* ===== verification/Ramfs.v ===== *)
(** In-memory file system: kernel/vfs/ramfs.c and the structures of include/mcs_vfs.h.

    A [const char *] is the list of the bytes from the designated one to the end of the
    array it points into, so that [p + 1] is the tail; reading past the array is
    undefined ([None]). A vnode pointer [&fs->nodes[i]] is the index [i]. *)

From S2P Require Import Prelude.

(** * Constants *)

Definition MCS_MAX_NAME : Z := 32.
Definition MCS_MAX_PATH : Z := 128.
Definition MCS_MAX_NODES : Z := 64.
Definition MCS_RAMFS_DATA_BYTES : Z := 8192.

Definition MCS_OK : Z := 0.
Definition MCS_ENOENT : Z := -2.
Definition MCS_EBADF : Z := -9.
Definition MCS_EACCES : Z := -13.
Definition MCS_EEXIST : Z := -17.
Definition MCS_ENOTDIR : Z := -20.
Definition MCS_EISDIR : Z := -21.
Definition MCS_EINVAL : Z := -22.
Definition MCS_ENFILE : Z := -23.
Definition MCS_ENOSPC : Z := -28.
Definition MCS_ENAMETOOLONG : Z := -36.

(** The character '/'. *)
Definition SLASH : Z := 47.

(** * Data *)

Inductive mcs_vnode_type := MCS_VNODE_DIR | MCS_VNODE_FILE.

#[export] Instance mcs_vnode_type_eq_dec : EqDecision mcs_vnode_type.
Proof. solve_decision. Defined.

Record mcs_vnode := mk_vnode {
  used : Z;
  id : Z;
  parent : Z;
  type : mcs_vnode_type;
  name : list Z;
  size : Z;
  data_offset : Z;
  data_capacity : Z
}.

Record mcs_ramfs := mk_ramfs {
  nodes : list mcs_vnode;
  node_count : Z;
  data : list Z;
  data_used : Z
}.

Definition set_size (nd : mcs_vnode) (s : Z) : mcs_vnode :=
  mk_vnode (used nd) (id nd) (parent nd) (type nd) (name nd) s (data_offset nd) (data_capacity nd).

Definition set_nodes (fs : mcs_ramfs) (ns : list mcs_vnode) : mcs_ramfs :=
  mk_ramfs ns (node_count fs) (data fs) (data_used fs).

Definition set_data (fs : mcs_ramfs) (d : list Z) : mcs_ramfs :=
  mk_ramfs (nodes fs) (node_count fs) d (data_used fs).

(** * Strings and bytes *)

Fixpoint mcs_strlen (s : list Z) : option Z :=
  match s with
  | [] => None
  | c :: s => if c =? 0 then Some 0 else n ← mcs_strlen s; Some (n + 1)
  end.

(** [a[i] != b[i]] for [i = 0 .. n-1], then [b[n] == '\0']. *)
Fixpoint mcs_streq_n (a b : list Z) (n : nat) : option bool :=
  match n with
  | O => c ← head b; Some (c =? 0)
  | S n =>
      ca ← head a; cb ← head b;
      if negb (ca =? cb) then Some false else mcs_streq_n (tail a) (tail b) n
  end.

(** [dst] is the byte array that contains [dst[at]]. *)
Definition mcs_copy_bytes (dst : list Z) (at_ : Z) (src : list Z) (n : Z) : option (list Z) :=
  for_loop (loop_fuel 0 n 1) 0 n 1 (fun i d => c ← arr_get src i; arr_set d (at_ + i) c) dst.

Definition mcs_copy_name (src : list Z) (n : Z) : option (list Z) :=
  let stop := Z.min n (MCS_MAX_NAME - 1) in
  for_loop (loop_fuel 0 stop 1) 0 stop 1 (fun i d => c ← arr_get src i; arr_set d i c)
    (replicate (Z.to_nat MCS_MAX_NAME) 0).

(** * Operations *)

(** The loop of [mcs_find_child] over the [n] nodes from [i] on. *)
Fixpoint find_child_loop (fs : mcs_ramfs) (parent_id : Z) (nm : list Z) (len : Z) (n : nat) (i : Z) :
    option (option Z) :=
  match n with
  | O => Some None
  | S n =>
      nd ← arr_get (nodes fs) i;
      b ← (if negb (used nd =? 0) && (parent nd =? parent_id)
           then mcs_streq_n nm (name nd) (Z.to_nat len) else Some false);
      if (b : bool) then Some (Some i) else find_child_loop fs parent_id nm len n (i + 1)
  end.

(** [inl] is the node stored through [out], [inr] the error. *)
Definition mcs_find_child (fs : mcs_ramfs) (parent_id : Z) (nm : list Z) (name_len : Z) :
    option (Z + Z) :=
  if (name_len =? 0) || (MCS_MAX_NAME <=? name_len) then Some (inr MCS_EINVAL)
  else
    r ← find_child_loop fs parent_id nm name_len (Z.to_nat (node_count fs)) 0;
    Some (match r with Some i => inl i | None => inr MCS_ENOENT end).

(** [while ( *next != '/' && *next != '\0') next++;], giving the length of the segment
    and [next]. *)
Fixpoint scan_segment (s : list Z) : option (Z * list Z) :=
  match s with
  | [] => None
  | c :: s' =>
      if (c =? SLASH) || (c =? 0) then Some (0, s)
      else '(n, next) ← scan_segment s'; Some (n + 1, next)
  end.

(** The loop of [mcs_split_parent_leaf]: each turn consumes at least one byte of the
    path, so that its length is enough fuel. *)
Fixpoint split_loop (fuel : nat) (fs : mcs_ramfs) (cur : Z) (seg : list Z) :
    option (Z * list Z * Z + Z) :=
  match fuel with
  | O => None
  | S fuel =>
      '(seg_len, next) ← scan_segment seg;
      if (seg_len =? 0) || (MCS_MAX_NAME <=? seg_len) then Some (inr MCS_EINVAL)
      else
        c ← head next;
        if c =? 0 then Some (inl (cur, seg, seg_len))
        else
          nd ← arr_get (nodes fs) cur;
          r ← mcs_find_child fs (id nd) seg seg_len;
          match r with
          | inr rc => Some (inr rc)
          | inl cur =>
              nd ← arr_get (nodes fs) cur;
              if decide (type nd = MCS_VNODE_DIR) then split_loop fuel fs cur (tail next)
              else Some (inr MCS_ENOTDIR)
          end
  end.

(** [inl (parent, leaf, leaf_len)] or [inr rc]; the out pointers are those of locals. *)
Definition mcs_split_parent_leaf (fs : mcs_ramfs) (path : list Z) : option (Z * list Z * Z + Z) :=
  c0 ← head path;
  if negb (c0 =? SLASH) then Some (inr MCS_EINVAL)
  else
    c1 ← head (tail path);
    if c1 =? 0 then Some (inr MCS_EINVAL)
    else
      len ← mcs_strlen path;
      if MCS_MAX_PATH <=? len then Some (inr MCS_ENAMETOOLONG)
      else split_loop (length path) fs 0 (tail path).

(** [inl] is the new node, stored through [out]. *)
Definition mcs_alloc_node (fs : mcs_ramfs) (parent_id : Z) (ty : mcs_vnode_type) (nm : list Z)
    (name_len capacity : Z) : option ((Z + Z) * mcs_ramfs) :=
  if (name_len =? 0) || (MCS_MAX_NAME <=? name_len) then Some (inr MCS_EINVAL, fs)
  else if MCS_MAX_NODES <=? node_count fs then Some (inr MCS_ENOSPC, fs)
  else if bool_decide (ty = MCS_VNODE_FILE) && (MCS_RAMFS_DATA_BYTES <? u64 (data_used fs + capacity))
  then Some (inr MCS_ENOSPC, fs)
  else
    nm' ← mcs_copy_name nm name_len;
    let file := bool_decide (ty = MCS_VNODE_FILE) in
    let nd := mk_vnode 1 (u32 (node_count fs)) parent_id ty nm' 0
      (if file then data_used fs else 0) (if file then capacity else 0) in
    ns ← arr_set (nodes fs) (node_count fs) nd;
    Some (inl (node_count fs),
      mk_ramfs ns (u64 (node_count fs + 1)) (data fs)
        (if file then u64 (data_used fs + capacity) else data_used fs)).

(** The name array keeps its old bytes behind the first. *)
Definition init_node (nd : mcs_vnode) : mcs_vnode :=
  mk_vnode 0 0 0 MCS_VNODE_FILE (<[0%nat := 0]> (name nd)) 0 0 0.

Definition mcs_ramfs_init (fs : ptr mcs_ramfs) : option (ptr mcs_ramfs) :=
  match fs with
  | NULL => Some NULL
  | Ref fs =>
      ns ← for_loop (loop_fuel 0 MCS_MAX_NODES 1) 0 MCS_MAX_NODES 1
        (fun i ns => nd ← arr_get ns i; arr_set ns i (init_node nd)) (nodes fs);
      d ← for_loop (loop_fuel 0 MCS_RAMFS_DATA_BYTES 1) 0 MCS_RAMFS_DATA_BYTES 1
        (fun i d => arr_set d i 0) (data fs);
      nd ← arr_get ns 0;
      nm ← arr_set (name nd) 0 SLASH;
      nm ← arr_set nm 1 0;
      ns ← arr_set ns 0
        (mk_vnode 1 0 0 MCS_VNODE_DIR nm (size nd) (data_offset nd) (data_capacity nd));
      Some (Ref (mk_ramfs ns 1 d 0))
  end.

(** The loop of [mcs_ramfs_lookup]. *)
Fixpoint lookup_loop (fuel : nat) (fs : mcs_ramfs) (cur : Z) (seg : list Z) : option (Z + Z) :=
  match fuel with
  | O => None
  | S fuel =>
      c ← head seg;
      if c =? 0 then Some (inr MCS_EINVAL)
      else
        '(seg_len, next) ← scan_segment seg;
        if (seg_len =? 0) || (MCS_MAX_NAME <=? seg_len) then Some (inr MCS_EINVAL)
        else
          nd ← arr_get (nodes fs) cur;
          r ← mcs_find_child fs (id nd) seg seg_len;
          match r with
          | inr rc => Some (inr rc)
          | inl cur =>
              c ← head next;
              if c =? 0 then Some (inl cur)
              else
                nd ← arr_get (nodes fs) cur;
                if decide (type nd = MCS_VNODE_DIR) then lookup_loop fuel fs cur (tail next)
                else Some (inr MCS_ENOTDIR)
          end
  end.

(** Returns the status and the node pointer stored through [out_node]. *)
Definition mcs_ramfs_lookup (fs : ptr mcs_ramfs) (path : ptr (list Z)) (out_node : ptr (ptr Z)) :
    option (Z * ptr (ptr Z)) :=
  match fs, path, out_node with
  | Ref fs, Ref path, Ref _ =>
      c0 ← head path;
      if negb (c0 =? SLASH) then Some (MCS_EINVAL, out_node)
      else
        len ← mcs_strlen path;
        if MCS_MAX_PATH <=? len then Some (MCS_ENAMETOOLONG, out_node)
        else
          c1 ← head (tail path);
          if c1 =? 0 then Some (MCS_OK, Ref (Ref 0))
          else
            r ← lookup_loop (length path) fs 0 (tail path);
            Some (match r with
                  | inl i => (MCS_OK, Ref (Ref i))
                  | inr rc => (rc, out_node)
                  end)
  | _, _, _ => Some (MCS_EINVAL, out_node)
  end.

(** Returns the status, what [out_node] designates and the file system. *)
Definition mcs_ramfs_create_file (fs : ptr mcs_ramfs) (path : ptr (list Z)) (out_node : ptr (ptr Z)) :
    option (Z * ptr (ptr Z) * ptr mcs_ramfs) :=
  match fs, path, out_node with
  | Ref f, Ref p, Ref _ =>
      '(rc, existing) ← mcs_ramfs_lookup fs path (Ref NULL);
      if rc =? MCS_OK then
        match existing with
        | Ref (Ref i) =>
            nd ← arr_get (nodes f) i;
            if decide (type nd = MCS_VNODE_FILE) then Some (MCS_OK, Ref (Ref i), fs)
            else Some (MCS_EISDIR, out_node, fs)
        | _ => None
        end
      else
        r ← mcs_split_parent_leaf f p;
        match r with
        | inr rc => Some (rc, out_node, fs)
        | inl (parent, leaf, leaf_len) =>
            nd ← arr_get (nodes f) parent;
            if decide (type nd = MCS_VNODE_DIR) then
              '(r, f') ← mcs_alloc_node f (id nd) MCS_VNODE_FILE leaf leaf_len 256;
              Some (match r with
                    | inl i => (MCS_OK, Ref (Ref i), Ref f')
                    | inr rc => (rc, out_node, Ref f')
                    end)
            else Some (MCS_ENOTDIR, out_node, fs)
        end
  | _, _, _ => Some (MCS_EINVAL, out_node, fs)
  end.

Definition mcs_ramfs_seed_file (fs : ptr mcs_ramfs) (path : ptr (list Z)) (src : ptr (list Z)) (len : Z) :
    option (Z * ptr mcs_ramfs) :=
  if is_null fs || is_null path || (is_null src && negb (len =? 0)) then Some (MCS_EINVAL, fs)
  else
    '(rc, node, fs) ← mcs_ramfs_create_file fs path (Ref NULL);
    if negb (rc =? MCS_OK) then Some (rc, fs)
    else
      match fs, node with
      | Ref f, Ref (Ref i) =>
          nd ← arr_get (nodes f) i;
          if data_capacity nd <? len then Some (MCS_ENOSPC, fs)
          else
            d ← mcs_copy_bytes (data f) (data_offset nd) (match src with Ref s => s | NULL => [] end) len;
            ns ← arr_set (nodes f) i (set_size nd len);
            Some (MCS_OK, Ref (set_data (set_nodes f ns) d))
      | _, _ => None
      end.

(** * Specification *)

(** The C string held by a byte array: the bytes before the first NUL. *)
Fixpoint cstr_of (l : list Z) : list Z :=
  match l with
  | [] => []
  | c :: l => if c =? 0 then [] else c :: cstr_of l
  end.

(** [buf] holds the NUL-terminated string [s]. *)
Definition is_cstr (buf s : list Z) : Prop := (0 ∉ s) /\ exists rest, buf = s ++ (0 :: rest).

(** Live node [i]. *)
Definition node_at (fs : mcs_ramfs) (i : Z) (nd : mcs_vnode) : Prop :=
  0 <= i < node_count fs /\ nodes fs !! Z.to_nat i = Some nd.

(** The parts of a path between slashes. *)
Fixpoint segments (s : list Z) : list (list Z) :=
  match s with
  | [] => [[]]
  | c :: s =>
      if c =? SLASH then [] :: segments s
      else match segments s with seg :: r => (c :: seg) :: r | [] => [[c]] end
  end.

Definition segment_ok (seg : list Z) : bool :=
  (0 <? Z.of_nat (length seg)) && (Z.of_nat (length seg) <? MCS_MAX_NAME).

(** The child of directory [p] called [nm]. *)
Definition child_of (fs : mcs_ramfs) (p : Z) (nm : list Z) : option Z :=
  (fun x => Z.of_nat x.1) <$>
    list_find (fun nd => parent nd = p /\ cstr_of (name nd) = nm)
      (take (Z.to_nat (node_count fs)) (nodes fs)).

Definition is_dir (fs : mcs_ramfs) (i : Z) : bool :=
  match nodes fs !! Z.to_nat i with
  | Some nd => bool_decide (type nd = MCS_VNODE_DIR)
  | None => false
  end.

(** Resolution of a list of segments from directory [cur]: a node or an error. *)
Fixpoint resolve (fs : mcs_ramfs) (cur : Z) (segs : list (list Z)) : Z + Z :=
  match segs with
  | [] => inr MCS_EINVAL
  | seg :: rest =>
      if segment_ok seg then
        match child_of fs cur seg with
        | None => inr MCS_ENOENT
        | Some i =>
            match rest with
            | [] => inl i
            | _ => if is_dir fs i then resolve fs i rest else inr MCS_ENOTDIR
            end
        end
      else inr MCS_EINVAL
  end.

(** Resolution of all segments but the last: the directory and the last segment. *)
Fixpoint resolve_parent (fs : mcs_ramfs) (cur : Z) (segs : list (list Z)) : Z * list Z + Z :=
  match segs with
  | [] => inr MCS_EINVAL
  | seg :: rest =>
      if segment_ok seg then
        match rest with
        | [] => inl (cur, seg)
        | _ =>
            match child_of fs cur seg with
            | None => inr MCS_ENOENT
            | Some i => if is_dir fs i then resolve_parent fs i rest else inr MCS_ENOTDIR
            end
        end
      else inr MCS_EINVAL
  end.

(** What a path string names. *)
Definition lookup_spec (fs : mcs_ramfs) (s : list Z) : Z + Z :=
  match s with
  | c :: s' =>
      if negb (c =? SLASH) then inr MCS_EINVAL
      else if MCS_MAX_PATH <=? Z.of_nat (length s) then inr MCS_ENAMETOOLONG
      else match s' with [] => inl 0 | _ => resolve fs 0 (segments s') end
  | [] => inr MCS_EINVAL
  end.

(** Where a path string would be created. *)
Definition parent_spec (fs : mcs_ramfs) (s : list Z) : Z * list Z + Z :=
  match s with
  | c :: s' =>
      if negb (c =? SLASH) then inr MCS_EINVAL
      else match s' with
           | [] => inr MCS_EINVAL
           | _ => if MCS_MAX_PATH <=? Z.of_nat (length s) then inr MCS_ENAMETOOLONG
                  else resolve_parent fs 0 (segments s')
           end
  | [] => inr MCS_EINVAL
  end.

(** The bytes of a file. *)
Definition contents (fs : mcs_ramfs) (i : Z) : option (list Z) :=
  nd ← nodes fs !! Z.to_nat i;
  if bool_decide (0 <= i < node_count fs /\ type nd = MCS_VNODE_FILE)
  then Some (take (Z.to_nat (size nd)) (drop (Z.to_nat (data_offset nd)) (data fs))) else None.

(** A live node [i]: named, inside its directory, and with a data region of its own. *)
Record node_wf (fs : mcs_ramfs) (i : Z) (nd : mcs_vnode) : Prop := {
  nd_used : used nd = 1;
  nd_id : id nd = i;
  nd_name : length (name nd) = Z.to_nat MCS_MAX_NAME;
  nd_size : 0 <= size nd <= data_capacity nd;
  nd_region : 0 <= data_offset nd /\ data_offset nd + data_capacity nd <= data_used fs;
  nd_dir : type nd = MCS_VNODE_DIR -> data_capacity nd = 0;
  nd_parent : 0 < i -> 0 <= parent nd < i /\ is_dir fs (parent nd) = true
}.

(** The file system is well formed: a root directory, a tree of live nodes with distinct
    names inside each directory, and data regions laid out one after the other. *)
Record ramfs_wf (fs : mcs_ramfs) : Prop := {
  fs_nodes : length (nodes fs) = Z.to_nat MCS_MAX_NODES;
  fs_data : length (data fs) = Z.to_nat MCS_RAMFS_DATA_BYTES;
  fs_count : 1 <= node_count fs <= MCS_MAX_NODES;
  fs_used : 0 <= data_used fs <= MCS_RAMFS_DATA_BYTES;
  fs_root : is_dir fs 0 = true;
  fs_root_name : forall nd, node_at fs 0 nd -> cstr_of (name nd) = [SLASH];
  fs_node : forall i nd, node_at fs i nd -> node_wf fs i nd;
  fs_order : forall i j nd nd', node_at fs i nd -> node_at fs j nd' -> i < j ->
    type nd' = MCS_VNODE_FILE -> data_offset nd + data_capacity nd <= data_offset nd';
  fs_names : forall i j nd nd', node_at fs i nd -> node_at fs j nd' ->
    parent nd = parent nd' -> cstr_of (name nd) = cstr_of (name nd') -> i = j
}.

(** Storage for a file system, before initialisation. *)
Definition ramfs_storage (fs : mcs_ramfs) : Prop :=
  length (nodes fs) = Z.to_nat MCS_MAX_NODES /\ length (data fs) = Z.to_nat MCS_RAMFS_DATA_BYTES /\
  Forall (fun nd => length (name nd) = Z.to_nat MCS_MAX_NAME) (nodes fs).

(** * Lemmas: strings *)

Lemma cstr_of_app s rest : 0 ∉ s -> cstr_of (s ++ 0 :: rest) = s.
Proof.
  induction s as [|c s IH]; cbn; [done|]. intros [Hc Hs]%not_elem_of_cons.
  rw_false (c =? 0). by rewrite IH.
Qed.

Lemma strlen_spec s rest : 0 ∉ s -> mcs_strlen (s ++ 0 :: rest) = Some (Z.of_nat (length s)).
Proof.
  induction s as [|c s IH]; cbn; [done|]. intros [Hc Hs]%not_elem_of_cons.
  rw_false (c =? 0). rewrite IH by done. cbn. f_equal. lia.
Qed.

Lemma streq_spec nm : forall tl b,
  0 ∉ nm -> (length nm < length b)%nat ->
  mcs_streq_n (nm ++ tl) b (length nm) = Some (bool_decide (cstr_of b = nm)).
Proof.
  induction nm as [|c nm IH]; intros tl [|d b] Hn Hl; cbn in Hl; try lia; cbn.
  - by destruct (Z.eqb_spec d 0); case_bool_decide.
  - apply not_elem_of_cons in Hn as [Hc Hn]. destruct (Z.eqb_spec c d) as [->|Hne]; cbn.
    + rw_false (d =? 0). rewrite IH by (done || lia). f_equal. apply bool_decide_ext. naive_solver.
    + f_equal. symmetry. apply bool_decide_eq_false_2. destruct (d =? 0); [done|]. congruence.
Qed.

(** The head segment of a path and what follows it. *)
Lemma scan_segment_spec s rest :
  0 ∉ s ->
  exists seg r, segments s = seg :: r /\ (0 ∉ seg) /\ (SLASH ∉ seg) /\
    ((r = [] /\ s = seg /\ scan_segment (s ++ 0 :: rest) = Some (Z.of_nat (length seg), 0 :: rest)) \/
     (exists s', s = seg ++ SLASH :: s' /\ r = segments s' /\
        scan_segment (s ++ 0 :: rest) = Some (Z.of_nat (length seg), SLASH :: s' ++ 0 :: rest))).
Proof.
  induction s as [|c s IH]; cbn [app segments scan_segment].
  { intros _. exists [], []. split_and!; [done|set_solver|set_solver|]. left. done. }
  intros [Hc Hs]%not_elem_of_cons. rw_false (c =? 0).
  destruct (Z.eqb_spec c SLASH) as [->|Hsl]; cbn [orb].
  { exists [], (segments s). split_and!; [done|set_solver|set_solver|]. right. exists s. done. }
  destruct (IH Hs) as (seg & r & -> & H0 & H1 & Hcase).
  exists (c :: seg), r. split_and!; [done|set_solver|set_solver|].
  destruct Hcase as [(-> & -> & ->)|(s' & -> & -> & ->)]; cbn.
  - left. split_and!; [done|done|]. do 2 f_equal. lia.
  - right. exists s'. split_and!; [done|done|]. do 2 f_equal. lia.
Qed.

Lemma segments_nonempty s : segments s <> [].
Proof. destruct s as [|c s]; cbn; [done|]. destruct (c =? SLASH); [done|]. by destruct (segments s). Qed.

Lemma segments_inj s s' : segments s = segments s' -> s = s'.
Proof.
  revert s'. induction s as [|c s IH]; intros [|c' s']; cbn; [done| | |].
  - destruct (Z.eqb_spec c' SLASH); intros H.
    + injection H as H. symmetry in H. by apply segments_nonempty in H.
    + by destruct (segments s').
  - destruct (Z.eqb_spec c SLASH); intros H.
    + injection H as H. by apply segments_nonempty in H.
    + by destruct (segments s).
  - specialize (IH s'). pose proof (segments_nonempty s). pose proof (segments_nonempty s').
    destruct (segments s) as [|g r]; [done|]. destruct (segments s') as [|g' r']; [done|].
    destruct (Z.eqb_spec c SLASH); destruct (Z.eqb_spec c' SLASH); intros Heq; simplify_eq;
      f_equal; by apply IH.
Qed.

(** * Lemmas: nodes and directories *)

Lemma node_at_exists fs i : ramfs_wf fs -> 0 <= i < node_count fs -> exists nd, node_at fs i nd.
Proof.
  intros Hwf Hi. pose proof (fs_nodes _ Hwf) as Hlen. pose proof (fs_count _ Hwf).
  destruct (lookup_lt_is_Some_2 (nodes fs) (Z.to_nat i)) as [nd Hnd]; [unfold MCS_MAX_NODES in *; lia|].
  by exists nd.
Qed.

Lemma node_at_get fs i nd : node_at fs i nd -> arr_get (nodes fs) i = Some nd.
Proof. intros [Hi Hnd]. apply arr_get_Some. split; [lia|done]. Qed.

Lemma node_at_inj fs i nd nd' : node_at fs i nd -> node_at fs i nd' -> nd = nd'.
Proof. intros [_ H] [_ H']. congruence. Qed.

Lemma is_dir_at fs i nd : node_at fs i nd -> is_dir fs i = bool_decide (type nd = MCS_VNODE_DIR).
Proof. intros [_ H]. unfold is_dir. by rewrite H. Qed.

(** [child_of] is the node of that name in the directory, which is unique. *)
Lemma child_of_Some fs p nm i :
  ramfs_wf fs ->
  child_of fs p nm = Some i <-> exists nd, node_at fs i nd /\ parent nd = p /\ cstr_of (name nd) = nm.
Proof.
  intros Hwf. unfold child_of. rewrite fmap_Some. split.
  - intros ([k nd] & [Hk [Hp _]]%list_find_Some & ->). cbn in *.
    apply lookup_take_Some in Hk as [Hk Hlt]. exists nd. split; [|done]. split; [lia|]. by rewrite Nat2Z.id.
  - intros (nd & Hnd & Hp). pose proof Hnd as [Hi Hl].
    destruct (list_find_elem_of (fun nd => parent nd = p /\ cstr_of (name nd) = nm)
      (take (Z.to_nat (node_count fs)) (nodes fs)) nd) as [[k nd'] Hf]; [|done|].
    { apply list_elem_of_lookup. exists (Z.to_nat i). apply lookup_take_Some. split; [done|lia]. }
    exists (k, nd'). split; [done|]. cbn. apply list_find_Some in Hf as [Hk [[Hp' Hn'] _]].
    apply lookup_take_Some in Hk as [Hk Hlt].
    apply (fs_names _ Hwf i (Z.of_nat k) nd nd'); [done| |naive_solver..].
    split; [lia|]. by rewrite Nat2Z.id.
Qed.

Lemma child_of_live fs p nm i : ramfs_wf fs -> child_of fs p nm = Some i -> 0 <= i < node_count fs.
Proof. intros Hwf (nd & [Hi _] & _)%child_of_Some; done. Qed.

Lemma find_child_loop_spec fs p nm tl n : forall i,
  ramfs_wf fs -> 0 ∉ nm -> Z.of_nat (length nm) < MCS_MAX_NAME -> 0 <= i ->
  i + Z.of_nat n <= node_count fs ->
  find_child_loop fs p (nm ++ tl) (Z.of_nat (length nm)) n i =
    Some ((fun x => i + Z.of_nat x.1) <$>
      list_find (fun nd => parent nd = p /\ cstr_of (name nd) = nm) (take n (drop (Z.to_nat i) (nodes fs)))).
Proof.
  induction n as [|n IH]; intros i Hwf H0 Hlen Hi Hn; [done|]. cbn [find_child_loop].
  destruct (node_at_exists fs i Hwf) as [nd Hnd]; [lia|]. rewrite (node_at_get _ _ _ Hnd). cbn [mbind option_bind].
  destruct (fs_node _ Hwf i nd Hnd) as [Hused _ Hname _ _ _ _].
  rewrite (drop_S _ nd) by apply Hnd. cbn [take list_find]. rewrite Hused. cbn [negb Z.eqb andb].
  assert ((if parent nd =? p then mcs_streq_n (nm ++ tl) (name nd) (Z.to_nat (Z.of_nat (length nm)))
           else Some false) = Some (bool_decide (parent nd = p /\ cstr_of (name nd) = nm))) as ->.
  { destruct (Z.eqb_spec (parent nd) p) as [Heq|Hne].
    - rewrite Nat2Z.id, streq_spec; [|done|unfold MCS_MAX_NAME in *; lia].
      f_equal. apply bool_decide_ext. tauto.
    - symmetry. f_equal. apply bool_decide_eq_false_2. tauto. }
  cbn [mbind option_bind]. case_bool_decide as Hd.
  - rewrite decide_True by done. cbn. do 2 f_equal. lia.
  - rewrite decide_False by done. rewrite IH by lia || done.
    replace (Z.to_nat (i + 1)) with (S (Z.to_nat i)) by lia.
    f_equal. rewrite <- option_fmap_compose. apply option_fmap_ext. intros [k x]. cbn. lia.
Qed.

Lemma find_child_spec fs p nm tl :
  ramfs_wf fs -> 0 ∉ nm -> segment_ok nm = true ->
  mcs_find_child fs p (nm ++ tl) (Z.of_nat (length nm)) =
    Some (match child_of fs p nm with Some i => inl i | None => inr MCS_ENOENT end).
Proof.
  intros Hwf H0 Hok. unfold segment_ok in Hok. bool_to_prop. unfold mcs_find_child.
  rw_false (Z.of_nat (length nm) =? 0). rw_false (MCS_MAX_NAME <=? Z.of_nat (length nm)). cbn [orb].
  pose proof (fs_count _ Hwf). rewrite find_child_loop_spec by (done || lia).
  cbn [mbind option_bind]. unfold child_of. change (Z.to_nat 0) with 0%nat. rewrite drop_0.
  by destruct (list_find _ _) as [[k nd]|].
Qed.

Lemma segment_not_ok nm :
  segment_ok nm = false -> (Z.of_nat (length nm) =? 0) || (MCS_MAX_NAME <=? Z.of_nat (length nm)) = true.
Proof.
  unfold segment_ok. intros H. apply orb_true_iff. apply andb_false_iff in H as [H|H]; bool_to_prop; [left|right].
  - apply Z.eqb_eq. lia.
  - apply Z.leb_le. lia.
Qed.

Lemma segment_ok_len nm :
  segment_ok nm = true -> (Z.of_nat (length nm) =? 0) || (MCS_MAX_NAME <=? Z.of_nat (length nm)) = false.
Proof.
  unfold segment_ok. intros H. bool_to_prop. apply orb_false_iff. split; [apply Z.eqb_neq|apply Z.leb_gt]; lia.
Qed.

(** The pointer walk over a path resolves its segments. *)
Lemma lookup_loop_spec fs : ramfs_wf fs -> forall fuel s rest cur,
  0 ∉ s -> (length s < fuel)%nat -> 0 <= cur < node_count fs ->
  lookup_loop fuel fs cur (s ++ 0 :: rest) = Some (resolve fs cur (segments s)).
Proof.
  intros Hwf fuel. induction fuel as [|fuel IH]; intros s rest cur H0 Hf Hcur; [lia|]. cbn [lookup_loop].
  destruct (node_at_exists fs cur Hwf Hcur) as [nd Hnd].
  destruct (scan_segment_spec s rest H0) as (seg & r & Hsegs & Hz & Hsl & Hcase). rewrite Hsegs. cbn [resolve].
  destruct s as [|c s]; [cbn in *; by injection Hsegs as <- <-|].
  cbn [head app mbind option_bind]. apply not_elem_of_cons in H0 as [Hc H0]. rw_false (c =? 0).
  change (c :: s ++ 0 :: rest) with ((c :: s) ++ 0 :: rest).
  destruct Hcase as [(-> & Hs & ->)|(s' & Hs & -> & ->)]; cbn [mbind option_bind];
    (destruct (segment_ok seg) eqn:Hok; [rewrite (segment_ok_len _ Hok)|by rewrite (segment_not_ok _ Hok)]);
    rewrite (node_at_get _ _ _ Hnd); cbn [mbind option_bind]; rewrite (nd_id _ _ _ (fs_node _ Hwf _ _ Hnd));
    rewrite Hs, <- ?app_assoc, find_child_spec by done; cbn [mbind option_bind];
    (destruct (child_of fs cur seg) as [i|] eqn:Hi; [|done]); cbn [head mbind option_bind]; [done|].
  pose proof (child_of_live _ _ _ _ Hwf Hi) as Hlive. destruct (node_at_exists fs i Hwf Hlive) as [nd' Hnd'].
  rewrite (node_at_get _ _ _ Hnd'), (is_dir_at _ _ _ Hnd'). cbn [mbind option_bind]. change (SLASH =? 0) with false.
  destruct (segments s') as [|g r'] eqn:Es; [by apply segments_nonempty in Es|]. rewrite <- Es.
  cbn [tail app]. destruct (decide (type nd' = MCS_VNODE_DIR)).
  - rewrite bool_decide_eq_true_2 by done. apply IH; [|apply (f_equal length) in Hs; rewrite length_app in Hs; cbn in *; lia|done].
    assert (Hn : 0 ∉ c :: s) by by apply not_elem_of_cons. rewrite Hs in Hn. set_solver.
  - by rewrite bool_decide_eq_false_2.
Qed.

Lemma split_loop_spec fs : ramfs_wf fs -> forall fuel s rest cur,
  0 ∉ s -> (length s < fuel)%nat -> 0 <= cur < node_count fs ->
  split_loop fuel fs cur (s ++ 0 :: rest) =
    Some (match resolve_parent fs cur (segments s) with
          | inl (p, leaf) => inl (p, leaf ++ 0 :: rest, Z.of_nat (length leaf))
          | inr rc => inr rc
          end).
Proof.
  intros Hwf fuel. induction fuel as [|fuel IH]; intros s rest cur H0 Hf Hcur; [lia|]. cbn [split_loop].
  destruct (node_at_exists fs cur Hwf Hcur) as [nd Hnd].
  destruct (scan_segment_spec s rest H0) as (seg & r & -> & Hz & Hsl & Hcase). cbn [resolve_parent].
  destruct Hcase as [(-> & Hs & ->)|(s' & Hs & -> & ->)]; cbn [mbind option_bind];
    (destruct (segment_ok seg) eqn:Hok; [rewrite (segment_ok_len _ Hok)|by rewrite (segment_not_ok _ Hok)]);
    cbn [head mbind option_bind]; [by rewrite Hs|]. change (SLASH =? 0) with false. cbn iota.
  rewrite (node_at_get _ _ _ Hnd); cbn [mbind option_bind]. rewrite (nd_id _ _ _ (fs_node _ Hwf _ _ Hnd)).
  rewrite Hs, <- app_assoc, find_child_spec by done. cbn [mbind option_bind].
  destruct (segments s') as [|g r'] eqn:Es; [by apply segments_nonempty in Es|]. rewrite <- Es.
  destruct (child_of fs cur seg) as [i|] eqn:Hi; [|done]. 
  pose proof (child_of_live _ _ _ _ Hwf Hi) as Hlive. destruct (node_at_exists fs i Hwf Hlive) as [nd' Hnd'].
  rewrite (node_at_get _ _ _ Hnd'), (is_dir_at _ _ _ Hnd'). cbn [mbind option_bind tail app].
  destruct (decide (type nd' = MCS_VNODE_DIR)).
  - rewrite bool_decide_eq_true_2 by done.
    apply IH; [set_solver|rewrite Hs, length_app in Hf; cbn in *; lia|done].
  - by rewrite bool_decide_eq_false_2.
Qed.

(** A copy loop replaces a range of the destination. *)
Lemma copy_bytes_spec dst at_ src n :
  0 <= at_ -> 0 <= n <= Z.of_nat (length src) -> at_ + n <= Z.of_nat (length dst) -> n < 2 ^ 64 ->
  mcs_copy_bytes dst at_ src n =
    Some (take (Z.to_nat at_) dst ++ take (Z.to_nat n) src ++ drop (Z.to_nat (at_ + n)) dst).
Proof.
  intros Hat Hn Hdst H64. unfold mcs_copy_bytes.
  destruct (for_loop_count (fun i d => d = take (Z.to_nat at_) dst ++ take (Z.to_nat i) src ++
      drop (Z.to_nat (at_ + i)) dst) 0 n (fun i d => c ← arr_get src i; arr_set d (at_ + i) c) dst)
    as (d & -> & ->); [lia|done| | |done].
  - rewrite Z.add_0_r. change (Z.to_nat 0) with 0%nat. by rewrite take_0, app_nil_l, take_drop.
  - intros i d Hi ->. destruct (arr_get_lt src i) as [c Hc]; [lia|]. rewrite Hc. cbn [mbind option_bind].
    apply arr_get_Some in Hc as [_ Hc].
    destruct (lookup_lt_is_Some_2 dst (Z.to_nat (at_ + i))) as [x Hx]; [lia|].
    eexists. split; [apply arr_set_lt|].
    { rewrite !length_app, !length_take, length_drop. lia. }
    rewrite (drop_S _ x) by done.
    rewrite insert_app_r_alt by (rewrite length_take; lia). f_equal.
    rewrite insert_app_r_alt by (rewrite !length_take; lia). rewrite !length_take.
    replace (_ - _ - _)%nat with 0%nat by lia. cbn [insert list_insert].
    replace (Z.to_nat (i + 1)) with (S (Z.to_nat i)) by lia. rewrite (take_S_r _ _ c) by done.
    rewrite <- app_assoc. cbn. do 3 f_equal. lia.
Qed.

Lemma copy_name_spec nm tl :
  segment_ok nm = true ->
  mcs_copy_name (nm ++ tl) (Z.of_nat (length nm)) =
    Some (nm ++ replicate (Z.to_nat MCS_MAX_NAME - length nm) 0).
Proof.
  unfold segment_ok, MCS_MAX_NAME. intros H. bool_to_prop.
  change (mcs_copy_name (nm ++ tl) (Z.of_nat (length nm))) with
    (mcs_copy_bytes (replicate 32 0) 0 (nm ++ tl) (Z.min (Z.of_nat (length nm)) 31)).
  rewrite Z.min_l by lia. rewrite copy_bytes_spec by (rewrite ?length_app, ?length_replicate; lia).
  change (Z.to_nat 0) with 0%nat. rewrite take_0, app_nil_l, Z.add_0_l, Nat2Z.id, take_app_length.
  by rewrite drop_replicate.
Qed.

(** * Lemmas: allocating a node *)

(** Room for one more file. *)
Definition fs_full (fs : mcs_ramfs) : bool :=
  (MCS_MAX_NODES <=? node_count fs) || (MCS_RAMFS_DATA_BYTES <? data_used fs + 256).

(** The file system with an empty file [nm] added to directory [p]. *)
Definition new_node (fs : mcs_ramfs) (p : Z) (nm : list Z) : mcs_vnode :=
  mk_vnode 1 (node_count fs) p MCS_VNODE_FILE
    (nm ++ replicate (Z.to_nat MCS_MAX_NAME - length nm) 0) 0 (data_used fs) 256.

Definition add_file (fs : mcs_ramfs) (p : Z) (nm : list Z) : mcs_ramfs :=
  mk_ramfs (<[Z.to_nat (node_count fs) := new_node fs p nm]> (nodes fs)) (node_count fs + 1) (data fs)
    (data_used fs + 256).

Lemma alloc_file_spec fs p nm tl :
  ramfs_wf fs -> segment_ok nm = true ->
  mcs_alloc_node fs p MCS_VNODE_FILE (nm ++ tl) (Z.of_nat (length nm)) 256 =
    Some (if fs_full fs then (inr MCS_ENOSPC, fs) else (inl (node_count fs), add_file fs p nm)).
Proof.
  intros Hwf Hok. unfold mcs_alloc_node. rewrite segment_ok_len by done.
  rewrite copy_name_spec by done. destruct Hwf as [Hn Hd Hc Hu _ _ _ _ _].
  unfold fs_full, add_file, new_node, MCS_MAX_NODES, MCS_RAMFS_DATA_BYTES in *.
  rewrite !u64_small by ulia. rewrite u32_small by ulia. cbn [bool_decide decide_rel andb mbind option_bind].
  destruct (64 <=? node_count fs) eqn:E; [done|]. bool_to_prop. cbn [orb].
  rewrite bool_decide_eq_true_2 by done. cbn [andb]. destruct (8192 <? data_used fs + 256); [done|].
  rewrite arr_set_lt by lia. done.
Qed.

Section add.
Context (fs : mcs_ramfs) (p : Z) (nm : list Z).
Hypothesis Hwf : ramfs_wf fs.
Hypothesis Hok : segment_ok nm = true.
Hypothesis Hnz : 0 ∉ nm.
Hypothesis Hroom : fs_full fs = false.
Hypothesis Hp : 0 <= p < node_count fs.
Hypothesis Hdir : is_dir fs p = true.
Hypothesis Hfree : child_of fs p nm = None.

Let fs' := add_file fs p nm.

Lemma add_name : cstr_of (name (new_node fs p nm)) = nm.
Proof.
  unfold segment_ok in Hok. bool_to_prop. cbn [name new_node].
  destruct (Z.to_nat MCS_MAX_NAME - length nm)%nat as [|k] eqn:E; [lia|]. cbn. by apply cstr_of_app.
Qed.

Lemma add_node_at i nd :
  node_at fs' i nd <-> node_at fs i nd \/ (i = node_count fs /\ nd = new_node fs p nm).
Proof.
  clear Hp Hdir Hfree Hok Hnz.
  unfold fs_full in Hroom. bool_to_prop. pose proof (fs_count _ Hwf). pose proof (fs_nodes _ Hwf).
  unfold node_at, fs'. cbn. destruct (Z.eq_dec i (node_count fs)) as [->|].
  - rewrite list_lookup_insert_eq by (unfold MCS_MAX_NODES in *; lia). naive_solver lia.
  - destruct (decide (0 <= i)) as [Hi|]; [|naive_solver lia].
    rewrite list_lookup_insert_ne by lia. naive_solver lia.
Qed.

Lemma add_is_dir i : 0 <= i < node_count fs -> is_dir fs' i = is_dir fs i.
Proof. intros Hi. unfold is_dir, fs'. cbn. rewrite list_lookup_insert_ne by lia. done. Qed.

Lemma add_wf : ramfs_wf fs'.
Proof.
  pose proof Hwf as [Hn Hd Hc Hu Hr Hrn Hnodes Ho Hnames].
  assert (Hlt : node_count fs < MCS_MAX_NODES /\ data_used fs + 256 <= MCS_RAMFS_DATA_BYTES)
    by (unfold fs_full in Hroom; bool_to_prop; lia).
  split.
  - cbn. by rewrite length_insert.
  - done.
  - cbn. lia.
  - cbn. lia.
  - by rewrite add_is_dir by lia.
  - intros nd [Hnd|[? ->]]%add_node_at; [by apply Hrn|lia].
  - intros i nd [Hnd|[-> ->]]%add_node_at.
    + destruct (Hnodes i nd Hnd) as [? ? ? ? ? ? Hpar]. split; try done; [cbn; lia|].
      intros Hi. destruct (Hpar Hi) as [? ?]. destruct Hnd as [? _]. rewrite add_is_dir by lia. done.
    + split; cbn; try done; try lia.
      * rewrite length_app, length_replicate. unfold segment_ok in Hok. bool_to_prop.
        unfold MCS_MAX_NAME in *. lia.
      * intros _. rewrite add_is_dir by lia. done.
  - intros i j nd nd' [Hnd|[-> ->]]%add_node_at [Hnd'|[-> ->]]%add_node_at Hij Hf; try lia.
    + by eapply Ho.
    + cbn. apply (Hnodes i nd Hnd).
    + destruct Hnd'. lia.
  - assert (Hno : forall i nd, node_at fs i nd -> parent nd = p -> cstr_of (name nd) = nm -> False).
    { intros i nd Hnd H1 H2. assert (child_of fs p nm = Some i) by (apply child_of_Some; eauto). congruence. }
    intros i j nd nd' [Hnd|[-> ->]]%add_node_at [Hnd'|[-> ->]]%add_node_at; rewrite ?add_name; cbn [parent new_node].
    + by apply Hnames.
    + intros. exfalso. eauto.
    + intros. exfalso. eauto.
    + done.
Qed.

Lemma add_child q nm' :
  child_of fs' q nm' = if decide (q = p /\ nm' = nm) then Some (node_count fs) else child_of fs q nm'.
Proof.
  apply option_eq. intros i. rewrite child_of_Some by apply add_wf. case_decide as Hd.
  - destruct Hd as [-> ->]. split.
    + intros (nd & [Hnd|[-> ->]]%add_node_at & H1 & H2); [|done].
      assert (child_of fs p nm = Some i) by (apply child_of_Some; eauto). congruence.
    + intros [= <-]. exists (new_node fs p nm). rewrite add_node_at, add_name. auto.
  - rewrite child_of_Some by done. split.
    + intros (nd & [Hnd|[-> ->]]%add_node_at & H1 & H2); [by eauto|].
      rewrite add_name in H2. cbn in H1. destruct Hd. auto.
    + intros (nd & Hnd & H). exists nd. rewrite add_node_at. auto.
Qed.

Lemma add_not_dir : is_dir fs' (node_count fs) = false.
Proof.
  pose proof (fs_count _ Hwf). unfold fs_full in Hroom. bool_to_prop. pose proof (fs_nodes _ Hwf).
  unfold is_dir, fs'. cbn. by rewrite list_lookup_insert_eq by (unfold MCS_MAX_NODES in *; lia).
Qed.

(** Every path that named a node still names it. *)
Lemma add_resolve_keeps segs : forall cur i,
  0 <= cur < node_count fs -> resolve fs cur segs = inl i -> resolve fs' cur segs = inl i.
Proof.
  induction segs as [|seg r IH]; intros cur i Hcur; cbn; [done|].
  destruct (segment_ok seg); [|done]. rewrite add_child.
  destruct (child_of fs cur seg) as [j|] eqn:Hj; [|done]. rewrite decide_False by (intros [-> ->]; congruence).
  pose proof (child_of_live _ _ _ _ Hwf Hj). destruct r; [done|]. rewrite add_is_dir by done.
  destruct (is_dir fs j); [|done]. by apply IH.
Qed.

(** Every path names what it did, or the new file. *)
Lemma add_resolve_only segs : forall cur i,
  0 <= cur < node_count fs -> resolve fs' cur segs = inl i -> i = node_count fs \/ resolve fs cur segs = inl i.
Proof.
  induction segs as [|seg r IH]; intros cur i Hcur; cbn; [done|].
  destruct (segment_ok seg); [|done]. rewrite add_child. case_decide as Hd.
  - destruct r; [intros [= <-]; auto|]. by rewrite add_not_dir.
  - destruct (child_of fs cur seg) as [j|] eqn:Hj; [|done]. pose proof (child_of_live _ _ _ _ Hwf Hj).
    destruct r; [auto|]. rewrite add_is_dir by done. destruct (is_dir fs j); [|done]. by apply IH.
Qed.

(** The path of the new file names it. *)
Lemma add_resolve_new segs : forall cur,
  0 <= cur < node_count fs -> resolve_parent fs cur segs = inl (p, nm) ->
  resolve fs' cur segs = inl (node_count fs).
Proof.
  induction segs as [|seg r IH]; intros cur Hcur; cbn; [done|].
  destruct (segment_ok seg); [|done]. rewrite add_child. destruct r as [|g r].
  - intros [= -> ->]. by rewrite decide_True.
  - destruct (child_of fs cur seg) as [j|] eqn:Hj; [|done]. rewrite decide_False by (intros [-> ->]; congruence).
    pose proof (child_of_live _ _ _ _ Hwf Hj). rewrite add_is_dir by done.
    destruct (is_dir fs j); [|done]. by apply IH.
Qed.

Lemma add_contents_new : contents fs' (node_count fs) = Some [].
Proof.
  pose proof (fs_count _ Hwf). unfold fs_full in Hroom. bool_to_prop. pose proof (fs_nodes _ Hwf).
  unfold contents, fs'. cbn. rewrite list_lookup_insert_eq by (unfold MCS_MAX_NODES in *; lia). cbn.
  rewrite bool_decide_eq_true_2 by (split; [lia|done]). done.
Qed.

Lemma add_contents_old i : i <> node_count fs -> contents fs' i = contents fs i.
Proof.
  intros Hi. pose proof (fs_count _ Hwf). unfold contents, fs'. cbn.
  destruct (Z.ltb_spec i 0).
  - destruct (nodes fs !! Z.to_nat i) eqn:E, (<[_:=_]> _ !! Z.to_nat i) eqn:E'; cbn; try done;
      repeat rewrite bool_decide_eq_false_2 by lia; done.
  - rewrite list_lookup_insert_ne by lia. destruct (nodes fs !! Z.to_nat i); cbn; [|done].
    erewrite bool_decide_ext; [done|]. intuition lia.
Qed.
End add.

(** * Lemmas: path names *)

(** The directory walk along a list of names, without the checks. *)
Fixpoint dwalk (fs : mcs_ramfs) (cur : Z) (segs : list (list Z)) : option Z :=
  match segs with
  | [] => Some cur
  | seg :: r => i ← child_of fs cur seg; dwalk fs i r
  end.

Lemma resolve_dwalk fs segs : forall cur i, resolve fs cur segs = inl i -> dwalk fs cur segs = Some i.
Proof.
  induction segs as [|seg r IH]; intros cur i; cbn; [done|]. destruct (segment_ok seg); [|done].
  destruct (child_of fs cur seg) as [j|]; [|done]. cbn. destruct r as [|g r].
  - by intros [= ->].
  - destruct (is_dir fs j); [|done]. apply IH.
Qed.

Lemma dwalk_snoc fs segs : forall cur seg, dwalk fs cur (segs ++ [seg]) = (i ← dwalk fs cur segs; child_of fs i seg).
Proof.
  induction segs as [|g r IH]; intros cur seg; cbn; [by destruct (child_of fs cur seg)|].
  destruct (child_of fs cur g); cbn; [apply IH|done].
Qed.

Lemma root_no_child fs q nm : ramfs_wf fs -> SLASH ∉ nm -> child_of fs q nm <> Some 0.
Proof.
  intros Hwf Hs (nd & Hnd & _ & Hn)%child_of_Some; [|done]. rewrite (fs_root_name _ Hwf nd Hnd) in Hn.
  subst nm. set_solver.
Qed.

(** A node is reached along one list of names only. *)
Lemma dwalk_inj fs : ramfs_wf fs -> forall l l' i,
  Forall (fun seg => SLASH ∉ seg) l -> Forall (fun seg => SLASH ∉ seg) l' ->
  dwalk fs 0 l = Some i -> dwalk fs 0 l' = Some i -> l = l'.
Proof.
  intros Hwf l. induction l as [|x l IH] using rev_ind; intros l' i Hl Hl'.
  - intros [= <-]. destruct l' as [|x' l' _] using rev_ind; [done|]. rewrite dwalk_snoc.
    apply Forall_app in Hl' as [_ [Hx _]%Forall_cons].
    destruct (dwalk fs 0 l') as [q|]; [|done]. cbn. intros Hq. by destruct (root_no_child fs q x' Hwf Hx).
  - rewrite dwalk_snoc. apply Forall_app in Hl as [Hl [Hx _]%Forall_cons].
    destruct (dwalk fs 0 l) as [q|] eqn:Hq; [|done]. cbn. intros Hi.
    destruct l' as [|x' l' _] using rev_ind.
    { intros [= <-]. by destruct (root_no_child fs q x Hwf Hx). }
    rewrite dwalk_snoc. apply Forall_app in Hl' as [Hl' [Hx' _]%Forall_cons].
    destruct (dwalk fs 0 l') as [q'|] eqn:Hq'; [|done]. cbn. intros Hi'.
    apply child_of_Some in Hi as (nd & Hnd & <- & <-), Hi' as (nd' & Hnd' & <- & <-); [|done..].
    rewrite <- (node_at_inj _ _ _ _ Hnd Hnd') in *. f_equal. by eapply IH.
Qed.

Lemma segments_no_slash s : Forall (fun seg => SLASH ∉ seg) (segments s).
Proof.
  induction s as [|c s IH]; cbn; [forall_cons; set_solver|].
  destruct (Z.eqb_spec c SLASH); [constructor; [set_solver|done]|].
  destruct (segments s) as [|g r]; [forall_cons; set_solver|].
  apply Forall_cons in IH as [? ?]. constructor; [set_solver|done].
Qed.

(** Two path strings that name the same node are equal. *)
Lemma lookup_spec_inj fs s s' i :
  ramfs_wf fs -> lookup_spec fs s = inl i -> lookup_spec fs s' = inl i -> s = s'.
Proof.
  intros Hwf. assert (Hdw : forall s, lookup_spec fs s = inl i -> exists t, s = SLASH :: t /\
    dwalk fs 0 (match t with [] => [] | _ => segments t end) = Some i).
  { intros [|c t]; cbn; [done|]. destruct (Z.eqb_spec c SLASH) as [->|]; [|done]. cbn. case_bool; [done|].
    intros H. exists t. split; [done|]. destruct t; [by injection H as <-|]. by apply resolve_dwalk. }
  intros (t & -> & H)%Hdw (t' & -> & H')%Hdw. f_equal.
  assert (Hns : forall t : list Z, Forall (fun seg => SLASH ∉ seg) (match t with [] => [] | _ => segments t end)).
  { intros [|? ?]; [constructor|apply segments_no_slash]. }
  pose proof (dwalk_inj fs Hwf _ _ i (Hns t) (Hns t') H H') as Heq.
  destruct t as [|c t], t' as [|c' t']; [done| | |by apply segments_inj].
  - symmetry in Heq. by apply segments_nonempty in Heq.
  - by apply segments_nonempty in Heq.
Qed.

(** * Lemmas: the public operations *)

Lemma lookup_refines fs path s o :
  ramfs_wf fs -> is_cstr path s ->
  mcs_ramfs_lookup (Ref fs) (Ref path) (Ref o) =
    Some (match lookup_spec fs s with inl i => (MCS_OK, Ref (Ref i)) | inr rc => (rc, Ref o) end).
Proof.
  intros Hwf [H0 [rest ->]]. pose proof (fs_count _ Hwf). unfold mcs_ramfs_lookup, lookup_spec.
  destruct s as [|c s]; [done|]. rewrite strlen_spec by done. cbn [head app mbind option_bind tail].
  destruct (c =? SLASH); cbn [negb]; [|done]. destruct (MCS_MAX_PATH <=? _); [done|].
  apply not_elem_of_cons in H0 as [_ H0]. destruct s as [|c' s]; [done|]. cbn [head app mbind option_bind].
  apply not_elem_of_cons in H0 as [Hc' H0]. rw_false (c' =? 0).
  change (c' :: s ++ 0 :: rest) with ((c' :: s) ++ 0 :: rest).
  rewrite lookup_loop_spec; [done|done|by apply not_elem_of_cons| |lia].
  cbn. rewrite length_app. lia.
Qed.

Lemma split_refines fs path s :
  ramfs_wf fs -> is_cstr path s ->
  exists rest, mcs_split_parent_leaf fs path =
    Some (match parent_spec fs s with
          | inl (p, leaf) => inl (p, leaf ++ 0 :: rest, Z.of_nat (length leaf))
          | inr rc => inr rc
          end).
Proof.
  intros Hwf [H0 [rest ->]]. pose proof (fs_count _ Hwf). exists rest. unfold mcs_split_parent_leaf, parent_spec.
  destruct s as [|c s]; [done|]. rewrite strlen_spec by done. cbn [head app mbind option_bind tail].
  destruct (c =? SLASH); cbn [negb]; [|done].
  apply not_elem_of_cons in H0 as [_ H0]. destruct s as [|c' s]; [done|]. cbn [head app mbind option_bind].
  pose proof H0 as [Hc' _]%not_elem_of_cons. rw_false (c' =? 0). destruct (MCS_MAX_PATH <=? _); [done|].
  change (c' :: s ++ 0 :: rest) with ((c' :: s) ++ 0 :: rest).
  apply split_loop_spec; [done|done| |lia]. cbn. rewrite length_app. lia.
Qed.

(** The directory of a new name is live, and the name free, when the path names nothing. *)
Lemma resolve_parent_ok fs segs : ramfs_wf fs -> forall cur p nm,
  0 <= cur < node_count fs -> is_dir fs cur = true -> resolve_parent fs cur segs = inl (p, nm) ->
  0 <= p < node_count fs /\ is_dir fs p = true /\ segment_ok nm = true /\ nm ∈ segs /\
  (forall i, child_of fs p nm = Some i -> resolve fs cur segs = inl i).
Proof.
  intros Hwf. induction segs as [|seg r IH]; intros cur p nm Hcur Hd; cbn [resolve_parent resolve]; [done|].
  destruct (segment_ok seg) eqn:Hok; [|done]. destruct r as [|g r].
  - intros [= -> ->]. split_and!; [lia..|done|done|set_solver|]. by intros i ->.
  - destruct (child_of fs cur seg) as [j|] eqn:Hj; [|done]. destruct (is_dir fs j) eqn:Hdj; [|done].
    intros H. destruct (IH j p nm) as (? & ? & ? & ? & ?); [by eapply child_of_live|done|done|].
    split_and!; [lia|lia|done|done|set_solver|done].
Qed.

Lemma segments_no_zero s seg : 0 ∉ s -> seg ∈ segments s -> 0 ∉ seg.
Proof.
  intros H0. assert (Forall (fun seg => 0 ∉ seg) (segments s)) as Hall; [|by apply (proj1 (Forall_forall _ _) Hall)].
  induction s as [|c s IH]; cbn; [forall_cons; set_solver|]. specialize (IH ltac:(set_solver)).
  destruct (Z.eqb_spec c SLASH); [constructor; [set_solver|done]|].
  destruct (segments s) as [|g r]; [forall_cons; set_solver|].
  apply Forall_cons in IH as [? ?]. constructor; [set_solver|done].
Qed.

(** * Lemmas: file data *)

(** [d] with the bytes from [a] on replaced by [bs]. *)
Definition splice (d : list Z) (a : nat) (bs : list Z) : list Z :=
  take a d ++ bs ++ drop (a + length bs) d.

Lemma splice_lookup d a bs k :
  (a + length bs <= length d)%nat ->
  splice d a bs !! k = if decide (a <= k < a + length bs)%nat then bs !! (k - a)%nat else d !! k.
Proof.
  intros Hl. unfold splice. case_decide.
  - rewrite lookup_app_r by (rewrite length_take; lia). rewrite length_take, Nat.min_l by lia.
    apply lookup_app_l. lia.
  - destruct (decide (k < a)%nat).
    + rewrite lookup_app_l by (rewrite length_take; lia). by apply lookup_take_lt.
    + rewrite lookup_app_r by (rewrite length_take; lia). rewrite length_take, Nat.min_l by lia.
      rewrite lookup_app_r by lia. rewrite lookup_drop. f_equal. lia.
Qed.

Lemma splice_length d a bs : (a + length bs <= length d)%nat -> length (splice d a bs) = length d.
Proof. intros. unfold splice. rewrite !length_app, length_take, length_drop. lia. Qed.

(** A range that the replaced bytes miss is unchanged. *)
Lemma splice_range_other d a bs b n :
  (a + length bs <= length d)%nat -> (b + n <= a \/ a + length bs <= b)%nat ->
  take n (drop b (splice d a bs)) = take n (drop b d).
Proof.
  intros Hl Hd. apply list_eq. intros k. rewrite !lookup_take, !lookup_drop. case_decide; [|done].
  rewrite splice_lookup by done. by rewrite decide_False by lia.
Qed.

(** Inside the range, the replacement is relative to its start. *)
Lemma splice_range_same d a bs b n n' :
  (b <= a)%nat -> (a + length bs <= b + n')%nat -> (a <= b + n)%nat -> (b + n' <= length d)%nat -> n' = max n (a + length bs - b)%nat ->
  take n' (drop b (splice d a bs)) = splice (take n' (drop b d)) (a - b) bs.
Proof.
  intros H1 H2 H3 H4 H5. apply list_eq. intros k. rewrite lookup_take, lookup_drop.
  rewrite !splice_lookup by (rewrite ?length_take, ?length_drop; lia).
  rewrite lookup_take, lookup_drop. repeat case_decide; try lia; try done.
  f_equal. lia.
Qed.

(** File [i] with [bs] stored from offset [o] on and its size set to [sz]. *)
Definition store_file (fs : mcs_ramfs) (i : Z) (nd : mcs_vnode) (o : Z) (bs : list Z) (sz : Z) : mcs_ramfs :=
  mk_ramfs (<[Z.to_nat i := set_size nd sz]> (nodes fs)) (node_count fs)
    (splice (data fs) (Z.to_nat (data_offset nd + o)) bs) (data_used fs).

Section store.
Context (fs : mcs_ramfs) (i : Z) (nd : mcs_vnode) (o : Z) (bs : list Z) (sz : Z).
Hypothesis Hwf : ramfs_wf fs.
Hypothesis Hnd : node_at fs i nd.
Hypothesis Hfile : type nd = MCS_VNODE_FILE.
Hypothesis Ho : 0 <= o.
Hypothesis Hcap : o + Z.of_nat (length bs) <= data_capacity nd.
Hypothesis Hsz : 0 <= sz <= data_capacity nd.

Let fs' := store_file fs i nd o bs sz.

Lemma store_fits : (Z.to_nat (data_offset nd + o) + length bs <= length (data fs))%nat.
Proof.
  pose proof (nd_region _ _ _ (fs_node _ Hwf i nd Hnd)). pose proof (fs_used _ Hwf). pose proof (fs_data _ Hwf).
  lia.
Qed.

Lemma store_index : (Z.to_nat i < length (nodes fs))%nat.
Proof. destruct Hnd as [_ H]. by apply lookup_lt_Some in H. Qed.

(** Nodes keep everything but the size. *)
Lemma store_node_at j x :
  node_at fs' j x <-> if decide (j = i) then x = set_size nd sz else node_at fs j x.
Proof.
  clear Ho Hcap Hsz. pose proof store_index. destruct Hnd as [Hi _]. unfold node_at, fs'. cbn. case_decide as Hd; [subst j|].
  - rewrite list_lookup_insert_eq by done. naive_solver.
  - split; intros [Hj Hx]; (split; [done|]); [rewrite list_lookup_insert_ne in Hx by lia|rewrite list_lookup_insert_ne by lia]; done.
Qed.

Lemma store_old j x : node_at fs' j x -> exists y, node_at fs j y /\ parent x = parent y /\ name x = name y /\
  type x = type y /\ used x = used y /\ id x = id y /\ data_offset x = data_offset y /\
  data_capacity x = data_capacity y /\ (x = y \/ j = i /\ size x = sz).
Proof.
  intros Hx%store_node_at. case_decide as Hd; [subst|eauto 20]. exists nd. split_and!; auto.
Qed.

Lemma store_is_dir j : is_dir fs' j = is_dir fs j.
Proof.
  unfold is_dir, fs'. cbn. destruct (decide (Z.to_nat j = Z.to_nat i)) as [->|].
  - rewrite list_lookup_insert_eq by apply store_index. destruct Hnd as [_ ->]. done.
  - by rewrite list_lookup_insert_ne by lia.
Qed.

Lemma store_wf : ramfs_wf fs'.
Proof.
  pose proof Hwf as [Hn Hd Hc Hu Hr Hrn Hnodes Hord Hnames]. split; try done.
  - cbn. by rewrite length_insert.
  - cbn. rewrite splice_length; [done|apply store_fits].
  - by rewrite store_is_dir.
  - intros x (y & Hy & _ & Hxn & _)%store_old. rewrite Hxn. by apply Hrn.
  - intros j x (y & Hy & Hpar & Hname & Hty & Hused & Hid & Hoff & Hcp & Hsize)%store_old.
    destruct (Hnodes j y Hy) as [? ? ? ? ? ? Hp]. split; try congruence.
    + rewrite Hcp. destruct Hsize as [->|[-> ->]]; [done|]. by rewrite (node_at_inj _ _ _ _ Hy Hnd).
    + rewrite Hoff, Hcp. done.
    + rewrite Hty, Hcp. done.
    + rewrite Hpar, store_is_dir. done.
  - intros j k x x' (y & Hy & _ & _ & _ & _ & _ & Hoff & Hcp & _)%store_old
      (y' & Hy' & _ & _ & Hty' & _ & _ & Hoff' & _ & _)%store_old Hlt Hf.
    rewrite Hoff, Hcp, Hoff'. eapply Hord; eauto. congruence.
  - intros j k x x' (y & Hy & Hp & Hnm & _)%store_old (y' & Hy' & Hp' & Hnm' & _)%store_old.
    rewrite Hp, Hp', Hnm, Hnm'. by apply Hnames.
Qed.

Lemma store_child q nm : child_of fs' q nm = child_of fs q nm.
Proof.
  apply option_eq. intros k. rewrite !child_of_Some by (done || apply store_wf). split.
  - intros (x & (y & Hy & -> & -> & _)%store_old & H). eauto.
  - intros (x & Hx & H). destruct (decide (k = i)) as [->|Hne].
    + rewrite (node_at_inj _ _ _ _ Hx Hnd) in H. exists (set_size nd sz). rewrite store_node_at, decide_True by done.
      auto.
    + exists x. rewrite store_node_at, decide_False by done. auto.
Qed.

Lemma store_lookup s : lookup_spec fs' s = lookup_spec fs s.
Proof.
  assert (Hres : forall segs cur, resolve fs' cur segs = resolve fs cur segs).
  { induction segs as [|g r IH]; intros cur; cbn; [done|]. rewrite store_child.
    destruct (segment_ok g); [|done]. destruct (child_of fs cur g); [|done]. by rewrite store_is_dir, IH. }
  unfold lookup_spec. destruct s; [done|]. by rewrite Hres.
Qed.

(** The data regions of two files are disjoint. *)
Lemma regions_disjoint j x : node_at fs j x -> j <> i -> type x = MCS_VNODE_FILE ->
  data_offset x + data_capacity x <= data_offset nd \/ data_offset nd + data_capacity nd <= data_offset x.
Proof.
  intros Hx Hj Hty. destruct (Z.lt_total j i) as [Hlt|[Heq|Hlt]]; [|done|].
  - left. by eapply (fs_order _ Hwf j i).
  - right. by eapply (fs_order _ Hwf i j).
Qed.

Lemma store_contents_other j : j <> i -> contents fs' j = contents fs j.
Proof.
  intros Hj. pose proof store_fits as Hfit. unfold contents, fs'. cbn.
  destruct (Z.ltb_spec j 0).
  { destruct (<[_:=_]> _ !! Z.to_nat j), (nodes fs !! Z.to_nat j); cbn; repeat rewrite bool_decide_eq_false_2 by lia; done. }
  pose proof Hnd as [Hi _]. rewrite list_lookup_insert_ne by lia.
  destruct (nodes fs !! Z.to_nat j) as [x|] eqn:Ex; cbn; [|done].
  case_bool_decide as Hd; [|done]. f_equal. destruct Hd as [Hlive Hty].
  assert (Hx : node_at fs j x) by done. destruct (fs_node _ Hwf j x Hx) as [_ _ _ Hs Hr _ _].
  destruct (fs_node _ Hwf i nd Hnd) as [_ _ _ _ Hri _ _].
  apply splice_range_other; [done|]. destruct (regions_disjoint j x Hx Hj Hty); lia.
Qed.

Lemma node_contents : contents fs i = Some (take (Z.to_nat (size nd)) (drop (Z.to_nat (data_offset nd)) (data fs))).
Proof.
  unfold contents. destruct Hnd as [Hi ->]. cbn. by rewrite bool_decide_eq_true_2.
Qed.

(** The stored bytes, without a hole between the old end of the file and them. *)
Lemma store_contents_same :
  o <= size nd -> sz = Z.max (size nd) (o + Z.of_nat (length bs)) ->
  exists c, contents fs i = Some c /\
    contents fs' i = Some (take (Z.to_nat o) c ++ bs ++ drop (Z.to_nat o + length bs) c).
Proof.
  intros Hos Hmax. eexists. split; [apply node_contents|].
  destruct (fs_node _ Hwf i nd Hnd) as [_ _ _ Hs Hr _ _]. pose proof (fs_used _ Hwf). pose proof (fs_data _ Hwf).
  pose proof store_index. unfold contents, fs'. cbn. rewrite list_lookup_insert_eq by done. cbn.
  rewrite bool_decide_eq_true_2 by (split; [apply Hnd|done]). f_equal.
  rewrite (splice_range_same _ _ _ _ (Z.to_nat (size nd))) by lia.
  unfold splice. replace (Z.to_nat (data_offset nd + o) - Z.to_nat (data_offset nd))%nat with (Z.to_nat o) by lia.
  rewrite !take_take. rewrite !Nat.min_l by lia. do 2 f_equal.
  rewrite !skipn_firstn_comm. destruct (decide (size nd <= o + Z.of_nat (length bs))).
    transitivity (@nil Z); [|symmetry]; apply length_zero_iff_nil; rewrite length_take; lia.
  - do 2 f_equal. lia.
Qed.

(** The stored bytes behind the old end of the file: what the region held in between becomes part of it. *)
Lemma store_contents_hole :
  size nd < o -> sz = o + Z.of_nat (length bs) ->
  exists c, contents fs i = Some c /\
    contents fs' i = Some (c ++ take (Z.to_nat (o - size nd)) (drop (Z.to_nat (data_offset nd + size nd)) (data fs)) ++ bs).
Proof.
  intros Hos Hend. eexists. split; [apply node_contents|].
  destruct (fs_node _ Hwf i nd Hnd) as [_ _ _ Hs Hr _ _]. pose proof (fs_used _ Hwf). pose proof (fs_data _ Hwf).
  pose proof store_index. pose proof store_fits. unfold contents, fs'. cbn. rewrite list_lookup_insert_eq by done. cbn.
  rewrite bool_decide_eq_true_2 by (split; [apply Hnd|done]). f_equal.
  unfold splice. rewrite drop_app_le by (rewrite length_take; lia). rewrite skipn_firstn_comm.
  replace (Z.to_nat (data_offset nd + o) - Z.to_nat (data_offset nd))%nat with (Z.to_nat o) by lia.
  assert (Hd : Z.to_nat o = length (take (Z.to_nat o) (drop (Z.to_nat (data_offset nd)) (data fs)))) by (rewrite length_take, length_drop; lia).
  rewrite take_app_ge by (rewrite ?length_drop in *; lia). rewrite <- Hd. replace (Z.to_nat sz - Z.to_nat o)%nat with (length bs) by lia. rewrite take_app_length, app_assoc. f_equal.
  replace (Z.to_nat o) with (Z.to_nat (size nd) + Z.to_nat (o - size nd))%nat by lia. rewrite <- take_take_drop. do 2 f_equal. rewrite drop_drop. f_equal. lia.
Qed.

(** Replacing the whole file. *)
Lemma store_contents_whole :
  o = 0 -> sz = Z.of_nat (length bs) -> contents fs' i = Some bs.
Proof.
  intros Ho0 Hs0. pose proof store_index. pose proof store_fits as Hfit.
  destruct (fs_node _ Hwf i nd Hnd) as [_ _ _ _ Hr _ _].
  unfold contents, fs'. cbn. rewrite list_lookup_insert_eq by done. cbn.
  rewrite bool_decide_eq_true_2 by (split; [apply Hnd|done]). f_equal.
  unfold splice. rewrite drop_app_length' by (rewrite length_take; lia). rewrite Hs0, Nat2Z.id. apply take_app_length.
Qed.
End store.

(** * Lemmas: creation and initialisation *)

(** The outcome of creating a path: status, node, file system. *)
Definition create_result (fs : mcs_ramfs) (s : list Z) : Z * option Z * mcs_ramfs :=
  match lookup_spec fs s with
  | inl i => if is_dir fs i then (MCS_EISDIR, None, fs) else (MCS_OK, Some i, fs)
  | inr _ =>
      match parent_spec fs s with
      | inr rc => (rc, None, fs)
      | inl (p, nm) =>
          if fs_full fs then (MCS_ENOSPC, None, fs)
          else (MCS_OK, Some (node_count fs), add_file fs p nm)
      end
  end.

Lemma lookup_spec_live fs s i : ramfs_wf fs -> lookup_spec fs s = inl i -> 0 <= i < node_count fs.
Proof.
  intros Hwf. pose proof (fs_count _ Hwf). unfold lookup_spec. destruct s as [|c s]; [done|].
  destruct (negb _); [done|]. destruct (_ <=? _); [done|]. destruct s as [|c' s]; [intros [= <-]; lia|].
  intros Hw%resolve_dwalk. destruct (segments (c' :: s)) as [|g r _] using rev_ind; [injection Hw as <-; lia|].
  rewrite dwalk_snoc in Hw. destruct (dwalk fs 0 r); [|done]. cbn in Hw. by eapply child_of_live.
Qed.

Lemma resolve_err fs segs : forall cur rc, resolve fs cur segs = inr rc -> rc < 0.
Proof.
  induction segs as [|g r IH]; intros cur rc; cbn [resolve]; [by intros [= <-]|].
  destruct (segment_ok g); [|by intros [= <-]]. destruct (child_of fs cur g); [|by intros [= <-]].
  destruct r; [done|]. destruct (is_dir _ _); [apply IH|by intros [= <-]].
Qed.

Lemma lookup_spec_err fs s rc : lookup_spec fs s = inr rc -> rc < 0.
Proof.
  unfold lookup_spec. destruct s as [|c s]; [by intros [= <-]|]. destruct (negb _); [by intros [= <-]|].
  destruct (_ <=? _); [by intros [= <-]|]. destruct s; [done|]. apply resolve_err.
Qed.

Lemma resolve_parent_err fs segs : forall cur rc, resolve_parent fs cur segs = inr rc -> rc < 0.
Proof.
  induction segs as [|g r IH]; intros cur rc; cbn [resolve_parent]; [by intros [= <-]|].
  destruct (segment_ok g); [|by intros [= <-]]. destruct r; [done|].
  destruct (child_of fs cur g); [|by intros [= <-]]. destruct (is_dir _ _); [apply IH|by intros [= <-]].
Qed.

Lemma parent_spec_err fs s rc : parent_spec fs s = inr rc -> rc < 0.
Proof.
  unfold parent_spec. destruct s as [|c s]; [by intros [= <-]|]. destruct (negb _); [by intros [= <-]|].
  destruct s; [by intros [= <-]|]. destruct (_ <=? _); [by intros [= <-]|]. apply resolve_parent_err.
Qed.

Lemma parent_spec_nospace fs s : parent_spec fs s <> inr MCS_ENOSPC.
Proof.
  assert (Hr : forall segs cur, resolve_parent fs cur segs <> inr MCS_ENOSPC).
  { induction segs as [|g r IH]; intros cur; cbn [resolve_parent]; [done|].
    destruct (segment_ok g); [|done]. destruct r; [done|].
    destruct (child_of fs cur g); [|done]. destruct (is_dir _ _); [apply IH|done]. }
  unfold parent_spec. destruct s as [|c s]; [done|]. destruct (negb _); [done|].
  destruct s; [done|]. destruct (_ <=? _); [done|apply Hr].
Qed.

(** What is needed to add the file a path names. *)
Lemma parent_spec_ok fs s p nm :
  ramfs_wf fs -> 0 ∉ s -> parent_spec fs s = inl (p, nm) ->
  exists s', s = SLASH :: s' /\ s' <> [] /\ resolve_parent fs 0 (segments s') = inl (p, nm) /\
  0 <= p < node_count fs /\ is_dir fs p = true /\ segment_ok nm = true /\ (0 ∉ nm) /\
  Z.of_nat (length s) < MCS_MAX_PATH /\
  (forall i, child_of fs p nm = Some i -> lookup_spec fs s = inl i).
Proof.
  intros Hwf H0. pose proof (fs_count _ Hwf). unfold parent_spec, lookup_spec. destruct s as [|c s]; [done|].
  destruct (Z.eqb_spec c SLASH) as [->|]; [|done]. cbn [negb]. destruct s as [|c' s]; [done|].
  destruct (MCS_MAX_PATH <=? _) eqn:El; [done|]. bool_to_prop. intros Hr. exists (c' :: s).
  destruct (resolve_parent_ok fs _ Hwf 0 p nm ltac:(lia) (fs_root _ Hwf) Hr) as (? & ? & ? & Hin & ?).
  split_and!; try done; try lia. apply (segments_no_zero (c' :: s)); [set_solver|done].
Qed.

Lemma create_refines fs path s o :
  ramfs_wf fs -> is_cstr path s ->
  mcs_ramfs_create_file (Ref fs) (Ref path) (Ref o) =
    (let '(rc, node, fs') := create_result fs s in
     Some (rc, match node with Some i => Ref (Ref i) | None => Ref o end, Ref fs')).
Proof.
  intros Hwf Hp. pose proof Hp as [H0 _]. unfold mcs_ramfs_create_file, create_result.
  rewrite (lookup_refines _ _ s) by done. cbn [mbind option_bind].
  destruct (lookup_spec fs s) as [i|rc] eqn:El.
  - change (MCS_OK =? MCS_OK) with true. cbn iota.
    destruct (node_at_exists fs i Hwf) as [nd Hnd]; [by eapply lookup_spec_live|].
    rewrite (node_at_get _ _ _ Hnd), (is_dir_at _ _ _ Hnd). cbn [mbind option_bind].
    by destruct (type nd).
  - apply lookup_spec_err in El as Hneg. unfold MCS_OK at 1. rw_false (rc =? 0).
    destruct (split_refines fs path s Hwf Hp) as [rest ->]. cbn [mbind option_bind].
    destruct (parent_spec fs s) as [[p nm]|e] eqn:Ep; [|done].
    destruct (parent_spec_ok fs s p nm Hwf H0 Ep) as (s' & _ & _ & _ & Hlive & Hd & Hok & _ & _).
    destruct (node_at_exists fs p Hwf Hlive) as [nd Hnd].
    rewrite (node_at_get _ _ _ Hnd). rewrite (is_dir_at _ _ _ Hnd) in Hd. apply bool_decide_eq_true in Hd.
    cbn [mbind option_bind]. rewrite decide_True by done.
    rewrite (nd_id _ _ _ (fs_node _ Hwf _ _ Hnd)), alloc_file_spec by done.
    cbn [mbind option_bind]. by destruct (fs_full fs).
Qed.

(** Creation keeps the file system well formed; a created path names its node, and every
    other path and file is as before. *)
Lemma create_ok fs s rc node fs' :
  ramfs_wf fs -> 0 ∉ s -> create_result fs s = (rc, node, fs') ->
  ramfs_wf fs' /\
  (forall i c, contents fs i = Some c -> contents fs' i = Some c) /\
  (forall s' i, lookup_spec fs s' = inl i -> lookup_spec fs' s' = inl i) /\
  match node with
  | None => fs' = fs /\ rc <> MCS_OK
  | Some i => rc = MCS_OK /\ (forall s', lookup_spec fs' s' = inl i <-> s' = s) /\
      is_dir fs' i = false /\ 0 <= i < node_count fs' /\
      (fs' = fs \/ contents fs i = None /\ contents fs' i = Some [] /\
        forall s' j, lookup_spec fs' s' = inl j -> j = i \/ lookup_spec fs s' = inl j)
  end.
Proof.
  intros Hwf H0. pose proof (fs_count _ Hwf). unfold create_result. destruct (lookup_spec fs s) as [i|e] eqn:El.
  - destruct (is_dir fs i) eqn:Ed; intros [= <- <- <-]; split_and!; auto; try done.
    + intros s'. split; [|by intros ->]. intros. by eapply lookup_spec_inj.
    + by eapply lookup_spec_live.
    + by eapply lookup_spec_live.
  - destruct (parent_spec fs s) as [[p nm]|e'] eqn:Ep.
    + destruct (parent_spec_ok fs s p nm Hwf H0 Ep) as (t & -> & Ht & Hres & Hlive & Hd & Hok & Hnz & Hlen & Hch).
      assert (Hfree : child_of fs p nm = None).
      { destruct (child_of fs p nm) eqn:E; [|done]. specialize (Hch _ eq_refl). congruence. }
      destruct (fs_full fs) eqn:Ef; intros [= <- <- <-]; [split_and!; auto; done|].
      pose proof (add_wf fs p nm Hwf Hok Hnz Ef Hlive Hd Hfree) as Hwf'.
      assert (Hkeep : forall s' i, lookup_spec fs s' = inl i -> lookup_spec (add_file fs p nm) s' = inl i).
      { intros [|c s'] i; [done|]. cbn. destruct (negb _); [done|]. destruct (_ <=? _); [done|]. destruct s'; [done|].
        apply add_resolve_keeps; auto. lia. }
      assert (Hnew : lookup_spec (add_file fs p nm) (SLASH :: t) = inl (node_count fs)).
      { unfold lookup_spec. rw_false (MCS_MAX_PATH <=? Z.of_nat (length (SLASH :: t))).
        destruct t; [done|]. cbn [negb Z.eqb SLASH Pos.eqb]. apply add_resolve_new; auto. lia. }
      split_and!; [done| |done|done| | | | |].
      * intros i c Hc. destruct (decide (i = node_count fs)) as [->|]; [|by rewrite add_contents_old].
        exfalso. unfold contents in Hc. destruct (nodes fs !! _); [|done]. cbn in Hc.
        rewrite bool_decide_eq_false_2 in Hc by lia. done.
      * intros s'. split; [|by intros ->]. intros. by eapply lookup_spec_inj.
      * by apply add_not_dir.
      * lia.
      * cbn. lia.
      * right. split_and!.
        -- unfold contents. destruct (nodes fs !! _); [|done]. cbn. by rewrite bool_decide_eq_false_2 by lia.
        -- by apply add_contents_new.
        -- intros [|c s'] j; [done|]. cbn. destruct (negb _); [done|]. destruct (_ <=? _); [done|].
           destruct s'; [auto|]. apply add_resolve_only; auto. lia.
    + intros [= <- <- <-]. apply parent_spec_err in Ep. split_and!; auto.
      unfold MCS_OK. lia.
Qed.

Lemma create_keeps_nodes fs s rc node fs' i nd :
  ramfs_wf fs -> 0 ∉ s -> create_result fs s = (rc, node, fs') -> node_at fs i nd -> node_at fs' i nd.
Proof.
  intros Hwf H0 E Hnd. unfold create_result in E.
  destruct (lookup_spec fs s) as [j|]; [destruct (is_dir fs j); by injection E as _ _ <-|].
  destruct (parent_spec fs s) as [[p nm]|e] eqn:Ep; [|by injection E as _ _ <-].
  destruct (fs_full fs) eqn:Ef; injection E as _ _ <-; [done|].
  apply add_node_at; [done..|by left].
Qed.

Lemma create_result_err fs s rc fs' : create_result fs s = (rc, None, fs') -> rc < 0.
Proof.
  unfold create_result. destruct (lookup_spec fs s) as [i|]; [destruct (is_dir fs i); by intros [= <- <-]|].
  destruct (parent_spec fs s) as [[p nm]|e] eqn:Ep; [destruct (fs_full fs); by intros [= <- <-]|].
  intros [= <- <-]. by apply parent_spec_err in Ep.
Qed.

(** Setting the size alone. *)
Lemma store_nothing fs i nd sz :
  store_file fs i nd 0 [] sz = set_nodes fs (<[Z.to_nat i := set_size nd sz]> (nodes fs)).
Proof.
  unfold store_file, splice, set_nodes. cbn. by rewrite Nat.add_0_r, take_drop.
Qed.

(** Storing bytes alone. *)
Lemma store_bytes fs i nd o bs :
  node_at fs i nd -> store_file fs i nd o bs (size nd) = set_data fs (splice (data fs) (Z.to_nat (data_offset nd + o)) bs).
Proof.
  intros [_ Hnd]. unfold store_file, set_data. f_equal. apply list_insert_id. rewrite Hnd. by destruct nd.
Qed.

(** A loop that rewrites each cell of an array of length [n]. *)
Lemma map_loop {T} (f : T -> T) (l : list T) (n : Z) :
  length l = Z.to_nat n -> 0 <= n < 2 ^ 64 ->
  for_loop (loop_fuel 0 n 1) 0 n 1 (fun i l => x ← arr_get l i; arr_set l i (f x)) l = Some (f <$> l).
Proof.
  intros Hl Hn.
  destruct (for_loop_count (fun i r => r = (f <$> take (Z.to_nat i) l) ++ drop (Z.to_nat i) l) 0 n
    (fun i l => x ← arr_get l i; arr_set l i (f x)) l) as (r & -> & ->); [lia|lia|done| |].
  - intros i r Hi ->. destruct (lookup_lt_is_Some_2 l (Z.to_nat i)) as [x Hx]; [lia|].
    rewrite (drop_S _ x) by done.
    assert (Hlen : length (f <$> take (Z.to_nat i) l) = Z.to_nat i) by (rewrite length_fmap, length_take; lia).
    assert (arr_get ((f <$> take (Z.to_nat i) l) ++ x :: drop (S (Z.to_nat i)) l) i = Some x) as ->.
    { apply arr_get_Some. split; [lia|]. rewrite lookup_app_r by lia. rewrite Hlen, Nat.sub_diag. done. }
    cbn [mbind option_bind]. eexists. split; [apply arr_set_lt; rewrite length_app, Hlen; cbn; lia|].
    rewrite insert_app_r_alt by lia. rewrite Hlen, Nat.sub_diag. cbn [insert list_insert].
    replace (Z.to_nat (i + 1)) with (S (Z.to_nat i)) by lia. rewrite (take_S_r _ _ x) by done.
    rewrite fmap_app, <- app_assoc. done.
  - f_equal. rewrite take_ge, drop_ge by lia. apply app_nil_r.
Qed.

(** A loop that stores [v] in each cell. *)
Lemma fill_loop {T} (v : T) (l : list T) n :
  length l = Z.to_nat n -> 0 <= n < 2 ^ 64 ->
  for_loop (loop_fuel 0 n 1) 0 n 1 (fun i d => arr_set d i v) l = Some (replicate (Z.to_nat n) v).
Proof.
  intros Hl Hn.
  destruct (for_loop_count (fun i r => r = replicate (Z.to_nat i) v ++ drop (Z.to_nat i) l) 0 n
    (fun i d => arr_set d i v) l) as (r & -> & ->); [lia|lia|done| |].
  - intros i r Hi ->. destruct (lookup_lt_is_Some_2 l (Z.to_nat i)) as [x Hx]; [lia|].
    rewrite (drop_S _ x) by done. eexists. split; [apply arr_set_lt; rewrite length_app, length_replicate; cbn; lia|].
    rewrite insert_app_r_alt by (rewrite length_replicate; lia). rewrite length_replicate, Nat.sub_diag.
    cbn [insert list_insert]. replace (Z.to_nat (i + 1)) with (S (Z.to_nat i)) by lia.
    rewrite replicate_S_end, <- app_assoc. done.
  - f_equal. rewrite drop_ge by lia. apply app_nil_r.
Qed.

(** Initialisation leaves the empty file system with its root directory. *)
Lemma init_spec fs :
  ramfs_storage fs ->
  exists nm rest, length nm = 30%nat /\ length rest = 63%nat /\
  mcs_ramfs_init (Ref fs) = Some (Ref (mk_ramfs
    (mk_vnode 1 0 0 MCS_VNODE_DIR (SLASH :: 0 :: nm) 0 0 0 :: rest) 1 (replicate (Z.to_nat MCS_RAMFS_DATA_BYTES) 0) 0)).
Proof.
  intros (Hn & Hd & Hnames). unfold mcs_ramfs_init.
  rewrite (fill_loop 0 (data fs)) by (exact Hd || (unfold MCS_RAMFS_DATA_BYTES; lia)). clear Hd.
  generalize (replicate (Z.to_nat MCS_RAMFS_DATA_BYTES) 0). intros d.
  rewrite (map_loop init_node (nodes fs)) by (exact Hn || (unfold MCS_MAX_NODES; lia)).
  cbn [mbind option_bind].
  destruct (nodes fs) as [|n0 ns]; [done|]. apply Forall_cons in Hnames as [H0 _].
  destruct (name n0) as [|a [|b nm]] eqn:En; [done..|].
  exists nm, (init_node <$> ns). split; [by injection H0|]. split; [rewrite length_fmap; by injection Hn|].
  change (init_node <$> n0 :: ns) with (init_node n0 :: (init_node <$> ns)).
  assert (init_node n0 = mk_vnode 0 0 0 MCS_VNODE_FILE (0 :: b :: nm) 0 0 0) as ->
    by (unfold init_node; by rewrite En).
  match goal with |- context [arr_get (?x :: ?l) 0] => change (arr_get (x :: l) 0) with (Some x) end.
  cbn [mbind option_bind name]. rewrite arr_set_lt by (rewrite ?length_insert; cbn [length]; lia). cbn [mbind option_bind].
  rewrite arr_set_lt by (rewrite ?length_insert; cbn [length]; lia). cbn [mbind option_bind].
  rewrite arr_set_lt by (rewrite ?length_insert; cbn [length]; lia). done.
Qed.

Lemma init_wf nm rest :
  length nm = 30%nat -> length rest = 63%nat ->
  ramfs_wf (mk_ramfs (mk_vnode 1 0 0 MCS_VNODE_DIR (SLASH :: 0 :: nm) 0 0 0 :: rest) 1
    (replicate (Z.to_nat MCS_RAMFS_DATA_BYTES) 0) 0).
Proof.
  intros Hnm Hrest. set (fs := mk_ramfs _ _ _ _).
  assert (Hat : forall i nd, node_at fs i nd -> i = 0 /\ nd = mk_vnode 1 0 0 MCS_VNODE_DIR (SLASH :: 0 :: nm) 0 0 0).
  { intros i nd [Hi Hnd]. cbn in Hi. assert (i = 0) as -> by lia. by injection Hnd as <-. }
  split.
  - cbn. by rewrite Hrest.
  - apply length_replicate.
  - cbn. unfold MCS_MAX_NODES. lia.
  - cbn. unfold MCS_RAMFS_DATA_BYTES. lia.
  - done.
  - by intros nd [_ ->]%Hat.
  - intros i nd [-> ->]%Hat. split; cbn; try done; try lia. by rewrite Hnm.
  - intros i j nd nd' [-> _]%Hat [-> _]%Hat. lia.
  - by intros i j nd nd' [-> _]%Hat [-> _]%Hat.
Qed.

(** Seeding a file, and when it succeeds. *)
Lemma seed_spec fs path s src len :
  ramfs_wf fs -> is_cstr path s -> 0 <= len <= Z.of_nat (length src) ->
  exists rc fs', mcs_ramfs_seed_file (Ref fs) (Ref path) (Ref src) len = Some (rc, Ref fs') /\
    ramfs_wf fs' /\
    (rc = MCS_OK -> exists i, lookup_spec fs' s = inl i /\ contents fs' i = Some (take (Z.to_nat len) src) /\
       forall j c, j <> i -> contents fs j = Some c -> contents fs' j = Some c) /\
    (forall i fs1 nd, create_result fs s = (MCS_OK, Some i, fs1) -> node_at fs1 i nd -> len <= data_capacity nd -> rc = MCS_OK).
Proof.
  intros Hwf Hs Hlen. unfold mcs_ramfs_seed_file. cbn [is_null orb andb].
  rewrite (create_refines fs path s) by done. destruct (create_result fs s) as [[rc node] fs1] eqn:E.
  destruct Hs as [H0 _]. destruct (create_ok fs s rc node fs1 Hwf H0 E) as (Hwf1 & Hc & Hl & Hn).
  cbn [mbind option_bind]. destruct node as [i|].
  2:{ destruct Hn as [-> Hrc]. rw_false (rc =? MCS_OK). cbn [negb]. exists rc, fs. split_and!; [done..|]. intros i fs1 nd [=]. }
  destruct Hn as (-> & Hpath & Hfile & Hlive & _). cbn [negb Z.eqb MCS_OK].
  destruct (node_at_exists fs1 i Hwf1 Hlive) as [nd Hnd]. rewrite (node_at_get _ _ _ Hnd). cbn [mbind option_bind].
  rewrite (is_dir_at _ _ _ Hnd) in Hfile. apply bool_decide_eq_false in Hfile.
  assert (Hty : type nd = MCS_VNODE_FILE) by by destruct (type nd).
  case_bool; [exists MCS_ENOSPC, fs1; split_and!; [done..|]; intros ? ? nd' [= <- <-] [_ Hnd']; destruct Hnd as [_ Hnd]; rewrite Hnd in Hnd'; injection Hnd' as <-; lia|]. pose proof (fs_node _ Hwf1 i nd Hnd) as [_ _ _ _ Hr _ _].
  pose proof (fs_used _ Hwf1). pose proof (fs_data _ Hwf1).
  rewrite copy_bytes_spec by (unfold MCS_RAMFS_DATA_BYTES in *; lia). cbn [mbind option_bind].
  rewrite arr_set_lt by (pose proof (store_index fs1 i nd Hnd); lia). cbn [mbind option_bind].
  assert (Hb : length (take (Z.to_nat len) src) = Z.to_nat len) by (rewrite length_take; lia).
  assert (Heq : set_data (set_nodes fs1 (<[Z.to_nat i := set_size nd len]> (nodes fs1)))
    (take (Z.to_nat (data_offset nd)) (data fs1) ++ take (Z.to_nat len) src ++
     drop (Z.to_nat (data_offset nd + len)) (data fs1)) = store_file fs1 i nd 0 (take (Z.to_nat len) src) len).
  { unfold store_file, splice, set_data, set_nodes. cbn. rewrite Hb, Z.add_0_r. do 4 f_equal. lia. }
  rewrite Heq. eexists _, _. split; [done|]. split; [apply store_wf; auto; lia|]. split; [|done]. intros _. exists i.
  rewrite store_lookup by (auto; lia). split; [by apply Hpath|]. split.
  - apply store_contents_whole; auto; lia.
  - intros j c Hj Hjc. rewrite store_contents_other by (auto; lia). auto.
Qed.

(** * Concrete file systems *)

(** Uninitialised storage, and the file system that initialisation leaves in zeroed storage. *)
Definition demo_storage : mcs_ramfs :=
  mk_ramfs (replicate 64 (mk_vnode 7 7 7 MCS_VNODE_DIR (replicate 32 65) 9 9 9)) 5
    (replicate (Z.to_nat MCS_RAMFS_DATA_BYTES) 255) 77.

Definition demo_fs : mcs_ramfs :=
  mk_ramfs (mk_vnode 1 0 0 MCS_VNODE_DIR (SLASH :: 0 :: replicate 30 0) 0 0 0 ::
      replicate 63 (mk_vnode 0 0 0 MCS_VNODE_FILE (replicate 32 0) 0 0 0))
    1 (replicate (Z.to_nat MCS_RAMFS_DATA_BYTES) 0) 0.

(** "/a" and "/a/b" *)
Definition path_a : list Z := [SLASH; 97; 0].
Definition path_ab : list Z := [SLASH; 97; SLASH; 98; 0].

Lemma demo_blank_ok : ramfs_storage demo_storage.
Proof. split_and!; [done|apply length_replicate|]. apply Forall_replicate. done. Qed.

Lemma demo_fs_wf : ramfs_wf demo_fs.
Proof. by apply init_wf. Qed.

Lemma is_cstr_intro s : 0 ∉ s -> is_cstr (s ++ [0]) s.
Proof. intros H. split; [done|]. by exists []. Qed.

Lemma path_a_cstr : is_cstr path_a [SLASH; 97].
Proof. apply (is_cstr_intro [SLASH; 97]). set_solver by done. Qed.

(** * Properties *)

(** [mcs_ramfs_init] turns any storage into a well-formed file system with no files:
    the path "/" names the root directory, node 0, and every other path is an error. *)
Theorem mcs_ramfs_init_empty fs :
  ramfs_storage fs ->
  exists fs', mcs_ramfs_init (Ref fs) = Some (Ref fs') /\ ramfs_wf fs' /\
    node_count fs' = 1 /\ (forall i, contents fs' i = None) /\
    forall s i, lookup_spec fs' s = inl i <-> s = [SLASH] /\ i = 0.
Proof.
  intros Hs. destruct (init_spec fs Hs) as (nm & rest & H1 & H2 & ->). eexists. split; [done|].
  pose proof (init_wf nm rest H1 H2) as Hwf. split; [done|]. split; [done|]. set (f := mk_ramfs _ _ _ _) in *.
  assert (Hroot : lookup_spec f [SLASH] = inl 0) by done. split.
  - intros i. unfold contents. destruct (nodes f !! Z.to_nat i) as [nd|] eqn:E; [|done]. cbn [mbind option_bind].
    rewrite bool_decide_eq_false_2; [done|]. intros [Hi Ht]. cbn in Hi. assert (i = 0) as -> by lia.
    by injection E as <-.
  - intros s i. split; [|by intros [-> ->]]. intros Hi. pose proof (lookup_spec_live f s i Hwf Hi) as Hl. cbn in Hl.
    assert (i = 0) as -> by lia. split; [by eapply lookup_spec_inj|done].
Qed.

Lemma mcs_ramfs_init_empty_witness :
  exists fs', mcs_ramfs_init (Ref demo_storage) = Some (Ref fs') /\ ramfs_wf fs' /\
    node_count fs' = 1 /\ (forall i, contents fs' i = None) /\
    forall s i, lookup_spec fs' s = inl i <-> s = [SLASH] /\ i = 0.
Proof. apply (mcs_ramfs_init_empty demo_storage). apply demo_blank_ok. Defined.

(** C11. [mcs_ramfs_lookup] computes path resolution: on a well-formed file system and any
    NUL-terminated path it terminates without reading outside the path or the node
    table, and it returns the node, or the error, that resolving the slash-separated
    segments from the root gives; and two paths that name the same node are
    equal, so that a node has exactly one name. *)
Theorem mcs_ramfs_lookup_exact fs path s o :
  ramfs_wf fs -> is_cstr path s ->
  mcs_ramfs_lookup (Ref fs) (Ref path) (Ref o) =
    Some (match lookup_spec fs s with inl i => (MCS_OK, Ref (Ref i)) | inr rc => (rc, Ref o) end) /\
  forall s' i, lookup_spec fs s = inl i -> lookup_spec fs s' = inl i -> s' = s.
Proof.
  intros Hwf Hs. split; [by apply lookup_refines|]. intros. by eapply lookup_spec_inj.
Qed.

Lemma mcs_ramfs_lookup_exact_witness :
  mcs_ramfs_lookup (Ref demo_fs) (Ref path_a) (Ref NULL) =
    Some (match lookup_spec demo_fs [SLASH; 97] with inl i => (MCS_OK, Ref (Ref i)) | inr rc => (rc, Ref NULL) end) /\
  forall s' i, lookup_spec demo_fs [SLASH; 97] = inl i -> lookup_spec demo_fs s' = inl i -> s' = [SLASH; 97].
Proof. apply mcs_ramfs_lookup_exact; [apply demo_fs_wf|apply path_a_cstr]. Defined.

(** C21. [mcs_ramfs_create_file] either fails and leaves the file system as it was, or
    returns the one file that its path names. That file either existed, and nothing changes, or
    is a new empty file; no path that named a node names another one afterwards,
    no other path appears, and no other file's bytes change. It fails for lack of space only when
    the 64 nodes or the data bytes are exhausted. *)
Theorem mcs_ramfs_create_file_correct fs path s o :
  ramfs_wf fs -> is_cstr path s ->
  exists rc out fs', mcs_ramfs_create_file (Ref fs) (Ref path) (Ref o) = Some (rc, out, Ref fs') /\
    ramfs_wf fs' /\
    (forall i c, contents fs i = Some c -> contents fs' i = Some c) /\
    (forall s' i, lookup_spec fs s' = inl i -> lookup_spec fs' s' = inl i) /\
    (rc = MCS_ENOSPC -> node_count fs = MCS_MAX_NODES \/ MCS_RAMFS_DATA_BYTES < data_used fs + 256) /\
    (rc <> MCS_OK -> out = Ref o /\ fs' = fs) /\
    (rc = MCS_OK -> exists i, out = Ref (Ref i) /\ is_dir fs' i = false /\
       (forall s', lookup_spec fs' s' = inl i <-> s' = s) /\
       (fs' = fs \/ contents fs i = None /\ contents fs' i = Some [] /\
          forall s' j, lookup_spec fs' s' = inl j -> j = i \/ lookup_spec fs s' = inl j)).
Proof.
  intros Hwf Hs. rewrite (create_refines fs path s) by done.
  destruct (create_result fs s) as [[rc node] fs'] eqn:E. destruct Hs as [H0 _].
  destruct (create_ok fs s rc node fs' Hwf H0 E) as (Hwf' & Hc & Hl & Hn). eexists _, _, _. split; [done|].
  split_and!; [done..| | |].
  - intros ->. assert (Hf : fs_full fs = true).
    { unfold create_result in E. destruct (lookup_spec fs s) as [i|]; [by destruct (is_dir fs i)|].
      destruct (parent_spec fs s) as [[p nm]|e] eqn:Ep; [by destruct (fs_full fs)|]. injection E as -> _ _.
      exfalso. by apply (parent_spec_nospace fs s). }
    unfold fs_full in Hf. bool_to_prop. pose proof (fs_count _ Hwf). destruct Hf as [Hf|Hf]; bool_to_prop; lia.
  - intros Hrc. destruct node; [by destruct Hn|]. destruct Hn as [-> _]. done.
  - intros Hrc. destruct node as [i|]; [|by destruct Hn]. exists i. tauto.
Qed.

Lemma mcs_ramfs_create_file_correct_witness :
  exists rc out fs', mcs_ramfs_create_file (Ref demo_fs) (Ref path_a) (Ref NULL) = Some (rc, out, Ref fs') /\
    ramfs_wf fs' /\
    (forall i c, contents demo_fs i = Some c -> contents fs' i = Some c) /\
    (forall s' i, lookup_spec demo_fs s' = inl i -> lookup_spec fs' s' = inl i) /\
    (rc = MCS_ENOSPC -> node_count demo_fs = MCS_MAX_NODES \/ MCS_RAMFS_DATA_BYTES < data_used demo_fs + 256) /\
    (rc <> MCS_OK -> out = Ref NULL /\ fs' = demo_fs) /\
    (rc = MCS_OK -> exists i, out = Ref (Ref i) /\ is_dir fs' i = false /\
       (forall s', lookup_spec fs' s' = inl i <-> s' = [SLASH; 97]) /\
       (fs' = demo_fs \/ contents demo_fs i = None /\ contents fs' i = Some [] /\
          forall s' j, lookup_spec fs' s' = inl j -> j = i \/ lookup_spec demo_fs s' = inl j)).
Proof. apply mcs_ramfs_create_file_correct; [apply demo_fs_wf|apply path_a_cstr]. Defined.

(** The demonstration creates node 1. *)
Example demo_create_runs :
  fst <$> mcs_ramfs_create_file (Ref demo_fs) (Ref path_a) (Ref NULL) = Some (MCS_OK, Ref (Ref 1)) /\
  fst <$> mcs_ramfs_create_file (Ref demo_fs) (Ref path_ab) (Ref NULL) = Some (MCS_ENOENT, Ref NULL).
Proof. split; vm_compute; reflexivity. Qed.

(** A seeded file holds its data: when [mcs_ramfs_seed_file] succeeds, the
    path names a file whose bytes are exactly the given ones, the file system stays well formed and
    every other file keeps its bytes; it returns a status for every path and every length that
    the source buffer covers. *)
Theorem mcs_ramfs_seed_file_roundtrip fs path s src len :
  ramfs_wf fs -> is_cstr path s -> 0 <= len <= Z.of_nat (length src) ->
  exists rc fs', mcs_ramfs_seed_file (Ref fs) (Ref path) (Ref src) len = Some (rc, Ref fs') /\
    ramfs_wf fs' /\
    (rc = MCS_OK -> exists i, lookup_spec fs' s = inl i /\ contents fs' i = Some (take (Z.to_nat len) src) /\
       forall j c, j <> i -> contents fs j = Some c -> contents fs' j = Some c).
Proof.
  intros Hwf Hs Hlen. destruct (seed_spec fs path s src len Hwf Hs Hlen) as (rc & fs' & E & Hwf' & Hok & _). by exists rc, fs'.
Qed.

Lemma mcs_ramfs_seed_file_roundtrip_witness :
  exists rc fs', mcs_ramfs_seed_file (Ref demo_fs) (Ref path_a) (Ref [10; 20; 30]) 3 = Some (rc, Ref fs') /\
    ramfs_wf fs' /\
    (rc = MCS_OK -> exists i, lookup_spec fs' [SLASH; 97] = inl i /\ contents fs' i = Some (take (Z.to_nat 3) [10; 20; 30]) /\
       forall j c, j <> i -> contents demo_fs j = Some c -> contents fs' j = Some c).
Proof.
  apply mcs_ramfs_seed_file_roundtrip; [apply demo_fs_wf|apply path_a_cstr|cbn; lia].
Defined.
