(* ===== verification/Fd.v ===== *)
(** File descriptors: kernel/vfs/fd.c over the file system of Ramfs.

    The file systems in memory are the heap [fss]: an [mcs_ramfs_t *] is a key of it, and
    an [mcs_vnode_t *] a key with the index of the node. A descriptor thus designates its
    node through the heap, and sees what other descriptors do to it. User buffers
    are byte lists. *)

From S2P Require Import Prelude Ramfs.

(** * Constants *)

Definition MCS_MAX_OPEN_FILES : Z := 16.

Definition MCS_O_RDONLY : Z := 0x0001.
Definition MCS_O_WRONLY : Z := 0x0002.
Definition MCS_O_RDWR : Z := 0x0004.
Definition MCS_O_CREAT : Z := 0x0100.
Definition MCS_O_TRUNC : Z := 0x0200.
Definition MCS_O_APPEND : Z := 0x0400.

Definition MCS_SEEK_SET : Z := 0.
Definition MCS_SEEK_CUR : Z := 1.
Definition MCS_SEEK_END : Z := 2.

Definition LONG_MAX : Z := 2 ^ 63 - 1.
Definition LONG_MIN : Z := - 2 ^ 63.

(** * Data *)

Abbreviation fs_heap := (gmap nat mcs_ramfs).

Record mcs_file := mk_file {
  f_used : Z;
  f_flags : Z;
  f_offset : Z;
  f_node : ptr (nat * Z);
  f_fs : ptr nat
}.

Abbreviation mcs_fd_table := (list mcs_file).

Record mcs_process := mk_process { pid : Z; fd_table : mcs_fd_table }.

Definition set_offset (f : mcs_file) (o : Z) : mcs_file :=
  mk_file (f_used f) (f_flags f) o (f_node f) (f_fs f).

Definition closed_file : mcs_file := mk_file 0 0 0 NULL NULL.

(** The vnode that a node pointer designates. *)
Definition get_node (fss : fs_heap) (p : nat * Z) : option mcs_vnode :=
  fs ← fss !! p.1; arr_get (nodes fs) p.2.

(** [node->size = s] *)
Definition put_size (fss : fs_heap) (p : nat * Z) (s : Z) : option fs_heap :=
  fs ← fss !! p.1; nd ← arr_get (nodes fs) p.2; ns ← arr_set (nodes fs) p.2 (set_size nd s);
  Some (<[p.1 := set_nodes fs ns]> fss).

(** * Operations *)

Definition mcs_min_size (a b : Z) : Z := if a <? b then a else b.

(** [(flags & bit) != 0u] *)
Definition flag_set (flags bit : Z) : bool := negb (Z.land flags bit =? 0).

(** [d[i] = src[at + i]] for [i < n]. *)
Definition mcs_copy_to_user (dst : list Z) (src : list Z) (at_ n : Z) : option (list Z) :=
  for_loop (loop_fuel 0 n 1) 0 n 1 (fun i d => c ← arr_get src (at_ + i); arr_set d i c) dst.

(** [dst[at + i] = s[i]] for [i < n]. *)
Definition mcs_copy_from_user (dst : list Z) (at_ : Z) (src : list Z) (n : Z) : option (list Z) :=
  for_loop (loop_fuel 0 n 1) 0 n 1 (fun i d => c ← arr_get src i; arr_set d (at_ + i) c) dst.

Definition mcs_can_read (flags : Z) : bool := flag_set flags MCS_O_RDONLY || flag_set flags MCS_O_RDWR.
Definition mcs_can_write (flags : Z) : bool := flag_set flags MCS_O_WRONLY || flag_set flags MCS_O_RDWR.

Definition mcs_fd_table_init (table : ptr mcs_fd_table) : option (ptr mcs_fd_table) :=
  match table with
  | NULL => Some NULL
  | Ref t =>
      t ← for_loop (loop_fuel 0 MCS_MAX_OPEN_FILES 1) 0 MCS_MAX_OPEN_FILES 1
        (fun i t => arr_set t i closed_file) t;
      Some (Ref t)
  end.

(** The open file at [fd], or the null pointer. *)
Definition mcs_fd_get (table : ptr mcs_fd_table) (fd : Z) : option (ptr mcs_file) :=
  match table with
  | NULL => Some NULL
  | Ref t =>
      if (fd <? 0) || (MCS_MAX_OPEN_FILES <=? fd) then Some NULL
      else f ← arr_get t fd; Some (if f_used f =? 0 then NULL else Ref f)
  end.

(** The loop of [mcs_fd_alloc] over the [n] slots from [i] on. *)
Fixpoint fd_alloc_loop (t : mcs_fd_table) (n : nat) (i : Z) : option (Z * mcs_fd_table) :=
  match n with
  | O => Some (MCS_ENFILE, t)
  | S n =>
      f ← arr_get t i;
      if f_used f =? 0 then
        t' ← arr_set t i (mk_file 1 (f_flags f) (f_offset f) (f_node f) (f_fs f)); Some (i, t')
      else fd_alloc_loop t n (i + 1)
  end.

Definition mcs_fd_alloc (t : mcs_fd_table) : option (Z * mcs_fd_table) :=
  fd_alloc_loop t (Z.to_nat MCS_MAX_OPEN_FILES) 0.

(** The node to open, looked up or created: status, node, file system. *)
Definition open_node (f : mcs_ramfs) (path : list Z) (flags : Z) : option (Z * ptr (ptr Z) * ptr mcs_ramfs) :=
  '(rc, node) ← mcs_ramfs_lookup (Ref f) (Ref path) (Ref NULL);
  if negb (rc =? MCS_OK) then
    if negb (flag_set flags MCS_O_CREAT) then Some (rc, node, Ref f)
    else mcs_ramfs_create_file (Ref f) (Ref path) (Ref NULL)
  else Some (rc, node, Ref f).

Definition default_flags (flags : Z) : Z :=
  if Z.land flags (Z.lor (Z.lor MCS_O_RDONLY MCS_O_WRONLY) MCS_O_RDWR) =? 0
  then Z.lor flags MCS_O_RDONLY else flags.

Definition mcs_vfs_open (table : ptr mcs_fd_table) (fss : fs_heap) (fs : ptr nat) (path : ptr (list Z))
    (flags : Z) : option (Z * ptr mcs_fd_table * fs_heap) :=
  match table, fs, path with
  | Ref t, Ref k, Ref p =>
      let flags := default_flags flags in
      f ← fss !! k;
      '(rc, node, f') ← open_node f p flags;
      match f' with
      | NULL => None
      | Ref f' =>
          let fss := <[k := f']> fss in
          if negb (rc =? MCS_OK) then Some (rc, table, fss)
          else
            match node with
            | Ref (Ref i) =>
                nd ← arr_get (nodes f') i;
                if bool_decide (type nd = MCS_VNODE_DIR) && mcs_can_write flags
                then Some (MCS_EISDIR, table, fss)
                else
                  '(fd, t) ← mcs_fd_alloc t;
                  if fd <? 0 then Some (fd, Ref t, fss)
                  else
                    let offset := if flag_set flags MCS_O_APPEND then size nd else 0 in
                    if flag_set flags MCS_O_TRUNC then
                      if negb (mcs_can_write flags) then
                        t ← arr_set t fd (mk_file 0 flags offset NULL NULL);
                        Some (MCS_EACCES, Ref t, fss)
                      else
                        t ← arr_set t fd (mk_file 1 flags 0 (Ref (k, i)) (Ref k));
                        fss ← put_size fss (k, i) 0;
                        Some (fd, Ref t, fss)
                    else
                      t ← arr_set t fd (mk_file 1 flags offset (Ref (k, i)) (Ref k));
                      Some (fd, Ref t, fss)
            | _ => None
            end
      end
  | _, _, _ => Some (MCS_EINVAL, table, fss)
  end.

(** [file->offset = o] in slot [fd]. *)
Definition put_offset (table : ptr mcs_fd_table) (fd : Z) (file : mcs_file) (o : Z) :
    option (ptr mcs_fd_table) :=
  match table with
  | NULL => None
  | Ref t => t ← arr_set t fd (set_offset file o); Some (Ref t)
  end.

(** Returns the count or error, the table, and the user buffer. *)
Definition mcs_vfs_read (table : ptr mcs_fd_table) (fss : fs_heap) (fd : Z) (buf : ptr (list Z)) (len : Z) :
    option (Z * ptr mcs_fd_table * ptr (list Z)) :=
  if is_null buf && negb (len =? 0) then Some (MCS_EINVAL, table, buf)
  else
    file ← mcs_fd_get table fd;
    match file with
    | NULL => Some (MCS_EBADF, table, buf)
    | Ref file =>
        if negb (mcs_can_read (f_flags file)) then Some (MCS_EACCES, table, buf)
        else
          match f_node file, f_fs file with
          | Ref np, Ref k =>
              nd ← get_node fss np;
              if decide (type nd = MCS_VNODE_DIR) then Some (MCS_EISDIR, table, buf)
              else if size nd <=? f_offset file then Some (0, table, buf)
              else
                let remain := size nd - f_offset file in
                let n := mcs_min_size len remain in
                fs ← fss !! k;
                buf' ← (match buf with
                        | NULL => Some NULL
                        | Ref b =>
                            b ← mcs_copy_to_user b (data fs) (data_offset nd + f_offset file) n;
                            Some (Ref b)
                        end);
                table ← put_offset table fd file (u64 (f_offset file + n));
                Some (n, table, buf')
          | _, _ => Some (MCS_EINVAL, table, buf)
          end
    end.

(** Returns the count or error, the table, and the file systems. *)
Definition mcs_vfs_write (table : ptr mcs_fd_table) (fss : fs_heap) (fd : Z) (buf : ptr (list Z)) (len : Z) :
    option (Z * ptr mcs_fd_table * fs_heap) :=
  if is_null buf && negb (len =? 0) then Some (MCS_EINVAL, table, fss)
  else
    file ← mcs_fd_get table fd;
    match file with
    | NULL => Some (MCS_EBADF, table, fss)
    | Ref file =>
        if negb (mcs_can_write (f_flags file)) then Some (MCS_EACCES, table, fss)
        else
          match f_node file, f_fs file with
          | Ref np, Ref k =>
              nd ← get_node fss np;
              if decide (type nd = MCS_VNODE_DIR) then Some (MCS_EISDIR, table, fss)
              else
                let offset := if flag_set (f_flags file) MCS_O_APPEND then size nd else f_offset file in
                table ← put_offset table fd file offset;
                if data_capacity nd <? offset then Some (MCS_EINVAL, table, fss)
                else
                  let n := mcs_min_size len (data_capacity nd - offset) in
                  if n <? len then Some (MCS_ENOSPC, table, fss)
                  else
                    fs ← fss !! k;
                    d ← mcs_copy_from_user (data fs) (data_offset nd + offset)
                      (match buf with Ref b => b | NULL => [] end) n;
                    let fss := <[k := set_data fs d]> fss in
                    let offset := u64 (offset + n) in
                    table ← put_offset table fd file offset;
                    if size nd <? offset then
                      fss ← put_size fss np offset; Some (n, table, fss)
                    else Some (n, table, fss)
          | _, _ => Some (MCS_EINVAL, table, fss)
          end
    end.

(** Signed overflow of [base + offset] is undefined. *)
Definition mcs_vfs_lseek (table : ptr mcs_fd_table) (fss : fs_heap) (fd offset whence : Z) :
    option (Z * ptr mcs_fd_table) :=
  file ← mcs_fd_get table fd;
  match file with
  | NULL => Some (MCS_EBADF, table)
  | Ref file =>
      match f_node file with
      | NULL => Some (MCS_EISDIR, table)
      | Ref np =>
          nd ← get_node fss np;
          if decide (type nd = MCS_VNODE_DIR) then Some (MCS_EISDIR, table)
          else
            match (if whence =? MCS_SEEK_SET then Some 0
                   else if whence =? MCS_SEEK_CUR then Some (i64 (f_offset file))
                   else if whence =? MCS_SEEK_END then Some (i64 (size nd)) else None) with
            | None => Some (MCS_EINVAL, table)
            | Some base =>
                let next := base + offset in
                if (next <? LONG_MIN) || (LONG_MAX <? next) then None
                else if next <? 0 then Some (MCS_EINVAL, table)
                else
                  table ← put_offset table fd file (u64 next);
                  Some (i32 (u64 next), table)
            end
      end
  end.

Definition mcs_vfs_close (table : ptr mcs_fd_table) (fd : Z) : option (Z * ptr mcs_fd_table) :=
  file ← mcs_fd_get table fd;
  match file, table with
  | Ref _, Ref t => t ← arr_set t fd closed_file; Some (MCS_OK, Ref t)
  | _, _ => Some (MCS_EBADF, table)
  end.

Definition mcs_vfs_dup (table : ptr mcs_fd_table) (fd : Z) : option (Z * ptr mcs_fd_table) :=
  file ← mcs_fd_get table fd;
  match file, table with
  | Ref file, Ref t =>
      '(newfd, t) ← mcs_fd_alloc t;
      if newfd <? 0 then Some (newfd, Ref t)
      else
        t ← arr_set t newfd (mk_file 1 (f_flags file) (f_offset file) (f_node file) (f_fs file));
        Some (newfd, Ref t)
  | _, _ => Some (MCS_EBADF, table)
  end.

(** * System-call entry points *)

Definition with_table (proc : mcs_process) (t : ptr mcs_fd_table) : ptr mcs_process :=
  match t with Ref t => Ref (mk_process (pid proc) t) | NULL => Ref proc end.

Definition mcs_sys_open (proc : ptr mcs_process) (fss : fs_heap) (fs : ptr nat) (user_path : ptr (list Z))
    (flags : Z) : option (Z * ptr mcs_process * fs_heap) :=
  match proc with
  | Ref pr =>
      if is_null fs || is_null user_path then Some (MCS_EINVAL, proc, fss)
      else '(rc, t, fss) ← mcs_vfs_open (Ref (fd_table pr)) fss fs user_path flags; Some (rc, with_table pr t, fss)
  | NULL => Some (MCS_EINVAL, proc, fss)
  end.

Definition mcs_sys_read (proc : ptr mcs_process) (fss : fs_heap) (fd : Z) (user_buf : ptr (list Z)) (len : Z) :
    option (Z * ptr mcs_process * ptr (list Z)) :=
  match proc with
  | Ref pr =>
      if is_null user_buf && negb (len =? 0) then Some (MCS_EINVAL, proc, user_buf)
      else '(rc, t, b) ← mcs_vfs_read (Ref (fd_table pr)) fss fd user_buf len; Some (rc, with_table pr t, b)
  | NULL => Some (MCS_EINVAL, proc, user_buf)
  end.

Definition mcs_sys_write (proc : ptr mcs_process) (fss : fs_heap) (fd : Z) (user_buf : ptr (list Z)) (len : Z) :
    option (Z * ptr mcs_process * fs_heap) :=
  match proc with
  | Ref pr =>
      if is_null user_buf && negb (len =? 0) then Some (MCS_EINVAL, proc, fss)
      else '(rc, t, fss) ← mcs_vfs_write (Ref (fd_table pr)) fss fd user_buf len; Some (rc, with_table pr t, fss)
  | NULL => Some (MCS_EINVAL, proc, fss)
  end.

Definition mcs_sys_close (proc : ptr mcs_process) (fd : Z) : option (Z * ptr mcs_process) :=
  match proc with
  | Ref pr => '(rc, t) ← mcs_vfs_close (Ref (fd_table pr)) fd; Some (rc, with_table pr t)
  | NULL => Some (MCS_EINVAL, proc)
  end.

Definition mcs_sys_lseek (proc : ptr mcs_process) (fss : fs_heap) (fd offset whence : Z) :
    option (Z * ptr mcs_process) :=
  match proc with
  | Ref pr => '(rc, t) ← mcs_vfs_lseek (Ref (fd_table pr)) fss fd offset whence; Some (rc, with_table pr t)
  | NULL => Some (MCS_EINVAL, proc)
  end.

(** * Specification *)

Definition null_file (f : mcs_file) : bool := f_used f =? 0.

(** A slot is free, or designates a live node at a representable offset, and a slot open for
    writing designates a file. *)
Definition file_ok (fss : fs_heap) (f : mcs_file) : Prop :=
  f_used f = 0 \/
  f_used f = 1 /\ 0 <= f_offset f <= LONG_MAX /\
  exists k i fs nd, f_fs f = Ref k /\ f_node f = Ref (k, i) /\ fss !! k = Some fs /\ node_at fs i nd /\
    (mcs_can_write (f_flags f) = true -> type nd = MCS_VNODE_FILE).

Definition heap_wf (fss : fs_heap) : Prop := map_Forall (fun _ => ramfs_wf) fss.

Definition vfs_wf (fss : fs_heap) (t : mcs_fd_table) : Prop :=
  length t = Z.to_nat MCS_MAX_OPEN_FILES /\ heap_wf fss /\ Forall (file_ok fss) t.

(** The bytes of the file that a node pointer designates. *)
Definition heap_contents (fss : fs_heap) (p : nat * Z) : option (list Z) :=
  fs ← fss !! p.1; contents fs p.2.

(** What a path names in file system [k]. *)
Definition heap_lookup (fss : fs_heap) (k : nat) (s : list Z) : option (Z + Z) :=
  fs ← fss !! k; Some (lookup_spec fs s).

(** The nodes of [fss] are still there in [fss'], with the same types. *)
Definition heap_le (fss fss' : fs_heap) : Prop :=
  forall k i fs nd, fss !! k = Some fs -> node_at fs i nd ->
    exists fs' nd', fss' !! k = Some fs' /\ node_at fs' i nd' /\ type nd' = type nd.

(** Calls on a table and the file systems. *)
Inductive vfs_op :=
| Open (k : nat) (path : list Z) (flags : Z)
| Read (fd len : Z)
| Write (fd : Z) (bytes : list Z)
| Lseek (fd offset whence : Z)
| Close (fd : Z)
| Dup (fd : Z).

Definition vfs_state : Type := fs_heap * mcs_fd_table.

(** A call: its status and the state it leaves; [Read] has a buffer of [len] bytes. *)
Definition vfs_exec (st : vfs_state) (o : vfs_op) : option (Z * vfs_state) :=
  let '(fss, t) := st in
  match o with
  | Open k path flags =>
      '(rc, t, fss) ← mcs_vfs_open (Ref t) fss (Ref k) (Ref path) flags;
      match t with Ref t => Some (rc, (fss, t)) | NULL => None end
  | Read fd len =>
      '(rc, t, _) ← mcs_vfs_read (Ref t) fss fd (Ref (replicate (Z.to_nat len) 0)) len;
      match t with Ref t => Some (rc, (fss, t)) | NULL => None end
  | Write fd bytes =>
      '(rc, t, fss) ← mcs_vfs_write (Ref t) fss fd (Ref bytes) (Z.of_nat (length bytes));
      match t with Ref t => Some (rc, (fss, t)) | NULL => None end
  | Lseek fd offset whence =>
      '(rc, t) ← mcs_vfs_lseek (Ref t) fss fd offset whence;
      match t with Ref t => Some (rc, (fss, t)) | NULL => None end
  | Close fd =>
      '(rc, t) ← mcs_vfs_close (Ref t) fd;
      match t with Ref t => Some (rc, (fss, t)) | NULL => None end
  | Dup fd =>
      '(rc, t) ← mcs_vfs_dup (Ref t) fd;
      match t with Ref t => Some (rc, (fss, t)) | NULL => None end
  end.

(** The seek for which [base + offset] exceeds a signed long: on an open file, from the current offset or from the end. *)
Definition seek_overflows (fss : fs_heap) (t : mcs_fd_table) (fd offset whence : Z) : bool :=
  match arr_get t fd with
  | Some f =>
      match f_node f with
      | Ref np =>
          match get_node fss np with
          | Some nd => negb (f_used f =? 0) && negb (bool_decide (type nd = MCS_VNODE_DIR)) &&
              ((whence =? MCS_SEEK_CUR) && (LONG_MAX <? f_offset f + offset) || (whence =? MCS_SEEK_END) && (LONG_MAX <? size nd + offset))
          | None => false
          end
      | NULL => false
      end
  | None => false
  end.

Definition op_overflows (st : vfs_state) (o : vfs_op) : bool :=
  match o with
  | Lseek fd offset whence => seek_overflows st.1 st.2 fd offset whence
  | _ => false
  end.

(** Arguments a caller may pass: a terminated path in an existing file system, buffers that C objects can be, and offsets of the type long. *)
Definition vfs_op_ok (st : vfs_state) (o : vfs_op) : Prop :=
  match o with
  | Open k path flags => is_Some (st.1 !! k) /\ exists s, is_cstr path s
  | Read fd len => 0 <= len < 2 ^ 63
  | Write fd bytes => Z.of_nat (length bytes) < 2 ^ 63
  | Lseek fd offset whence => LONG_MIN <= offset <= LONG_MAX
  | Close fd | Dup fd => True
  end.

(** One call with admissible arguments. *)
Definition vfs_step (st st' : vfs_state) : Prop :=
  exists o rc, vfs_op_ok st o /\ vfs_exec st o = Some (rc, st').

(** * Lemmas: heaps *)

Lemma heap_le_refl fss : heap_le fss fss.
Proof. intros k i fs nd ? ?. eauto. Qed.

Lemma heap_le_trans fss1 fss2 fss3 : heap_le fss1 fss2 -> heap_le fss2 fss3 -> heap_le fss1 fss3.
Proof.
  intros H12 H23 k i fs nd Hk Hnd. destruct (H12 k i fs nd Hk Hnd) as (fs2 & nd2 & Hk2 & Hnd2 & Ht2).
  destruct (H23 k i fs2 nd2 Hk2 Hnd2) as (fs3 & nd3 & ? & ? & ?). exists fs3, nd3. by rewrite <- Ht2.
Qed.

(** File systems do not disappear. *)
Lemma heap_le_dom fss fss' k : heap_wf fss -> heap_le fss fss' -> is_Some (fss !! k) -> is_Some (fss' !! k).
Proof.
  intros Hwf Hle [fs Hk]. pose proof (Hwf k fs Hk) as Hfs. destruct (node_at_exists fs 0 Hfs) as [nd Hnd]; [pose proof (fs_count _ Hfs); lia|].
  destruct (Hle k 0 fs nd Hk Hnd) as (fs' & _ & ? & _). eauto.
Qed.

Lemma file_ok_le fss fss' f : heap_le fss fss' -> file_ok fss f -> file_ok fss' f.
Proof.
  intros Hle [H|(Hu & Ho & k & i & fs & nd & H1 & H2 & H3 & H4 & H5)]; [by left|right].
  destruct (Hle k i fs nd H3 H4) as (fs' & nd' & ? & ? & Ht). split; [done|]. split; [done|].
  exists k, i, fs', nd'. rewrite Ht. auto.
Qed.

Lemma heap_le_insert fss k fs fs' :
  fss !! k = Some fs ->
  (forall i nd, node_at fs i nd -> exists nd', node_at fs' i nd' /\ type nd' = type nd) ->
  heap_le fss (<[k := fs']> fss).
Proof.
  intros Hk Hn k' i g nd Hg Hnd. destruct (decide (k' = k)) as [->|].
  - rewrite lookup_insert_eq. rewrite Hk in Hg. injection Hg as <-.
    destruct (Hn i nd Hnd) as (nd' & ? & ?). eauto.
  - rewrite lookup_insert_ne by done. eauto.
Qed.

Lemma heap_wf_insert fss k fs' : heap_wf fss -> ramfs_wf fs' -> heap_wf (<[k := fs']> fss).
Proof. intros H H'. by apply map_Forall_insert_2. Qed.

Lemma vfs_wf_update fss fss' t fd f :
  vfs_wf fss t -> heap_wf fss' -> heap_le fss fss' -> file_ok fss' f ->
  vfs_wf fss' (<[Z.to_nat fd := f]> t).
Proof.
  intros (Hl & Hh & Ht) Hh' Hle Hf. split_and!; [by rewrite length_insert|done|].
  apply Forall_insert; [|done]. eapply Forall_impl; [done|]. intros. by eapply file_ok_le.
Qed.

Lemma vfs_wf_heap fss fss' t : vfs_wf fss t -> heap_wf fss' -> heap_le fss fss' -> vfs_wf fss' t.
Proof.
  intros (Hl & Hh & Ht) Hh' Hle. split_and!; [done..|]. eapply Forall_impl; [done|]. intros. by eapply file_ok_le.
Qed.

(** * Lemmas: slots *)

(** [mcs_fd_get] gives the used slots. *)
Lemma fd_get_spec fss t fd :
  vfs_wf fss t ->
  mcs_fd_get (Ref t) fd =
    Some (match arr_get t fd with Some f => if f_used f =? 0 then NULL else Ref f | None => NULL end).
Proof.
  intros (Hl & _ & _). unfold mcs_fd_get, MCS_MAX_OPEN_FILES in *.
  destruct (Z.ltb_spec fd 0); cbn [orb].
  { unfold arr_get. by rw_false (0 <=? fd). }
  destruct (Z.leb_spec 16 fd).
  - destruct (arr_get t fd) eqn:E; [|done]. apply arr_get_bound in E. lia.
  - destruct (arr_get_lt t fd) as [f ->]; [lia|]. done.
Qed.

(** An open slot: its file and node. *)
Lemma open_slot fss t fd f :
  vfs_wf fss t -> arr_get t fd = Some f -> (f_used f =? 0) = false ->
  0 <= fd < MCS_MAX_OPEN_FILES /\ 0 <= f_offset f <= LONG_MAX /\
  exists k i fs nd, f_fs f = Ref k /\ f_node f = Ref (k, i) /\ fss !! k = Some fs /\ ramfs_wf fs /\
    node_at fs i nd /\ get_node fss (k, i) = Some nd /\
    (mcs_can_write (f_flags f) = true -> type nd = MCS_VNODE_FILE).
Proof.
  intros (Hl & Hh & Ht) Hf Hu. pose proof (arr_get_bound _ _ _ Hf). apply arr_get_Some in Hf as [_ Hf].
  eapply Forall_lookup_1 in Ht; [|done]. bool_to_prop.
  destruct Ht as [?|(_ & Ho & k & i & fs & nd & H1 & H2 & H3 & H4 & H5)]; [done|].
  split; [unfold MCS_MAX_OPEN_FILES in *; lia|]. split; [done|]. exists k, i, fs, nd.
  split_and!; try done; [by apply Hh in H3|]. unfold get_node. cbn. rewrite H3. cbn. by apply node_at_get.
Qed.

(** The allocator takes the first free slot. *)
Lemma fd_alloc_loop_spec t n : forall i,
  0 <= i -> Z.of_nat (length t) = i + Z.of_nat n -> i + Z.of_nat n < 2 ^ 31 ->
  (exists j f, fd_alloc_loop t n i =
      Some (j, <[Z.to_nat j := mk_file 1 (f_flags f) (f_offset f) (f_node f) (f_fs f)]> t) /\
      i <= j < i + Z.of_nat n /\ arr_get t j = Some f /\ f_used f = 0 /\
      forall j' f', i <= j' < j -> arr_get t j' = Some f' -> f_used f' <> 0) \/
  (fd_alloc_loop t n i = Some (MCS_ENFILE, t) /\
   forall j f, i <= j -> arr_get t j = Some f -> f_used f <> 0).
Proof.
  induction n as [|n IH]; intros i Hi Hl Hb; cbn [fd_alloc_loop].
  - right. split; [done|]. intros j f Hj Hf%arr_get_bound. lia.
  - destruct (arr_get_lt t i) as [f Hf]; [lia|]. rewrite Hf. cbn [mbind option_bind].
    destruct (Z.eqb_spec (f_used f) 0) as [H0|H0].
    + left. exists i, f. rewrite arr_set_lt by lia. split_and!; [done|lia|lia|done|done|lia].
    + destruct (IH (i + 1)) as [(j & g & -> & Hj & Hg & Hu & Hmin)|[-> Hall]]; [lia|lia|lia| |].
      * left. exists j, g. split_and!; [done|lia|lia|done|done|]. intros j' f' Hj' Hf'.
        destruct (Z.eq_dec j' i) as [->|]; [congruence|]. apply (Hmin j'); [lia|done].
      * right. split; [done|]. intros j g Hj Hg. destruct (Z.eq_dec j i) as [->|]; [congruence|].
        apply (Hall j); [lia|done].
Qed.

Lemma fd_alloc_spec fss t :
  vfs_wf fss t ->
  (exists j f, mcs_fd_alloc t =
      Some (j, <[Z.to_nat j := mk_file 1 (f_flags f) (f_offset f) (f_node f) (f_fs f)]> t) /\
      0 <= j < MCS_MAX_OPEN_FILES /\ arr_get t j = Some f /\ f_used f = 0 /\
      forall j' f', 0 <= j' < j -> arr_get t j' = Some f' -> f_used f' <> 0) \/
  (mcs_fd_alloc t = Some (MCS_ENFILE, t) /\ forall j f, 0 <= j -> arr_get t j = Some f -> f_used f <> 0).
Proof.
  intros (Hl & _ & _). unfold mcs_fd_alloc. apply fd_alloc_loop_spec; [lia| |];
    unfold MCS_MAX_OPEN_FILES in *; lia.
Qed.

(** * Lemmas: copies *)

Lemma copy_to_user_spec dst src at_ n :
  0 <= at_ -> 0 <= n <= Z.of_nat (length dst) -> at_ + n <= Z.of_nat (length src) -> n < 2 ^ 64 ->
  mcs_copy_to_user dst src at_ n =
    Some (take (Z.to_nat n) (drop (Z.to_nat at_) src) ++ drop (Z.to_nat n) dst).
Proof.
  intros Hat Hn Hsrc H64. unfold mcs_copy_to_user.
  rewrite (for_loop_ext _ (fun i d => c ← arr_get (drop (Z.to_nat at_) src) i; arr_set d (0 + i) c)).
  - pose proof (copy_bytes_spec dst 0 (drop (Z.to_nat at_) src) n) as H. unfold mcs_copy_bytes in H.
    rewrite H by (rewrite ?length_drop; lia). by rewrite Z.add_0_l.
  - intros i d Hi. unfold arr_get. rw_true (0 <=? i). rw_true (0 <=? at_ + i). rewrite lookup_drop.
    by replace (Z.to_nat at_ + Z.to_nat i)%nat with (Z.to_nat (at_ + i)) by lia.
  - lia.
Qed.

Lemma min_size_spec a b : mcs_min_size a b = Z.min a b.
Proof. unfold mcs_min_size. destruct (Z.ltb_spec a b); lia. Qed.

Lemma put_offset_spec t fd f o :
  0 <= fd < Z.of_nat (length t) -> put_offset (Ref t) fd f o = Some (Ref (<[Z.to_nat fd := set_offset f o]> t)).
Proof. intros H. unfold put_offset. by rewrite arr_set_lt by lia. Qed.

Lemma put_size_spec fss k fs i nd s :
  fss !! k = Some fs -> node_at fs i nd ->
  put_size fss (k, i) s = Some (<[k := store_file fs i nd 0 [] s]> fss).
Proof.
  intros Hk Hnd. unfold put_size. cbn. rewrite Hk. cbn. rewrite (node_at_get _ _ _ Hnd). cbn.
  rewrite arr_set_lt by (pose proof (store_index fs i nd Hnd); destruct Hnd; lia). cbn. by rewrite store_nothing.
Qed.

(** A file's region lies in the data array. *)
Lemma region_bound fs i nd :
  ramfs_wf fs -> node_at fs i nd ->
  0 <= size nd <= data_capacity nd /\ 0 <= data_offset nd /\
  data_offset nd + data_capacity nd <= Z.of_nat (length (data fs)) /\ Z.of_nat (length (data fs)) = 8192.
Proof.
  intros Hwf Hnd. destruct (fs_node _ Hwf i nd Hnd) as [_ _ _ Hs Hr _ _].
  pose proof (fs_used _ Hwf). pose proof (fs_data _ Hwf). unfold MCS_RAMFS_DATA_BYTES in *. lia.
Qed.

(** * Lemmas: reading and writing *)

Lemma contents_length fs i nd c :
  ramfs_wf fs -> node_at fs i nd -> type nd = MCS_VNODE_FILE -> contents fs i = Some c ->
  Z.of_nat (length c) = size nd.
Proof.
  intros Hwf Hnd Hty Hc. rewrite (node_contents fs i nd Hnd Hty) in Hc. injection Hc as <-.
  destruct (region_bound fs i nd Hwf Hnd). rewrite length_take, length_drop. lia.
Qed.

Lemma read_spec fss t fd f k i fs nd buf len c :
  vfs_wf fss t -> arr_get t fd = Some f -> (f_used f =? 0) = false -> mcs_can_read (f_flags f) = true ->
  f_fs f = Ref k -> f_node f = Ref (k, i) -> fss !! k = Some fs -> node_at fs i nd ->
  contents fs i = Some c -> 0 <= len <= Z.of_nat (length buf) -> len < 2 ^ 63 ->
  let n := Z.max 0 (Z.min len (Z.of_nat (length c) - f_offset f)) in
  mcs_vfs_read (Ref t) fss fd (Ref buf) len =
    Some (n, Ref (<[Z.to_nat fd := set_offset f (f_offset f + n)]> t),
          Ref (take (Z.to_nat n) (drop (Z.to_nat (f_offset f)) c) ++ drop (Z.to_nat n) buf)).
Proof.
  intros Hwf Hf Hu Hr Hfs Hnode Hk Hnd Hc Hlen H63 n.
  destruct (open_slot fss t fd f Hwf Hf Hu) as (Hfd & Ho & _). pose proof Hwf as (Hl & Hh & _).
  pose proof (Hh k fs Hk) as Hfswf. destruct (region_bound fs i nd Hfswf Hnd) as (Hs & Hoff & Hreg & H8).
  assert (Hty : type nd = MCS_VNODE_FILE).
  { unfold contents in Hc. destruct Hnd as [_ Hnd]. rewrite Hnd in Hc. cbn in Hc. case_bool_decide as Hd; [apply Hd|done]. }
  pose proof (contents_length fs i nd c Hfswf Hnd Hty Hc) as Hcl.
  unfold mcs_vfs_read. cbn [is_null andb]. rewrite (fd_get_spec fss) by done. rewrite Hf, Hu. cbn [mbind option_bind].
  rewrite Hr, Hnode, Hfs. cbn [negb]. unfold get_node. cbn [fst snd]. rewrite Hk. cbn [mbind option_bind].
  rewrite (node_at_get _ _ _ Hnd). cbn [mbind option_bind]. rewrite decide_False by congruence.
  unfold MCS_MAX_OPEN_FILES, LONG_MAX in *. destruct (Z.leb_spec (size nd) (f_offset f)).
  - assert (n = 0) as -> by lia. rewrite Z.add_0_r, list_insert_id; [done|].
    apply arr_get_Some in Hf as [_ ->]. by destruct f.
  - rewrite min_size_spec. replace (Z.min len (size nd - f_offset f)) with n by lia.
    rewrite copy_to_user_spec by lia. cbn [mbind option_bind].
    rewrite u64_small, put_offset_spec by ulia. cbn [mbind option_bind]. do 2 f_equal.
    f_equal. f_equal. rewrite (node_contents fs i nd Hnd Hty) in Hc. injection Hc as <-.
    rewrite skipn_firstn_comm, drop_drop, take_take. f_equal; [lia|]. f_equal. lia.
Qed.

(** The offset a write starts at. *)
Definition write_offset (f : mcs_file) (nd : mcs_vnode) : Z :=
  if flag_set (f_flags f) MCS_O_APPEND then size nd else f_offset f.

Lemma write_spec fss t fd f k i fs nd buf len :
  vfs_wf fss t -> arr_get t fd = Some f -> (f_used f =? 0) = false -> mcs_can_write (f_flags f) = true ->
  f_fs f = Ref k -> f_node f = Ref (k, i) -> fss !! k = Some fs -> node_at fs i nd ->
  type nd = MCS_VNODE_FILE -> 0 <= len <= Z.of_nat (length buf) -> len < 2 ^ 63 ->
  let o := write_offset f nd in
  mcs_vfs_write (Ref t) fss fd (Ref buf) len =
    Some (if o + len <=? data_capacity nd then
            (len, Ref (<[Z.to_nat fd := set_offset f (o + len)]> t),
             <[k := store_file fs i nd o (take (Z.to_nat len) buf) (Z.max (size nd) (o + len))]> fss)
          else
            (if data_capacity nd <? o then MCS_EINVAL else MCS_ENOSPC,
             Ref (<[Z.to_nat fd := set_offset f o]> t), fss)).
Proof.
  intros Hwf Hf Hu Hw Hfs Hnode Hk Hnd Hty Hlen H63 o.
  destruct (open_slot fss t fd f Hwf Hf Hu) as (Hfd & Ho & _). pose proof Hwf as (Hl & Hh & _).
  pose proof (Hh k fs Hk) as Hfswf. destruct (region_bound fs i nd Hfswf Hnd) as (Hs & Hoff & Hreg & H8).
  assert (Ho' : 0 <= o <= LONG_MAX).
  { subst o. unfold write_offset, LONG_MAX in *. destruct (flag_set _ _); lia. }
  unfold mcs_vfs_write. cbn [is_null andb]. rewrite (fd_get_spec fss) by done. rewrite Hf, Hu. cbn [mbind option_bind].
  rewrite Hw, Hnode, Hfs. cbn [negb]. unfold get_node. cbn [fst snd]. rewrite Hk. cbn [mbind option_bind].
  rewrite (node_at_get _ _ _ Hnd). cbn [mbind option_bind]. rewrite decide_False by congruence.
  change (if flag_set (f_flags f) MCS_O_APPEND then size nd else f_offset f) with o.
  unfold MCS_MAX_OPEN_FILES, LONG_MAX in *. rewrite put_offset_spec by lia. cbn [mbind option_bind].
  rewrite min_size_spec. destruct (Z.leb_spec (o + len) (data_capacity nd)).
  - rw_false (data_capacity nd <? o). rewrite Z.min_l by lia. rw_false (len <? len).
    change (mcs_copy_from_user (data fs) (data_offset nd + o) buf len)
      with (mcs_copy_bytes (data fs) (data_offset nd + o) buf len).
    rewrite copy_bytes_spec by lia. cbn [mbind option_bind].
    assert (Hb : length (take (Z.to_nat len) buf) = Z.to_nat len) by (rewrite length_take; lia).
    assert (take (Z.to_nat (data_offset nd + o)) (data fs) ++ take (Z.to_nat len) buf ++
      drop (Z.to_nat (data_offset nd + o + len)) (data fs) =
      splice (data fs) (Z.to_nat (data_offset nd + o)) (take (Z.to_nat len) buf)) as ->.
    { unfold splice. rewrite Hb. do 2 f_equal. f_equal. lia. }
    rewrite u64_small, put_offset_spec by (rewrite ?length_insert; ulia). cbn [mbind option_bind].
    rewrite list_insert_insert_eq. destruct (Z.ltb_spec (size nd) (o + len)).
    + rewrite (put_size_spec _ k (set_data fs (splice (data fs) (Z.to_nat (data_offset nd + o)) (take (Z.to_nat len) buf))) i nd);
        [|by rewrite lookup_insert_eq|done].
      cbn [mbind option_bind]. rewrite insert_insert_eq, store_nothing. rewrite Z.max_r by lia. done.
    + rewrite Z.max_l by lia. by rewrite store_bytes.
  - destruct (Z.ltb_spec (data_capacity nd) o); [done|]. rewrite Z.min_r by lia.
    rw_true (data_capacity nd - o <? len). done.
Qed.

(** * Lemmas: every call keeps the invariant *)

Lemma open_node_spec f path s flags :
  ramfs_wf f -> is_cstr path s ->
  exists rc node f', open_node f path flags = Some (rc, node, Ref f') /\ ramfs_wf f' /\
    (forall i nd, node_at f i nd -> node_at f' i nd) /\
    (forall i c, contents f i = Some c -> contents f' i = Some c) /\
    (rc = MCS_OK /\ (exists i nd, node = Ref (Ref i) /\ node_at f' i nd /\ lookup_spec f' s = inl i) \/ rc < 0).
Proof.
  intros Hwf Hp. unfold open_node. rewrite (lookup_refines f path s) by done. cbn [mbind option_bind].
  destruct (lookup_spec f s) as [i|rc] eqn:El.
  - change (negb (MCS_OK =? MCS_OK)) with false. cbn iota. eexists _, _, f. split_and!; [done..|].
    left. split; [done|]. destruct (node_at_exists f i Hwf) as [nd Hnd]; [by eapply lookup_spec_live|]. eauto.
  - apply lookup_spec_err in El. unfold MCS_OK at 1. rw_false (rc =? 0). cbn [negb].
    destruct (flag_set flags MCS_O_CREAT); cbn [negb]; [|eexists _, _, f; by split_and!; auto].
    rewrite (create_refines f path s) by done. destruct Hp as [H0 _].
    destruct (create_result f s) as [[rc' node] f'] eqn:Ec.
    destruct (create_ok f s rc' node f' Hwf H0 Ec) as (Hwf' & Hc & _ & Hn).
    eexists _, _, f'. split_and!; [done|done| |done|].
    + intros i nd. by eapply create_keeps_nodes.
    + destruct node as [i|]; [left|right; by apply (create_result_err f s _ f')].
      destruct Hn as (-> & Hpath & _ & Hlive & _). split; [done|].
      destruct (node_at_exists f' i Hwf' Hlive) as [nd Hnd]. exists i, nd. split_and!; [done..|]. by apply Hpath.
Qed.

Lemma store_heap_le fss k fs i nd o bs sz :
  fss !! k = Some fs -> node_at fs i nd -> heap_le fss (<[k := store_file fs i nd o bs sz]> fss).
Proof.
  intros Hk Hnd. apply (heap_le_insert _ _ fs); [done|]. intros j x Hx.
  pose proof (store_node_at fs i nd o bs sz Hnd j) as Hat. destruct (decide (j = i)) as [->|].
  - exists (set_size nd sz). rewrite Hat. split; [done|]. by rewrite (node_at_inj _ _ _ _ Hx Hnd).
  - exists x. rewrite Hat. done.
Qed.

Lemma free_slot_wf fss t fd f : vfs_wf fss t -> f_used f = 0 -> vfs_wf fss (<[Z.to_nat fd := f]> t).
Proof. intros H Hf. eapply vfs_wf_update; [done|apply H|apply heap_le_refl|by left]. Qed.

(** A slot opened on node [i] of file system [k]. *)
Lemma slot_ok fss k fs i nd flags o :
  fss !! k = Some fs -> node_at fs i nd -> 0 <= o <= LONG_MAX ->
  (mcs_can_write flags = true -> type nd = MCS_VNODE_FILE) ->
  file_ok fss (mk_file 1 flags o (Ref (k, i)) (Ref k)).
Proof. intros. right. split; [done|]. split; [done|]. exists k, i, fs, nd. done. Qed.

(** A successful open: the state it leaves. *)
Lemma open_spec fss t k path s flags :
  vfs_wf fss t -> is_Some (fss !! k) -> is_cstr path s ->
  exists rc t' fss', mcs_vfs_open (Ref t) fss (Ref k) (Ref path) flags = Some (rc, Ref t', fss') /\
    vfs_wf fss' t' /\ heap_le fss fss' /\
    (0 <= rc -> exists f fs' i, arr_get t rc = Some f /\ f_used f = 0 /\
       (forall j f', 0 <= j < rc -> arr_get t j = Some f' -> f_used f' <> 0) /\
       fss' !! k = Some fs' /\ lookup_spec fs' s = inl i /\
       exists o, t' = <[Z.to_nat rc := mk_file 1 (default_flags flags) o (Ref (k, i)) (Ref k)]> t).
Proof.
  intros Hwf [fs Hk] Hp. pose proof Hwf as (Hl & Hh & _). pose proof (Hh k fs Hk) as Hfs.
  unfold mcs_vfs_open. rewrite Hk. cbn [mbind option_bind]. set (fl := default_flags flags).
  destruct (open_node_spec fs path s fl Hfs Hp) as (rc & node & f' & -> & Hf' & Hat & _ & Hok).
  cbn [mbind option_bind].
  assert (Hle : heap_le fss (<[k := f']> fss)) by (apply (heap_le_insert _ _ fs); eauto).
  assert (Hwf1 : vfs_wf (<[k := f']> fss) t) by (eapply vfs_wf_heap; [done|by apply heap_wf_insert|done]).
  destruct Hok as [[-> (i & nd & -> & Hnd & Hls)]|Hneg].
  2:{ unfold MCS_OK. rw_false (rc =? 0). cbn [negb]. eexists _, _, _. split; [done|]. split; [done|]. split; [done|]. lia. }
  change (negb (MCS_OK =? MCS_OK)) with false. cbn iota. rewrite (node_at_get _ _ _ Hnd). cbn [mbind option_bind].
  destruct (bool_decide (type nd = MCS_VNODE_DIR) && mcs_can_write fl) eqn:Edir.
  { eexists _, _, _. split; [done|]. split; [done|]. split; [done|]. done. }
  assert (Hwr : mcs_can_write fl = true -> type nd = MCS_VNODE_FILE).
  { intros Hw. rewrite Hw, andb_true_r in Edir. apply bool_decide_eq_false in Edir. by destruct (type nd). }
  destruct (region_bound f' i nd Hf' Hnd) as (Hs & Hr0 & Hr1 & H8).
  assert (Hk' : <[k := f']> fss !! k = Some f') by by rewrite lookup_insert_eq.
  assert (Hlt : forall j, 0 <= j < MCS_MAX_OPEN_FILES -> 0 <= j < Z.of_nat (length t)).
  { unfold MCS_MAX_OPEN_FILES in *. lia. }
  destruct (fd_alloc_spec _ _ Hwf) as [(j & g & -> & Hj & Hg & Hu & Hmin)|[-> Hall]]; cbn [mbind option_bind].
  2:{ eexists _, _, _. split; [done|]. split; [done|]. split; [done|]. done. }
  rw_false (j <? 0). set (off := if flag_set fl MCS_O_APPEND then size nd else 0).
  assert (Hoff : 0 <= off <= LONG_MAX) by (unfold off, LONG_MAX; destruct (flag_set _ _); lia).
  destruct (flag_set fl MCS_O_TRUNC).
  - destruct (mcs_can_write fl) eqn:Ew; cbn [negb]; rewrite arr_set_lt by (rewrite length_insert; auto);
      cbn [mbind option_bind]; rewrite list_insert_insert_eq.
    + rewrite (put_size_spec _ k f' i nd) by done. cbn [mbind option_bind]. rewrite insert_insert_eq.
      assert (Hty : type nd = MCS_VNODE_FILE) by auto.
      assert (Hst : ramfs_wf (store_file f' i nd 0 [] 0)) by (apply store_wf; auto; cbn [length]; lia).
      assert (Hle' : heap_le (<[k := f']> fss) (<[k := store_file f' i nd 0 [] 0]> fss)).
      { pose proof (store_heap_le _ k f' i nd 0 [] 0 Hk' Hnd) as H'. by rewrite insert_insert_eq in H'. }
      eexists _, _, _. split; [done|]. split.
      * eapply vfs_wf_update; [done|by apply heap_wf_insert|done|]. eapply file_ok_le; [done|].
        eapply slot_ok; [done|done|unfold LONG_MAX; lia|auto].
      * split; [by eapply heap_le_trans|]. intros _. exists g, (store_file f' i nd 0 [] 0), i. split_and!; try done; [by rewrite lookup_insert_eq| |by eexists].
        rewrite store_lookup; auto; cbn; lia.
    + eexists _, _, _. split; [done|]. split; [by apply free_slot_wf|]. done.
  - rewrite arr_set_lt by (rewrite length_insert; auto). cbn [mbind option_bind]. rewrite list_insert_insert_eq.
    eexists _, _, _. split; [done|]. split.
    + eapply vfs_wf_update; [done|apply Hwf1|apply heap_le_refl|]. by eapply slot_ok.
    + split; [done|]. intros _. exists g, f', i. split_and!; try done. by eexists.
Qed.

(** Moving the offset of an open slot. *)
Lemma set_offset_wf fss t fd f o :
  vfs_wf fss t -> arr_get t fd = Some f -> (f_used f =? 0) = false -> 0 <= o <= LONG_MAX ->
  vfs_wf fss (<[Z.to_nat fd := set_offset f o]> t).
Proof.
  intros Hwf Hf Hu Ho. destruct (open_slot fss t fd f Hwf Hf Hu) as (_ & _ & k & i & fs & nd & H1 & H2 & H3 & _ & H5 & _ & H7).
  eapply vfs_wf_update; [done|apply Hwf|apply heap_le_refl|]. destruct f as [u fl off np fp]. cbn in *. subst.
  pose proof Hwf as (_ & _ & Hall). apply arr_get_Some in Hf as [_ Hf].
  eapply Forall_lookup_1 in Hall; [|done]. bool_to_prop. destruct Hall as [?|[Hu1 _]]; [done|]. cbn in Hu1. subst u.
  by eapply slot_ok.
Qed.

(** Everything a call needs to know of its descriptor. *)
Lemma fd_cases fss t fd :
  vfs_wf fss t ->
  mcs_fd_get (Ref t) fd = Some NULL \/
  exists f, mcs_fd_get (Ref t) fd = Some (Ref f) /\ arr_get t fd = Some f /\ (f_used f =? 0) = false /\
    0 <= fd < Z.of_nat (length t).
Proof.
  intros Hwf. rewrite (fd_get_spec fss) by done. destruct (arr_get t fd) as [f|] eqn:E; [|by left].
  destruct (f_used f =? 0) eqn:Eu; [by left|]. right. exists f. apply arr_get_bound in E as Hb. done.
Qed.

Lemma file_or_dir fs i nd :
  node_at fs i nd -> type nd = MCS_VNODE_DIR \/ type nd = MCS_VNODE_FILE /\ exists c, contents fs i = Some c.
Proof.
  intros Hnd. destruct (type nd) eqn:E; [by left|]. right. split; [done|].
  eexists. by apply (node_contents fs i nd).
Qed.

(** A read gives the same bytes whatever the buffer held, and leaves the rest of it alone. *)
Lemma read_any fss t fd len :
  vfs_wf fss t -> 0 <= len < 2 ^ 63 ->
  exists rc t' bs, vfs_wf fss t' /\ rc <= len /\ length bs = Z.to_nat rc /\
    forall buf, len <= Z.of_nat (length buf) ->
      mcs_vfs_read (Ref t) fss fd (Ref buf) len = Some (rc, Ref t', Ref (bs ++ drop (length bs) buf)).
Proof.
  intros Hwf Hlen. destruct (fd_cases fss t fd Hwf) as [Hn|(f & Hf & Hg & Hu & Hb)].
  { exists MCS_EBADF, t, []. split_and!; [done|unfold MCS_EBADF; lia|done|]. intros buf _. unfold mcs_vfs_read. cbn [is_null andb]. by rewrite Hn. }
  destruct (open_slot fss t fd f Hwf Hg Hu) as (_ & Ho & k & i & fs & nd & H1 & H2 & H3 & H4 & H5 & H6 & _).
  destruct (mcs_can_read (f_flags f)) eqn:Er.
  2:{ exists MCS_EACCES, t, []. split_and!; [done|unfold MCS_EACCES; lia|done|]. intros buf _.
      unfold mcs_vfs_read. cbn [is_null andb]. rewrite Hf. cbn [mbind option_bind]. by rewrite Er. }
  destruct (file_or_dir fs i nd H5) as [Hd|[Hty [c Hc]]].
  { exists MCS_EISDIR, t, []. split_and!; [done|unfold MCS_EISDIR; lia|done|]. intros buf _.
    unfold mcs_vfs_read. cbn [is_null andb]. rewrite Hf. cbn [mbind option_bind]. rewrite Er, H2, H1. cbn [negb].
    rewrite H6. cbn [mbind option_bind]. by rewrite decide_True by done. }
  pose proof (contents_length fs i nd c H4 H5 Hty Hc). destruct (region_bound fs i nd H4 H5) as (? & ? & ? & ?).
  set (n := Z.max 0 (Z.min len (Z.of_nat (length c) - f_offset f))).
  assert (Hbl : length (take (Z.to_nat n) (drop (Z.to_nat (f_offset f)) c)) = Z.to_nat n) by (rewrite length_take, length_drop; lia).
  exists n, (<[Z.to_nat fd := set_offset f (f_offset f + n)]> t), (take (Z.to_nat n) (drop (Z.to_nat (f_offset f)) c)).
  split_and!; [apply set_offset_wf; auto; unfold LONG_MAX in *; lia|lia|exact Hbl|].
  intros buf Hbuf. rewrite (read_spec fss t fd f k i fs nd buf len c); try done; [|lia..]. fold n. by rewrite Hbl.
Qed.

Lemma read_wf fss t fd len :
  vfs_wf fss t -> 0 <= len < 2 ^ 63 ->
  exists rc t' b, mcs_vfs_read (Ref t) fss fd (Ref (replicate (Z.to_nat len) 0)) len = Some (rc, Ref t', b) /\
    vfs_wf fss t'.
Proof.
  intros Hwf Hlen. destruct (read_any fss t fd len Hwf Hlen) as (rc & t' & bs & Hwf' & _ & _ & Hr).
  eexists rc, t', _. split; [|done]. apply Hr. rewrite length_replicate. lia.
Qed.

(** A write depends on the given bytes of the buffer only. *)
Lemma write_any fss t fd bs :
  vfs_wf fss t -> Z.of_nat (length bs) < 2 ^ 63 ->
  exists rc t' fss', vfs_wf fss' t' /\ heap_le fss fss' /\
    forall buf, take (length bs) buf = bs ->
      mcs_vfs_write (Ref t) fss fd (Ref buf) (Z.of_nat (length bs)) = Some (rc, Ref t', fss').
Proof.
  intros Hwf Hlen. destruct (fd_cases fss t fd Hwf) as [Hn|(f & Hf & Hg & Hu & Hb)].
  { exists MCS_EBADF, t, fss. split_and!; [done|apply heap_le_refl|]. intros buf _. unfold mcs_vfs_write. cbn [is_null andb]. by rewrite Hn. }
  destruct (open_slot fss t fd f Hwf Hg Hu) as (_ & Ho & k & i & fs & nd & H1 & H2 & H3 & H4 & H5 & H6 & H7).
  destruct (mcs_can_write (f_flags f)) eqn:Ew.
  2:{ exists MCS_EACCES, t, fss. split_and!; [done|apply heap_le_refl|]. intros buf _.
      unfold mcs_vfs_write. cbn [is_null andb]. rewrite Hf. cbn [mbind option_bind]. by rewrite Ew. }
  specialize (H7 eq_refl). destruct (region_bound fs i nd H4 H5) as (? & ? & ? & ?).
  assert (0 <= write_offset f nd <= LONG_MAX) by (unfold write_offset, LONG_MAX in *; destruct (flag_set _ _); lia).
  assert (Hspec : forall buf, take (length bs) buf = bs -> mcs_vfs_write (Ref t) fss fd (Ref buf) (Z.of_nat (length bs)) = _)
    by (intros buf Hbuf; pose proof (f_equal length Hbuf) as Hbl; rewrite length_take in Hbl;
        rewrite (write_spec fss t fd f k i fs nd) by (done || lia); rewrite Nat2Z.id, Hbuf; reflexivity).
  destruct (Z.leb_spec (write_offset f nd + Z.of_nat (length bs)) (data_capacity nd));
    (eexists _, _, _; split_and!; [| |exact Hspec]).
  - assert (Hoff : vfs_wf fss (<[Z.to_nat fd := set_offset f (write_offset f nd + Z.of_nat (length bs))]> t))
      by (apply set_offset_wf; auto; unfold LONG_MAX in *; lia).
    eapply vfs_wf_heap; [exact Hoff| |by apply store_heap_le]. apply heap_wf_insert; [apply Hwf|].
    apply store_wf; auto; lia.
  - by apply store_heap_le.
  - by apply set_offset_wf.
  - apply heap_le_refl.
Qed.

Lemma write_wf fss t fd bs :
  vfs_wf fss t -> Z.of_nat (length bs) < 2 ^ 63 ->
  exists rc t' fss', mcs_vfs_write (Ref t) fss fd (Ref bs) (Z.of_nat (length bs)) = Some (rc, Ref t', fss') /\
    vfs_wf fss' t'.
Proof.
  intros Hwf Hlen. destruct (write_any fss t fd bs Hwf Hlen) as (rc & t' & fss' & Hwf' & _ & Hw).
  exists rc, t', fss'. split; [|done]. apply Hw, firstn_all.
Qed.

(** A seek is undefined exactly when it overflows. *)
Lemma lseek_cases fss t fd offset whence :
  vfs_wf fss t -> LONG_MIN <= offset <= LONG_MAX ->
  if seek_overflows fss t fd offset whence then mcs_vfs_lseek (Ref t) fss fd offset whence = None
  else exists rc t', mcs_vfs_lseek (Ref t) fss fd offset whence = Some (rc, Ref t') /\ vfs_wf fss t'.
Proof.
  intros Hwf Hoff. unfold mcs_vfs_lseek, seek_overflows. rewrite (fd_get_spec fss) by done.
  destruct (arr_get t fd) as [f|] eqn:Hg; cbn [mbind option_bind]; [|by eauto].
  destruct (f_used f =? 0) eqn:Hu; cbn [mbind option_bind]. { destruct (f_node f) as [|np]; [by eauto|]. destruct (get_node fss np); cbn; by eauto. }
  destruct (open_slot fss t fd f Hwf Hg Hu) as (_ & Ho & k & i & fs & nd & H1 & H2 & H3 & H4 & H5 & H6 & H7).
  rewrite H2, H6. cbn [mbind option_bind negb andb]. destruct (decide _) as [Hd|Hd]; [rewrite bool_decide_true by done; cbn [negb andb]; by eauto|]. rewrite bool_decide_false by done. cbn [negb andb].
  destruct (region_bound fs i nd H4 H5) as (? & ? & ? & ?).
  assert (Hi : forall z, 0 <= z <= LONG_MAX -> i64 z = z) by (unfold i64, LONG_MAX; intros; rewrite Z.mod_small; lia).
  rewrite !Hi by (unfold LONG_MAX in *; lia). unfold MCS_SEEK_SET, MCS_SEEK_CUR, MCS_SEEK_END.
  assert (Hend : forall base, 0 <= base <= LONG_MAX ->
    if LONG_MAX <? base + offset then (if (base + offset <? LONG_MIN) || (LONG_MAX <? base + offset) then None
      else if base + offset <? 0 then Some (MCS_EINVAL, Ref t) else table ← put_offset (Ref t) fd f (u64 (base + offset)); Some (i32 (u64 (base + offset)), table)) = None
    else exists rc t', (if (base + offset <? LONG_MIN) || (LONG_MAX <? base + offset) then None
      else if base + offset <? 0 then Some (MCS_EINVAL, Ref t) else table ← put_offset (Ref t) fd f (u64 (base + offset)); Some (i32 (u64 (base + offset)), table)) = Some (rc, Ref t') /\ vfs_wf fss t').
  { intros base Hbase. rw_false (base + offset <? LONG_MIN). cbn [orb]. destruct (Z.ltb_spec LONG_MAX (base + offset)); [done|].
    destruct (Z.ltb_spec (base + offset) 0); [by eauto|]. pose proof (arr_get_bound _ _ _ Hg); rewrite u64_small, put_offset_spec by (unfold LONG_MAX in *; ulia). cbn [mbind option_bind].
    eexists _, _. split; [done|]. apply set_offset_wf; auto. }
  destruct (Z.eqb_spec whence 0) as [->|N0]; [specialize (Hend 0); cbn [andb orb Z.eqb]; revert Hend; rw_false (LONG_MAX <? 0 + offset); intros Hend; apply Hend; unfold LONG_MAX; lia|].
  destruct (Z.eqb_spec whence 1) as [->|N1]; [cbn [andb orb Z.eqb Pos.eqb]; rewrite orb_false_r; by apply Hend|].
  destruct (Z.eqb_spec whence 2) as [->|N2]; cbn [andb orb]; [apply Hend; unfold LONG_MAX in *; lia|by eauto].
Qed.

Lemma seek_set_defined fss t fd offset : seek_overflows fss t fd offset MCS_SEEK_SET = false.
Proof.
  unfold seek_overflows. destruct (arr_get t fd) as [f|]; [|done]. destruct (f_node f) as [|np]; [done|]. destruct (get_node fss np) as [nd|]; [|done].
  cbn [MCS_SEEK_SET Z.eqb andb orb]. apply andb_false_r.
Qed.

Lemma close_wf fss t fd :
  vfs_wf fss t -> exists rc t', mcs_vfs_close (Ref t) fd = Some (rc, Ref t') /\ vfs_wf fss t'.
Proof.
  intros Hwf. unfold mcs_vfs_close. destruct (fd_cases fss t fd Hwf) as [->|(f & -> & Hg & Hu & Hb)];
    cbn [mbind option_bind]; [by eauto|].
  rewrite arr_set_lt by done. cbn [mbind option_bind]. eexists _, _. split; [done|]. by apply free_slot_wf.
Qed.

(** [dup] copies the slot to the lowest free one. *)
Lemma dup_spec fss t fd :
  vfs_wf fss t ->
  exists rc t', mcs_vfs_dup (Ref t) fd = Some (rc, Ref t') /\ vfs_wf fss t' /\
    (0 <= rc -> exists f g, arr_get t fd = Some f /\ f_used f = 1 /\ arr_get t rc = Some g /\ f_used g = 0 /\
       (forall j f', 0 <= j < rc -> arr_get t j = Some f' -> f_used f' <> 0) /\ t' = <[Z.to_nat rc := f]> t).
Proof.
  intros Hwf. unfold mcs_vfs_dup. destruct (fd_cases fss t fd Hwf) as [->|(f & -> & Hg & Hu & Hb)];
    cbn [mbind option_bind]; [eexists _, _; split; [done|]; split; [done|]; done|].
  pose proof Hwf as (Hl & Hh & Hall). apply arr_get_Some in Hg as Hlk.
  assert (Hok : file_ok fss f) by (eapply Forall_lookup_1; [done|apply Hlk]).
  assert (Hu1 : f_used f = 1) by (bool_to_prop; by destruct Hok as [?|[? _]]).
  destruct (fd_alloc_spec fss t Hwf) as [(j & g & -> & Hj & Hgj & Hu0 & Hmin)|[-> _]]; cbn [mbind option_bind].
  2:{ eexists _, _. split; [done|]. done. }
  rw_false (j <? 0). unfold MCS_MAX_OPEN_FILES in *. rewrite arr_set_lt by (rewrite length_insert; lia).
  cbn [mbind option_bind]. rewrite list_insert_insert_eq.
  assert (mk_file 1 (f_flags f) (f_offset f) (f_node f) (f_fs f) = f) as ->.
  { destruct f. cbn in *. by subst. }
  eexists _, _. split; [done|]. split; [|intros _; exists f, g; by split_and!].
  eapply vfs_wf_update; [done|apply Hwf|apply heap_le_refl|done].
Qed.

(** Every call with admissible arguments that is no overflowing seek is defined and keeps the invariant. *)
Lemma vfs_exec_wf st o :
  vfs_wf st.1 st.2 -> vfs_op_ok st o ->
  if op_overflows st o then vfs_exec st o = None else exists rc st', vfs_exec st o = Some (rc, st') /\ vfs_wf st'.1 st'.2.
Proof.
  destruct st as [fss t]. cbn [fst snd]. intros Hwf Ho. destruct o as [k path flags|fd len|fd bs|fd off wh|fd|fd];
    cbn [vfs_exec vfs_op_ok op_overflows fst snd] in *.
  - destruct Ho as [Hk [s Hs]]. destruct (open_spec fss t k path s flags Hwf Hk Hs) as (rc & t' & fss' & -> & Hwf' & _).
    exists rc, (fss', t'). done.
  - destruct (read_wf fss t fd len Hwf Ho) as (rc & t' & b & -> & Hwf'). by exists rc, (fss, t').
  - destruct (write_wf fss t fd bs Hwf Ho) as (rc & t' & fss' & -> & Hwf'). by exists rc, (fss', t').
  - pose proof (lseek_cases fss t fd off wh Hwf Ho) as Hc. destruct (seek_overflows fss t fd off wh); [by rewrite Hc|].
    destruct Hc as (rc & t' & -> & Hwf'). by exists rc, (fss, t').
  - destruct (close_wf fss t fd Hwf) as (rc & t' & -> & Hwf'). by exists rc, (fss, t').
  - destruct (dup_spec fss t fd Hwf) as (rc & t' & -> & Hwf' & _). by exists rc, (fss, t').
Qed.

Lemma fd_table_init_spec t :
  length t = Z.to_nat MCS_MAX_OPEN_FILES ->
  mcs_fd_table_init (Ref t) = Some (Ref (replicate (Z.to_nat MCS_MAX_OPEN_FILES) closed_file)).
Proof.
  intros Hl. unfold mcs_fd_table_init. rewrite fill_loop; [done|done|unfold MCS_MAX_OPEN_FILES; lia].
Qed.

Lemma fresh_wf fss : heap_wf fss -> vfs_wf fss (replicate (Z.to_nat MCS_MAX_OPEN_FILES) closed_file).
Proof.
  intros Hh. split_and!; [apply length_replicate|done|]. apply Forall_replicate. by left.
Qed.

(** Writing, seeking back and reading, whatever the buffers hold besides the bytes written. *)
Lemma write_seek_read fss t fd f k i nd c bs :
  vfs_wf fss t -> arr_get t fd = Some f -> f_used f = 1 ->
  mcs_can_write (f_flags f) = true -> mcs_can_read (f_flags f) = true -> flag_set (f_flags f) MCS_O_APPEND = false ->
  f_node f = Ref (k, i) -> get_node fss (k, i) = Some nd -> heap_contents fss (k, i) = Some c ->
  f_offset f <= Z.of_nat (length c) -> f_offset f + Z.of_nat (length bs) <= data_capacity nd ->
  exists t1 fss1 t2 t3, vfs_wf fss1 t1 /\ heap_le fss fss1 /\ vfs_wf fss1 t2 /\ vfs_wf fss1 t3 /\
    (forall wbuf, take (length bs) wbuf = bs ->
       mcs_vfs_write (Ref t) fss fd (Ref wbuf) (Z.of_nat (length bs)) = Some (Z.of_nat (length bs), Ref t1, fss1)) /\
    mcs_vfs_lseek (Ref t1) fss1 fd (f_offset f) MCS_SEEK_SET = Some (f_offset f, Ref t2) /\
    (forall buf, Z.of_nat (length bs) <= Z.of_nat (length buf) ->
       mcs_vfs_read (Ref t2) fss1 fd (Ref buf) (Z.of_nat (length bs)) =
         Some (Z.of_nat (length bs), Ref t3, Ref (bs ++ drop (length bs) buf))).
Proof.
  intros Hwf Hf Hu Hw Hr Happ Hnode Hget Hc Hle Hcap.
  assert (Hu' : (f_used f =? 0) = false) by by rewrite Hu.
  destruct (open_slot fss t fd f Hwf Hf Hu') as (Hfd & Ho & k' & i' & fs & nd' & H1 & H2 & H3 & H4 & H5 & H6 & H7).
  rewrite Hnode in H2. injection H2 as <- <-. rewrite Hget in H6. injection H6 as <-. specialize (H7 Hw).
  unfold heap_contents in Hc. cbn [fst snd] in Hc. rewrite H3 in Hc. cbn [mbind option_bind] in Hc.
  pose proof (contents_length fs i nd c H4 H5 H7 Hc) as Hcl.
  destruct (region_bound fs i nd H4 H5) as (? & ? & ? & ?).
  assert (Hwo : write_offset f nd = f_offset f) by (unfold write_offset; by rewrite Happ).
  destruct (write_any fss t fd bs Hwf) as (rc & t1 & fss1 & Hwf1 & Hle1 & Hany); [lia|]. pose proof (Hany bs (firstn_all bs)) as Hwr.
  rewrite (write_spec fss t fd f k i fs nd) in Hwr by (auto; lia). rewrite Hwo in Hwr.
  set (o := f_offset f) in *. rewrite Nat2Z.id, firstn_all in Hwr.
  assert (Hfit : (o + Z.of_nat (length bs) <=? data_capacity nd) = true) by by apply Z.leb_le.
  rewrite Hfit in Hwr. injection Hwr as <- <- <-.
  set (sz := Z.max (size nd) (o + Z.of_nat (length bs))) in *. set (fs1 := store_file fs i nd o bs sz) in *.
  set (f1 := set_offset f (o + Z.of_nat (length bs))) in *.
  pose proof Hwf as (Hl & _ & _). unfold MCS_MAX_OPEN_FILES, LONG_MAX in *.
  assert (Hf1 : arr_get (<[Z.to_nat fd := f1]> t) fd = Some f1).
  { apply arr_get_Some. split; [lia|]. apply list_lookup_insert_eq. lia. }
  assert (Hnd1 : node_at fs1 i (set_size nd sz)) by (apply store_node_at; [done|by rewrite decide_True]).
  assert (Hk1 : <[k := fs1]> fss !! k = Some fs1) by by rewrite lookup_insert_eq.
  destruct (store_contents_same fs i nd o bs sz) as (c' & Hc' & Hst); auto; try lia.
  rewrite Hc in Hc'. injection Hc' as <-. fold fs1 in Hst.
  assert (Hwf2 : vfs_wf (<[k := fs1]> fss) (<[Z.to_nat fd := set_offset f o]> t)).
  { pose proof (set_offset_wf _ _ fd f1 o Hwf1 Hf1) as H'. rewrite list_insert_insert_eq in H'.
    apply H'; [by rewrite <- Hu'|unfold LONG_MAX; lia]. }
  eexists _, _, (<[Z.to_nat fd := set_offset f o]> t), (<[Z.to_nat fd := set_offset f (o + Z.of_nat (length bs))]> t).
  split; [exact Hwf1|]. split; [exact Hle1|]. split; [exact Hwf2|]. split; [exact Hwf1|]. split; [exact Hany|]. split.
  - unfold mcs_vfs_lseek. fold o f1 sz fs1. rewrite (fd_get_spec (<[k := fs1]> fss)) by done. rewrite Hf1.
    change (f_used f1 =? 0) with (f_used f =? 0). rewrite Hu'. cbn [mbind option_bind].
    change (f_node f1) with (f_node f). rewrite Hnode. unfold get_node. cbn [fst snd]. rewrite Hk1. cbn [mbind option_bind].
    rewrite (node_at_get _ _ _ Hnd1). cbn [mbind option_bind]. change (type (set_size nd sz)) with (type nd). rewrite H7.
    cbn [decide decide_rel]. rewrite decide_False by done. change (MCS_SEEK_SET =? MCS_SEEK_SET) with true. cbn iota.
    unfold LONG_MIN, LONG_MAX. rewrite Z.add_0_l. rw_false (o <? - 2 ^ 63). rw_false (2 ^ 63 - 1 <? o). cbn [orb].
    rw_false (o <? 0). rewrite u64_small by ulia. rewrite put_offset_spec by (rewrite length_insert; lia).
    cbn [mbind option_bind]. rewrite list_insert_insert_eq. unfold i32.
    rewrite Z.mod_small by lia. do 2 f_equal. lia.
  - intros buf Hbuf.
    rewrite (read_spec _ _ fd (set_offset f o) k i fs1 (set_size nd sz) buf _ _ Hwf2) by
      (first [done|lia|apply arr_get_Some; split; [lia|apply list_lookup_insert_eq; lia]]).
    cbn [f_offset set_offset]. rewrite !length_app, length_take, length_drop.
    match goal with |- context [Z.max 0 ?x] => replace (Z.max 0 x) with (Z.of_nat (length bs)) by lia end.
    rewrite Nat2Z.id. rewrite drop_app_length' by (rewrite length_take; lia).
    rewrite take_app_length, list_insert_insert_eq. done.
Qed.

(** * Concrete descriptors *)

(** One empty file system and a table without open files. *)
Definition demo_heap : fs_heap := {[ 0%nat := demo_fs ]}.
Definition demo_table : mcs_fd_table := replicate 16 closed_file.

(** The state after "/a" has been opened for reading and writing on descriptor 0. *)
Definition exec_result (r : option (Z * vfs_state)) : vfs_state :=
  match r with Some (_, st) => st | None => (∅, []) end.
Definition demo_open : vfs_state :=
  exec_result (vfs_exec (demo_heap, demo_table) (Open 0 path_a (Z.lor MCS_O_RDWR MCS_O_CREAT))).
Definition demo_file : mcs_file := mk_file 1 (Z.lor MCS_O_RDWR MCS_O_CREAT) 0 (Ref (0%nat, 1)) (Ref 0%nat).

Lemma demo_heap_wf : heap_wf demo_heap.
Proof. apply map_Forall_singleton. apply demo_fs_wf. Qed.

Lemma demo_open_wf : vfs_wf demo_open.1 demo_open.2.
Proof.
  destruct (vfs_exec_wf (demo_heap, demo_table) (Open 0 path_a (Z.lor MCS_O_RDWR MCS_O_CREAT)))
    as (rc & st & He & Hwf).
  - apply (fresh_wf demo_heap), demo_heap_wf.
  - split; [by exists demo_fs|]. exists [SLASH; 97]. apply path_a_cstr.
  - unfold demo_open. by rewrite He.
Qed.

(** * Properties *)

(** C10. The descriptor layer is memory safe. From a freshly initialised table over
    well-formed file systems, after any sequence of open, read, write, seek, close and
    dup calls that are defined, every open descriptor designates a live node and the file systems
    are well formed, and any further call (with a terminated path in an existing file system, a buffer that is an object, an offset that is a long) is defined, accesses no
    array out of bounds and follows no stale or null pointer, with one exception, which is exact: the seek whose sum exceeds a signed long is undefined. *)
Theorem vfs_reachable_safe fss t t0 st :
  heap_wf fss -> length t = Z.to_nat MCS_MAX_OPEN_FILES -> mcs_fd_table_init (Ref t) = Some (Ref t0) ->
  rtc vfs_step (fss, t0) st ->
  vfs_wf st.1 st.2 /\
  forall o, vfs_op_ok st o -> if op_overflows st o then vfs_exec st o = None else exists rc st', vfs_exec st o = Some (rc, st') /\ vfs_step st st'.
Proof.
  intros Hh Hl Hinit Hr. rewrite fd_table_init_spec in Hinit by done. injection Hinit as <-.
  assert (Hwf : vfs_wf st.1 st.2).
  { remember (fss, _) as st0 eqn:E. assert (vfs_wf st0.1 st0.2) as H0 by (subst; by apply fresh_wf). clear E.
    induction Hr as [|st0 st1 st2 (o & rc & Ho & He) _ IH]; [done|]. apply IH.
    pose proof (vfs_exec_wf st0 o H0 Ho) as Hc. destruct (op_overflows st0 o); [congruence|]. destruct Hc as (rc' & st' & He' & Hwf'). congruence. }
  split; [done|]. intros o Ho. pose proof (vfs_exec_wf st o Hwf Ho) as Hc. destruct (op_overflows st o); [done|]. destruct Hc as (rc & st' & He & _).
  exists rc, st'. split; [done|]. by exists o, rc.
Qed.

Lemma vfs_reachable_safe_witness :
  vfs_wf demo_open.1 demo_open.2 /\
  forall o, vfs_op_ok demo_open o -> if op_overflows demo_open o then vfs_exec demo_open o = None else exists rc st', vfs_exec demo_open o = Some (rc, st') /\ vfs_step demo_open st'.
Proof.
  apply (vfs_reachable_safe demo_heap (replicate 16 (mk_file 9 9 9 NULL NULL)) demo_table).
  - apply demo_heap_wf.
  - reflexivity.
  - reflexivity.
  - apply rtc_once. exists (Open 0 path_a (Z.lor MCS_O_RDWR MCS_O_CREAT)), 0. split.
    + split; [by exists demo_fs|]. exists [SLASH; 97]. apply path_a_cstr.
    + vm_compute. reflexivity.
Defined.

(** [mcs_vfs_open] gives the lowest free descriptor: a non-negative result is the first slot that was
    free, that slot alone changes, and it designates the node that the path
    names afterwards; [mcs_vfs_dup] likewise copies an open slot to the lowest
    free one. *)
Theorem vfs_open_dup_lowest fss t k path s flags fd :
  vfs_wf fss t -> is_Some (fss !! k) -> is_cstr path s ->
  (exists rc t' fss', mcs_vfs_open (Ref t) fss (Ref k) (Ref path) flags = Some (rc, Ref t', fss') /\
    (0 <= rc -> exists f fs' i, arr_get t rc = Some f /\ f_used f = 0 /\
       (forall j f', 0 <= j < rc -> arr_get t j = Some f' -> f_used f' <> 0) /\
       fss' !! k = Some fs' /\ lookup_spec fs' s = inl i /\
       exists o, t' = <[Z.to_nat rc := mk_file 1 (default_flags flags) o (Ref (k, i)) (Ref k)]> t)) /\
  (exists rc t', mcs_vfs_dup (Ref t) fd = Some (rc, Ref t') /\
    (0 <= rc -> exists f g, arr_get t fd = Some f /\ f_used f = 1 /\ arr_get t rc = Some g /\ f_used g = 0 /\
       (forall j f', 0 <= j < rc -> arr_get t j = Some f' -> f_used f' <> 0) /\ t' = <[Z.to_nat rc := f]> t)).
Proof.
  intros Hwf Hk Hs. split.
  - destruct (open_spec fss t k path s flags Hwf Hk Hs) as (rc & t' & fss' & -> & _ & _ & H). eauto.
  - destruct (dup_spec fss t fd Hwf) as (rc & t' & -> & _ & H). eauto.
Qed.

Lemma vfs_open_dup_lowest_witness :
  (exists rc t' fss', mcs_vfs_open (Ref demo_open.2) demo_open.1 (Ref 0%nat) (Ref path_a) MCS_O_RDONLY = Some (rc, Ref t', fss') /\
    (0 <= rc -> exists f fs' i, arr_get demo_open.2 rc = Some f /\ f_used f = 0 /\
       (forall j f', 0 <= j < rc -> arr_get demo_open.2 j = Some f' -> f_used f' <> 0) /\
       fss' !! 0%nat = Some fs' /\ lookup_spec fs' [SLASH; 97] = inl i /\
       exists o, t' = <[Z.to_nat rc := mk_file 1 (default_flags MCS_O_RDONLY) o (Ref (0%nat, i)) (Ref 0%nat)]> demo_open.2)) /\
  (exists rc t', mcs_vfs_dup (Ref demo_open.2) 0 = Some (rc, Ref t') /\
    (0 <= rc -> exists f g, arr_get demo_open.2 0 = Some f /\ f_used f = 1 /\ arr_get demo_open.2 rc = Some g /\ f_used g = 0 /\
       (forall j f', 0 <= j < rc -> arr_get demo_open.2 j = Some f' -> f_used f' <> 0) /\ t' = <[Z.to_nat rc := f]> demo_open.2)).
Proof.
  apply vfs_open_dup_lowest; [apply demo_open_wf| |apply path_a_cstr].
  apply (bool_decide_unpack _). vm_compute. exact I.
Defined.

(** C22. A write through a descriptor open for writing on a file stores exactly the given bytes when they stay within the capacity of the file:
    it returns their number, the new bytes of the file are the old ones with the given ones in
    place from the start offset on (the end of the file for a descriptor in append mode), the
    descriptor moves past them, and no other file of any file system changes. When the start lies behind the end of the file, bytes
    that the code does not choose fill the gap; otherwise there is none. A write that does not fit fails
    and leaves every file system as it was. *)
Theorem vfs_write_correct fss t fd f k i nd c bs :
  vfs_wf fss t -> arr_get t fd = Some f -> f_used f = 1 -> mcs_can_write (f_flags f) = true ->
  f_node f = Ref (k, i) -> get_node fss (k, i) = Some nd -> heap_contents fss (k, i) = Some c ->
  Z.of_nat (length bs) < 2 ^ 63 ->
  let o := write_offset f nd in
  exists rc t' fss', mcs_vfs_write (Ref t) fss fd (Ref bs) (Z.of_nat (length bs)) = Some (rc, Ref t', fss') /\
    if o + Z.of_nat (length bs) <=? data_capacity nd then
      rc = Z.of_nat (length bs) /\ t' = <[Z.to_nat fd := set_offset f (o + rc)]> t /\
      (exists gap, length gap = (Z.to_nat o - length c)%nat /\
        heap_contents fss' (k, i) = Some (take (Z.to_nat o) c ++ gap ++ bs ++ drop (Z.to_nat o + length bs) c)) /\
      (forall p, p <> (k, i) -> heap_contents fss' p = heap_contents fss p) /\
      (forall k' s, heap_lookup fss' k' s = heap_lookup fss k' s)
    else rc = (if data_capacity nd <? o then MCS_EINVAL else MCS_ENOSPC) /\ fss' = fss.
Proof.
  intros Hwf Hf Hu Hw Hnode Hget Hc Hlen o.
  assert (Hu' : (f_used f =? 0) = false) by by rewrite Hu.
  destruct (open_slot fss t fd f Hwf Hf Hu') as (_ & Ho & k' & i' & fs & nd' & H1 & H2 & H3 & H4 & H5 & H6 & H7).
  rewrite Hnode in H2. injection H2 as <- <-. rewrite Hget in H6. injection H6 as <-.
  unfold heap_contents in Hc. cbn [fst snd] in Hc. rewrite H3 in Hc. cbn [mbind option_bind] in Hc.
  pose proof (contents_length fs i nd c H4 H5 (H7 Hw) Hc) as Hcl.
  destruct (region_bound fs i nd H4 H5) as (? & ? & ? & ?).
  rewrite (write_spec fss t fd f k i fs nd) by (auto; lia). fold o.
  destruct (Z.leb_spec (o + Z.of_nat (length bs)) (data_capacity nd)); [|by eexists _, _, _].
  assert (0 <= o) by (unfold o, write_offset in *; destruct (flag_set _ _); lia).
  rewrite Nat2Z.id, firstn_all. eexists _, _, _. split; [done|]. split; [done|]. split; [done|].
  unfold heap_contents, heap_lookup. cbn [fst snd]. split_and!.
  - rewrite lookup_insert_eq. cbn [mbind option_bind]. destruct (Z.leb_spec o (size nd)).
    + destruct (store_contents_same fs i nd o bs (Z.max (size nd) (o + Z.of_nat (length bs)))) as (c' & Hc' & Hst); auto; try lia.
      rewrite Hc in Hc'. injection Hc' as <-. exists []. cbn [length app]. split; [lia|done].
    + destruct (store_contents_hole fs i nd o bs (Z.max (size nd) (o + Z.of_nat (length bs)))) as (c' & Hc' & Hst); auto; try lia.
      rewrite Hc in Hc'. injection Hc' as <-. eexists. rewrite (take_ge c), (drop_ge c) by lia. rewrite app_nil_r. split; [|exact Hst].
      rewrite length_take, length_drop. pose proof (fs_data _ H4). pose proof (fs_used _ H4). lia.
  - intros [k' i'] Hne. cbn [fst snd]. destruct (decide (k' = k)) as [->|]; [|by rewrite lookup_insert_ne].
    rewrite lookup_insert_eq, H3. cbn [mbind option_bind]. apply store_contents_other; auto; try lia. congruence.
  - intros k' s. destruct (decide (k' = k)) as [->|]; [|by rewrite lookup_insert_ne].
    rewrite lookup_insert_eq, H3. cbn [mbind option_bind]. rewrite store_lookup; auto; lia.
Qed.

(** Two bytes in a new file. *)
Lemma vfs_write_correct_witness :
  exists t' fss', mcs_vfs_write (Ref demo_open.2) demo_open.1 0 (Ref [7; 8]) 2 = Some (2, Ref t', fss') /\ heap_contents fss' (0%nat, 1) = Some [7; 8].
Proof.
  destruct (vfs_write_correct demo_open.1 demo_open.2 0 demo_file 0%nat 1 (new_node demo_fs 0 [97]) [] [7; 8]) as (rc & t' & fss' & E & Hw).
  - apply demo_open_wf.
  - vm_compute. reflexivity.
  - reflexivity.
  - reflexivity.
  - reflexivity.
  - vm_compute. reflexivity.
  - vm_compute. reflexivity.
  - cbn. lia.
  - exists t', fss'. change (rc = 2 /\ t' = <[Z.to_nat 0 := set_offset demo_file (0 + rc)]> demo_open.2 /\
      (exists gap, length gap = 0%nat /\ heap_contents fss' (0%nat, 1) = Some (gap ++ [7; 8])) /\
      (forall p, p <> (0%nat, 1) -> heap_contents fss' p = heap_contents demo_open.1 p) /\
      (forall k' s, heap_lookup fss' k' s = heap_lookup demo_open.1 k' s)) in Hw.
    destruct Hw as (-> & _ & (gap & Hg & Hc) & _). split; [exact E|]. apply nil_length_inv in Hg. subst gap. exact Hc.
Defined.

(** What is written can be read back: on a descriptor open for reading and writing (not
    appending) whose offset is within the file, a write that fits returns its length, seeking back
    to the start of the write succeeds, and reading the same number of bytes returns exactly the bytes written. *)
Theorem vfs_write_seek_read fss t fd f k i nd c bs buf :
  vfs_wf fss t -> arr_get t fd = Some f -> f_used f = 1 ->
  mcs_can_write (f_flags f) = true -> mcs_can_read (f_flags f) = true -> flag_set (f_flags f) MCS_O_APPEND = false ->
  f_node f = Ref (k, i) -> get_node fss (k, i) = Some nd -> heap_contents fss (k, i) = Some c ->
  f_offset f <= Z.of_nat (length c) -> f_offset f + Z.of_nat (length bs) <= data_capacity nd ->
  length buf = length bs ->
  exists t1 fss1 t2 t3,
    mcs_vfs_write (Ref t) fss fd (Ref bs) (Z.of_nat (length bs)) = Some (Z.of_nat (length bs), Ref t1, fss1) /\
    mcs_vfs_lseek (Ref t1) fss1 fd (f_offset f) MCS_SEEK_SET = Some (f_offset f, Ref t2) /\
    mcs_vfs_read (Ref t2) fss1 fd (Ref buf) (Z.of_nat (length bs)) = Some (Z.of_nat (length bs), Ref t3, Ref bs).
Proof.
  intros Hwf Hf Hu Hw Hr Happ Hnode Hget Hc Hle Hcap Hbuf.
  destruct (write_seek_read fss t fd f k i nd c bs) as (t1 & fss1 & t2 & t3 & _ & _ & _ & _ & H1 & H2 & H3); try done.
  exists t1, fss1, t2, t3. split_and!; [apply H1, firstn_all|done|]. rewrite H3 by lia. by rewrite drop_ge, app_nil_r by lia.
Qed.

Lemma vfs_write_seek_read_witness :
  exists t1 fss1 t2 t3,
    mcs_vfs_write (Ref demo_open.2) demo_open.1 0 (Ref [7; 8]) (Z.of_nat (length [7; 8])) =
      Some (Z.of_nat (length [7; 8]), Ref t1, fss1) /\
    mcs_vfs_lseek (Ref t1) fss1 0 (f_offset demo_file) MCS_SEEK_SET = Some (f_offset demo_file, Ref t2) /\
    mcs_vfs_read (Ref t2) fss1 0 (Ref [0; 0]) (Z.of_nat (length [7; 8])) = Some (Z.of_nat (length [7; 8]), Ref t3, Ref [7; 8]).
Proof.
  apply (vfs_write_seek_read demo_open.1 demo_open.2 0 demo_file 0%nat 1 (new_node demo_fs 0 [97]) [] [7; 8] [0; 0]).
  - apply demo_open_wf.
  - vm_compute. reflexivity.
  - reflexivity.
  - reflexivity.
  - reflexivity.
  - reflexivity.
  - reflexivity.
  - vm_compute. reflexivity.
  - vm_compute. reflexivity.
  - vm_compute. discriminate.
  - vm_compute. discriminate.
  - reflexivity.
Defined.

(** Seeking accepts offsets whose success it cannot report and which make the next seek undefined: on an open file,
    seeking to LONG_MAX succeeds but returns -1 (the offset truncated to int, which reads as
    an error), and one more relative seek by one byte overflows a signed long. *)
Theorem vfs_lseek_overflow fss t fd f k i c :
  vfs_wf fss t -> arr_get t fd = Some f -> f_used f = 1 -> f_node f = Ref (k, i) ->
  heap_contents fss (k, i) = Some c ->
  exists t', mcs_vfs_lseek (Ref t) fss fd LONG_MAX MCS_SEEK_SET = Some (-1, Ref t') /\
    arr_get t' fd = Some (set_offset f LONG_MAX) /\
    mcs_vfs_lseek (Ref t') fss fd 1 MCS_SEEK_CUR = None.
Proof.
  intros Hwf Hf Hu Hnode Hc. assert (Hu' : (f_used f =? 0) = false) by by rewrite Hu.
  destruct (open_slot fss t fd f Hwf Hf Hu') as (Hfd & _ & k' & i' & fs & nd & _ & H2 & H3 & H4 & H5 & H6 & _).
  rewrite Hnode in H2. injection H2 as <- <-.
  assert (Hty : type nd <> MCS_VNODE_DIR).
  { unfold heap_contents in Hc. cbn [fst snd] in Hc. rewrite H3 in Hc. cbn [mbind option_bind] in Hc.
    unfold contents in Hc. destruct H5 as [_ H5]. rewrite H5 in Hc. cbn in Hc. case_bool_decide as Hd; [|done].
    destruct Hd as [_ ->]. done. }
  pose proof Hwf as (Hl & _ & _). unfold MCS_MAX_OPEN_FILES in *. exists (<[Z.to_nat fd := set_offset f LONG_MAX]> t).
  assert (Hg : arr_get (<[Z.to_nat fd := set_offset f LONG_MAX]> t) fd = Some (set_offset f LONG_MAX)).
  { apply arr_get_Some. split; [lia|]. apply list_lookup_insert_eq. lia. }
  split_and!; [|done|].
  - unfold mcs_vfs_lseek. rewrite (fd_get_spec fss) by done. rewrite Hf, Hu'. cbn [mbind option_bind].
    rewrite Hnode, H6. cbn [mbind option_bind]. rewrite decide_False by done.
    change (MCS_SEEK_SET =? MCS_SEEK_SET) with true. cbn iota. rewrite Z.add_0_l.
    change ((LONG_MAX <? LONG_MIN) || (LONG_MAX <? LONG_MAX)) with false. change (LONG_MAX <? 0) with false. cbn iota.
    change (u64 LONG_MAX) with LONG_MAX. by rewrite put_offset_spec by lia.
  - unfold mcs_vfs_lseek. rewrite (fd_get_spec fss).
    2:{ apply set_offset_wf; auto. unfold LONG_MAX. lia. }
    rewrite Hg. change (f_used (set_offset f LONG_MAX)) with (f_used f). rewrite Hu'. cbn [mbind option_bind].
    change (f_node (set_offset f LONG_MAX)) with (f_node f). rewrite Hnode, H6. cbn [mbind option_bind].
    rewrite decide_False by done. reflexivity.
Qed.

Lemma vfs_lseek_overflow_witness :
  exists t', mcs_vfs_lseek (Ref demo_open.2) demo_open.1 0 LONG_MAX MCS_SEEK_SET = Some (-1, Ref t') /\
    arr_get t' 0 = Some (set_offset demo_file LONG_MAX) /\
    mcs_vfs_lseek (Ref t') demo_open.1 0 1 MCS_SEEK_CUR = None.
Proof.
  apply (vfs_lseek_overflow demo_open.1 demo_open.2 0 demo_file 0%nat 1 []).
  - apply demo_open_wf.
  - vm_compute. reflexivity.
  - reflexivity.
  - reflexivity.
  - vm_compute. reflexivity.
Defined.

(** A run of calls, for examples. *)
Fixpoint vfs_run (st : vfs_state) (ops : list vfs_op) : vfs_state :=
  match ops with [] => st | o :: ops => vfs_run (exec_result (vfs_exec st o)) ops end.

(** Truncation does not erase: after the file holding the bytes 1, 2, 3 is opened with
    MCS_O_TRUNC it is empty, but seeking to offset 3 and writing the byte 9 brings
    the old bytes back, where zeros would be expected in the hole. *)
Theorem vfs_truncate_reveals_old_bytes :
  let flags := Z.lor MCS_O_RDWR MCS_O_CREAT in
  let st1 := vfs_run (demo_heap, demo_table)
    [Open 0 path_a flags; Write 0 [1; 2; 3]; Close 0; Open 0 path_a (Z.lor flags MCS_O_TRUNC)] in
  let st2 := vfs_run st1 [Lseek 0 3 MCS_SEEK_SET; Write 0 [9]] in
  heap_contents st1.1 (0%nat, 1) = Some [] /\ heap_contents st2.1 (0%nat, 1) = Some [1; 2; 3; 9].
Proof. vm_compute. split; reflexivity. Qed.
