(* ===== verification/Thread.v ===== *)
(** Kernel threads and the cooperative scheduler: kernel/mcsos_thread.c,
    include/mcsos_thread.h and kernel/arch/x86_64/context_switch.S.

    Threads are objects of a heap indexed by their addresses, and an [mcsos_thread_t *] is
    null or such an address; the ready queue is the singly linked list that the
    [next] fields form in the heap. Dereferencing an address with no thread is undefined
    ([None]). *)

From S2P Require Import Prelude Mem Fd.

(** * Constants *)

Definition MCSOS_THREAD_MAGIC : Z := 0x4d43534f53544852.
Definition MCSOS_STACK_ALIGN : Z := 16.
Definition MCSOS_MIN_KERNEL_STACK : Z := 4096.

Definition MCSOS_SCHED_OK : Z := 0.
Definition MCSOS_SCHED_EINVAL : Z := -1.
Definition MCSOS_SCHED_ESTATE : Z := -2.
Definition MCSOS_SCHED_ESTACK : Z := -3.
Definition MCSOS_SCHED_ECORRUPT : Z := -4.

(** * Data *)

Inductive mcsos_thread_state :=
| MCSOS_THREAD_NEW
| MCSOS_THREAD_READY
| MCSOS_THREAD_RUNNING
| MCSOS_THREAD_BLOCKED
| MCSOS_THREAD_ZOMBIE.

#[export] Instance mcsos_thread_state_eq_dec : EqDecision mcsos_thread_state.
Proof. solve_decision. Defined.

Record mcsos_context := mk_context {
  rsp : Z; rbp : Z; rbx : Z; r12 : Z; r13 : Z; r14 : Z; r15 : Z; rip : Z
}.

Record mcsos_thread := mk_thread {
  magic : Z;
  t_id : Z;
  t_name : ptr (list Z);
  state : mcsos_thread_state;
  context : mcsos_context;
  entry : Z;
  arg : Z;
  stack_base : Z;
  stack_size : Z;
  next : ptr Z;
  switches : Z;
  t_ticks : Z;
  exit_code : Z;
  t_fd_table : mcs_fd_table
}.

Record mcsos_scheduler := mk_sched {
  current : ptr Z;
  idle : ptr Z;
  ready_head : ptr Z;
  ready_tail : ptr Z;
  next_id : Z;
  runnable_count : Z;
  context_switches : Z;
  s_ticks : Z;
  initialized : Z
}.

(** What the scheduler acts on: the thread objects and the registers of the processor
    (those that [mcsos_context_switch] saves and loads). *)
Record machine := mk_machine {
  threads : gmap Z mcsos_thread;
  cpu : mcsos_context
}.

Definition set_state (t : mcsos_thread) (s : mcsos_thread_state) : mcsos_thread :=
  mk_thread (magic t) (t_id t) (t_name t) s (context t) (entry t) (arg t) (stack_base t) (stack_size t)
    (next t) (switches t) (t_ticks t) (exit_code t) (t_fd_table t).
Definition set_next (t : mcsos_thread) (p : ptr Z) : mcsos_thread :=
  mk_thread (magic t) (t_id t) (t_name t) (state t) (context t) (entry t) (arg t) (stack_base t) (stack_size t)
    p (switches t) (t_ticks t) (exit_code t) (t_fd_table t).
Definition set_context (t : mcsos_thread) (c : mcsos_context) : mcsos_thread :=
  mk_thread (magic t) (t_id t) (t_name t) (state t) c (entry t) (arg t) (stack_base t) (stack_size t)
    (next t) (switches t) (t_ticks t) (exit_code t) (t_fd_table t).
Definition inc_switches (t : mcsos_thread) : mcsos_thread :=
  mk_thread (magic t) (t_id t) (t_name t) (state t) (context t) (entry t) (arg t) (stack_base t) (stack_size t)
    (next t) (u64 (switches t + 1)) (t_ticks t) (exit_code t) (t_fd_table t).
Definition inc_ticks (t : mcsos_thread) : mcsos_thread :=
  mk_thread (magic t) (t_id t) (t_name t) (state t) (context t) (entry t) (arg t) (stack_base t) (stack_size t)
    (next t) (switches t) (u64 (t_ticks t + 1)) (exit_code t) (t_fd_table t).

Definition set_queue (s : mcsos_scheduler) (h tl : ptr Z) (n : Z) : mcsos_scheduler :=
  mk_sched (current s) (idle s) h tl (next_id s) n (context_switches s) (s_ticks s) (initialized s).

(** [a->... = ...] through the function [f]. *)
Definition update (m : machine) (a : Z) (f : mcsos_thread -> mcsos_thread) : option machine :=
  t ← threads m !! a; Some (mk_machine (<[a := f t]> (threads m)) (cpu m)).

(** * Operations *)

Definition align_down_uintptr (value alignment : Z) : Z := Z.land value (not64 (alignment - 1)).

Definition valid_thread_object (m : machine) (thread : ptr Z) : option bool :=
  match thread with
  | NULL => Some false
  | Ref a => t ← threads m !! a; Some (magic t =? MCSOS_THREAD_MAGIC)
  end.

Definition zero_context : mcsos_context := mk_context 0 0 0 0 0 0 0 0.

(** "boot" *)
Definition boot_name : list Z := [98; 111; 111; 116; 0].

Definition mcsos_scheduler_init (sched : ptr mcsos_scheduler) (m : machine) (boot_thread : ptr Z) :
    option (Z * ptr mcsos_scheduler * machine) :=
  match sched, boot_thread with
  | Ref _, Ref b =>
      t ← threads m !! b;
      fdt ← mcs_fd_table_init (Ref (t_fd_table t));
      match fdt with
      | NULL => None
      | Ref fdt =>
          let t' := mk_thread MCSOS_THREAD_MAGIC 0 (Ref boot_name) MCSOS_THREAD_RUNNING zero_context 0 0 0 0
            NULL 0 0 0 fdt in
          Some (MCSOS_SCHED_OK, Ref (mk_sched (Ref b) (Ref b) NULL NULL 1 0 0 0 1),
                mk_machine (<[b := t']> (threads m)) (cpu m))
      end
  | _, _ => Some (MCSOS_SCHED_EINVAL, sched, m)
  end.

(** [trampoline] is the address of [mcsos_thread_trampoline]. The new top of the stack is
    cleared in [mem]. *)
Definition mcsos_thread_prepare (trampoline : Z) (m : machine) (mm : mem) (thread : ptr Z) (name : ptr (list Z))
    (entry_ arg_ stack_base_ stack_size_ id_ : Z) : option (Z * machine * mem) :=
  match thread with
  | NULL => Some (MCSOS_SCHED_EINVAL, m, mm)
  | Ref a =>
      if (entry_ =? 0) || (stack_base_ =? 0) then Some (MCSOS_SCHED_EINVAL, m, mm)
      else if stack_size_ <? MCSOS_MIN_KERNEL_STACK then Some (MCSOS_SCHED_ESTACK, m, mm)
      else
        let low := stack_base_ in
        let high := u64 (low + stack_size_) in
        if high <=? low then Some (MCSOS_SCHED_ESTACK, m, mm)
        else
          let top := align_down_uintptr high MCSOS_STACK_ALIGN in
          if top <=? u64 (low + 128) then Some (MCSOS_SCHED_ESTACK, m, mm)
          else
            let top := u64 (top - 8) in
            let mm := store64 mm top 0 in
            t ← threads m !! a;
            fdt ← mcs_fd_table_init (Ref (t_fd_table t));
            match fdt with
            | NULL => None
            | Ref fdt =>
                let t' := mk_thread MCSOS_THREAD_MAGIC id_ name MCSOS_THREAD_NEW
                  (mk_context top 0 0 0 0 0 0 trampoline) entry_ arg_ stack_base_ stack_size_ NULL 0 0 0 fdt in
                Some (MCSOS_SCHED_OK, mk_machine (<[a := t']> (threads m)) (cpu m), mm)
            end
  end.

Definition mcsos_sched_enqueue (sched : ptr mcsos_scheduler) (m : machine) (thread : ptr Z) :
    option (Z * ptr mcsos_scheduler * machine) :=
  match sched with
  | NULL => Some (MCSOS_SCHED_EINVAL, sched, m)
  | Ref s =>
      if initialized s =? 0 then Some (MCSOS_SCHED_EINVAL, sched, m)
      else
        ok ← valid_thread_object m thread;
        match thread with
        | Ref a =>
            if negb ok then Some (MCSOS_SCHED_EINVAL, sched, m)
            else
              t ← threads m !! a;
              if bool_decide (state t <> MCSOS_THREAD_NEW) && bool_decide (state t <> MCSOS_THREAD_READY)
                 && bool_decide (state t <> MCSOS_THREAD_BLOCKED)
              then Some (MCSOS_SCHED_ESTATE, sched, m)
              else
                m ← update m a (fun t => set_next (set_state t MCSOS_THREAD_READY) NULL);
                match ready_tail s with
                | NULL =>
                    Some (MCSOS_SCHED_OK, Ref (set_queue s thread thread (u64 (runnable_count s + 1))), m)
                | Ref b =>
                    m ← update m b (fun t => set_next t thread);
                    Some (MCSOS_SCHED_OK,
                      Ref (set_queue s (ready_head s) thread (u64 (runnable_count s + 1))), m)
                end
        | NULL => Some (MCSOS_SCHED_EINVAL, sched, m)
        end
  end.

(** Returns the thread, the scheduler and the heap. *)
Definition mcsos_sched_pick_next (sched : ptr mcsos_scheduler) (m : machine) :
    option (ptr Z * ptr mcsos_scheduler * machine) :=
  match sched with
  | NULL => Some (NULL, sched, m)
  | Ref s =>
      if initialized s =? 0 then Some (NULL, sched, m)
      else
        match ready_head s with
        | NULL => Some (idle s, sched, m)
        | Ref a =>
            t ← threads m !! a;
            let head := next t in
            let tl := match head with NULL => NULL | Ref _ => ready_tail s end in
            m ← update m a (fun t => set_next t NULL);
            let n := if 0 <? runnable_count s then runnable_count s - 1 else runnable_count s in
            Some (Ref a, Ref (set_queue s head tl n), m)
        end
  end.

(** [mcsos_context_switch(&old->context, &new->context)]: the registers go to the old context, with
    the address [resume] of the local label 1 as the saved rip, and are loaded from the new one. *)
Definition mcsos_context_switch (resume : Z) (m : machine) (old new : Z) : option machine :=
  let c := cpu m in
  m ← update m old (fun t => set_context t
    (mk_context (rsp c) (rbp c) (rbx c) (r12 c) (r13 c) (r14 c) (r15 c) resume));
  t ← threads m !! new;
  Some (mk_machine (threads m) (context t)).

Definition mcsos_sched_yield (resume : Z) (sched : ptr mcsos_scheduler) (m : machine) :
    option (Z * ptr mcsos_scheduler * machine) :=
  match sched with
  | NULL => Some (MCSOS_SCHED_EINVAL, sched, m)
  | Ref s =>
      if initialized s =? 0 then Some (MCSOS_SCHED_EINVAL, sched, m)
      else
        ok ← valid_thread_object m (current s);
        match current s with
        | NULL => Some (MCSOS_SCHED_EINVAL, sched, m)
        | Ref old =>
            if negb ok then Some (MCSOS_SCHED_EINVAL, sched, m)
            else
              '(nx, sched, m) ← mcsos_sched_pick_next sched m;
              ok ← valid_thread_object m nx;
              match nx with
              | NULL => Some (MCSOS_SCHED_ECORRUPT, sched, m)
              | Ref nx =>
                  if negb ok then Some (MCSOS_SCHED_ECORRUPT, sched, m)
                  else if nx =? old then
                    m ← update m old (fun t => set_state t MCSOS_THREAD_RUNNING);
                    Some (MCSOS_SCHED_OK, sched, m)
                  else
                    t ← threads m !! old;
                    '(rc, sched, m) ←
                      (if bool_decide (state t = MCSOS_THREAD_RUNNING) &&
                          match idle s with Ref i => negb (old =? i) | NULL => true end then
                         m ← update m old (fun t => set_state t MCSOS_THREAD_READY);
                         mcsos_sched_enqueue sched m (Ref old)
                       else Some (MCSOS_SCHED_OK, sched, m));
                    if negb (rc =? MCSOS_SCHED_OK) then Some (rc, sched, m)
                    else
                      m ← update m nx (fun t => set_state t MCSOS_THREAD_RUNNING);
                      match sched with
                      | NULL => None
                      | Ref s =>
                          m ← update m old inc_switches;
                          m ← update m nx inc_switches;
                          m ← mcsos_context_switch resume m old nx;
                          Some (MCSOS_SCHED_OK,
                            Ref (mk_sched (Ref nx) (idle s) (ready_head s) (ready_tail s) (next_id s)
                                   (runnable_count s) (u64 (context_switches s + 1)) (s_ticks s) (initialized s)), m)
                      end
              end
        end
  end.

Definition mcsos_sched_tick (sched : ptr mcsos_scheduler) (m : machine) :
    option (Z * ptr mcsos_scheduler * machine) :=
  match sched with
  | NULL => Some (MCSOS_SCHED_EINVAL, sched, m)
  | Ref s =>
      if initialized s =? 0 then Some (MCSOS_SCHED_EINVAL, sched, m)
      else
        ok ← valid_thread_object m (current s);
        match current s with
        | NULL => Some (MCSOS_SCHED_EINVAL, sched, m)
        | Ref c =>
            if negb ok then Some (MCSOS_SCHED_EINVAL, sched, m)
            else
              m ← update m c inc_ticks;
              Some (MCSOS_SCHED_OK,
                Ref (mk_sched (current s) (idle s) (ready_head s) (ready_tail s) (next_id s) (runnable_count s)
                       (context_switches s) (u64 (s_ticks s + 1)) (initialized s)), m)
        end
  end.

Definition mcsos_thread_block_current (resume : Z) (sched : ptr mcsos_scheduler) (m : machine) :
    option (Z * ptr mcsos_scheduler * machine) :=
  match sched with
  | NULL => Some (MCSOS_SCHED_EINVAL, sched, m)
  | Ref s =>
      if initialized s =? 0 then Some (MCSOS_SCHED_EINVAL, sched, m)
      else
        ok ← valid_thread_object m (current s);
        match current s with
        | NULL => Some (MCSOS_SCHED_EINVAL, sched, m)
        | Ref c =>
            if negb ok then Some (MCSOS_SCHED_EINVAL, sched, m)
            else if match idle s with Ref i => c =? i | NULL => false end then Some (MCSOS_SCHED_ESTATE, sched, m)
            else
              m ← update m c (fun t => set_state t MCSOS_THREAD_BLOCKED);
              mcsos_sched_yield resume sched m
        end
  end.

Definition mcsos_thread_mark_ready (sched : ptr mcsos_scheduler) (m : machine) (thread : ptr Z) :
    option (Z * ptr mcsos_scheduler * machine) :=
  ok ← valid_thread_object m thread;
  match thread with
  | NULL => Some (MCSOS_SCHED_EINVAL, sched, m)
  | Ref a =>
      if negb ok then Some (MCSOS_SCHED_EINVAL, sched, m)
      else
        t ← threads m !! a;
        if bool_decide (state t <> MCSOS_THREAD_BLOCKED) then Some (MCSOS_SCHED_ESTATE, sched, m)
        else mcsos_sched_enqueue sched m thread
  end.

(** [while (c) { n++; c = c->next; }], [None] when the fuel runs out. *)
Fixpoint count_loop (fuel : nat) (m : machine) (c : ptr Z) (n : Z) : option Z :=
  match c with
  | NULL => Some n
  | Ref a =>
      match fuel with
      | O => None
      | S fuel => t ← threads m !! a; count_loop fuel m (next t) (u64 (n + 1))
      end
  end.

Definition mcsos_sched_ready_count (fuel : nat) (sched : ptr mcsos_scheduler) (m : machine) : option Z :=
  match sched with
  | NULL => Some 0
  | Ref s => if initialized s =? 0 then Some 0 else count_loop fuel m (ready_head s) 0
  end.

(** The loop of [mcsos_sched_validate]: [inl (last, count)] when it ends, [inr rc] when it
    returns. *)
Fixpoint validate_loop (fuel : nat) (s : mcsos_scheduler) (m : machine) (cursor last : ptr Z) (count : Z) :
    option (ptr Z * Z + Z) :=
  match cursor with
  | NULL => Some (inl (last, count))
  | Ref a =>
      match fuel with
      | O => None
      | S fuel =>
          t ← threads m !! a;
          if negb (magic t =? MCSOS_THREAD_MAGIC) || bool_decide (state t <> MCSOS_THREAD_READY)
          then Some (inr MCSOS_SCHED_ECORRUPT)
          else if match current s with Ref c => a =? c | NULL => false end then Some (inr MCSOS_SCHED_ECORRUPT)
          else
            let count := u64 (count + 1) in
            if u64 (runnable_count s + 1) <? count then Some (inr MCSOS_SCHED_ECORRUPT)
            else validate_loop fuel s m (next t) cursor count
      end
  end.

Definition ptr_eqb (p q : ptr Z) : bool :=
  match p, q with NULL, NULL => true | Ref a, Ref b => a =? b | _, _ => false end.

(** The loop makes at most [runnable_count + 2] turns, whatever the list looks like. *)
Definition mcsos_sched_validate (sched : ptr mcsos_scheduler) (m : machine) : option Z :=
  match sched with
  | NULL => Some MCSOS_SCHED_EINVAL
  | Ref s =>
      if initialized s =? 0 then Some MCSOS_SCHED_EINVAL
      else
        ok ← valid_thread_object m (current s);
        if negb ok then Some MCSOS_SCHED_EINVAL
        else
          r ← validate_loop (Z.to_nat (runnable_count s) + 2) s m (ready_head s) NULL 0;
          match r with
          | inr rc => Some rc
          | inl (last, count) =>
              if negb (ptr_eqb last (ready_tail s)) then Some MCSOS_SCHED_ECORRUPT
              else if negb (count =? runnable_count s) then Some MCSOS_SCHED_ECORRUPT
              else Some MCSOS_SCHED_OK
          end
  end.

(** * Specification *)

(** The list that starts at [p] and follows [next] to the null pointer is [q]. *)
Fixpoint chain (T : gmap Z mcsos_thread) (p : ptr Z) (q : list Z) : Prop :=
  match q with
  | [] => p = NULL
  | a :: q => p = Ref a /\ exists t, T !! a = Some t /\ chain T (next t) q
  end.

Definition last_ptr (q : list Z) : ptr Z := match last q with Some a => Ref a | None => NULL end.

(** A thread object without its link. *)
Definition core (t : mcsos_thread) : mcsos_thread := set_next t NULL.
Definition cores (m : machine) : gmap Z mcsos_thread := core <$> threads m.

Definition valid_thread (m : machine) (a : Z) : Prop :=
  exists t, cores m !! a = Some t /\ magic t = MCSOS_THREAD_MAGIC.

(** The scheduler represents: [c] is the current thread, in state [st], [i] is the idle thread and [q] the
    queue of ready threads, first to run first. The current thread is running, or it
    is blocked and about to leave the processor. *)
Record sched_inv (st : mcsos_thread_state) (s : mcsos_scheduler) (m : machine) (c i : Z) (q : list Z) : Prop := {
  si_init : initialized s <> 0;
  si_cur : current s = Ref c;
  si_idle : idle s = Ref i;
  si_chain : chain (threads m) (ready_head s) q;
  si_tail : ready_tail s = last_ptr q;
  si_count : runnable_count s = Z.of_nat (length q);
  si_size : Z.of_nat (size (threads m)) < 2 ^ 63;
  si_valid : Forall (valid_thread m) (c :: i :: q);
  si_ready : forall a t, cores m !! a = Some t -> magic t = MCSOS_THREAD_MAGIC ->
    (state t = MCSOS_THREAD_READY <-> a ∈ q);
  si_running : forall a t, cores m !! a = Some t -> magic t = MCSOS_THREAD_MAGIC -> a <> c ->
    (state t = MCSOS_THREAD_RUNNING <-> a = i);
  si_current : forall t, cores m !! c = Some t -> state t = st;
  si_state : st = MCSOS_THREAD_RUNNING \/ st = MCSOS_THREAD_BLOCKED /\ c <> i
}.

(** The abstract scheduler: who runs, and the ready queue. *)
Record asched := mk_asched { a_cur : Z; a_idle : Z; a_queue : list Z }.

(** The thread that runs next and the rest of the queue. *)
Definition a_next (s : asched) : Z * list Z :=
  match a_queue s with [] => (a_idle s, []) | n :: q => (n, q) end.

(** A running thread goes to the back of the queue, unless it is the idle thread. *)
Definition a_yield (s : asched) : asched :=
  let '(n, q) := a_next s in
  mk_asched n (a_idle s) (q ++ if a_cur s =? a_idle s then [] else [a_cur s]).

(** A blocked thread leaves the processor and does not enter the queue. *)
Definition a_block (s : asched) : asched := let '(n, q) := a_next s in mk_asched n (a_idle s) q.

Definition a_enqueue (s : asched) (a : Z) : asched := mk_asched (a_cur s) (a_idle s) (a_queue s ++ [a]).

Definition represents_sched (s : mcsos_scheduler) (m : machine) (x : asched) : Prop :=
  sched_inv MCSOS_THREAD_RUNNING s m (a_cur x) (a_idle x) (a_queue x).

(** The saved registers of a thread. *)
Definition ctx_of (m : machine) (a : Z) : option mcsos_context := context <$> threads m !! a.

Definition saved (resume : Z) (c : mcsos_context) : mcsos_context :=
  mk_context (rsp c) (rbp c) (rbx c) (r12 c) (r13 c) (r14 c) (r15 c) resume.

(** * Lemmas: linked lists *)

Lemma chain_fun T q : forall p q', chain T p q -> chain T p q' -> q = q'.
Proof.
  induction q as [|a q IH]; intros p [|a' q']; cbn.
  - done.
  - intros -> [? _]. done.
  - intros [-> _]. done.
  - intros [-> (t & Ht & Hq)] [[= <-] (t' & Ht' & Hq')]. rewrite Ht in Ht'. injection Ht' as <-. f_equal. eauto.
Qed.

(** A list that ends has no repetition. *)
Lemma chain_suffix T q1 q2 : forall p, chain T p (q1 ++ q2) -> exists p', chain T p' q2 /\
  (q2 <> [] -> p' = match q2 with a :: _ => Ref a | [] => NULL end).
Proof.
  induction q1 as [|a q1 IH]; intros p; cbn.
  - intros H. exists p. split; [done|]. destruct q2; [done|]. by destruct H as [-> _].
  - intros [_ (t & _ & H)]. eauto.
Qed.

Lemma chain_nodup T q : forall p, chain T p q -> NoDup q.
Proof.
  induction q as [|a q IH]; intros p Hq; [constructor|]. constructor; [|by destruct Hq as [_ (t & _ & ?)]; eauto].
  intros Hin. apply list_elem_of_split in Hin as (l1 & l2 & ->).
  destruct (chain_suffix T (a :: l1) (a :: l2) p Hq) as (p' & Hs & Hp'). specialize (Hp' ltac:(done)). subst p'.
  destruct Hq as [-> Hq]. assert (Heq : a :: l2 = a :: l1 ++ a :: l2).
  { apply (chain_fun T (a :: l2) (Ref a)); [done|]. split; [done|]. done. }
  apply (f_equal length) in Heq. cbn in Heq. rewrite length_app in Heq. cbn in Heq. lia.
Qed.

Lemma chain_in T q : forall p a, chain T p q -> a ∈ q -> is_Some (T !! a).
Proof.
  induction q as [|b q IH]; intros p a; cbn; [set_solver|]. intros [_ (t & Ht & Hq)] [->|Hin]%elem_of_cons; eauto.
Qed.

(** A list depends only on the links of its members. *)
Lemma chain_ext T T' q : forall p,
  (forall a, a ∈ q -> next <$> T' !! a = next <$> T !! a) -> chain T p q -> chain T' p q.
Proof.
  induction q as [|a q IH]; intros p Hs; cbn; [done|]. intros [-> (t & Ht & Hq)]. split; [done|].
  pose proof (Hs a ltac:(set_solver)) as Ha. rewrite Ht in Ha. destruct (T' !! a) as [t'|]; [|done].
  injection Ha as Ha. exists t'. split; [done|]. rewrite Ha. apply IH; [|done]. intros. apply Hs. set_solver.
Qed.

(** Appending a thread: the old last one points to it. *)
Lemma chain_snoc T T' q a t : forall p,
  chain T p q -> NoDup q -> a ∉ q -> T' !! a = Some t -> next t = NULL ->
  (forall b, b ∈ q -> next <$> T' !! b = if decide (last q = Some b) then Some (Ref a) else next <$> T !! b) ->
  chain T' (match q with [] => Ref a | _ => p end) (q ++ [a]).
Proof.
  induction q as [|b q IH]; intros p Hq Hnd Ha Ht Hn Hs; cbn.
  - split; [done|]. exists t. done.
  - destruct Hq as [-> (tb & Htb & Hq)]. split; [done|]. apply NoDup_cons in Hnd as [Hb Hnd].
    pose proof (Hs b ltac:(set_solver)) as Hsb. rewrite Htb in Hsb.
    destruct (T' !! b) as [tb'|] eqn:Eb; [|by case_decide]. exists tb'. split; [done|].
    assert (Hsq : forall b', b' ∈ q -> next <$> T' !! b' =
      if decide (last q = Some b') then Some (Ref a) else next <$> T !! b').
    { intros b' Hb'. rewrite Hs by set_solver. destruct q as [|x q]; [set_solver|]. done. }
    pose proof (IH (next tb) Hq Hnd ltac:(set_solver) Ht Hn Hsq) as Hc. cbn in Hsb.
    destruct q as [|x q].
    + rewrite decide_True in Hsb by done. injection Hsb as ->. done.
    + rewrite decide_False in Hsb; [by injection Hsb as ->|].
      intros Hl. change (last (b :: x :: q)) with (last (x :: q)) in Hl. apply last_Some_elem_of in Hl. done.
Qed.

Lemma last_ptr_snoc q a : last_ptr (q ++ [a]) = Ref a.
Proof. unfold last_ptr. by rewrite last_snoc. Qed.

(** * Lemmas: single operations on the heap *)

Lemma update_spec m a t f :
  threads m !! a = Some t -> update m a f = Some (mk_machine (<[a := f t]> (threads m)) (cpu m)).
Proof. intros H. unfold update. by rewrite H. Qed.

Lemma cores_Some m a t : threads m !! a = Some t -> cores m !! a = Some (core t).
Proof. intros H. unfold cores. by rewrite lookup_fmap, H. Qed.

Lemma cores_inv m a t : cores m !! a = Some t -> exists t', threads m !! a = Some t' /\ core t' = t.
Proof. unfold cores. rewrite lookup_fmap. destruct (threads m !! a) as [t'|]; [|done]. intros [= <-]. eauto. Qed.

Lemma valid_object_spec m a t :
  threads m !! a = Some t -> magic t = MCSOS_THREAD_MAGIC -> valid_thread_object m (Ref a) = Some true.
Proof. intros H Hm. unfold valid_thread_object. rewrite H. cbn. rewrite Hm. done. Qed.

(** The threads of a list are distinct objects of the heap. *)
Lemma chain_length T p q : chain T p q -> (length q <= size T)%nat.
Proof.
  intros Hq. rewrite <- size_dom. rewrite <- (size_list_to_set (C := gset Z) q) by by eapply chain_nodup.
  apply subseteq_size. intros a Ha%elem_of_list_to_set. apply elem_of_dom. by eapply chain_in.
Qed.

Definition new_head (h : ptr Z) (q : list Z) (a : Z) : ptr Z := match q with [] => Ref a | _ => h end.

Lemma enqueue_raw s m q a t :
  initialized s <> 0 -> chain (threads m) (ready_head s) q -> ready_tail s = last_ptr q ->
  runnable_count s = Z.of_nat (length q) -> Z.of_nat (size (threads m)) < 2 ^ 63 -> a ∉ q ->
  threads m !! a = Some t -> magic t = MCSOS_THREAD_MAGIC ->
  (state t = MCSOS_THREAD_NEW \/ state t = MCSOS_THREAD_READY \/ state t = MCSOS_THREAD_BLOCKED) ->
  exists T', mcsos_sched_enqueue (Ref s) m (Ref a) =
      Some (MCSOS_SCHED_OK, Ref (set_queue s (new_head (ready_head s) q a) (Ref a) (runnable_count s + 1)),
            mk_machine T' (cpu m)) /\
    chain T' (new_head (ready_head s) q a) (q ++ [a]) /\
    core <$> T' = <[a := core (set_state t MCSOS_THREAD_READY)]> (cores m).
Proof.
  intros Hi Hq Htl Hc Hsz Ha Ht Hm Hst. unfold mcsos_sched_enqueue. rw_false (initialized s =? 0).
  rewrite (valid_object_spec m a t) by done. cbn [mbind option_bind negb]. rewrite Ht. cbn [mbind option_bind].
  assert ((bool_decide (state t <> MCSOS_THREAD_NEW) && bool_decide (state t <> MCSOS_THREAD_READY) &&
    bool_decide (state t <> MCSOS_THREAD_BLOCKED)) = false) as -> by (by destruct Hst as [-> | [-> | ->] ]).
  rewrite (update_spec m a t) by done. cbn [mbind option_bind].
  pose proof (chain_length _ _ _ Hq). rewrite u64_small by ulia. rewrite Htl.
  set (ta := set_next (set_state t MCSOS_THREAD_READY) NULL). unfold last_ptr.
  destruct (last q) as [b|] eqn:El.
  - assert (Hb : b ∈ q) by by apply last_Some_elem_of. assert (Hab : a <> b) by congruence.
    destruct (chain_in _ _ _ b Hq Hb) as [tb Htb].
    rewrite (update_spec _ b tb) by (cbn; by rewrite lookup_insert_ne). cbn [mbind option_bind threads cpu].
    destruct q as [|x q]; [done|]. eexists. split; [done|]. split.
    + apply (chain_snoc (threads m) _ (x :: q) a ta); [done|by eapply chain_nodup|done| |done|].
      * rewrite lookup_insert_ne, lookup_insert_eq by done. done.
      * intros b' Hb'. rewrite El. case_decide as Hd.
        -- injection Hd as <-. by rewrite lookup_insert_eq.
        -- rewrite !lookup_insert_ne by congruence. done.
    + apply map_eq. intros y. rewrite lookup_fmap. unfold cores. destruct (decide (y = b)) as [->|].
      * rewrite lookup_insert_eq, lookup_insert_ne, lookup_fmap, Htb by done. done.
      * rewrite lookup_insert_ne by done. destruct (decide (y = a)) as [->|].
        -- by rewrite !lookup_insert_eq.
        -- by rewrite !lookup_insert_ne, lookup_fmap by done.
  - apply last_None in El as ->. eexists. split; [done|]. split.
    + cbn. split; [done|]. exists ta. by rewrite lookup_insert_eq.
    + unfold cores. by rewrite fmap_insert.
Qed.

Lemma pick_next_raw s m i q :
  initialized s <> 0 -> idle s = Ref i -> chain (threads m) (ready_head s) q -> ready_tail s = last_ptr q ->
  runnable_count s = Z.of_nat (length q) ->
  exists h T', mcsos_sched_pick_next (Ref s) m =
    Some (Ref (match q with [] => i | n :: _ => n end),
          Ref (set_queue s h (last_ptr (tail q)) (Z.of_nat (length (tail q)))), mk_machine T' (cpu m)) /\
    chain T' h (tail q) /\ core <$> T' = cores m.
Proof.
  intros Hi Hid Hq Htl Hc. unfold mcsos_sched_pick_next. rw_false (initialized s =? 0). destruct q as [|n q].
  - cbn in Hq. rewrite Hq, Hid. exists NULL, (threads m). split; [|done].
    destruct s, m; cbn in *. unfold set_queue. cbn. subst. done.
  - destruct Hq as [-> (t & Ht & Hq)]. rewrite Ht. cbn [mbind option_bind].
    rewrite (update_spec m n t) by done. cbn [mbind option_bind].
    exists (next t), (<[n := set_next t NULL]> (threads m)). cbn [tail].
    assert (Hnd : NoDup (n :: q)) by (apply (chain_nodup (threads m) _ (Ref n)); split; eauto).
    apply NoDup_cons in Hnd as [Hn _].
    split_and!.
    + assert ((if 0 <? runnable_count s then runnable_count s - 1 else runnable_count s) = Z.of_nat (length q)) as ->
        by (rewrite Hc; cbn [length]; rw_true (0 <? Z.of_nat (S (length q))); lia).
      do 4 f_equal. rewrite Htl. destruct q as [|x q]; cbn in Hq; [by rewrite Hq|]. destruct Hq as [-> _]. done.
    + apply (chain_ext (threads m)); [|done]. intros b Hb. rewrite lookup_insert_ne; [done|]. congruence.
    + apply map_eq. intros y. unfold cores. rewrite !lookup_fmap. destruct (decide (y = n)) as [->|].
      * by rewrite lookup_insert_eq, Ht.
      * by rewrite lookup_insert_ne.
Qed.

(** An update that keeps the link keeps the lists. *)
Lemma chain_update T a t t' p q :
  T !! a = Some t -> next t' = next t -> chain T p q -> chain (<[a := t']> T) p q.
Proof.
  intros Ht Hn. apply chain_ext. intros b _. destruct (decide (b = a)) as [->|].
  - rewrite lookup_insert_eq, Ht. cbn. by rewrite Hn.
  - by rewrite lookup_insert_ne.
Qed.

Lemma core_insert (T : gmap Z mcsos_thread) (a : Z) t : core <$> <[a := t]> T = <[a := core t]> (core <$> T).
Proof. apply fmap_insert. Qed.

Lemma core_size (T T' : gmap Z mcsos_thread) : dom (core <$> T') = dom (core <$> T) -> size T' = size T.
Proof. rewrite !dom_fmap_L. intros H. by rewrite <- !size_dom, H. Qed.

(** * Lemmas: the scheduler's calls *)

Section sched.
Context {st : mcsos_thread_state} {s : mcsos_scheduler} {m : machine} {c i : Z} {q : list Z}.
Hypothesis Hinv : sched_inv st s m c i q.

Lemma inv_valid a : a = c \/ a = i \/ a ∈ q ->
  exists t, threads m !! a = Some t /\ magic t = MCSOS_THREAD_MAGIC.
Proof.
  intros Ha. pose proof (si_valid _ _ _ _ _ _ Hinv) as Hv.
  destruct (proj1 (Forall_forall _ _) Hv a) as (t & (t' & Ht & <-)%cores_inv & Hm); [set_solver|]. by exists t'.
Qed.

Lemma inv_current_not_queued : c ∉ q.
Proof.
  intros Hin. destruct (inv_valid c) as (t & Ht & Hm); [auto|]. apply cores_Some in Ht.
  pose proof (si_current _ _ _ _ _ _ Hinv _ Ht) as Hst. apply (si_ready _ _ _ _ _ _ Hinv _ _ Ht Hm) in Hin.
  destruct (si_state _ _ _ _ _ _ Hinv) as [?|[? _]]; congruence.
Qed.

Lemma inv_idle_not_queued : i ∉ q.
Proof.
  intros Hin. destruct (decide (i = c)) as [Heq|Hne]; [rewrite Heq in Hin; by apply inv_current_not_queued|].
  destruct (inv_valid i) as (t & Ht & Hm); [auto|]. apply cores_Some in Ht.
  apply (si_ready _ _ _ _ _ _ Hinv _ _ Ht Hm) in Hin.
  pose proof (proj2 (si_running _ _ _ _ _ _ Hinv _ _ Ht Hm Hne) eq_refl). congruence.
Qed.

(** Adding a thread that is new or blocked. *)
Lemma enqueue_spec a t :
  threads m !! a = Some t -> magic t = MCSOS_THREAD_MAGIC -> st = MCSOS_THREAD_RUNNING ->
  (state t = MCSOS_THREAD_NEW \/ state t = MCSOS_THREAD_BLOCKED) ->
  exists s' m', mcsos_sched_enqueue (Ref s) m (Ref a) = Some (MCSOS_SCHED_OK, Ref s', m') /\
    sched_inv st s' m' c i (q ++ [a]) /\ cpu m' = cpu m /\ (forall b, ctx_of m' b = ctx_of m b) /\
    cores m' = <[a := core (set_state t MCSOS_THREAD_READY)]> (cores m).
Proof.
  intros Ht Hm Hrun Hst. pose proof Hinv as [H1 H2 H3 H4 H5 H6 H7 H8 H9 H10 H11 H12].
  assert (Ha : a ∉ q).
  { intros Hin. apply (H9 a _ (cores_Some _ _ _ Ht) Hm) in Hin. cbn in Hin. destruct Hst; congruence. }
  assert (Hac : a <> c).
  { intros ->. pose proof (H11 _ (cores_Some _ _ _ Ht)) as Hc. cbn in Hc. destruct Hst; congruence. }
  destruct (enqueue_raw s m q a t) as (T' & -> & Hch & Hco); try done; [tauto|].
  eexists _, _. split; [done|].
  assert (Hctx : forall b, ctx_of (mk_machine T' (cpu m)) b = ctx_of m b).
  { intros b. unfold ctx_of. cbn. assert (He : core <$> T' !! b = <[a := core (set_state t MCSOS_THREAD_READY)]> (cores m) !! b)
      by (rewrite <- Hco; by rewrite lookup_fmap).
    destruct (decide (b = a)) as [->|].
    - rewrite lookup_insert_eq in He. destruct (T' !! a) as [t'|]; [|done].
      rewrite Ht. by apply (f_equal (fmap context)) in He.
    - rewrite lookup_insert_ne in He by done. unfold cores in He. rewrite lookup_fmap in He.
      destruct (T' !! b), (threads m !! b); try done. apply (f_equal (fmap context)) in He. done. }
  split; [|split_and!; [done|done|exact Hco]]. split; cbn; try done.
  - by rewrite last_ptr_snoc.
  - rewrite H6, length_app. cbn. lia.
  - rewrite (core_size (threads m) T'); [done|]. rewrite Hco. unfold cores. rewrite dom_insert_L.
    assert (a ∈ dom (core <$> threads m)) by (apply elem_of_dom; rewrite lookup_fmap, Ht; by eexists). set_solver.
  - unfold valid_thread, cores. cbn. rewrite Hco. apply Forall_forall. intros b Hb. destruct (decide (b = a)) as [->|].
    + exists (core (set_state t MCSOS_THREAD_READY)). by rewrite lookup_insert_eq.
    + rewrite lookup_insert_ne by done. apply (proj1 (Forall_forall _ _) H8). set_solver.
  - unfold cores. cbn. rewrite Hco. intros b tb. destruct (decide (b = a)) as [->|].
    + rewrite lookup_insert_eq. intros [= <-] _. cbn. set_solver.
    + rewrite lookup_insert_ne by done. intros Hb Hmb. rewrite (H9 b tb) by done. set_solver.
  - unfold cores. cbn. rewrite Hco. intros b tb. destruct (decide (b = a)) as [->|].
    + rewrite lookup_insert_eq. intros [= <-] _ _. cbn. split; [done|]. intros ->.
      pose proof (proj2 (H10 i _ (cores_Some _ _ _ Ht) Hm Hac) eq_refl) as Hi. cbn in Hi. destruct Hst; congruence.
    + rewrite lookup_insert_ne by done. apply H10.
  - unfold cores. cbn. rewrite Hco. intros tb. rewrite lookup_insert_ne by done. apply H11.
Qed.

(** The thread that runs next, and what stays in the queue. *)
Definition next_of : Z := match q with [] => i | n :: _ => n end.
Definition requeued : list Z := if bool_decide (st = MCSOS_THREAD_RUNNING) && negb (c =? i) then [c] else [].

Lemma next_valid : exists t, threads m !! next_of = Some t /\ magic t = MCSOS_THREAD_MAGIC.
Proof. apply inv_valid. unfold next_of. destruct q; set_solver. Qed.

Lemma next_not_rest : next_of ∉ tail q.
Proof.
  pose proof (chain_nodup _ _ _ (si_chain _ _ _ _ _ _ Hinv)) as Hnd. unfold next_of.
  pose proof inv_idle_not_queued. destruct q; [done|]. by apply NoDup_cons in Hnd as [? _].
Qed.

Lemma next_in_queue a : a ∈ q <-> (a = next_of /\ q <> []) \/ a ∈ tail q.
Proof. unfold next_of. destruct q; set_solver. Qed.

(** The state after a switch to another thread. *)
Lemma switch_inv s' m' tc tn :
  next_of <> c -> initialized s' <> 0 -> current s' = Ref next_of -> idle s' = Ref i ->
  chain (threads m') (ready_head s') (tail q ++ requeued) -> ready_tail s' = last_ptr (tail q ++ requeued) ->
  runnable_count s' = Z.of_nat (length (tail q ++ requeued)) ->
  (forall a, a <> c -> a <> next_of -> cores m' !! a = cores m !! a) ->
  cores m' !! c = Some tc -> magic tc = MCSOS_THREAD_MAGIC ->
  state tc = (if decide (requeued = []) then st else MCSOS_THREAD_READY) ->
  cores m' !! next_of = Some tn -> magic tn = MCSOS_THREAD_MAGIC -> state tn = MCSOS_THREAD_RUNNING ->
  sched_inv MCSOS_THREAD_RUNNING s' m' next_of i (tail q ++ requeued).
Proof.
  intros Hne A1 A2 A3 A4 A5 A6 Hsame Hc Hcm Hcs Hn Hnm Hns.
  pose proof Hinv as [_ _ _ _ _ _ H7 H8 H9 H10 _ H12].
  pose proof inv_current_not_queued as Hcq. pose proof next_not_rest as Hnr. pose proof inv_idle_not_queued as Hiq.
  assert (Hct : c ∉ tail q) by (intros Hx; apply Hcq, next_in_queue; auto).
  assert (Hreq : forall a, a ∈ requeued -> a = c) by
    (intros a; unfold requeued; destruct (_ && _); [by intros ->%list_elem_of_singleton|by intros ?%elem_of_nil]).
  assert (Hnq : next_of ∉ requeued) by (intros Hx%Hreq; done).
  split; try done.
  - rewrite (core_size (threads m) (threads m')); [done|]. apply set_eq. intros a. rewrite !elem_of_dom.
    change (core <$> threads m') with (cores m'). change (core <$> threads m) with (cores m).
    destruct (inv_valid c) as (t & Ht & _); [auto|]. destruct next_valid as (t' & Ht' & _).
    destruct (decide (a = c)) as [->|]; [rewrite Hc, (cores_Some _ _ _ Ht); split; intros; by eexists|].
    destruct (decide (a = next_of)) as [->|]; [rewrite Hn, (cores_Some _ _ _ Ht'); split; intros; by eexists|].
    by rewrite Hsame.
  - apply Forall_forall. intros a Ha. unfold valid_thread.
    destruct (decide (a = c)) as [->|]; [by exists tc|]. destruct (decide (a = next_of)) as [->|]; [by exists tn|].
    rewrite Hsame by done. apply (proj1 (Forall_forall _ _) H8). rewrite !elem_of_cons, next_in_queue in *.
    rewrite elem_of_app in Ha. naive_solver.
  - intros a t Ha Hm. rewrite elem_of_app. destruct (decide (a = c)) as [->|].
    + rewrite Hc in Ha. injection Ha as <-. rewrite Hcs. unfold requeued in *.
      destruct (bool_decide _ && _); [set_solver|]. rewrite decide_True by done.
      split; [|set_solver]. destruct H12 as [?|[? _]]; congruence.
    + destruct (decide (a = next_of)) as [->|].
      * rewrite Hn in Ha. injection Ha as <-. rewrite Hns. set_solver.
      * rewrite Hsame in Ha by done. rewrite (H9 a t), next_in_queue by done. naive_solver.
  - intros a t Ha Hm Han. destruct (decide (a = c)) as [->|].
    + rewrite Hc in Ha. injection Ha as <-. rewrite Hcs. unfold requeued.
      destruct (Z.eqb_spec c i); cbn [negb]; rewrite ?andb_false_r, ?andb_true_r.
      * rewrite decide_True by done. destruct H12 as [?|[_ ?]]; tauto.
      * destruct H12 as [->|[-> _]]; cbn; naive_solver.
    + rewrite Hsame in Ha by done. by apply H10.
  - intros t Ht. congruence.
  - by left.
Qed.

(** The last part of [mcsos_sched_yield]. *)
Lemma run_raw {B} (resume : Z) (mm : machine) (old nx : Z) told tnx (k : machine -> option B) :
  nx <> old -> threads mm !! old = Some told -> threads mm !! nx = Some tnx ->
  (m ← update mm nx (fun t => set_state t MCSOS_THREAD_RUNNING);
   m ← update m old inc_switches; m ← update m nx inc_switches;
   m ← mcsos_context_switch resume m old nx; k m) =
  k (mk_machine
    (<[old := set_context (inc_switches told) (saved resume (cpu mm))]>
       (<[nx := inc_switches (set_state tnx MCSOS_THREAD_RUNNING)]> (threads mm))) (context tnx)).
Proof.
  intros Hne Ho Hn. rewrite (update_spec _ _ tnx) by done. cbn [mbind option_bind].
  rewrite (update_spec _ old told) by (cbn; by rewrite lookup_insert_ne). cbn [mbind option_bind threads cpu].
  rewrite (update_spec _ nx (set_state tnx MCSOS_THREAD_RUNNING)) by
    (cbn; by rewrite lookup_insert_ne, lookup_insert_eq). cbn [mbind option_bind threads cpu].
  unfold mcsos_context_switch. rewrite (update_spec _ old (inc_switches told)) by
    (cbn; by rewrite lookup_insert_ne, lookup_insert_eq). cbn [mbind option_bind threads cpu].
  rewrite lookup_insert_ne, lookup_insert_eq by done. cbn [mbind option_bind]. do 2 f_equal.
  apply map_eq. intros b. destruct (decide (b = old)) as [->|]; [by rewrite !lookup_insert_eq|].
  rewrite !(lookup_insert_ne _ old) by done. destruct (decide (b = nx)) as [->|]; [by rewrite !lookup_insert_eq|].
  by rewrite !lookup_insert_ne.
Qed.

(** Leaving the processor: the queue, before the next thread is resumed. *)
Lemma requeue_raw s1 T1 h tc :
  next_of <> c -> s1 = set_queue s h (last_ptr (tail q)) (Z.of_nat (length (tail q))) ->
  chain T1 h (tail q) -> core <$> T1 = cores m -> T1 !! c = Some tc ->
  exists h' T2 tc2,
    (if bool_decide (state tc = MCSOS_THREAD_RUNNING) &&
        match idle s with Ref i => negb (c =? i) | NULL => true end then
       m ← update (mk_machine T1 (cpu m)) c (fun t => set_state t MCSOS_THREAD_READY);
       mcsos_sched_enqueue (Ref s1) m (Ref c)
     else Some (MCSOS_SCHED_OK, Ref s1, mk_machine T1 (cpu m))) =
      Some (MCSOS_SCHED_OK,
        Ref (set_queue s h' (last_ptr (tail q ++ requeued)) (Z.of_nat (length (tail q ++ requeued)))),
        mk_machine T2 (cpu m)) /\
    chain T2 h' (tail q ++ requeued) /\ core <$> T2 = <[c := core tc2]> (cores m) /\
    T2 !! c = Some tc2 /\ magic tc2 = magic tc /\ context tc2 = context tc /\
    state tc2 = (if decide (requeued = []) then st else MCSOS_THREAD_READY).
Proof.
  intros Hne Hs1 Hch Hco Htc. pose proof Hinv as [H1 H2 H3 H4 H5 H6 H7 H8 H9 H10 H11 H12].
  assert (Hcc : cores m !! c = Some (core tc)) by (rewrite <- Hco; by rewrite lookup_fmap, Htc).
  pose proof (H11 _ Hcc) as Hstc. cbn in Hstc. rewrite Hstc, H3.
  destruct (inv_valid c) as (t0 & Ht0 & Hm0); [auto|].
  assert (Hmc : magic tc = MCSOS_THREAD_MAGIC).
  { apply cores_Some in Ht0. rewrite Ht0 in Hcc. by apply (f_equal (fmap magic)) in Hcc; injection Hcc as <-. }
  unfold requeued. destruct (bool_decide (st = MCSOS_THREAD_RUNNING) && negb (c =? i)) eqn:Eb.
  - assert (Hnc : c ∉ tail q).
    { intros Hx. apply inv_current_not_queued, next_in_queue. auto. }
    rewrite (update_spec _ c tc) by done. cbn [mbind option_bind threads cpu].
    assert (Hsz : size (<[c := set_state tc MCSOS_THREAD_READY]> T1) = size (threads m)).
    { rewrite <- (core_size (threads m) T1) by (by rewrite Hco). rewrite map_size_insert_Some by (by eexists). done. }
    destruct (enqueue_raw s1 (mk_machine (<[c := set_state tc MCSOS_THREAD_READY]> T1) (cpu m)) (tail q) c
      (set_state tc MCSOS_THREAD_READY)) as (T2 & -> & Hch2 & Hco2); cbn; try (subst s1; done); auto.
    + subst s1. by apply (chain_update _ _ tc).
    + by rewrite Hsz.
    + by rewrite lookup_insert_eq.
    + subst s1. cbn. unfold cores in Hco2. cbn in Hco2. rewrite core_insert, insert_insert_eq, Hco in Hco2.
      assert (Hl : core <$> T2 !! c = Some (core (set_state (set_state tc MCSOS_THREAD_READY) MCSOS_THREAD_READY)))
        by (rewrite <- lookup_fmap, Hco2; by rewrite lookup_insert_eq).
      destruct (T2 !! c) as [tc2|] eqn:E2; [|done]. cbn in Hl.
      eexists _, T2, tc2. split_and!; [| |rewrite Hco2; f_equal; congruence|done|..].
      * rewrite last_ptr_snoc, length_app. cbn [length]. unfold set_queue. cbn. do 5 f_equal. lia.
      * exact Hch2.
      * by apply (f_equal (fmap magic)) in Hl; injection Hl.
      * by apply (f_equal (fmap context)) in Hl; injection Hl.
      * by apply (f_equal (fmap state)) in Hl; injection Hl.
  - rewrite app_nil_r. exists h, T1, tc. subst s1. split_and!; try done.
    rewrite insert_id; [done|]. by rewrite Hcc.
Qed.

(** The idle thread, alone, yields to itself. *)
Lemma self_yield T1 h tc (resume : Z) :
  next_of = c -> chain T1 h (tail q) -> core <$> T1 = cores m -> T1 !! c = Some tc ->
  let s' := set_queue s h (last_ptr (tail q)) (Z.of_nat (length (tail q))) in
  let m' := mk_machine (<[c := set_state tc MCSOS_THREAD_RUNNING]> T1) (cpu m) in
  sched_inv MCSOS_THREAD_RUNNING s' m' next_of i (tail q ++ requeued) /\
  Some (cpu m') = (if decide (next_of = c) then Some (cpu m) else ctx_of m next_of) /\
  (forall a, ctx_of m' a = if decide (a = c /\ next_of <> c) then Some (saved resume (cpu m)) else ctx_of m a).
Proof.
  intros He Hch Hco Htc. pose proof Hinv as [H1 H2 H3 H4 H5 H6 H7 H8 H9 H10 H11 H12].
  assert (Hq : q = [] /\ c = i).
  { unfold next_of in He. pose proof inv_current_not_queued. destruct q; [done|]. set_solver. }
  destruct Hq as [Hq Hci]. assert (Hrun : st = MCSOS_THREAD_RUNNING) by (destruct H12 as [?|[_ ?]]; done).
  assert (Hcc : cores m !! c = Some (core tc)) by (rewrite <- Hco; by rewrite lookup_fmap, Htc).
  assert (Hst : state tc = MCSOS_THREAD_RUNNING) by (pose proof (H11 _ Hcc) as Hx; cbn in Hx; congruence).
  assert (set_state tc MCSOS_THREAD_RUNNING = tc) as Hset by (rewrite <- Hst; by destruct tc).
  cbn zeta. rewrite Hset, insert_id by done.
  assert (Hcores : cores (mk_machine T1 (cpu m)) = cores m) by done.
  assert (requeued = []) as -> by (unfold requeued; rewrite Hci, Z.eqb_refl; by rewrite andb_false_r).
  rewrite app_nil_r. split_and!.
  - rewrite He. rewrite Hq in *. split; try done.
    + cbn. by rewrite (core_size (threads m) T1) by (by rewrite Hco).
    + apply Forall_forall. intros a Ha. unfold valid_thread. rewrite Hcores.
      apply (proj1 (Forall_forall _ _) H8). set_solver.
    + rewrite Hcores. apply H9.
    + rewrite Hcores. apply H10.
    + rewrite Hcores. intros t Ht. rewrite (H11 t Ht). done.
    + by left.
  - by rewrite decide_True.
  - intros a. rewrite decide_False by tauto. unfold ctx_of. cbn.
    assert (Hl : core <$> T1 !! a = core <$> threads m !! a) by (rewrite <- !lookup_fmap, Hco; done).
    apply (f_equal (fmap context)) in Hl. by destruct (T1 !! a), (threads m !! a).
Qed.

Lemma yield_spec (resume : Z) :
  exists s' m', mcsos_sched_yield resume (Ref s) m = Some (MCSOS_SCHED_OK, Ref s', m') /\
    sched_inv MCSOS_THREAD_RUNNING s' m' next_of i (tail q ++ requeued) /\
    Some (cpu m') = (if decide (next_of = c) then Some (cpu m) else ctx_of m next_of) /\
    (forall a, ctx_of m' a = if decide (a = c /\ next_of <> c) then Some (saved resume (cpu m)) else ctx_of m a).
Proof.
  pose proof Hinv as [H1 H2 H3 H4 H5 H6 H7 H8 H9 H10 H11 H12]. unfold mcsos_sched_yield.
  rw_false (initialized s =? 0). destruct (inv_valid c) as (tc0 & Htc0 & Hmc0); [auto|].
  rewrite H2, (valid_object_spec m c tc0) by done. cbn [mbind option_bind negb].
  destruct (pick_next_raw s m i q) as (h & T1 & -> & Hch & Hco); try done. cbn [mbind option_bind]. fold next_of.
  destruct next_valid as (tn0 & Htn0 & Hmn0).
  assert (HT1 : forall a t, threads m !! a = Some t -> exists t', T1 !! a = Some t' /\ core t' = core t).
  { intros a t Ha. apply cores_Some in Ha. rewrite <- Hco in Ha. apply lookup_fmap_Some in Ha as (t' & ? & ?). eauto. }
  destruct (HT1 _ _ Htn0) as (tn & Htn & Hcn). destruct (HT1 _ _ Htc0) as (tc & Htc & Hcc).
  rewrite (valid_object_spec _ next_of tn); [|done|by apply (f_equal magic) in Hcn; cbn in Hcn; rewrite Hcn].
  cbn [mbind option_bind negb]. destruct (Z.eqb_spec next_of c) as [He|Hne].
  - (* the idle thread yields to itself *)
    rewrite (update_spec _ c tc) by done. cbn [mbind option_bind threads cpu]. eexists _, _. split; [done|].
    by apply (self_yield T1 h tc).
  - cbn [threads]. rewrite Htc. cbn [mbind option_bind].
    destruct (requeue_raw _ T1 h tc Hne eq_refl Hch Hco Htc)
      as (h' & T2 & tc2 & -> & Hch2 & Hco2 & Htc2 & Hmc2 & Hctx2 & Hst2).
    cbn [mbind option_bind]. change (negb (MCSOS_SCHED_OK =? MCSOS_SCHED_OK)) with false. cbn iota.
    assert (Hn2 : exists tn2, T2 !! next_of = Some tn2 /\ core tn2 = core tn0).
    { assert (Hl : core <$> T2 !! next_of = Some (core tn0)) by
        (rewrite <- lookup_fmap, Hco2, lookup_insert_ne by done; by apply cores_Some).
      destruct (T2 !! next_of) as [tn2|]; [|done]. exists tn2. split; [done|]. cbn in Hl. congruence. }
    destruct Hn2 as (tn2 & Htn2 & Hcn2).
    cbn [mbind option_bind]. rewrite (run_raw resume (mk_machine T2 (cpu m)) c next_of tc2 tn2) by done.
    eexists _, _. split; [done|]. split; [|split].
    + apply (switch_inv _ _ (core (set_context (inc_switches tc2) (saved resume (cpu m))))
        (core (inc_switches (set_state tn2 MCSOS_THREAD_RUNNING)))); try done.
      * apply (chain_update _ c tc2); [by rewrite lookup_insert_ne|done|].
        by apply (chain_update _ next_of tn2).
      * intros a Hac Han. unfold cores. cbn. rewrite lookup_fmap, !lookup_insert_ne by done.
        rewrite <- lookup_fmap, Hco2. by rewrite lookup_insert_ne.
      * unfold cores. cbn. by rewrite lookup_fmap, lookup_insert_eq.
      * cbn. apply (f_equal magic) in Hcc. cbn in Hcc. congruence.
      * unfold cores. cbn. by rewrite lookup_fmap, lookup_insert_ne, lookup_insert_eq.
      * cbn. apply (f_equal magic) in Hcn2. cbn in Hcn2. congruence.
    + cbn. rewrite decide_False by done. unfold ctx_of. rewrite Htn0. cbn. f_equal. by apply (f_equal context) in Hcn2.
    + intros a. unfold ctx_of. cbn [threads]. destruct (decide (a = c)) as [->|Hac].
      * rewrite decide_True by done. by rewrite lookup_insert_eq.
      * rewrite decide_False by tauto. rewrite lookup_insert_ne by done. destruct (decide (a = next_of)) as [->|Han].
        -- rewrite lookup_insert_eq, Htn0. cbn. f_equal. by apply (f_equal context) in Hcn2.
        -- rewrite lookup_insert_ne by done.
           assert (Hl : core <$> T2 !! a = core <$> threads m !! a).
           { rewrite <- !lookup_fmap, Hco2. by rewrite lookup_insert_ne. }
           apply (f_equal (fmap context)) in Hl. by destruct (T2 !! a), (threads m !! a).
Qed.
End sched.

(** * Lemmas: the scheduler refines the abstract one *)

(** Calls of the scheduler. *)
Inductive sched_op := Enqueue (a : Z) | MarkReady (a : Z) | Yield | BlockCurrent | Tick.

Definition sched_exec (resume : Z) (s : mcsos_scheduler) (m : machine) (o : sched_op) :
    option (Z * ptr mcsos_scheduler * machine) :=
  match o with
  | Enqueue a => mcsos_sched_enqueue (Ref s) m (Ref a)
  | MarkReady a => mcsos_thread_mark_ready (Ref s) m (Ref a)
  | Yield => mcsos_sched_yield resume (Ref s) m
  | BlockCurrent => mcsos_thread_block_current resume (Ref s) m
  | Tick => mcsos_sched_tick (Ref s) m
  end.

(** The steps of the abstract scheduler, with the status of the call. *)
Inductive asched_step : asched -> sched_op -> Z -> asched -> Prop :=
| as_enqueue x a : a ∉ a_cur x :: a_idle x :: a_queue x ->
    asched_step x (Enqueue a) MCSOS_SCHED_OK (a_enqueue x a)
| as_enqueue_err x a rc : rc = MCSOS_SCHED_EINVAL \/ rc = MCSOS_SCHED_ESTATE ->
    asched_step x (Enqueue a) rc x
| as_wake x a : a ∉ a_cur x :: a_idle x :: a_queue x ->
    asched_step x (MarkReady a) MCSOS_SCHED_OK (a_enqueue x a)
| as_wake_err x a rc : rc = MCSOS_SCHED_EINVAL \/ rc = MCSOS_SCHED_ESTATE ->
    asched_step x (MarkReady a) rc x
| as_yield x : asched_step x Yield MCSOS_SCHED_OK (a_yield x)
| as_block x : a_cur x <> a_idle x -> asched_step x BlockCurrent MCSOS_SCHED_OK (a_block x)
| as_block_idle x : a_cur x = a_idle x -> asched_step x BlockCurrent MCSOS_SCHED_ESTATE x
| as_tick x : asched_step x Tick MCSOS_SCHED_OK x.

(** The object exists, and a thread that is ready (and queued) already is not enqueued again. *)
Definition sched_op_ok (m : machine) (o : sched_op) : Prop :=
  match o with
  | Enqueue a => exists t, threads m !! a = Some t /\ state t <> MCSOS_THREAD_READY
  | MarkReady a => is_Some (threads m !! a)
  | _ => True
  end.

(** The object may be (re)initialised: it is no valid thread, or one that is neither
    running nor ready. *)
Definition unused_thread (m : machine) (a : Z) : Prop :=
  exists t, threads m !! a = Some t /\ length (t_fd_table t) = 16%nat /\
    (magic t = MCSOS_THREAD_MAGIC -> state t <> MCSOS_THREAD_RUNNING /\ state t <> MCSOS_THREAD_READY).

(** States reached from initialisation by preparing threads and by scheduler calls. *)
Inductive sched_reachable (resume trampoline : Z) : mcsos_scheduler -> machine -> Prop :=
| reach_init s0 m0 b s m :
    (forall a, is_Some (threads m0 !! a) -> unused_thread m0 a) -> is_Some (threads m0 !! b) ->
    Z.of_nat (size (threads m0)) < 2 ^ 63 ->
    mcsos_scheduler_init (Ref s0) m0 (Ref b) = Some (MCSOS_SCHED_OK, Ref s, m) ->
    sched_reachable resume trampoline s m
| reach_prepare s m mm a nm entry_ arg_ base len id_ rc m' mm' :
    sched_reachable resume trampoline s m -> unused_thread m a -> is_u64 base -> is_u64 len ->
    mcsos_thread_prepare trampoline m mm (Ref a) nm entry_ arg_ base len id_ = Some (rc, m', mm') ->
    sched_reachable resume trampoline s m'
| reach_call s m o rc s' m' :
    sched_reachable resume trampoline s m -> sched_op_ok m o ->
    sched_exec resume s m o = Some (rc, Ref s', m') ->
    sched_reachable resume trampoline s' m'.

Lemma inv_fresh st s m c i q a t :
  sched_inv st s m c i q -> st = MCSOS_THREAD_RUNNING -> threads m !! a = Some t -> magic t = MCSOS_THREAD_MAGIC ->
  state t = MCSOS_THREAD_NEW \/ state t = MCSOS_THREAD_BLOCKED -> a ∉ c :: i :: q.
Proof.
  intros [_ _ _ _ _ _ _ _ H9 H10 H11 _] Hst Ht Hm Hs. apply cores_Some in Ht. rewrite !not_elem_of_cons.
  assert (a <> c) by (intros ->; pose proof (H11 _ Ht) as Hx; cbn in Hx; destruct Hs; congruence).
  split_and!; [done| |].
  - intros ->. pose proof (proj2 (H10 _ _ Ht Hm ltac:(done)) eq_refl) as Hx. cbn in Hx. destruct Hs; congruence.
  - intros Hin%(H9 _ _ Ht Hm). cbn in Hin. destruct Hs; congruence.
Qed.

Lemma enqueue_step s m x a :
  represents_sched s m x -> (exists t, threads m !! a = Some t /\ state t <> MCSOS_THREAD_READY) ->
  exists rc s' m' x', mcsos_sched_enqueue (Ref s) m (Ref a) = Some (rc, Ref s', m') /\
    (rc = MCSOS_SCHED_OK /\ (a ∉ a_cur x :: a_idle x :: a_queue x) /\ x' = a_enqueue x a \/
     (rc = MCSOS_SCHED_EINVAL \/ rc = MCSOS_SCHED_ESTATE) /\ x' = x) /\ represents_sched s' m' x'.
Proof.
  intros Hr (t & Ht & Hq). unfold represents_sched in *. pose proof (si_init _ _ _ _ _ _ Hr) as Hi.
  destruct (Z.eq_dec (magic t) MCSOS_THREAD_MAGIC) as [Hm|Hm].
  2:{ exists MCSOS_SCHED_EINVAL, s, m, x. split_and!; [|by auto|done]. unfold mcsos_sched_enqueue, valid_thread_object.
      rw_false (initialized s =? 0). rewrite Ht. cbn [mbind option_bind]. rw_false (magic t =? MCSOS_THREAD_MAGIC). done. }
  assert (Hcase : (state t = MCSOS_THREAD_NEW \/ state t = MCSOS_THREAD_BLOCKED) \/
    (state t = MCSOS_THREAD_RUNNING \/ state t = MCSOS_THREAD_ZOMBIE)).
  { destruct (state t); auto; done. }
  destruct Hcase as [Hs|Hs].
  - destruct (enqueue_spec Hr a t Ht Hm eq_refl Hs) as (s' & m' & -> & Hr' & _).
    exists MCSOS_SCHED_OK, s', m', (a_enqueue x a). split_and!; [done| |done]. left. split; [done|].
    split; [|done]. by eapply inv_fresh.
  - exists MCSOS_SCHED_ESTATE, s, m, x. split_and!; [|by auto|done]. unfold mcsos_sched_enqueue.
    rw_false (initialized s =? 0). rewrite (valid_object_spec m a t) by done. cbn [mbind option_bind negb].
    rewrite Ht. cbn [mbind option_bind]. by destruct Hs as [-> | ->].
Qed.

(** Blocking changes only the state of the current thread. *)
Lemma blocked_inv s m c i q t :
  sched_inv MCSOS_THREAD_RUNNING s m c i q -> c <> i -> threads m !! c = Some t ->
  sched_inv MCSOS_THREAD_BLOCKED s
    (mk_machine (<[c := set_state t MCSOS_THREAD_BLOCKED]> (threads m)) (cpu m)) c i q.
Proof.
  intros Hr Hci Ht. pose proof (inv_current_not_queued Hr) as Hcq.
  destruct Hr as [H1 H2 H3 H4 H5 H6 H7 H8 H9 H10 H11 H12].
  set (m' := mk_machine _ _).
  assert (Hco : cores m' = <[c := core (set_state t MCSOS_THREAD_BLOCKED)]> (cores m)).
  { unfold m', cores. cbn [threads]. apply fmap_insert. }
  assert (Hmt : magic t = MCSOS_THREAD_MAGIC).
  { apply Forall_cons in H8 as [(t' & Ht' & Hm') _]. rewrite (cores_Some _ _ _ Ht) in Ht'. by injection Ht' as <-. }
  split; try done.
  - by apply (chain_update _ _ t).
  - cbn. rewrite map_size_insert_Some by (by eexists). done.
  - apply Forall_forall. intros a Ha. unfold valid_thread. rewrite Hco. destruct (decide (a = c)) as [->|].
    + exists (core (set_state t MCSOS_THREAD_BLOCKED)). by rewrite lookup_insert_eq.
    + rewrite lookup_insert_ne by done. by apply (proj1 (Forall_forall _ _) H8).
  - intros a ta. rewrite Hco. destruct (decide (a = c)) as [->|].
    + rewrite lookup_insert_eq. intros [= <-] _. done.
    + rewrite lookup_insert_ne by done. apply H9.
  - intros a ta. rewrite Hco. intros Ha Hm Hne. rewrite lookup_insert_ne in Ha by done. by apply H10.
  - intros ta. rewrite Hco, lookup_insert_eq. by intros [= <-].
  - by right.
Qed.

Lemma tick_spec st s m c i q :
  sched_inv st s m c i q ->
  exists s' m', mcsos_sched_tick (Ref s) m = Some (MCSOS_SCHED_OK, Ref s', m') /\
    sched_inv st s' m' c i q /\ s_ticks s' = u64 (s_ticks s + 1) /\
    t_ticks <$> threads m' !! c = (fun t => u64 (t_ticks t + 1)) <$> threads m !! c.
Proof.
  intros Hr. destruct (inv_valid Hr c) as (t & Ht & Hm); [auto|]. destruct Hr as [H1 H2 H3 H4 H5 H6 H7 H8 H9 H10 H11 H12].
  unfold mcsos_sched_tick. rw_false (initialized s =? 0). rewrite H2, (valid_object_spec m c t) by done.
  cbn [mbind option_bind negb]. rewrite (update_spec m c t) by done. cbn [mbind option_bind].
  eexists _, _. split; [done|]. set (m' := mk_machine _ _).
  assert (Hco : cores m' = <[c := core (inc_ticks t)]> (cores m)).
  { unfold m', cores. cbn [threads]. apply fmap_insert. }
  assert (Hlk : forall a ta, cores m' !! a = Some ta -> exists ta', cores m !! a = Some ta' /\
    magic ta = magic ta' /\ state ta = state ta').
  { intros a ta. rewrite Hco. destruct (decide (a = c)) as [->|].
    - rewrite lookup_insert_eq. intros [= <-]. exists (core t). split; [by apply cores_Some|done].
    - rewrite lookup_insert_ne by done. eauto. }
  split; [split; cbn [initialized current idle ready_head ready_tail runnable_count]; try done|].
  - by apply (chain_update _ _ t).
  - cbn. rewrite map_size_insert_Some by (by eexists). done.
  - apply Forall_forall. intros a Ha. unfold valid_thread. rewrite Hco. destruct (decide (a = c)) as [->|].
    + exists (core (inc_ticks t)). by rewrite lookup_insert_eq.
    + rewrite lookup_insert_ne by done. by apply (proj1 (Forall_forall _ _) H8).
  - intros a ta (ta' & Hta' & -> & ->)%Hlk. by apply H9.
  - intros a ta (ta' & Hta' & -> & ->)%Hlk. by apply H10.
  - intros ta (ta' & Hta' & _ & ->)%Hlk. by apply H11.
  - split; [done|]. cbn. by rewrite lookup_insert_eq, Ht.
Qed.

(** The abstract step that [mcsos_sched_yield] makes. *)
Lemma yield_step resume s m x :
  represents_sched s m x ->
  exists s' m', mcsos_sched_yield resume (Ref s) m = Some (MCSOS_SCHED_OK, Ref s', m') /\
    represents_sched s' m' (a_yield x).
Proof.
  intros Hr. destruct (yield_spec Hr resume) as (s' & m' & -> & Hr' & _). exists s', m'. split; [done|].
  unfold represents_sched, a_yield, a_next in *. unfold next_of, requeued in Hr'. cbn in Hr'.
  destruct (a_queue x) as [|n q]; cbn in *; destruct (a_cur x =? a_idle x); cbn in *; done.
Qed.

Lemma block_step resume s m x :
  represents_sched s m x -> a_cur x <> a_idle x ->
  exists s' m', mcsos_thread_block_current resume (Ref s) m = Some (MCSOS_SCHED_OK, Ref s', m') /\
    represents_sched s' m' (a_block x).
Proof.
  intros Hr Hci. unfold represents_sched in *. destruct (inv_valid Hr (a_cur x)) as (t & Ht & Hm); [auto|].
  unfold mcsos_thread_block_current. pose proof Hr as [H1 H2 H3 _ _ _ _ _ _ _ _ _].
  rw_false (initialized s =? 0). rewrite H2, H3, (valid_object_spec m (a_cur x) t) by done. cbn [mbind option_bind negb].
  rw_false (a_cur x =? a_idle x). rewrite (update_spec m (a_cur x) t) by done. cbn [mbind option_bind].
  pose proof (blocked_inv s m _ _ _ t Hr Hci Ht) as Hb.
  destruct (yield_spec Hb resume) as (s' & m' & -> & Hr' & _). exists s', m'. split; [done|].
  unfold a_block, a_next. unfold next_of, requeued in Hr'. cbn in Hr'. rewrite app_nil_r in Hr'.
  by destruct (a_queue x).
Qed.

(** * Lemmas: counting and validation *)

Lemma count_loop_spec m q : forall fuel p n,
  chain (threads m) p q -> (length q <= fuel)%nat -> 0 <= n -> n + Z.of_nat (length q) < 2 ^ 64 ->
  count_loop fuel m p n = Some (n + Z.of_nat (length q)).
Proof.
  induction q as [|a q IH]; intros fuel p n Hq Hf Hn Hb; cbn in Hq.
  - rewrite Hq. destruct fuel; cbn; f_equal; lia.
  - destruct Hq as [-> (t & Ht & Hq)]. destruct fuel as [|fuel]; cbn [length] in *; [lia|]. cbn [count_loop].
    rewrite Ht. cbn [mbind option_bind]. rewrite u64_small by ulia. rewrite IH by (done || lia). f_equal. lia.
Qed.

(** A member of the ready list as [mcsos_sched_validate] expects it. *)
Definition ready_member (s : mcsos_scheduler) (m : machine) (a : Z) : Prop :=
  current s <> Ref a /\ exists t, threads m !! a = Some t /\ magic t = MCSOS_THREAD_MAGIC /\ state t = MCSOS_THREAD_READY.

Definition last_or (q : list Z) (p : ptr Z) : ptr Z := match last q with Some a => Ref a | None => p end.

Lemma last_or_cons a q p : last_or (a :: q) p = last_or q (Ref a).
Proof. unfold last_or. destruct q as [|b q]; [done|]. cbn [last]. by destruct (last (b :: q)) eqn:E; [|apply last_None in E]. Qed.

(** The two tests of the loop on a thread. *)
Lemma member_tests s m a t :
  threads m !! a = Some t ->
  ready_member s m a <->
  negb (magic t =? MCSOS_THREAD_MAGIC) || bool_decide (state t <> MCSOS_THREAD_READY) = false /\
  match current s with Ref c => a =? c | NULL => false end = false.
Proof.
  intros Ht. unfold ready_member. split.
  - intros (Hc & t' & Ht' & Hm & Hs). rewrite Ht in Ht'. injection Ht' as <-. rewrite Hm, Hs. split; [done|].
    destruct (current s); [done|]. apply Z.eqb_neq. congruence.
  - intros [H1 H2]. bool_to_prop. match goal with H : bool_decide _ = false |- _ => apply bool_decide_eq_false, dec_stable in H end.
    split; [|eauto]. intros Hc. rewrite Hc in H2. by rewrite Z.eqb_refl in H2.
Qed.

Lemma validate_loop_ok s m q : forall fuel p last_ n,
  chain (threads m) p q -> Forall (ready_member s m) q -> (length q <= fuel)%nat -> 0 <= n ->
  n + Z.of_nat (length q) <= runnable_count s + 1 -> runnable_count s + 1 < 2 ^ 64 ->
  validate_loop fuel s m p last_ n = Some (inl (last_or q last_, n + Z.of_nat (length q))).
Proof.
  induction q as [|a q IH]; intros fuel p last_ n Hq Hg Hf Hn Hb Hr; cbn in Hq.
  - rewrite Hq. destruct fuel; cbn; unfold last_or; cbn; do 3 f_equal; lia.
  - destruct Hq as [-> (t & Ht & Hq)]. destruct fuel as [|fuel]; cbn [length] in *; [lia|]. cbn [validate_loop].
    apply Forall_cons in Hg as [Ha Hg]. rewrite Ht. cbn [mbind option_bind].
    apply (member_tests _ _ _ t) in Ha as [-> ->]; [|done]. rewrite !u64_small by ulia.
    rw_false (runnable_count s + 1 <? n + 1). rewrite IH by (done || lia). rewrite last_or_cons. do 3 f_equal. lia.
Qed.

Lemma validate_loop_inv s m : 0 <= runnable_count s -> runnable_count s + 2 < 2 ^ 64 ->
  forall fuel p last_ n l k, 0 <= n <= runnable_count s + 1 ->
  validate_loop fuel s m p last_ n = Some (inl (l, k)) ->
  exists q, chain (threads m) p q /\ Forall (ready_member s m) q /\ l = last_or q last_ /\ k = n + Z.of_nat (length q).
Proof.
  intros Hr0 Hr fuel. induction fuel as [|fuel IH]; intros [|a] last_ n l k Hn; cbn [validate_loop].
  - intros [= <- <-]. exists []. split_and!; [done|constructor|done|cbn; lia].
  - done.
  - intros [= <- <-]. exists []. split_and!; [done|constructor|done|cbn; lia].
  - destruct (threads m !! a) as [t|] eqn:Ht; [|done]. cbn [mbind option_bind].
    destruct (negb _ || _) eqn:E1; [done|]. destruct (match current s with NULL => _ | Ref c => _ end) eqn:E2; [done|].
    rewrite !u64_small by ulia. destruct (Z.ltb_spec (runnable_count s + 1) (n + 1)); [done|].
    intros (q & Hq & Hg & -> & ->)%IH; [|lia]. exists (a :: q). split_and!.
    + cbn. eauto.
    + constructor; [|done]. by apply (member_tests s m a t).
    + by rewrite last_or_cons.
    + cbn [length]. lia.
Qed.

(** The loop ends within [runnable_count + 2] turns on any heap whose links lead to threads. *)
Lemma validate_loop_ends s m : 0 <= runnable_count s -> runnable_count s + 2 < 2 ^ 64 ->
  (forall a t b, threads m !! a = Some t -> next t = Ref b -> is_Some (threads m !! b)) ->
  forall fuel p last_ n, 0 <= n <= runnable_count s + 1 -> runnable_count s + 2 <= n + Z.of_nat fuel ->
  (forall a, p = Ref a -> is_Some (threads m !! a)) ->
  is_Some (validate_loop fuel s m p last_ n).
Proof.
  intros Hr0 Hr Hcl fuel. induction fuel as [|fuel IH]; intros [|a] last_ n Hn Hf Hp; cbn [validate_loop];
    try (by eexists); [lia|].
  destruct (Hp a eq_refl) as [t Ht]. rewrite Ht. cbn [mbind option_bind].
  destruct (negb _ || _); [by eexists|]. destruct (match current s with NULL => _ | Ref c => _ end); [by eexists|].
  rewrite !u64_small by ulia. destruct (Z.ltb_spec (runnable_count s + 1) (n + 1)); [by eexists|].
  apply IH; [lia|lia|]. intros b Hb. by eapply Hcl.
Qed.

Lemma ptr_eqb_spec p q : ptr_eqb p q = true <-> p = q.
Proof.
  destruct p, q; cbn; try (split; done); rewrite Z.eqb_eq; split; congruence.
Qed.

Lemma validate_loop_err s m : forall fuel p last_ n rc,
  validate_loop fuel s m p last_ n = Some (inr rc) -> rc <> MCSOS_SCHED_OK.
Proof.
  induction fuel as [|fuel IH]; intros [|a] last_ n rc; cbn [validate_loop]; try done.
  destruct (threads m !! a); [|done]. cbn [mbind option_bind]. repeat case_bool; try (by intros [= <-]). apply IH.
Qed.

(** The queued threads pass the tests of [mcsos_sched_validate]. *)
Lemma queue_members st s m c i q : sched_inv st s m c i q -> Forall (ready_member s m) q.
Proof.
  intros Hx. apply Forall_forall. intros a Ha. split.
  - rewrite (si_cur _ _ _ _ _ _ Hx). intros [= ->]. by apply (inv_current_not_queued Hx).
  - destruct (inv_valid Hx a) as (t & Ht & Hm); [auto|]. exists t. split_and!; [done..|].
    by apply (si_ready _ _ _ _ _ _ Hx a (core t) (cores_Some _ _ _ Ht) Hm).
Qed.

(** * Lemmas: stacks *)

Lemma align_down_spec v : is_u64 v -> align_down_uintptr v 16 = v - v mod 16.
Proof. intros Hv. apply (land_high 4 v); [lia|done]. Qed.

(** A new thread joins the heap. *)
Lemma prepared_inv st s m c i q a t :
  sched_inv st s m c i q -> unused_thread m a -> next t = NULL ->
  magic t = MCSOS_THREAD_MAGIC -> state t = MCSOS_THREAD_NEW -> st = MCSOS_THREAD_RUNNING ->
  sched_inv st s (mk_machine (<[a := t]> (threads m)) (cpu m)) c i q.
Proof.
  intros Hr (t0 & Ht0 & _ & Hun) Hn Hm Hs Hst.
  assert (Ha : a ∉ c :: i :: q).
  { intros Hin. pose proof (si_valid _ _ _ _ _ _ Hr) as Hv. apply (proj1 (Forall_forall _ _) Hv) in Hin as Hva.
    destruct Hva as (t1 & (t2 & Ht2 & <-)%cores_inv & Hm1). rewrite Ht0 in Ht2. injection Ht2 as <-.
    destruct (Hun Hm1) as [Hnr Hnq]. pose proof (cores_Some _ _ _ Ht0) as Hc.
    destruct (decide (a = c)) as [->|Hac].
    { pose proof (si_current _ _ _ _ _ _ Hr _ Hc) as Hx. cbn in Hx. congruence. }
    rewrite !elem_of_cons in Hin. destruct Hin as [?|[Hai|Hin]]; [done| |].
    - apply Hnr. apply (si_running _ _ _ _ _ _ Hr _ _ Hc Hm1 Hac). done.
    - apply Hnq. by apply (si_ready _ _ _ _ _ _ Hr _ _ Hc Hm1). }
  rewrite !not_elem_of_cons in Ha. destruct Ha as (Hac & Hai & Haq).
  destruct Hr as [H1 H2 H3 H4 H5 H6 H7 H8 H9 H10 H11 H12]. set (m' := mk_machine _ _).
  assert (Hco : cores m' = <[a := core t]> (cores m)) by (unfold m', cores; cbn [threads]; apply fmap_insert).
  split; try done.
  - apply (chain_ext (threads m)); [|done]. intros b Hb. cbn. rewrite lookup_insert_ne; [done|]. congruence.
  - cbn. rewrite map_size_insert_Some by (by eexists). done.
  - apply Forall_forall. intros b Hb. unfold valid_thread. rewrite Hco, lookup_insert_ne by set_solver.
    by apply (proj1 (Forall_forall _ _) H8).
  - intros b tb. rewrite Hco. destruct (decide (b = a)) as [->|].
    + rewrite lookup_insert_eq. intros [= <-] _. cbn. rewrite Hs. split; done.
    + rewrite lookup_insert_ne by done. apply H9.
  - intros b tb. rewrite Hco. destruct (decide (b = a)) as [->|].
    + rewrite lookup_insert_eq. intros [= <-] _ _. cbn. rewrite Hs. split; congruence.
    + rewrite lookup_insert_ne by done. apply H10.
  - intros tb. rewrite Hco, lookup_insert_ne by done. apply H11.
Qed.

Lemma init_represents s0 m0 b s m :
  (forall a, is_Some (threads m0 !! a) -> unused_thread m0 a) -> is_Some (threads m0 !! b) ->
  Z.of_nat (size (threads m0)) < 2 ^ 63 ->
  mcsos_scheduler_init (Ref s0) m0 (Ref b) = Some (MCSOS_SCHED_OK, Ref s, m) ->
  represents_sched s m (mk_asched b b []).
Proof.
  intros Hun Hb Hsz. destruct (Hun b Hb) as (tb & Htb & Hfd & _). unfold mcsos_scheduler_init. rewrite Htb.
  cbn [mbind option_bind]. rewrite fd_table_init_spec by done. cbn [mbind option_bind]. intros [= <- <-].
  set (t' := mk_thread _ _ _ _ _ _ _ _ _ _ _ _ _ _). unfold represents_sched. cbn [a_cur a_idle a_queue].
  assert (Hcores : forall a t, cores (mk_machine (<[b := t']> (threads m0)) (cpu m0)) !! a = Some t ->
    (a = b /\ t = core t') \/ (a <> b /\ (magic t = MCSOS_THREAD_MAGIC ->
      state t <> MCSOS_THREAD_RUNNING /\ state t <> MCSOS_THREAD_READY))).
  { intros a t. unfold cores. cbn. rewrite lookup_fmap. destruct (decide (a = b)) as [->|].
    - rewrite lookup_insert_eq. intros [= <-]. by left.
    - rewrite lookup_insert_ne by done. destruct (threads m0 !! a) as [ta|] eqn:E; [|done]. intros [= <-]. right.
      split; [done|]. destruct (Hun a (mk_is_Some _ _ E)) as (ta' & Hta' & _ & Hx). rewrite E in Hta'.
      injection Hta' as <-. done. }
  split; try done.
  - cbn. rewrite map_size_insert_Some by done. done.
  - apply Forall_forall. intros a Ha. assert (a = b) as -> by set_solver. exists (core t').
    unfold cores. cbn. by rewrite lookup_fmap, lookup_insert_eq.
  - intros a t Ht Hm. destruct (Hcores a t Ht) as [[-> ->]|[Hne Hx]]; [split; [done|set_solver]|].
    split; [by intros ?; destruct (Hx Hm)|set_solver].
  - intros a t Ht Hm Hne. destruct (Hcores a t Ht) as [[-> ->]|[_ Hx]]; [done|].
    split; [by intros ?; destruct (Hx Hm)|done].
  - intros t Ht. destruct (Hcores b t Ht) as [[_ ->]|[? _]]; done.
  - by left.
Qed.

(** What [mcsos_thread_prepare] does on each branch. *)
Lemma prepare_cases trampoline m mm a t nm entry_ arg_ base len id_ :
  threads m !! a = Some t -> length (t_fd_table t) = 16%nat -> is_u64 base -> is_u64 len ->
  (exists rc, mcsos_thread_prepare trampoline m mm (Ref a) nm entry_ arg_ base len id_ = Some (rc, m, mm) /\
     rc <> MCSOS_SCHED_OK /\ (entry_ = 0 \/ base = 0 \/ len < 4096 \/ 2 ^ 64 <= base + len)) \/
  (entry_ <> 0 /\ base <> 0 /\ 4096 <= len /\ base + len < 2 ^ 64 /\
   let top := (base + len) - (base + len) mod 16 - 8 in
   mcsos_thread_prepare trampoline m mm (Ref a) nm entry_ arg_ base len id_ =
     Some (MCSOS_SCHED_OK,
       mk_machine (<[a := mk_thread MCSOS_THREAD_MAGIC id_ nm MCSOS_THREAD_NEW
         (mk_context top 0 0 0 0 0 0 trampoline) entry_ arg_ base len NULL 0 0 0
         (replicate (Z.to_nat MCS_MAX_OPEN_FILES) closed_file)]> (threads m)) (cpu m), store64 mm top 0)).
Proof.
  intros Ht Hfd Hb Hl. unfold mcsos_thread_prepare, MCSOS_MIN_KERNEL_STACK, MCSOS_STACK_ALIGN, is_u64 in *.
  destruct (Z.eqb_spec entry_ 0); cbn [orb]; [left; by eauto 10|].
  destruct (Z.eqb_spec base 0); [left; by eauto 10|].
  destruct (Z.ltb_spec len 4096); [left; by eauto 10|].
  destruct (decide (2 ^ 64 <= base + len)) as [Hw|Hw].
  - left. assert (u64 (base + len) <= base) by ulia. rw_true (u64 (base + len) <=? base). by eauto 10.
  - right. rewrite (u64_small (base + len)) by ulia. rw_false (base + len <=? base).
    rewrite align_down_spec by ulia. pose proof (Z.mod_pos_bound (base + len) 16).
    rewrite (u64_small (base + 128)) by ulia. rw_false (base + len - (base + len) mod 16 <=? base + 128).
    rewrite u64_small by ulia. rewrite Ht. cbn [mbind option_bind]. rewrite fd_table_init_spec by done.
    split_and!; try done; lia.
Qed.

(** Every call simulates a step of the abstract scheduler. *)
Lemma sched_step_sim resume s m x o :
  represents_sched s m x -> sched_op_ok m o ->
  exists rc s' m' x', sched_exec resume s m o = Some (rc, Ref s', m') /\ asched_step x o rc x' /\
    represents_sched s' m' x'.
Proof.
  intros Hr Hok. destruct o as [a|a| | |]; cbn [sched_exec sched_op_ok] in *.
  - destruct (enqueue_step s m x a Hr Hok) as (rc & s' & m' & x' & -> & Hc & Hr').
    exists rc, s', m', x'. split_and!; [done| |done]. destruct Hc as [(-> & Hn & ->)|[Hrc ->]]; by constructor.
  - destruct Hok as [t Ht]. unfold mcsos_thread_mark_ready, valid_thread_object. rewrite Ht. cbn [mbind option_bind].
    destruct (Z.eqb_spec (magic t) MCSOS_THREAD_MAGIC); cbn [negb].
    2:{ exists MCSOS_SCHED_EINVAL, s, m, x. split_and!; [done|constructor; auto|done]. }
    case_bool_decide as Hb.
    { exists MCSOS_SCHED_ESTATE, s, m, x. split_and!; [done|constructor; auto|done]. }
    destruct (enqueue_step s m x a Hr) as (rc & s' & m' & x' & -> & Hc & Hr'); [exists t; split; congruence|].
    exists rc, s', m', x'. split_and!; [done| |done]. destruct Hc as [(-> & Hn & ->)|[Hrc ->]]; by constructor.
  - destruct (yield_step resume s m x Hr) as (s' & m' & -> & Hr'). eexists _, _, _, _. split_and!; [done|constructor|done].
  - destruct (decide (a_cur x = a_idle x)) as [He|Hne].
    + exists MCSOS_SCHED_ESTATE, s, m, x. split_and!; [|by constructor|done].
      destruct (inv_valid Hr (a_cur x)) as (t & Ht & Hm); [auto|]. pose proof Hr as [H1 H2 H3 _ _ _ _ _ _ _ _ _].
      unfold mcsos_thread_block_current. rw_false (initialized s =? 0).
      rewrite H2, H3, (valid_object_spec m (a_cur x) t) by done. cbn [mbind option_bind negb].
      by rewrite He, Z.eqb_refl.
    + destruct (block_step resume s m x Hr Hne) as (s' & m' & -> & Hr').
      eexists _, _, _, _. split_and!; [done|by constructor|done].
  - destruct (tick_spec _ _ _ _ _ _ Hr) as (s' & m' & -> & Hr' & _). eexists _, _, _, _. split_and!; [done|constructor|done].
Qed.

Lemma reachable_represents resume trampoline s m :
  sched_reachable resume trampoline s m -> exists x, represents_sched s m x.
Proof.
  induction 1 as [s0 m0 b s m Hun Hb Hsz Hi|s m mm a nm e ar base len id_ rc m' mm' _ (x & Hx) Hun Hbase Hlen Hp
    |s m o rc s' m' _ (x & Hx) Hok He].
  - eexists. by eapply init_represents.
  - exists x. pose proof Hun as (t & Ht & Hfd & _).
    destruct (prepare_cases trampoline m mm a t nm e ar base len id_ Ht Hfd Hbase Hlen)
      as [(rc' & Hc & _)|(_ & _ & _ & _ & Hc)]; rewrite Hc in Hp; injection Hp as <- <- <-; [done|].
    by apply prepared_inv.
  - destruct (sched_step_sim resume s m x o Hx Hok) as (rc1 & s1 & m1 & x1 & He1 & _ & Hx1).
    rewrite He1 in He. injection He as <- <- <-. eauto.
Qed.

(** * Concrete threads *)

(** An object that holds no thread yet; three of them. *)
Definition raw_thread : mcsos_thread :=
  mk_thread 0 0 NULL MCSOS_THREAD_ZOMBIE zero_context 0 0 0 0 NULL 0 0 0 (replicate 16 closed_file).
Definition demo_threads : machine :=
  mk_machine {[ 0x100 := raw_thread; 0x200 := raw_thread; 0x300 := raw_thread ]} (mk_context 1 2 3 4 5 6 7 8).
Definition demo_sched0 : mcsos_scheduler := mk_sched NULL NULL NULL NULL 0 0 0 0 0.

(** Take the scheduler and heap out of a result. *)
Definition sched_result (r : option (Z * ptr mcsos_scheduler * machine)) : mcsos_scheduler * machine :=
  match r with Some (_, Ref s, m) => (s, m) | _ => (demo_sched0, demo_threads) end.
Definition prepare_result (r : option (Z * machine * mem)) : machine :=
  match r with Some (_, m, _) => m | None => demo_threads end.

(** The boot thread at 0x100, and a prepared thread at 0x200 that has been enqueued. *)
Definition demo_boot := sched_result (mcsos_scheduler_init (Ref demo_sched0) demo_threads (Ref 0x100)).
Definition demo_prepared : machine :=
  prepare_result (mcsos_thread_prepare 0x9000 demo_boot.2 (fun _ => 0) (Ref 0x200) NULL 0x7000 0 0x10000 0x1000 1).
Definition demo_queued := sched_result (mcsos_sched_enqueue (Ref demo_boot.1) demo_prepared (Ref 0x200)).

Lemma demo_unused m a : threads m !! a = Some raw_thread -> unused_thread m a.
Proof. intros H. exists raw_thread. split_and!; done. Qed.

Lemma demo_queued_reachable : sched_reachable 0x5000 0x9000 demo_queued.1 demo_queued.2.
Proof.
  apply (reach_call _ _ demo_boot.1 demo_prepared (Enqueue 0x200) MCSOS_SCHED_OK).
  - apply (reach_prepare _ _ _ demo_boot.2 (fun _ => 0) 0x200 NULL 0x7000 0 0x10000 0x1000 1 MCSOS_SCHED_OK _
      (store64 (fun _ => 0) 0x10ff8 0)).
    + apply (reach_init _ _ demo_sched0 demo_threads 0x100).
      * intros a [t Ha]. apply demo_unused. unfold demo_threads in *. cbn [threads] in *.
        repeat (apply lookup_insert_Some in Ha as [[<- <-]|[? Ha]]; [done|]).
        apply lookup_singleton_Some in Ha as [<- <-]. done.
      * vm_compute. by eexists.
      * by vm_compute.
      * by vm_compute.
    + apply demo_unused. by vm_compute.
    + by vm_compute.
    + by vm_compute.
    + reflexivity.
  - vm_compute. by eexists.
  - by vm_compute.
Qed.

(** The same thread enqueued twice. *)
Definition demo_twice := sched_result (mcsos_sched_enqueue (Ref demo_queued.1) demo_queued.2 (Ref 0x200)).

Lemma count_self_loop m a t : threads m !! a = Some t -> next t = Ref a ->
  forall fuel n, count_loop fuel m (Ref a) n = None.
Proof.
  intros Ht Hn fuel. induction fuel as [|fuel IH]; intros n; cbn [count_loop]; [done|].
  rewrite Ht. cbn [mbind option_bind]. rewrite Hn. apply IH.
Qed.

(** [n] yields in a row. *)
Fixpoint yields (resume : Z) (n : nat) (s : mcsos_scheduler) (m : machine) : option (mcsos_scheduler * machine) :=
  match n with
  | O => Some (s, m)
  | S n =>
      '(rc, s', m') ← mcsos_sched_yield resume (Ref s) m;
      match s' with Ref s' => if rc =? MCSOS_SCHED_OK then yields resume n s' m' else None | NULL => None end
  end.

(** A thread at position [k] of the queue has moved one place after a yield. *)
Lemma a_yield_position x k a :
  a_queue x !! S k = Some a -> a_queue (a_yield x) !! k = Some a.
Proof.
  unfold a_yield, a_next. destruct (a_queue x) as [|n q]; [done|]. cbn. intros H. by apply lookup_app_l_Some.
Qed.

(** * Properties *)

(** C8. The scheduler is a FIFO round-robin scheduler. In every state reached from initialisation by
    preparing unused threads and by enqueue, wake, yield, block and tick calls that do not enqueue a thread that is ready already, the intrusive
    linked list is a queue of distinct ready threads that excludes the running one; the next such call is
    defined and does what the abstract scheduler does (a yield moves the running
    thread, unless it is the idle one, to the back and runs the front; a block runs the front without
    queueing; waking appends); and [mcsos_sched_validate] and [mcsos_sched_ready_count] agree. *)
Theorem sched_refines_fifo resume trampoline s m :
  sched_reachable resume trampoline s m ->
  exists x, represents_sched s m x /\ NoDup (a_cur x :: a_queue x) /\
    mcsos_sched_validate (Ref s) m = Some MCSOS_SCHED_OK /\
    mcsos_sched_ready_count (length (a_queue x)) (Ref s) m = Some (Z.of_nat (length (a_queue x))) /\
    forall o, sched_op_ok m o ->
      exists rc s' m' x', sched_exec resume s m o = Some (rc, Ref s', m') /\ asched_step x o rc x' /\
        represents_sched s' m' x'.
Proof.
  intros (x & Hx)%reachable_represents. exists x. pose proof Hx as [H1 H2 H3 H4 H5 H6 H7 H8 H9 H10 H11 H12].
  pose proof (chain_length _ _ _ H4). split_and!; [done| | | |].
  - constructor; [by apply (inv_current_not_queued Hx)|by eapply chain_nodup].
  - unfold mcsos_sched_validate. rw_false (initialized s =? 0).
    destruct (inv_valid Hx (a_cur x)) as (t & Ht & Hm); [auto|].
    rewrite H2, (valid_object_spec m _ t) by done. cbn [mbind option_bind negb].
    rewrite (validate_loop_ok s m (a_queue x)) by (done || lia || (apply (queue_members _ _ _ _ _ _ Hx))).
    cbn [mbind option_bind]. rewrite Z.add_0_l, H6, Z.eqb_refl. rewrite H5.
    assert (ptr_eqb (last_or (a_queue x) NULL) (last_ptr (a_queue x)) = true) as -> by by apply ptr_eqb_spec. done.
  - unfold mcsos_sched_ready_count. rw_false (initialized s =? 0). rewrite (count_loop_spec m (a_queue x)) by (done || lia). done.
  - intros o Ho. by apply sched_step_sim.
Qed.

Lemma sched_refines_fifo_witness :
  exists x, represents_sched demo_queued.1 demo_queued.2 x /\ NoDup (a_cur x :: a_queue x) /\
    mcsos_sched_validate (Ref demo_queued.1) demo_queued.2 = Some MCSOS_SCHED_OK /\
    mcsos_sched_ready_count (length (a_queue x)) (Ref demo_queued.1) demo_queued.2 = Some (Z.of_nat (length (a_queue x))) /\
    forall o, sched_op_ok demo_queued.2 o ->
      exists rc s' m' x', sched_exec 0x5000 demo_queued.1 demo_queued.2 o = Some (rc, Ref s', m') /\
        asched_step x o rc x' /\ represents_sched s' m' x'.
Proof. apply (sched_refines_fifo 0x5000 0x9000). apply demo_queued_reachable. Defined.

(** C23. No ready thread starves: in a reachable state, the thread at position k of the ready queue is running
    after exactly k + 1 yields. *)
Theorem sched_no_starvation resume trampoline s m x k a :
  sched_reachable resume trampoline s m -> represents_sched s m x -> a_queue x !! k = Some a ->
  exists s' m', yields resume (S k) s m = Some (s', m') /\ current s' = Ref a.
Proof.
  intros _. revert s m x. induction k as [|k IH]; intros s m x Hx Hk;
    destruct (yield_step resume s m x Hx) as (s1 & m1 & He & Hx1); cbn [yields]; rewrite He; cbn [mbind option_bind].
  - exists s1, m1. split; [done|]. rewrite (si_cur _ _ _ _ _ _ Hx1). unfold a_yield, a_next.
    destruct (a_queue x); [done|]. cbn in *. congruence.
  - by apply (IH s1 m1 (a_yield x) Hx1), a_yield_position.
Qed.

Lemma sched_no_starvation_witness :
  exists s' m', yields 0x5000 1 demo_queued.1 demo_queued.2 = Some (s', m') /\ current s' = Ref 0x200.
Proof.
  apply (sched_no_starvation 0x5000 0x9000 demo_queued.1 demo_queued.2 (mk_asched 0x100 0x100 [0x200]) 0 0x200).
  - apply demo_queued_reachable.
  - destruct (reachable_represents _ _ _ _ demo_queued_reachable) as ([c i q] & Hx).
    assert (c = 0x100) as -> by (pose proof (si_cur _ _ _ _ _ _ Hx) as Hc; cbn in Hc; vm_compute in Hc; congruence).
    assert (i = 0x100) as -> by (pose proof (si_idle _ _ _ _ _ _ Hx) as Hc; cbn in Hc; vm_compute in Hc; congruence).
    assert (q = [0x200]) as ->; [|done]. apply (chain_fun (threads demo_queued.2) q (ready_head demo_queued.1)).
    + exact (si_chain _ _ _ _ _ _ Hx).
    + split; [by vm_compute|]. eexists. split; [vm_compute; reflexivity|done].
  - reflexivity.
Defined.

(** C24. A yield to another thread exchanges the processor context and nothing else of it:
    the callee-saved registers of the thread that leaves are stored in its context with the resume
    address, the registers are loaded from the context of the thread that runs next, and the
    context of every other thread is untouched, so that a thread later resumes with the registers it left with. *)
Theorem sched_yield_switches_context resume s m x :
  represents_sched s m x -> fst (a_next x) <> a_cur x ->
  exists s' m', mcsos_sched_yield resume (Ref s) m = Some (MCSOS_SCHED_OK, Ref s', m') /\
    current s' = Ref (fst (a_next x)) /\
    Some (cpu m') = ctx_of m (fst (a_next x)) /\
    ctx_of m' (a_cur x) = Some (saved resume (cpu m)) /\
    forall a, a <> a_cur x -> ctx_of m' a = ctx_of m a.
Proof.
  intros Hx Hne. destruct (yield_spec Hx resume) as (s' & m' & -> & Hx' & Hcpu & Hctx). exists s', m'.
  assert (Hn : next_of (i := a_idle x) (q := a_queue x) = fst (a_next x)) by (unfold next_of, a_next; by destruct (a_queue x)).
  rewrite Hn in *. rewrite decide_False in Hcpu by done. split_and!; [done|apply Hx'|done| |].
  - rewrite Hctx. by rewrite decide_True.
  - intros a Ha. rewrite Hctx. by rewrite decide_False by tauto.
Qed.

Lemma sched_yield_switches_context_witness :
  exists x s' m', mcsos_sched_yield 0x5000 (Ref demo_queued.1) demo_queued.2 = Some (MCSOS_SCHED_OK, Ref s', m') /\
    current s' = Ref (fst (a_next x)) /\
    Some (cpu m') = ctx_of demo_queued.2 (fst (a_next x)) /\
    ctx_of m' (a_cur x) = Some (saved 0x5000 (cpu demo_queued.2)) /\
    forall a, a <> a_cur x -> ctx_of m' a = ctx_of demo_queued.2 a.
Proof.
  destruct (reachable_represents _ _ _ _ demo_queued_reachable) as (x & Hx). exists x.
  apply (sched_yield_switches_context 0x5000 demo_queued.1 demo_queued.2 x); [exact Hx|].
  destruct x as [c i q]. assert (q = [0x200]) as ->.
  { apply (chain_fun (threads demo_queued.2) q (ready_head demo_queued.1)); [exact (si_chain _ _ _ _ _ _ Hx)|].
    split; [by vm_compute|]. eexists. split; [vm_compute; reflexivity|done]. }
  pose proof (si_cur _ _ _ _ _ _ Hx) as Hc. cbn in Hc |- *. intros <-. vm_compute in Hc. congruence.
Defined.

(** C28. [mcsos_sched_validate] decides whether the ready list is intact: with an initialised scheduler
    whose current thread is valid, it returns MCSOS_SCHED_OK exactly when the links from the head form a
    list of valid ready threads, none of them the current one, that ends at the
    recorded tail and has the recorded length; and it returns a status on any heap whose links lead
    to threads, also when they form a cycle. *)
Theorem sched_validate_exact s m c :
  initialized s <> 0 -> current s = Ref c -> valid_thread_object m (Ref c) = Some true ->
  0 <= runnable_count s < 2 ^ 63 ->
  (mcsos_sched_validate (Ref s) m = Some MCSOS_SCHED_OK <->
   exists q, chain (threads m) (ready_head s) q /\ Forall (ready_member s m) q /\
     ready_tail s = last_ptr q /\ runnable_count s = Z.of_nat (length q)) /\
  ((forall a t b, threads m !! a = Some t -> next t = Ref b -> is_Some (threads m !! b)) ->
   (forall a, ready_head s = Ref a -> is_Some (threads m !! a)) ->
   is_Some (mcsos_sched_validate (Ref s) m)).
Proof.
  intros Hi Hc Hv Hr. unfold mcsos_sched_validate. rw_false (initialized s =? 0). rewrite Hc, Hv. cbn [mbind option_bind negb].
  split; [split|].
  - destruct (validate_loop _ _ _ _ _ _) as [[[l k]|rc]|] eqn:E; cbn [mbind option_bind]; [| |done].
    + apply validate_loop_inv in E as (q & Hq & Hg & -> & ->); [|lia..].
      destruct (ptr_eqb _ _) eqn:Ep; cbn [negb]; [|done]. apply ptr_eqb_spec in Ep.
      destruct (Z.eqb_spec (0 + Z.of_nat (length q)) (runnable_count s)); cbn [negb]; [|done]. intros _. exists q. split_and!; [done..|lia].
    + intros [= ->]. exfalso. by apply validate_loop_err in E.
  - intros (q & Hq & Hg & Ht & Hn). rewrite (validate_loop_ok s m q) by (done || lia). cbn [mbind option_bind].
    rewrite Z.add_0_l, <- Hn, Z.eqb_refl, Ht.
    assert (ptr_eqb (last_or q NULL) (last_ptr q) = true) as -> by by apply ptr_eqb_spec. done.
  - intros Hcl Hh. destruct (validate_loop_ends s m) with (fuel := (Z.to_nat (runnable_count s) + 2)%nat)
      (p := ready_head s) (last_ := @NULL Z) (n := 0) as [r ->]; try done; [lia..|]. cbn [mbind option_bind].
    destruct r as [[l k]|rc]; [|by eexists]. destruct (negb _); [by eexists|]. destruct (negb _); by eexists.
Qed.

Lemma sched_validate_exact_witness :
  (mcsos_sched_validate (Ref demo_queued.1) demo_queued.2 = Some MCSOS_SCHED_OK <->
   exists q, chain (threads demo_queued.2) (ready_head demo_queued.1) q /\ Forall (ready_member demo_queued.1 demo_queued.2) q /\
     ready_tail demo_queued.1 = last_ptr q /\ runnable_count demo_queued.1 = Z.of_nat (length q)) /\
  ((forall a t b, threads demo_queued.2 !! a = Some t -> next t = Ref b -> is_Some (threads demo_queued.2 !! b)) ->
   (forall a, ready_head demo_queued.1 = Ref a -> is_Some (threads demo_queued.2 !! a)) ->
   is_Some (mcsos_sched_validate (Ref demo_queued.1) demo_queued.2)).
Proof.
  apply (sched_validate_exact demo_queued.1 demo_queued.2 0x100).
  - vm_compute. discriminate.
  - vm_compute. reflexivity.
  - vm_compute. reflexivity.
  - vm_compute. split; [discriminate|reflexivity].
Defined.

(** C29. [mcsos_thread_prepare] accepts exactly the stacks of at least 4096 bytes that do not wrap
    around (for a non-null entry and base), and gives the thread a first stack pointer that lies inside the
    stack with room for the cleared word it points to, is 8 modulo 16 as the calling convention
    asks on entry to a function, and clears no byte outside the stack. The first instruction
    is the trampoline, whatever the entry function. *)
Theorem thread_prepare_stack trampoline m mm a t nm entry_ arg_ base len id_ :
  threads m !! a = Some t -> length (t_fd_table t) = 16%nat -> is_u64 base -> is_u64 len ->
  exists rc m' mm', mcsos_thread_prepare trampoline m mm (Ref a) nm entry_ arg_ base len id_ = Some (rc, m', mm') /\
    (rc = MCSOS_SCHED_OK <-> entry_ <> 0 /\ base <> 0 /\ 4096 <= len /\ base + len < 2 ^ 64) /\
    (rc <> MCSOS_SCHED_OK -> m' = m /\ mm' = mm) /\
    (rc = MCSOS_SCHED_OK -> exists t', threads m' = <[a := t']> (threads m) /\ cpu m' = cpu m /\
       magic t' = MCSOS_THREAD_MAGIC /\ state t' = MCSOS_THREAD_NEW /\ next t' = NULL /\
       entry t' = entry_ /\ arg t' = arg_ /\ rip (context t') = trampoline /\
       base <= rsp (context t') /\ rsp (context t') + 8 <= base + len /\ rsp (context t') mod 16 = 8 /\
       load64 mm' (rsp (context t')) = 0 /\
       forall y, ~ rsp (context t') <= y < rsp (context t') + 8 -> mm' y = mm y).
Proof.
  intros Ht Hfd Hb Hl. destruct (prepare_cases trampoline m mm a t nm entry_ arg_ base len id_ Ht Hfd Hb Hl)
    as [(rc & -> & Hrc & Hbad)|(H1 & H2 & H3 & H4 & ->)].
  - exists rc, m, mm. split_and!; try done. split; [done|]. lia.
  - eexists _, _, _. split; [done|]. split; [done|]. split; [done|]. intros _. eexists. split; [done|].
    cbn. split_and!; try done.
    + ulia.
    + ulia.
    + ulia.
    + apply load64_store64_same. unfold is_u64. lia.
    + intros y Hy. unfold store64. apply store_other. done.
Qed.

Lemma thread_prepare_stack_witness :
  exists rc m' mm', mcsos_thread_prepare 0x9000 demo_threads (fun _ => 1) (Ref 0x200) NULL 0x7000 0 0x10000 0x1001 1 = Some (rc, m', mm') /\
    (rc = MCSOS_SCHED_OK <-> 0x7000 <> 0 /\ 0x10000 <> 0 /\ 4096 <= 0x1001 /\ 0x10000 + 0x1001 < 2 ^ 64) /\
    (rc <> MCSOS_SCHED_OK -> m' = demo_threads /\ mm' = (fun _ => 1)) /\
    (rc = MCSOS_SCHED_OK -> exists t', threads m' = <[0x200 := t']> (threads demo_threads) /\ cpu m' = cpu demo_threads /\
       magic t' = MCSOS_THREAD_MAGIC /\ state t' = MCSOS_THREAD_NEW /\ next t' = NULL /\
       entry t' = 0x7000 /\ arg t' = 0 /\ rip (context t') = 0x9000 /\
       0x10000 <= rsp (context t') /\ rsp (context t') + 8 <= 0x10000 + 0x1001 /\ rsp (context t') mod 16 = 8 /\
       load64 mm' (rsp (context t')) = 0 /\
       forall y, ~ rsp (context t') <= y < rsp (context t') + 8 -> mm' y = 1).
Proof.
  apply (thread_prepare_stack 0x9000 demo_threads (fun _ => 1) 0x200 raw_thread).
  - vm_compute. reflexivity.
  - reflexivity.
  - unfold is_u64. lia.
  - unfold is_u64. lia.
Defined.

(** Enqueueing the thread at the tail of the ready queue again is accepted and destroys the queue: the thread
    becomes its own successor, [mcsos_sched_ready_count] no longer returns, however many
    steps it is given, and [mcsos_sched_validate] reports corruption. *)
Theorem sched_double_enqueue_loops :
  exists s m, mcsos_sched_enqueue (Ref demo_queued.1) demo_queued.2 (Ref 0x200) = Some (MCSOS_SCHED_OK, Ref s, m) /\
    ready_head s = Ref 0x200 /\ next <$> threads m !! 0x200 = Some (Ref 0x200) /\
    (forall fuel, mcsos_sched_ready_count fuel (Ref s) m = None) /\
    mcsos_sched_validate (Ref s) m = Some MCSOS_SCHED_ECORRUPT.
Proof.
  exists demo_twice.1, demo_twice.2. split_and!; [by vm_compute..| |by vm_compute].
  intros fuel. unfold mcsos_sched_ready_count. change (initialized demo_twice.1) with 1. cbn [Z.eqb].
  change (ready_head demo_twice.1) with (Ref 0x200).
  destruct (threads demo_twice.2 !! 0x200) as [t|] eqn:Et; [|by vm_compute in Et].
  apply (count_self_loop _ _ t); [done|].
  assert (Hn : next <$> threads demo_twice.2 !! 0x200 = Some (Ref 0x200)) by by vm_compute.
  rewrite Et in Hn. by injection Hn.
Qed.
