(* ===== verification/Sync.v ===== *)
(** Locks: kernel/sync/lockdep.c, kernel/sync/spinlock.c and kernel/sync/mutex.c, with
    the structures of include/mcs_sync.h.

    The lock functions are given twice: as functions that run alone, and, for the
    concurrent properties, as sequences of the atomic accesses they make, which processors
    interleave in any order (sequentially consistent accesses). *)

From Stdlib Require Import Sorted.
From S2P Require Import Prelude.

(** * Constants *)

Definition MCS_LOCKDEP_MAX_HELD : Z := 16.

Definition MCS_SYNC_OK : Z := 0.
Definition MCS_SYNC_EINVAL : Z := -22.
Definition MCS_SYNC_EBUSY : Z := -16.
Definition MCS_SYNC_EPERM : Z := -1.
Definition MCS_SYNC_EDEADLK : Z := -35.
Definition MCS_SYNC_EOVERFLOW : Z := -75.

(** * Data *)

Record mcs_lockdep_state := mk_lockdep {
  held_class : list Z;
  held_name : list (ptr (list Z));
  depth : Z;
  violation_count : Z
}.

Record mcs_spinlock := mk_spinlock { s_locked : Z; s_class_id : Z; s_name : ptr (list Z) }.

Record mcs_mutex := mk_mutex { m_locked : Z; m_owner : Z; m_class_id : Z; m_name : ptr (list Z) }.

(** [state->violation_count++] *)
Definition count_violation (st : mcs_lockdep_state) : mcs_lockdep_state :=
  mk_lockdep (held_class st) (held_name st) (depth st) (u32 (violation_count st + 1)).

(** * Lock-order checker *)

Definition mcs_lockdep_init (state : ptr mcs_lockdep_state) : option (ptr mcs_lockdep_state) :=
  match state with
  | NULL => Some NULL
  | Ref st =>
      st ← for_loop (loop_fuel 0 MCS_LOCKDEP_MAX_HELD 1) 0 MCS_LOCKDEP_MAX_HELD 1
        (fun i st =>
           hc ← arr_set (held_class st) i 0;
           hn ← arr_set (held_name st) i NULL;
           Some (mk_lockdep hc hn (depth st) (violation_count st))) st;
      Some (Ref (mk_lockdep (held_class st) (held_name st) 0 0))
  end.

(** [held_class[i] == class_id] for some [i] among the [n] from [i] on. *)
Fixpoint held_loop (hc : list Z) (class_id : Z) (n : nat) (i : Z) : option bool :=
  match n with
  | O => Some false
  | S n => c ← arr_get hc i; if c =? class_id then Some true else held_loop hc class_id n (i + 1)
  end.

Definition mcs_lockdep_is_held (state : ptr mcs_lockdep_state) (class_id : Z) : option bool :=
  match state with
  | NULL => Some false
  | Ref st =>
      if class_id =? 0 then Some false
      else held_loop (held_class st) class_id (Z.to_nat (Z.min (depth st) MCS_LOCKDEP_MAX_HELD)) 0
  end.

Definition mcs_lockdep_before_acquire (state : ptr mcs_lockdep_state) (class_id : Z) (name : ptr (list Z)) :
    option (Z * ptr mcs_lockdep_state) :=
  match state with
  | NULL => Some (MCS_SYNC_EINVAL, state)
  | Ref st =>
      if class_id =? 0 then Some (MCS_SYNC_EINVAL, state)
      else if MCS_LOCKDEP_MAX_HELD <=? depth st then Some (MCS_SYNC_EOVERFLOW, Ref (count_violation st))
      else
        held ← held_loop (held_class st) class_id (Z.to_nat (depth st)) 0;
        if (held : bool) then Some (MCS_SYNC_EDEADLK, Ref (count_violation st))
        else
          inverted ← (if 0 <? depth st then
                        top ← arr_get (held_class st) (depth st - 1); Some (class_id <? top)
                      else Some false);
          if (inverted : bool) then Some (MCS_SYNC_EDEADLK, Ref (count_violation st))
          else
            hc ← arr_set (held_class st) (depth st) class_id;
            hn ← arr_set (held_name st) (depth st) name;
            Some (MCS_SYNC_OK, Ref (mk_lockdep hc hn (u32 (depth st + 1)) (violation_count st)))
  end.

Definition mcs_lockdep_after_release (state : ptr mcs_lockdep_state) (class_id : Z) (name : ptr (list Z)) :
    option (Z * ptr mcs_lockdep_state) :=
  match state with
  | NULL => Some (MCS_SYNC_EINVAL, state)
  | Ref st =>
      if class_id =? 0 then Some (MCS_SYNC_EINVAL, state)
      else if depth st =? 0 then Some (MCS_SYNC_EPERM, Ref (count_violation st))
      else
        let index := depth st - 1 in
        c ← arr_get (held_class st) index;
        if negb (c =? class_id) then Some (MCS_SYNC_EDEADLK, Ref (count_violation st))
        else
          hc ← arr_set (held_class st) index 0;
          hn ← arr_set (held_name st) index NULL;
          Some (MCS_SYNC_OK, Ref (mk_lockdep hc hn (u32 (depth st - 1)) (violation_count st)))
  end.

(** * Spinlock *)

Definition mcs_spin_init (lock : ptr mcs_spinlock) (class_id : Z) (name : ptr (list Z)) : ptr mcs_spinlock :=
  match lock with NULL => NULL | Ref _ => Ref (mk_spinlock 0 class_id name) end.

(** One atomic exchange. *)
Definition mcs_spin_try_lock (lock : ptr mcs_spinlock) : bool * ptr mcs_spinlock :=
  match lock with
  | NULL => (false, NULL)
  | Ref l =>
      let old := s_locked l in
      (old =? 0, Ref (mk_spinlock 1 (s_class_id l) (s_name l)))
  end.

(** One atomic store. *)
Definition mcs_spin_unlock (lock : ptr mcs_spinlock) : ptr mcs_spinlock :=
  match lock with NULL => NULL | Ref l => Ref (mk_spinlock 0 (s_class_id l) (s_name l)) end.

(** One atomic load. *)
Definition mcs_spin_is_locked (lock : ptr mcs_spinlock) : bool :=
  match lock with NULL => false | Ref l => negb (s_locked l =? 0) end.

(** [mcs_spin_lock] as the atomic accesses of a processor: [SpinTry] is the outer loop condition,
    [SpinWait] the inner one; the call returns to [SpinHeld]. *)
Inductive spin_pc := SpinOut | SpinTry | SpinWait | SpinHeld.

Inductive spin_step : mcs_spinlock -> spin_pc -> mcs_spinlock -> spin_pc -> Prop :=
| spin_call l : spin_step l SpinOut l SpinTry
| spin_try l b l' : mcs_spin_try_lock (Ref l) = (b, Ref l') ->
    spin_step l SpinTry l' (if b then SpinHeld else SpinWait)
| spin_wait l : spin_step l SpinWait l (if negb (s_locked l =? 0) then SpinWait else SpinTry)
| spin_release l l' : mcs_spin_unlock (Ref l) = Ref l' -> spin_step l SpinHeld l' SpinOut.

(** Any number of processors, one of which makes a step. *)
Inductive spin_system_step : mcs_spinlock * (nat -> spin_pc) -> mcs_spinlock * (nat -> spin_pc) -> Prop :=
| spin_sys l pcs i l' pc' :
    spin_step l (pcs i) l' pc' ->
    spin_system_step (l, pcs) (l', fun j => if decide (j = i) then pc' else pcs j).

(** * Mutex *)

Definition mcs_mutex_init (mutex : ptr mcs_mutex) (class_id : Z) (name : ptr (list Z)) : ptr mcs_mutex :=
  match mutex with NULL => NULL | Ref _ => Ref (mk_mutex 0 0 class_id name) end.

Definition set_locked (m : mcs_mutex) (v : Z) : mcs_mutex := mk_mutex v (m_owner m) (m_class_id m) (m_name m).
Definition set_owner (m : mcs_mutex) (v : Z) : mcs_mutex := mk_mutex (m_locked m) v (m_class_id m) (m_name m).

Definition mcs_mutex_try_lock (mutex : ptr mcs_mutex) (owner_id : Z) : Z * ptr mcs_mutex :=
  match mutex with
  | NULL => (MCS_SYNC_EINVAL, NULL)
  | Ref m =>
      if owner_id =? 0 then (MCS_SYNC_EINVAL, mutex)
      else if negb (m_locked m =? 0) then
        if m_owner m =? owner_id then (MCS_SYNC_EDEADLK, mutex) else (MCS_SYNC_EBUSY, mutex)
      else (MCS_SYNC_OK, Ref (set_owner (set_locked m 1) owner_id))
  end.

Definition mcs_mutex_unlock (mutex : ptr mcs_mutex) (owner_id : Z) : Z * ptr mcs_mutex :=
  match mutex with
  | NULL => (MCS_SYNC_EINVAL, NULL)
  | Ref m =>
      if owner_id =? 0 then (MCS_SYNC_EINVAL, mutex)
      else
        let owner := m_owner m in
        if negb (owner =? owner_id) then (MCS_SYNC_EPERM, mutex)
        else (MCS_SYNC_OK, Ref (set_locked (set_owner m 0) 0))
  end.

Definition mcs_mutex_is_locked (mutex : ptr mcs_mutex) : bool :=
  match mutex with NULL => false | Ref m => negb (m_locked m =? 0) end.

Definition mcs_mutex_owner (mutex : ptr mcs_mutex) : Z :=
  match mutex with NULL => 0 | Ref m => m_owner m end.

(** The atomic accesses of the two calls. The argument of a control point says whether the
    thread holds the mutex when it makes the call: [MTry] the compare-exchange, [MFailed] the
    load of the owner after it failed, [MWon] the store of the owner after it succeeded, [MUnlock] the load of
    the owner, [MClear] and [MRelease] the two stores; [MIdle h] is outside the calls. *)
Inductive mutex_pc :=
| MIdle (h : bool) | MTry (h : bool) | MFailed (h : bool) | MWon | MUnlock (h : bool) | MClear (h : bool) | MRelease (h : bool).

(** One access by the thread [id], and the status when it is the last of its call. *)
Inductive mutex_step (id : Z) : mcs_mutex -> mutex_pc -> option Z -> mcs_mutex -> mutex_pc -> Prop :=
| m_call_try m h : mutex_step id m (MIdle h) None m (MTry h)
| m_call_unlock m h : mutex_step id m (MIdle h) None m (MUnlock h)
| m_cas_ok m h : m_locked m = 0 -> mutex_step id m (MTry h) None (set_locked m 1) MWon
| m_cas_fail m h : m_locked m <> 0 -> mutex_step id m (MTry h) None m (MFailed h)
| m_failed m h : mutex_step id m (MFailed h)
    (Some (if m_owner m =? id then MCS_SYNC_EDEADLK else MCS_SYNC_EBUSY)) m (MIdle h)
| m_won m : mutex_step id m MWon (Some MCS_SYNC_OK) (set_owner m id) (MIdle true)
| m_unlock_other m h : m_owner m <> id -> mutex_step id m (MUnlock h) (Some MCS_SYNC_EPERM) m (MIdle h)
| m_unlock_own m h : m_owner m = id -> mutex_step id m (MUnlock h) None m (MClear h)
| m_clear m h : mutex_step id m (MClear h) None (set_owner m 0) (MRelease h)
| m_release m h : mutex_step id m (MRelease h) (Some MCS_SYNC_OK) (set_locked m 0) (MIdle false).

(** Threads with identifiers [ids], one of which makes an access. *)
Inductive mutex_system_step (ids : nat -> Z) :
    mcs_mutex * (nat -> mutex_pc) -> mcs_mutex * (nat -> mutex_pc) -> Prop :=
| mutex_sys m pcs i r m' pc' :
    mutex_step (ids i) m (pcs i) r m' pc' ->
    mutex_system_step ids (m, pcs) (m', fun j => if decide (j = i) then pc' else pcs j).

(** * Specification *)

(** The classes held, oldest first. *)
Definition held (st : mcs_lockdep_state) : list Z := take (Z.to_nat (depth st)) (held_class st).

(** Non-zero classes in strictly increasing order, within the arrays. *)
Record lockdep_wf (st : mcs_lockdep_state) : Prop := {
  ld_class : length (held_class st) = 16%nat;
  ld_name : length (held_name st) = 16%nat;
  ld_depth : 0 <= depth st <= 16;
  ld_sorted : StronglySorted Z.lt (held st);
  ld_nonzero : Forall (fun c => 0 < c < 2 ^ 32) (held st)
}.

(** States reached by the two calls. *)
Inductive lockdep_reachable : mcs_lockdep_state -> Prop :=
| ld_init st st' : length (held_class st) = 16%nat -> length (held_name st) = 16%nat ->
    mcs_lockdep_init (Ref st) = Some (Ref st') -> lockdep_reachable st'
| ld_acquire st c nm rc st' : lockdep_reachable st -> is_u32 c ->
    mcs_lockdep_before_acquire (Ref st) c nm = Some (rc, Ref st') -> lockdep_reachable st'
| ld_release st c nm rc st' : lockdep_reachable st -> is_u32 c ->
    mcs_lockdep_after_release (Ref st) c nm = Some (rc, Ref st') -> lockdep_reachable st'.

(** Thread [i], whose last accepted class is the one it waits for, waits for a class that
    thread [j] holds below the one it waits for itself. *)
Definition waits_for (sts : nat -> mcs_lockdep_state) (i j : nat) : Prop :=
  exists c below d, last (held (sts i)) = Some c /\ held (sts j) = below ++ [d] /\ c ∈ below.

(** Who holds the mutex. *)
Definition holds (pc : mutex_pc) : bool :=
  match pc with
  | MWon => true
  | MIdle h | MTry h | MFailed h | MUnlock h | MClear h | MRelease h => h
  end.

(** * Lemmas: the lock-order checker *)

Lemma held_loop_spec hc c n : forall i,
  0 <= i -> i + Z.of_nat n <= Z.of_nat (length hc) ->
  held_loop hc c n i = Some (bool_decide (c ∈ take n (drop (Z.to_nat i) hc))).
Proof.
  induction n as [|n IH]; intros i Hi Hl; cbn [held_loop]; [done|].
  destruct (arr_get_lt hc i) as [x Hx]; [lia|]. rewrite Hx. cbn [mbind option_bind]. apply arr_get_Some in Hx as [_ Hx].
  rewrite (drop_S _ x) by done. cbn [take]. destruct (Z.eqb_spec x c) as [->|Hne].
  - f_equal. symmetry. apply bool_decide_eq_true_2. set_solver.
  - rewrite IH by lia. replace (Z.to_nat (i + 1)) with (S (Z.to_nat i)) by lia. f_equal. apply bool_decide_ext. set_solver.
Qed.

Lemma sorted_snoc l x : StronglySorted Z.lt l -> Forall (fun y => y < x) l -> StronglySorted Z.lt (l ++ [x]).
Proof.
  induction l as [|y l IH]; intros Hs Hx; [repeat constructor|]. apply StronglySorted_inv in Hs as [Hs Hy].
  apply Forall_cons in Hx as [Hyx Hx]. cbn. constructor; [by apply IH|]. apply Forall_app. split; [done|].
  by constructor.
Qed.

Lemma sorted_init l x : StronglySorted Z.lt (l ++ [x]) -> StronglySorted Z.lt l /\ Forall (fun y => y < x) l.
Proof.
  induction l as [|y l IH]; intros Hs; [split; constructor|]. cbn in Hs. apply StronglySorted_inv in Hs as [Hs Hy].
  destruct (IH Hs) as [H1 H2]. apply Forall_app in Hy as [Hy1 Hy2]. apply Forall_cons in Hy2 as [Hyx _].
  split; constructor; done.
Qed.

Lemma violation_wf st : lockdep_wf st -> lockdep_wf (count_violation st).
Proof. intros [H1 H2 H3 H4 H5]. by split. Qed.

Lemma init_loop_spec st :
  length (held_class st) = 16%nat -> length (held_name st) = 16%nat ->
  exists st', mcs_lockdep_init (Ref st) = Some (Ref st') /\ lockdep_wf st' /\ held st' = [] /\ violation_count st' = 0.
Proof.
  intros Hc Hn. unfold mcs_lockdep_init, MCS_LOCKDEP_MAX_HELD.
  destruct (for_loop_count (fun _ s => length (held_class s) = 16%nat /\ length (held_name s) = 16%nat) 0 16
    (fun i st => hc ← arr_set (held_class st) i 0; hn ← arr_set (held_name st) i NULL;
       Some (mk_lockdep hc hn (depth st) (violation_count st))) st) as (s' & -> & H1 & H2); [lia|lia|done| |].
  - intros i s Hi [H1 H2]. rewrite !arr_set_lt by lia. cbn [mbind option_bind]. eexists. split; [done|].
    cbn. by rewrite !length_insert.
  - cbn [mbind option_bind]. eexists. split; [done|]. split; [|done]. split; cbn; try done; try lia; constructor.
Qed.

(** The last held class. *)
Lemma held_snoc st : lockdep_wf st -> 0 < depth st ->
  exists below d, held st = below ++ [d] /\ arr_get (held_class st) (depth st - 1) = Some d /\
    below = take (Z.to_nat (depth st - 1)) (held_class st).
Proof.
  intros [H1 H2 H3 H4 H5] Hd. destruct (arr_get_lt (held_class st) (depth st - 1)) as [d Hdd]; [lia|].
  exists (take (Z.to_nat (depth st - 1)) (held_class st)), d. split_and!; [|done|done]. unfold held.
  apply arr_get_Some in Hdd as [_ Hdd]. rewrite <- (take_S_r _ _ d) by done. f_equal. lia.
Qed.

Lemma below_last l x y : StronglySorted Z.lt (l ++ [x]) -> y ∉ l ++ [x] -> ~ y < x -> Forall (fun z => z < y) (l ++ [x]).
Proof.
  intros Hs Hn Hy. destruct (sorted_init _ _ Hs) as [_ Hl]. assert (x < y) by (assert (y <> x) by set_solver; lia).
  apply Forall_app. split; [|by repeat constructor]. eapply Forall_impl; [done|]. cbn. lia.
Qed.

(** A class is accepted when it is above all the held ones and there is room. *)
Lemma acquire_spec st c nm :
  lockdep_wf st -> 0 < c < 2 ^ 32 ->
  exists rc st', mcs_lockdep_before_acquire (Ref st) c nm = Some (rc, Ref st') /\ lockdep_wf st' /\
    ((rc = MCS_SYNC_OK /\ depth st < 16 /\ Forall (fun x => x < c) (held st) /\
       held st' = held st ++ [c] /\ violation_count st' = violation_count st) \/
     ((rc = MCS_SYNC_EOVERFLOW /\ depth st = 16 \/
       rc = MCS_SYNC_EDEADLK /\ depth st < 16 /\ ~ Forall (fun x => x < c) (held st)) /\
      held st' = held st /\ violation_count st' = u32 (violation_count st + 1))).
Proof.
  intros Hwf Hc. pose proof Hwf as [H1 H2 H3 H4 H5]. unfold mcs_lockdep_before_acquire, MCS_LOCKDEP_MAX_HELD.
  rw_false (c =? 0). destruct (Z.leb_spec 16 (depth st)).
  { eexists _, _. split; [done|]. split; [by apply violation_wf|]. right. split; [left; split; [done|lia]|done]. }
  rewrite held_loop_spec by lia. cbn [mbind option_bind]. change (take (Z.to_nat (depth st)) (drop (Z.to_nat 0) (held_class st))) with (held st).
  case_bool_decide as Hin.
  { eexists _, _. split; [done|]. split; [by apply violation_wf|]. right. split; [|done]. right. split_and!; [done|done|].
    intros Hall. apply (proj1 (Forall_forall _ _) Hall) in Hin. cbn in Hin. lia. }
  assert (Htop : exists b, (if 0 <? depth st then top ← arr_get (held_class st) (depth st - 1); Some (c <? top)
    else Some false) = Some b /\ (b = false <-> Forall (fun x => x < c) (held st))).
  { destruct (Z.ltb_spec 0 (depth st)).
    - destruct (held_snoc st Hwf) as (below & d & Hh & -> & _); [done|]. cbn [mbind option_bind].
      eexists. split; [done|]. rewrite Hh in *. rewrite Z.ltb_ge. split.
      + intros Hle. apply below_last; [done|done|lia].
      + intros [_ Hd]%Forall_app. apply Forall_cons in Hd as [Hd _]. lia.
    - exists false. split; [done|]. split; [|done]. intros _. unfold held. assert (depth st = 0) as -> by lia. constructor. }
  destruct Htop as (b & -> & Hb). cbn [mbind option_bind]. destruct b.
  { eexists _, _. split; [done|]. split; [by apply violation_wf|]. right. split; [|done]. right. split_and!; [done|done|].
    intros Hall%Hb. done. }
  rewrite !arr_set_lt by lia. cbn [mbind option_bind]. rewrite u32_small by ulia.
  assert (Hh : held (mk_lockdep (<[Z.to_nat (depth st) := c]> (held_class st)) (<[Z.to_nat (depth st) := nm]> (held_name st))
    (depth st + 1) (violation_count st)) = held st ++ [c]).
  { unfold held. cbn. replace (Z.to_nat (depth st + 1)) with (S (Z.to_nat (depth st))) by lia.
    rewrite (take_S_r _ _ c) by (apply list_lookup_insert_eq; lia). by rewrite take_insert_ge by lia. }
  pose proof (proj1 Hb eq_refl) as Hall. eexists _, _. split; [done|]. split.
  - split; rewrite ?Hh; cbn; rewrite ?length_insert; try done; try lia.
    + by apply sorted_snoc.
    + apply Forall_app. split; [done|]. repeat constructor; lia.
  - left. split_and!; done.
Qed.

(** Only the last acquired class can be released. *)
Lemma release_spec st c nm :
  lockdep_wf st -> 0 < c < 2 ^ 32 ->
  exists rc st', mcs_lockdep_after_release (Ref st) c nm = Some (rc, Ref st') /\ lockdep_wf st' /\
    ((rc = MCS_SYNC_OK /\ held st = held st' ++ [c] /\ violation_count st' = violation_count st) \/
     ((rc = MCS_SYNC_EPERM /\ held st = [] \/ rc = MCS_SYNC_EDEADLK /\ last (held st) <> Some c) /\
      held st' = held st /\ violation_count st' = u32 (violation_count st + 1))).
Proof.
  intros Hwf Hc. pose proof Hwf as [H1 H2 H3 H4 H5]. unfold mcs_lockdep_after_release. rw_false (c =? 0).
  destruct (Z.eqb_spec (depth st) 0) as [H0|H0].
  { eexists _, _. split; [done|]. split; [by apply violation_wf|]. right. split; [|done]. left. split; [done|].
    unfold held. by rewrite H0. }
  destruct (held_snoc st Hwf) as (below & d & Hh & -> & Hbelow); [lia|]. cbn [mbind option_bind].
  destruct (Z.eqb_spec d c) as [->|Hne]; cbn [negb].
  2:{ eexists _, _. split; [done|]. split; [by apply violation_wf|]. right. split; [|done]. right. split; [done|].
      rewrite Hh, last_snoc. congruence. }
  rewrite !arr_set_lt by lia. cbn [mbind option_bind]. rewrite u32_small by ulia.
  assert (Hh' : held (mk_lockdep (<[Z.to_nat (depth st - 1) := 0]> (held_class st))
    (<[Z.to_nat (depth st - 1) := NULL]> (held_name st)) (depth st - 1) (violation_count st)) = below).
  { unfold held. cbn. by rewrite take_insert_ge by lia. }
  rewrite Hh in H4, H5. apply sorted_init in H4 as [H4 _]. apply Forall_app in H5 as [H5 _].
  eexists _, _. split; [done|]. split.
  - split; rewrite ?Hh'; cbn; rewrite ?length_insert; try done; lia.
  - left. rewrite Hh'. done.
Qed.

Lemma lockdep_reachable_wf st : lockdep_reachable st -> lockdep_wf st.
Proof.
  induction 1 as [st st' Hc Hn Hi|st c nm rc st' _ IH Hu He|st c nm rc st' _ IH Hu He].
  - destruct (init_loop_spec st Hc Hn) as (s & Hs & Hwf & _). congruence.
  - destruct (Z.eq_dec c 0) as [->|Hc]; [cbn in He; by injection He as <- <-|].
    destruct (acquire_spec st c nm IH) as (rc' & s & Hs & Hwf & _); [ulia|]. congruence.
  - destruct (Z.eq_dec c 0) as [->|Hc]; [cbn in He; by injection He as <- <-|].
    destruct (release_spec st c nm IH) as (rc' & s & Hs & Hwf & _); [ulia|]. congruence.
Qed.

(** Along a wait, the class waited for increases. *)
Lemma waits_for_increases sts i j :
  (forall k, lockdep_wf (sts k)) -> waits_for sts i j ->
  exists c d, last (held (sts i)) = Some c /\ last (held (sts j)) = Some d /\ c < d.
Proof.
  intros Hwf (c & below & d & Hc & Hj & Hin). exists c, d. split; [done|]. rewrite Hj, last_snoc. split; [done|].
  pose proof (ld_sorted _ (Hwf j)) as Hs. rewrite Hj in Hs. apply sorted_init in Hs as [_ Hs].
  by apply (proj1 (Forall_forall _ _) Hs) in Hin.
Qed.

(** * Lemmas: interleavings *)

(** The lock word is set exactly while one processor holds the lock. *)
Definition spin_inv (x : mcs_spinlock * (nat -> spin_pc)) : Prop :=
  (s_locked x.1 = 0 /\ forall i, x.2 i <> SpinHeld) \/
  (s_locked x.1 = 1 /\ exists i, forall j, x.2 j = SpinHeld <-> j = i).

Lemma spin_inv_step x y : spin_system_step x y -> spin_inv x -> spin_inv y.
Proof.
  intros [l pcs i l' pc' Hs] Hinv. unfold spin_inv in *. cbn [fst snd] in *.
  remember (pcs i) as pc eqn:Hpc. destruct Hs as [l|l b l' Ht|l|l l' Hu].
  - destruct Hinv as [[H0 Hn]|[H1 [k Hk]]]; [left|right]; (split; [done|]).
    + intros j. by case_decide.
    + exists k. intros j. case_decide as Hd; [|apply Hk]. subst j. rewrite <- (Hk i), <- Hpc. done.
  - cbn in Ht. injection Ht as <- <-. cbn. right. split; [done|].
    destruct Hinv as [[H0 Hn]|[H1 [k Hk]]].
    + rewrite H0. cbn. exists i. intros j. case_decide; [done|]. split; [|done]. intros Hj. by destruct (Hn j).
    + rewrite H1. cbn. exists k. intros j. case_decide as Hd; [|apply Hk]. subst j. rewrite <- (Hk i), <- Hpc. done.
  - destruct Hinv as [[H0 Hn]|[H1 [k Hk]]]; [left|right]; (split; [done|]).
    + intros j. case_decide; [|done]. by destruct (negb _).
    + exists k. intros j. case_decide as Hd; [|apply Hk]. subst j. rewrite <- (Hk i), <- Hpc. by destruct (negb _).
  - cbn in Hu. injection Hu as <-. left. split; [done|].
    destruct Hinv as [[H0 Hn]|[H1 [k Hk]]]; [by destruct (Hn i)|].
    intros j. case_decide as Hd; [done|]. intros Hj. apply Hd. apply Hk in Hj. symmetry in Hpc. apply Hk in Hpc. congruence.
Qed.

(** Whether the owner field is written by the holder. *)
Definition published (pc : mutex_pc) : bool :=
  match pc with MWon | MRelease _ => false | _ => holds pc end.

Definition leaving (pc : mutex_pc) : bool :=
  match pc with MClear h | MRelease h => negb h | _ => false end.

Definition mutex_inv (ids : nat -> Z) (x : mcs_mutex * (nat -> mutex_pc)) : Prop :=
  (forall i, leaving (x.2 i) = false) /\
  ((m_locked x.1 = 0 /\ m_owner x.1 = 0 /\ forall i, holds (x.2 i) = false) \/
   (m_locked x.1 = 1 /\ exists i, (forall j, holds (x.2 j) = true <-> j = i) /\
      m_owner x.1 = if published (x.2 i) then ids i else 0)).

Section mutex.
Context (ids : nat -> Z).
Hypothesis Hids : forall i j, ids i = ids j -> i = j.
Hypothesis Hnz : forall i, ids i <> 0.

(** A step that changes neither the lock nor who holds it. *)
Lemma mutex_inv_quiet m pcs i pc' :
  mutex_inv ids (m, pcs) -> holds pc' = holds (pcs i) -> leaving pc' = false -> published pc' = published (pcs i) ->
  mutex_inv ids (m, fun j => if decide (j = i) then pc' else pcs j).
Proof.
  intros [Hl Hinv] Hh Hlv Hp. split; cbn [fst snd] in *; [intros j; by case_decide|].
  destruct Hinv as [(H0 & Ho & Hn)|(H1 & k & Hk & Ho)]; [left|right].
  - split_and!; [done..|]. intros j. case_decide; [|done]. by rewrite Hh.
  - split; [done|]. exists k. split.
    + intros j. case_decide as Hd; [|apply Hk]. subst j. rewrite Hh. apply Hk.
    + case_decide as Hd; [|done]. subst k. by rewrite Hp.
Qed.

(** The owner field names the holder. *)
Lemma mutex_owner_holds m pcs i : mutex_inv ids (m, pcs) -> m_owner m = ids i -> holds (pcs i) = true /\ published (pcs i) = true.
Proof.
  intros [_ [(_ & Ho & _)|(_ & k & Hk & Ho)]] Hi; cbn [fst snd] in *; pose proof (Hnz i); [congruence|].
  destruct (published (pcs k)) eqn:Ep; [|congruence]. assert (i = k) as -> by (apply Hids; congruence).
  split; [by apply Hk|done].
Qed.

Lemma mutex_holder_owner m pcs i : mutex_inv ids (m, pcs) -> published (pcs i) = true -> m_owner m = ids i.
Proof.
  intros [_ [(_ & _ & Hn)|(_ & k & Hk & Ho)]] Hi; cbn [fst snd] in *.
  - assert (holds (pcs i) = true) by by destruct (pcs i). by rewrite Hn in *.
  - assert (holds (pcs i) = true) as Hh%Hk by by destruct (pcs i). subst k. by rewrite Ho, Hi.
Qed.

(** A step by the holder, which keeps, publishes, withdraws or gives up the mutex. *)
Lemma mutex_inv_holder m m' pcs i pc' :
  mutex_inv ids (m, pcs) -> holds (pcs i) = true -> leaving pc' = false ->
  m_locked m' = (if holds pc' then 1 else 0) -> m_owner m' = (if published pc' then ids i else 0) ->
  mutex_inv ids (m', fun j => if decide (j = i) then pc' else pcs j).
Proof.
  intros [Hl Hinv] Hh Hlv Hm Ho. split; cbn [fst snd] in *; [intros j; by case_decide|].
  destruct Hinv as [(_ & _ & Hn)|(_ & k & Hk & _)]; [by rewrite Hn in Hh|].
  apply Hk in Hh as <-. assert (Hother : forall j, j <> i -> holds (pcs j) = false).
  { intros j Hj. destruct (holds (pcs j)) eqn:E; [|done]. by apply Hk in E. }
  destruct (holds pc') eqn:Hp; [right|left].
  - split; [done|]. exists i. split; [|by rewrite decide_True].
    intros j. case_decide as Hd; [done|]. rewrite Hother by done. split; done.
  - split_and!; [done|by destruct pc'; cbn in *; subst|]. intros j. case_decide; [done|]. by apply Hother.
Qed.

Lemma mutex_inv_step x y : mutex_system_step ids x y -> mutex_inv ids x -> mutex_inv ids y.
Proof.
  intros [m pcs i r m' pc' Hs] Hinv. pose proof Hinv as [Hlv Hcase]. specialize (Hlv i) as Hlvi. cbn [fst snd] in *.
  remember (pcs i) as pc eqn:Hpc. destruct Hs as [m h|m h|m h H0|m h H0|m h|m|m h H0|m h H0|m h|m h].
  - apply mutex_inv_quiet; rewrite <- ?Hpc; done.
  - apply mutex_inv_quiet; rewrite <- ?Hpc; done.
  - (* the compare-exchange succeeds *)
    destruct Hcase as [(_ & Ho & Hn)|(H1 & _)]; [|congruence].
    split; cbn [fst snd]; [intros j; case_decide; [done|apply Hlv]|]. right. split; [done|]. exists i. split.
    + intros j. case_decide; [done|]. rewrite Hn. split; done.
    + by rewrite decide_True.
  - apply mutex_inv_quiet; rewrite <- ?Hpc; done.
  - apply mutex_inv_quiet; rewrite <- ?Hpc; done.
  - apply (mutex_inv_holder m); rewrite <- ?Hpc; try done. cbn.
    destruct Hcase as [(_ & _ & Hn)|(H1 & _)]; [|done]. specialize (Hn i). by rewrite <- Hpc in Hn.
  - apply mutex_inv_quiet; rewrite <- ?Hpc; done.
  - destruct (mutex_owner_holds m pcs i Hinv H0) as [Hh _]. rewrite <- Hpc in Hh. cbn in Hh. subst h.
    apply mutex_inv_quiet; rewrite <- ?Hpc; done.
  - cbn in Hlvi. apply negb_false_iff in Hlvi. subst h. apply (mutex_inv_holder m); rewrite <- ?Hpc; try done. cbn.
    destruct Hcase as [(_ & _ & Hn)|(H1 & _)]; [|done]. specialize (Hn i). by rewrite <- Hpc in Hn.
  - cbn in Hlvi. apply negb_false_iff in Hlvi. subst h. apply (mutex_inv_holder m); rewrite <- ?Hpc; try done. cbn.
    destruct Hcase as [(_ & _ & Hn)|(H1 & k & Hk & Ho)]; [specialize (Hn i); by rewrite <- Hpc in Hn|].
    assert (i = k) as <- by (apply Hk; by rewrite <- Hpc). by rewrite Ho, <- Hpc.
Qed.
End mutex.

(** * Properties *)

(** C26. The lock-order checker enforces strictly increasing lock classes. In every reachable state the held
    classes are non-zero and strictly increasing, at most 16; an acquisition is
    accepted exactly when its class is above every held class and there is room, and only
    the last acquired class can be released; every refusal counts one violation and
    leaves the held classes alone. *)
Theorem lockdep_enforces_order st c nm :
  lockdep_reachable st -> 0 < c < 2 ^ 32 ->
  StronglySorted Z.lt (held st) /\ Z.of_nat (length (held st)) <= MCS_LOCKDEP_MAX_HELD /\
  (exists rc st', mcs_lockdep_before_acquire (Ref st) c nm = Some (rc, Ref st') /\
     (rc = MCS_SYNC_OK <-> Forall (fun x => x < c) (held st) /\ depth st < 16) /\
     (rc = MCS_SYNC_OK -> held st' = held st ++ [c]) /\
     (rc <> MCS_SYNC_OK -> held st' = held st /\ violation_count st' = u32 (violation_count st + 1))) /\
  (exists rc st', mcs_lockdep_after_release (Ref st) c nm = Some (rc, Ref st') /\
     (rc = MCS_SYNC_OK -> held st = held st' ++ [c]) /\
     (rc <> MCS_SYNC_OK -> last (held st) <> Some c /\ held st' = held st /\
        violation_count st' = u32 (violation_count st + 1))).
Proof.
  intros Hr%lockdep_reachable_wf Hc. pose proof Hr as [H1 H2 H3 H4 H5]. split_and!; [done| | |].
  - unfold held, MCS_LOCKDEP_MAX_HELD. rewrite length_take. lia.
  - destruct (acquire_spec st c nm Hr Hc) as (rc & st' & -> & _ & Hcase). exists rc, st'. split; [done|].
    destruct Hcase as [(-> & Hd & Hall & Hh & _)|([[-> Hd]|(-> & Hd & Hn)] & Hh & Hv)].
    + split_and!; try done; tauto.
    + split_and!; try done. split; [done|]. lia.
    + split_and!; try done. split; [done|]. tauto.
  - destruct (release_spec st c nm Hr Hc) as (rc & st' & -> & _ & Hcase). exists rc, st'. split; [done|].
    destruct Hcase as [(-> & Hh & _)|([[-> Hd]|(-> & Hn)] & Hh & Hv)].
    + split_and!; done.
    + split_and!; try done. intros _. split_and!; [by rewrite Hd|done|done].
    + split_and!; done.
Qed.

(** An empty checker, and one that holds class 3. *)
Definition demo_lockdep : mcs_lockdep_state := mk_lockdep (replicate 16 0) (replicate 16 NULL) 0 0.
Definition demo_lockdep3 : mcs_lockdep_state := mk_lockdep (3 :: replicate 15 0) (replicate 16 NULL) 1 0.

Lemma demo_lockdep3_reachable : lockdep_reachable demo_lockdep3.
Proof.
  apply (ld_acquire demo_lockdep 3 NULL MCS_SYNC_OK); [|unfold is_u32; lia|reflexivity].
  by apply (ld_init (mk_lockdep (replicate 16 9) (replicate 16 NULL) 7 7)).
Qed.

Lemma lockdep_enforces_order_witness :
  StronglySorted Z.lt (held demo_lockdep3) /\ Z.of_nat (length (held demo_lockdep3)) <= MCS_LOCKDEP_MAX_HELD /\
  (exists rc st', mcs_lockdep_before_acquire (Ref demo_lockdep3) 2 NULL = Some (rc, Ref st') /\
     (rc = MCS_SYNC_OK <-> Forall (fun x => x < 2) (held demo_lockdep3) /\ depth demo_lockdep3 < 16) /\
     (rc = MCS_SYNC_OK -> held st' = held demo_lockdep3 ++ [2]) /\
     (rc <> MCS_SYNC_OK -> held st' = held demo_lockdep3 /\ violation_count st' = u32 (violation_count demo_lockdep3 + 1))) /\
  (exists rc st', mcs_lockdep_after_release (Ref demo_lockdep3) 2 NULL = Some (rc, Ref st') /\
     (rc = MCS_SYNC_OK -> held demo_lockdep3 = held st' ++ [2]) /\
     (rc <> MCS_SYNC_OK -> last (held demo_lockdep3) <> Some 2 /\ held st' = held demo_lockdep3 /\
        violation_count st' = u32 (violation_count demo_lockdep3 + 1))).
Proof. apply lockdep_enforces_order; [apply demo_lockdep3_reachable|lia]. Defined.

(** C12. The lock-order checker excludes deadlock. Let every thread ask [mcs_lockdep_before_acquire] before it acquires a
    lock, with one class per lock, so that a thread that waits has the class it waits for
    last in its list. Then no thread waits, through any chain of threads each waiting for a lock the
    next one holds, for itself. *)
Theorem lockdep_no_deadlock sts :
  (forall k, lockdep_reachable (sts k)) -> forall i, ~ tc (waits_for sts) i i.
Proof.
  intros Hr. assert (Hwf : forall k, lockdep_wf (sts k)) by (intros k; by apply lockdep_reachable_wf).
  assert (Hinc : forall i j, tc (waits_for sts) i j ->
    exists c d, last (held (sts i)) = Some c /\ last (held (sts j)) = Some d /\ c < d).
  { induction 1 as [i j Hw|i j k Hw _ IH]; [by apply waits_for_increases|].
    destruct (waits_for_increases sts i j Hwf Hw) as (c & d & Hc & Hd & Hcd).
    destruct IH as (d' & e & Hd' & He & Hde). rewrite Hd in Hd'. injection Hd' as <-.
    exists c, e. split_and!; [done..|lia]. }
  intros i Ht. destruct (Hinc i i Ht) as (c & d & Hc & Hd & Hcd). rewrite Hc in Hd. injection Hd as <-. lia.
Qed.

(** Thread 0 waits for class 3, which thread 1 holds while it waits for class 5. *)
Definition demo_lockdep35 : mcs_lockdep_state := mk_lockdep (3 :: 5 :: replicate 14 0) (replicate 16 NULL) 2 0.
Definition demo_threads (i : nat) : mcs_lockdep_state := match i with 0%nat => demo_lockdep3 | _ => demo_lockdep35 end.

Lemma lockdep_no_deadlock_witness : waits_for demo_threads 0 1 /\ ~ tc (waits_for demo_threads) 0%nat 0%nat.
Proof.
  split; [exists 3, [3], 5; split_and!; [done|done|set_solver]|].
  apply (lockdep_no_deadlock demo_threads). intros [|k]; [apply demo_lockdep3_reachable|].
  apply (ld_acquire demo_lockdep3 5 NULL MCS_SYNC_OK); [apply demo_lockdep3_reachable|unfold is_u32; lia|reflexivity].
Defined.

(** C25. The spinlock provides mutual exclusion: however the atomic accesses of any number of processors that call
    [mcs_spin_lock] and [mcs_spin_unlock] on an initialised lock interleave, at most one of them is between
    the two calls, and the lock word is set exactly while one is. *)
Theorem spinlock_mutual_exclusion l0 class_id nm l l' pcs :
  mcs_spin_init (Ref l0) class_id nm = Ref l -> rtc spin_system_step (l, fun _ => SpinOut) (l', pcs) ->
  (forall i j, pcs i = SpinHeld -> pcs j = SpinHeld -> i = j) /\
  (mcs_spin_is_locked (Ref l') = true <-> exists i, pcs i = SpinHeld).
Proof.
  intros Hi Hr. injection Hi as <-.
  assert (Hinv : spin_inv (l', pcs)).
  { remember (mk_spinlock 0 class_id nm, fun _ : nat => SpinOut) as x eqn:Ex.
    assert (H0 : spin_inv x) by (subst; by left). clear Ex.
    induction Hr as [|x y z Hs _ IH]; [done|]. apply IH. by eapply spin_inv_step. }
  destruct Hinv as [[H0 Hn]|[H1 [k Hk]]]; cbn [fst snd] in *; unfold mcs_spin_is_locked.
  - rewrite H0. split; [intros i j Hx; by destruct (Hn i)|]. split; [done|]. intros [i Hx]. by destruct (Hn i).
  - rewrite H1. split; [intros i j Hx%Hk Hy%Hk; congruence|]. split; [|done]. intros _. exists k. by apply Hk.
Qed.

Definition demo_spin : mcs_spinlock := mk_spinlock 0 1 NULL.

Lemma spinlock_mutual_exclusion_witness :
  let pcs := fun j : nat => if decide (j = 0%nat) then SpinHeld else if decide (j = 0%nat) then SpinTry else SpinOut in
  (forall i j, pcs i = SpinHeld -> pcs j = SpinHeld -> i = j) /\
  (mcs_spin_is_locked (Ref (mk_spinlock 1 1 NULL)) = true <-> exists i, pcs i = SpinHeld).
Proof.
  apply (spinlock_mutual_exclusion (mk_spinlock 7 7 NULL) 1 NULL demo_spin (mk_spinlock 1 1 NULL)).
  - reflexivity.
  - eapply rtc_l; [apply (spin_sys demo_spin (fun _ => SpinOut) 0); apply spin_call|].
    apply rtc_once. apply (spin_sys demo_spin _ 0 _ SpinHeld). apply (spin_try demo_spin true). reflexivity.
Defined.

(** C13. The mutex provides mutual exclusion and owner checks under interleaving. Let threads with distinct non-zero
    identifiers run [mcs_mutex_try_lock] and [mcs_mutex_unlock] in any order and interleave
    at each atomic access, including unlock calls by threads that do not hold the mutex. At every point at most one
    thread holds it and the lock word is set exactly while one does; an unlock
    that succeeds, and the answer MCS_SYNC_EDEADLK, are given to the holder only, and MCS_SYNC_EPERM to others only. *)
Theorem mutex_mutual_exclusion ids m0 class_id nm m m' pcs :
  (forall i j, ids i = ids j -> i = j) -> (forall i : nat, ids i <> 0) ->
  mcs_mutex_init (Ref m0) class_id nm = Ref m ->
  rtc (mutex_system_step ids) (m, fun _ => MIdle false) (m', pcs) ->
  (forall i j, holds (pcs i) = true -> holds (pcs j) = true -> i = j) /\
  (mcs_mutex_is_locked (Ref m') = true <-> exists i, holds (pcs i) = true) /\
  forall i r m'' pc', mutex_step (ids i) m' (pcs i) (Some r) m'' pc' ->
    (r = MCS_SYNC_EDEADLK -> holds (pcs i) = true) /\ (r = MCS_SYNC_EPERM -> holds (pcs i) = false) /\
    (r = MCS_SYNC_OK -> holds (pcs i) = true).
Proof.
  intros Hids Hnz Hi Hr. injection Hi as <-.
  assert (Hinv : mutex_inv ids (m', pcs)).
  { remember (mk_mutex 0 0 class_id nm, fun _ : nat => MIdle false) as x eqn:Ex.
    assert (H0 : mutex_inv ids x) by (subst; split; [done|]; by left). clear Ex.
    induction Hr as [|x y z Hs _ IH]; [done|]. apply IH. by eapply mutex_inv_step. }
  pose proof Hinv as [Hlv Hcase]. cbn [fst snd] in *. split_and!.
  - destruct Hcase as [(_ & _ & Hn)|(_ & k & Hk & _)]; intros i j Hx Hy; [by rewrite Hn in Hx|].
    apply Hk in Hx, Hy. congruence.
  - unfold mcs_mutex_is_locked. destruct Hcase as [(H0 & _ & Hn)|(H1 & k & Hk & _)].
    + rewrite H0. split; [done|]. intros [i Hx]. by rewrite Hn in Hx.
    + rewrite H1. split; [|done]. intros _. exists k. by apply Hk.
  - intros i r m'' pc' Hs. remember (pcs i) as pc eqn:Hpc. remember (Some r) as sr eqn:Er.
    specialize (Hlv i). rewrite <- Hpc in Hlv.
    destruct Hs as [m h|m h|m h H0|m h H0|m h|m|m h H0|m h H0|m h|m h]; try done; injection Er as <-; split_and!; try done.
    + destruct (Z.eqb_spec (m_owner m) (ids i)) as [Ho|]; [|done]. intros _.
      destruct (mutex_owner_holds ids Hids Hnz m pcs i Hinv Ho) as [Hh _]. by rewrite <- Hpc in Hh.
    + by destruct (m_owner m =? ids i).
    + by destruct (m_owner m =? ids i).
    + intros _. destruct h; [|done]. exfalso. apply H0. apply (mutex_holder_owner ids m pcs i Hinv). by rewrite <- Hpc.
    + cbn in Hlv |- *. by destruct h.
Qed.

Definition demo_mutex : mcs_mutex := mk_mutex 0 0 1 NULL.

(** Thread 0 has locked the mutex, and thread 1 is about to try. *)
Lemma mutex_mutual_exclusion_witness :
  let m := set_owner (set_locked demo_mutex 1) 1 in
  exists pcs, rtc (mutex_system_step (fun i => Z.of_nat i + 1)) (demo_mutex, fun _ => MIdle false) (m, pcs) /\ pcs 0%nat = MIdle true /\ pcs 1%nat = MTry false /\
    (forall i j, holds (pcs i) = true -> holds (pcs j) = true -> i = j) /\ (mcs_mutex_is_locked (Ref m) = true <-> exists i, holds (pcs i) = true).
Proof.
  intros m. set (ids i := Z.of_nat i + 1).
  assert (Hr : exists pcs, rtc (mutex_system_step ids) (demo_mutex, fun _ => MIdle false) (m, pcs) /\ pcs 0%nat = MIdle true /\ pcs 1%nat = MTry false).
  { eexists. split; [|shelve]. eapply rtc_l; [apply (mutex_sys ids demo_mutex _ 0 None demo_mutex (MTry false)); apply m_call_try|].
    eapply rtc_l; [apply (mutex_sys ids demo_mutex _ 0 None (set_locked demo_mutex 1) MWon); apply m_cas_ok; reflexivity|]. eapply rtc_l; [apply (mutex_sys ids (set_locked demo_mutex 1) _ 0 (Some MCS_SYNC_OK) m (MIdle true)); apply m_won|].
    apply rtc_once. apply (mutex_sys ids m _ 1 None m (MTry false)). apply m_call_try. Unshelve. split; reflexivity. }
  destruct Hr as (pcs & Hr & H0 & H1). exists pcs. split; [exact Hr|]. split; [exact H0|]. split; [exact H1|].
  destruct (mutex_mutual_exclusion ids (mk_mutex 5 5 5 NULL) 1 NULL demo_mutex m pcs) as (Hx & Hl & _).
  - intros i j Hij. unfold ids in Hij. lia.
  - intros i. unfold ids. lia.
  - reflexivity.
  - exact Hr.
  - split; [exact Hx|exact Hl].
Defined.
