(* ===== verification/Elf.v ===== *)
(** ELF64 image planner: kernel/user/m11_elf_loader.c and include/mcsos/user/m11_elf_loader.h.

    An image is the list of its bytes; a header field is read from it as a little-endian
    number, and a read outside the image is undefined ([None]). *)

From stdpp Require Import strings.
From S2P Require Import Prelude.

#[local] Open Scope Z_scope.

(** * Constants *)

Definition M11_ELFMAG0 : Z := 0x7f.
Definition M11_ELFMAG1 : Z := 69.
Definition M11_ELFMAG2 : Z := 76.
Definition M11_ELFMAG3 : Z := 70.
Definition M11_ELFCLASS64 : Z := 2.
Definition M11_ELFDATA2LSB : Z := 1.
Definition M11_EV_CURRENT : Z := 1.
Definition M11_ET_EXEC : Z := 2.
Definition M11_ET_DYN : Z := 3.
Definition M11_EM_X86_64 : Z := 62.
Definition M11_PT_LOAD : Z := 1.
Definition M11_PF_X : Z := 1.
Definition M11_PF_W : Z := 2.
Definition M11_PF_R : Z := 4.
Definition M11_MAX_LOAD_SEGMENTS : Z := 8.

Definition M11_OK : Z := 0.
Definition M11_ERR_NULL : Z := -1.
Definition M11_ERR_SIZE : Z := -2.
Definition M11_ERR_MAGIC : Z := -3.
Definition M11_ERR_CLASS : Z := -4.
Definition M11_ERR_ENDIAN : Z := -5.
Definition M11_ERR_VERSION : Z := -6.
Definition M11_ERR_TYPE : Z := -7.
Definition M11_ERR_MACHINE : Z := -8.
Definition M11_ERR_EHSIZE : Z := -9.
Definition M11_ERR_PHENTSIZE : Z := -10.
Definition M11_ERR_PHBOUNDS : Z := -11.
Definition M11_ERR_ALIGN : Z := -12.
Definition M11_ERR_SEGBOUNDS : Z := -13.
Definition M11_ERR_SEGRANGE : Z := -14.
Definition M11_ERR_SEGCOUNT : Z := -15.
Definition M11_ERR_ENTRY : Z := -16.
Definition M11_ERR_FLAGS : Z := -17.

(** [sizeof(struct m11_elf64_ehdr)] and [sizeof(struct m11_elf64_phdr)] *)
Definition EHDR_SIZE : Z := 64.
Definition PHDR_SIZE : Z := 56.

(** * Data *)

Record m11_elf64_ehdr := mk_ehdr {
  e_ident : list Z;
  e_type : Z; e_machine : Z; e_version : Z; e_entry : Z; e_phoff : Z; e_shoff : Z; e_flags : Z;
  e_ehsize : Z; e_phentsize : Z; e_phnum : Z; e_shentsize : Z; e_shnum : Z; e_shstrndx : Z
}.

Record m11_elf64_phdr := mk_phdr {
  p_type : Z; p_flags : Z; p_offset : Z; p_vaddr : Z; p_paddr : Z; p_filesz : Z; p_memsz : Z; p_align : Z
}.

Record m11_user_region := mk_region { base : Z; limit : Z }.

Record m11_segment_plan := mk_segment {
  file_offset : Z; vaddr : Z; filesz : Z; memsz : Z; align : Z; flags : Z
}.

Record m11_process_image_plan := mk_plan {
  plan_entry : Z; segment_count : Z; segments : list m11_segment_plan
}.

(** * Reading the image *)

(** The little-endian number of [n] bytes at [off]. *)
Fixpoint rd (n : nat) (img : list Z) (off : Z) : option Z :=
  match n with
  | O => Some 0
  | S n => b ← arr_get img off; r ← rd n img (off + 1); Some (b + 256 * r)
  end.

(** The fields of the header at the start of the image. *)
Definition read_ehdr (img : list Z) : option m11_elf64_ehdr :=
  ty ← rd 2 img 16; mach ← rd 2 img 18; ver ← rd 4 img 20; en ← rd 8 img 24; pho ← rd 8 img 32;
  sho ← rd 8 img 40; fl ← rd 4 img 48; ehs ← rd 2 img 52; phe ← rd 2 img 54; phn ← rd 2 img 56;
  she ← rd 2 img 58; shn ← rd 2 img 60; shs ← rd 2 img 62;
  Some (mk_ehdr (take 16 img) ty mach ver en pho sho fl ehs phe phn she shn shs).

(** The fields of the program header at [off]. *)
Definition read_phdr (img : list Z) (off : Z) : option m11_elf64_phdr :=
  ty ← rd 4 img off; fl ← rd 4 img (off + 4); o ← rd 8 img (off + 8); va ← rd 8 img (off + 16);
  pa ← rd 8 img (off + 24); fs ← rd 8 img (off + 32); ms ← rd 8 img (off + 40); al ← rd 8 img (off + 48);
  Some (mk_phdr ty fl o va pa fs ms al).

(** * Operations *)

(** [None] on overflow, otherwise the sum stored through [out]. *)
Definition m11_add_overflow_u64 (a b : Z) : option Z :=
  let r := u64 (a + b) in if r <? a then None else Some r.

Definition m11_is_power_of_two_u64 (v : Z) : bool := negb (v =? 0) && (Z.land v (u64 (v - 1)) =? 0).

Definition zero_segment : m11_segment_plan := mk_segment 0 0 0 0 0 0.
Definition m11_zero_plan : m11_process_image_plan :=
  mk_plan 0 0 (replicate (Z.to_nat M11_MAX_LOAD_SEGMENTS) zero_segment).

Definition m11_validate_user_range (region : m11_user_region) (b size : Z) : Z :=
  if limit region <=? base region then M11_ERR_SEGRANGE
  else if size =? 0 then M11_ERR_SEGRANGE
  else
    match m11_add_overflow_u64 b size with
    | None => M11_ERR_SEGRANGE
    | Some e =>
        if (b <? base region) || (limit region <? e) || (e <=? b) then M11_ERR_SEGRANGE else M11_OK
    end.

Definition m11_validate_ident (eh : m11_elf64_ehdr) : option Z :=
  i0 ← arr_get (e_ident eh) 0; i1 ← arr_get (e_ident eh) 1; i2 ← arr_get (e_ident eh) 2;
  i3 ← arr_get (e_ident eh) 3; i4 ← arr_get (e_ident eh) 4; i5 ← arr_get (e_ident eh) 5;
  i6 ← arr_get (e_ident eh) 6;
  Some (if negb (i0 =? M11_ELFMAG0) || negb (i1 =? M11_ELFMAG1) || negb (i2 =? M11_ELFMAG2) || negb (i3 =? M11_ELFMAG3)
        then M11_ERR_MAGIC
        else if negb (i4 =? M11_ELFCLASS64) then M11_ERR_CLASS
        else if negb (i5 =? M11_ELFDATA2LSB) then M11_ERR_ENDIAN
        else if negb (i6 =? M11_EV_CURRENT) || negb (e_version eh =? M11_EV_CURRENT) then M11_ERR_VERSION
        else M11_OK).

Definition m11_validate_phdr_bounds (eh : m11_elf64_ehdr) (image_size : Z) : Z :=
  if e_phnum eh =? 0 then M11_ERR_PHBOUNDS
  else if negb (e_phentsize eh =? PHDR_SIZE) then M11_ERR_PHENTSIZE
  else
    let ph_table_bytes := u64 (e_phentsize eh * e_phnum eh) in
    if negb (e_phnum eh =? 0) && negb (ph_table_bytes / e_phnum eh =? e_phentsize eh) then M11_ERR_PHBOUNDS
    else
      match m11_add_overflow_u64 (e_phoff eh) ph_table_bytes with
      | None => M11_ERR_PHBOUNDS
      | Some ph_end =>
          if (image_size <? ph_end) || (image_size <? e_phoff eh) then M11_ERR_PHBOUNDS else M11_OK
      end.

Definition m11_validate_load_segment (ph : m11_elf64_phdr) (image_size : Z) (region : m11_user_region) : Z :=
  if negb (Z.land (p_flags ph) (not32 (Z.lor (Z.lor M11_PF_R M11_PF_W) M11_PF_X)) =? 0) then M11_ERR_FLAGS
  else if negb (Z.land (p_flags ph) M11_PF_W =? 0) && negb (Z.land (p_flags ph) M11_PF_X =? 0) then M11_ERR_FLAGS
  else if p_memsz ph <? p_filesz ph then M11_ERR_SEGBOUNDS
  else if negb (p_align ph =? 0) && negb (p_align ph =? 1) && negb (m11_is_power_of_two_u64 (p_align ph))
  then M11_ERR_ALIGN
  else if negb (p_align ph =? 0) && negb (p_align ph =? 1) &&
          negb (p_vaddr ph mod p_align ph =? p_offset ph mod p_align ph)
  then M11_ERR_ALIGN
  else
    match m11_add_overflow_u64 (p_offset ph) (p_filesz ph) with
    | None => M11_ERR_SEGBOUNDS
    | Some file_end =>
        if (image_size <? file_end) || (image_size <? p_offset ph) then M11_ERR_SEGBOUNDS
        else m11_validate_user_range region (p_vaddr ph) (p_memsz ph)
    end.

Definition segment_of (ph : m11_elf64_phdr) : m11_segment_plan :=
  mk_segment (p_offset ph) (p_vaddr ph) (p_filesz ph) (p_memsz ph) (p_align ph) (p_flags ph).

(** The loop of [m11_elf64_plan_load] over the [n] headers from [i] on: a status to
    return at once, or [M11_OK], and the plan. *)
Fixpoint plan_loop (img : list Z) (image_size phoff : Z) (region : m11_user_region) (n : nat) (i : Z)
    (plan : m11_process_image_plan) : option (Z * m11_process_image_plan) :=
  match n with
  | O => Some (M11_OK, plan)
  | S n =>
      ph ← read_phdr img (phoff + PHDR_SIZE * i);
      if negb (p_type ph =? M11_PT_LOAD) then plan_loop img image_size phoff region n (i + 1) plan
      else if M11_MAX_LOAD_SEGMENTS <=? segment_count plan then Some (M11_ERR_SEGCOUNT, m11_zero_plan)
      else
        let rc := m11_validate_load_segment ph image_size region in
        if negb (rc =? M11_OK) then Some (rc, m11_zero_plan)
        else
          segs ← arr_set (segments plan) (segment_count plan) (segment_of ph);
          plan_loop img image_size phoff region n (i + 1)
            (mk_plan (plan_entry plan) (segment_count plan + 1) segs)
  end.

(** Returns the status and what [out_plan] designates. *)
Definition m11_elf64_plan_load (image : ptr (list Z)) (image_size : Z) (region : m11_user_region)
    (out_plan : ptr m11_process_image_plan) : option (Z * ptr m11_process_image_plan) :=
  match image, out_plan with
  | Ref img, Ref _ =>
      let zero := Ref m11_zero_plan in
      if image_size <? EHDR_SIZE then Some (M11_ERR_SIZE, zero)
      else
        eh ← read_ehdr img;
        rc ← m11_validate_ident eh;
        if negb (rc =? M11_OK) then Some (rc, zero)
        else if negb (e_type eh =? M11_ET_EXEC) && negb (e_type eh =? M11_ET_DYN) then Some (M11_ERR_TYPE, zero)
        else if negb (e_machine eh =? M11_EM_X86_64) then Some (M11_ERR_MACHINE, zero)
        else if negb (e_ehsize eh =? EHDR_SIZE) then Some (M11_ERR_EHSIZE, zero)
        else
          let rc := m11_validate_phdr_bounds eh image_size in
          if negb (rc =? M11_OK) then Some (rc, zero)
          else if negb (m11_validate_user_range region (e_entry eh) 1 =? M11_OK) then Some (M11_ERR_ENTRY, zero)
          else
            let plan := mk_plan (e_entry eh) 0 (segments m11_zero_plan) in
            '(rc, plan) ← plan_loop img image_size (e_phoff eh) region (Z.to_nat (e_phnum eh)) 0 plan;
            if negb (rc =? M11_OK) then Some (rc, Ref plan)
            else if segment_count plan =? 0 then Some (M11_ERR_SEGCOUNT, Ref plan)
            else Some (M11_OK, Ref plan)
  | _, _ => Some (M11_ERR_NULL, out_plan)
  end.

Definition m11_error_name (code : Z) : string :=
  if code =? M11_OK then "M11_OK"
  else if code =? M11_ERR_NULL then "M11_ERR_NULL"
  else if code =? M11_ERR_SIZE then "M11_ERR_SIZE"
  else if code =? M11_ERR_MAGIC then "M11_ERR_MAGIC"
  else if code =? M11_ERR_CLASS then "M11_ERR_CLASS"
  else if code =? M11_ERR_ENDIAN then "M11_ERR_ENDIAN"
  else if code =? M11_ERR_VERSION then "M11_ERR_VERSION"
  else if code =? M11_ERR_TYPE then "M11_ERR_TYPE"
  else if code =? M11_ERR_MACHINE then "M11_ERR_MACHINE"
  else if code =? M11_ERR_EHSIZE then "M11_ERR_EHSIZE"
  else if code =? M11_ERR_PHENTSIZE then "M11_ERR_PHENTSIZE"
  else if code =? M11_ERR_PHBOUNDS then "M11_ERR_PHBOUNDS"
  else if code =? M11_ERR_ALIGN then "M11_ERR_ALIGN"
  else if code =? M11_ERR_SEGBOUNDS then "M11_ERR_SEGBOUNDS"
  else if code =? M11_ERR_SEGRANGE then "M11_ERR_SEGRANGE"
  else if code =? M11_ERR_SEGCOUNT then "M11_ERR_SEGCOUNT"
  else if code =? M11_ERR_ENTRY then "M11_ERR_ENTRY"
  else if code =? M11_ERR_FLAGS then "M11_ERR_FLAGS"
  else "M11_ERR_UNKNOWN".

(** * Specification *)

(** An image in memory: bytes, of a length that a [size_t] can hold. *)
Definition image_ok (img : list Z) : Prop := Forall is_u8 img /\ Z.of_nat (length img) < 2 ^ 64.

Definition region_ok (r : m11_user_region) : Prop := is_u64 (base r) /\ is_u64 (limit r).

(** [len] bytes from [b] lie in the user region. *)
Definition in_region (r : m11_user_region) (b len : Z) : Prop := 0 < len /\ base r <= b /\ b + len <= limit r.

(** What makes a segment loadable. *)
Record load_ok (size : Z) (r : m11_user_region) (ph : m11_elf64_phdr) : Prop := {
  lo_flags : p_flags ph < 8;
  lo_wx : ~ (Z.testbit (p_flags ph) 1 = true /\ Z.testbit (p_flags ph) 0 = true);
  lo_sizes : p_filesz ph <= p_memsz ph;
  lo_file : p_offset ph + p_filesz ph <= size;
  lo_align : p_align ph <= 1 \/
    (exists k, 0 <= k /\ p_align ph = 2 ^ k) /\ p_vaddr ph mod p_align ph = p_offset ph mod p_align ph;
  lo_mem : in_region r (p_vaddr ph) (p_memsz ph)
}.

(** The program headers of an image, in order. *)
Fixpoint phdrs (img : list Z) (phoff : Z) (n : nat) (i : Z) : list m11_elf64_phdr :=
  match n with
  | O => []
  | S n => match read_phdr img (phoff + PHDR_SIZE * i) with
           | Some ph => ph :: phdrs img phoff n (i + 1)
           | None => []
           end
  end.

Definition load_headers (img : list Z) (eh : m11_elf64_ehdr) : list m11_elf64_phdr :=
  filter (fun ph => p_type ph = M11_PT_LOAD) (phdrs img (e_phoff eh) (Z.to_nat (e_phnum eh)) 0).

(** What makes the header of an image acceptable. *)
Record header_ok (size : Z) (r : m11_user_region) (eh : m11_elf64_ehdr) : Prop := {
  ho_ident : take 7 (e_ident eh) = [0x7f; 69; 76; 70; 2; 1; 1];
  ho_version : e_version eh = 1;
  ho_type : e_type eh = M11_ET_EXEC \/ e_type eh = M11_ET_DYN;
  ho_machine : e_machine eh = M11_EM_X86_64;
  ho_ehsize : e_ehsize eh = 64;
  ho_phentsize : e_phentsize eh = 56;
  ho_phnum : 0 < e_phnum eh;
  ho_table : e_phoff eh + 56 * e_phnum eh <= size;
  ho_entry : in_region r (e_entry eh) 1
}.

(** * Lemmas: reading *)

Lemma rd_bounds n img : image_ok img -> forall off, 0 <= off -> off + Z.of_nat n <= Z.of_nat (length img) ->
  exists v, rd n img off = Some v /\ 0 <= v < 256 ^ Z.of_nat n.
Proof.
  intros [Hb _]. induction n as [|n IH]; intros off Ho Hl; cbn [rd].
  - exists 0. done.
  - destruct (arr_get_lt img off) as [b Hg]; [lia|]. rewrite Hg. cbn [mbind option_bind].
    destruct (IH (off + 1)) as (v & -> & Hv); [lia|lia|]. cbn [mbind option_bind]. exists (b + 256 * v). split; [done|].
    apply arr_get_Some in Hg as [_ Hg]. eapply Forall_lookup_1 in Hb; [|done]. unfold is_u8 in Hb.
    rewrite Nat2Z.inj_succ, Z.pow_succ_r by lia. lia.
Qed.

(** Read one field and name it. *)
Ltac read_field Himg :=
  match goal with |- context [rd ?n ?img ?off] =>
    let v := fresh "v" in let E := fresh "E" in let H := fresh "Hv" in
    destruct (rd_bounds n img Himg off) as (v & E & H); [lia|lia|]; rewrite E; cbn [mbind option_bind]
  end.

Record ehdr_ranges (eh : m11_elf64_ehdr) : Prop := {
  er_ident : (7 <= length (e_ident eh))%nat;
  er_entry : is_u64 (e_entry eh);
  er_phoff : is_u64 (e_phoff eh);
  er_phentsize : 0 <= e_phentsize eh < 2 ^ 16;
  er_phnum : 0 <= e_phnum eh < 2 ^ 16
}.

Lemma read_ehdr_ok img : image_ok img -> 64 <= Z.of_nat (length img) ->
  exists eh, read_ehdr img = Some eh /\ ehdr_ranges eh.
Proof.
  intros Himg Hl. unfold read_ehdr. do 13 read_field Himg. eexists. split; [done|].
  split; cbn in *; unfold is_u64; try lia. rewrite length_take. lia.
Qed.

Record phdr_ranges (ph : m11_elf64_phdr) : Prop := {
  pr_flags : is_u32 (p_flags ph);
  pr_offset : is_u64 (p_offset ph);
  pr_vaddr : is_u64 (p_vaddr ph);
  pr_filesz : is_u64 (p_filesz ph);
  pr_memsz : is_u64 (p_memsz ph);
  pr_align : is_u64 (p_align ph)
}.

Lemma read_phdr_ok img off : image_ok img -> 0 <= off -> off + 56 <= Z.of_nat (length img) ->
  exists ph, read_phdr img off = Some ph /\ phdr_ranges ph.
Proof.
  intros Himg Ho Hl. unfold read_phdr. do 8 read_field Himg. eexists. split; [done|].
  split; cbn in *; unfold is_u32, is_u64; lia.
Qed.

(** * Lemmas: checks *)

Lemma add_overflow_spec a b : is_u64 a -> is_u64 b ->
  m11_add_overflow_u64 a b = if a + b <? 2 ^ 64 then Some (a + b) else None.
Proof.
  intros Ha Hb. unfold m11_add_overflow_u64, is_u64 in *. destruct (Z.ltb_spec (a + b) (2 ^ 64)).
  - rewrite u64_small by ulia. rw_false (a + b <? a). done.
  - assert (u64 (a + b) < a) by ulia. rw_true (u64 (a + b) <? a). done.
Qed.

Lemma user_range_spec r b n : region_ok r -> is_u64 b -> is_u64 n ->
  m11_validate_user_range r b n = M11_OK <-> in_region r b n.
Proof.
  intros [H1 H2] Hb Hn. unfold m11_validate_user_range, in_region. rewrite add_overflow_spec by done.
  unfold is_u64 in *. destruct (Z.leb_spec (limit r) (base r)); [split; [done|lia]|].
  destruct (Z.eqb_spec n 0); [split; [done|lia]|]. destruct (Z.ltb_spec (b + n) (2 ^ 64)); [|split; [done|lia]].
  destruct (_ || _) eqn:E.
  - split; [done|]. bool_to_prop. destruct E as [E|E]; bool_to_prop; [destruct E; bool_to_prop|]; lia.
  - bool_to_prop. split; [lia|done].
Qed.

Lemma power_of_two_spec v : is_u64 v -> m11_is_power_of_two_u64 v = true <-> exists k, 0 <= k /\ v = 2 ^ k.
Proof.
  intros Hv. unfold m11_is_power_of_two_u64, is_u64 in *. rewrite andb_true_iff, negb_true_iff, Z.eqb_neq, Z.eqb_eq. split.
  - intros [Hn H0]. rewrite u64_small in H0 by ulia. exists (Z.log2 v). pose proof (Z.log2_spec v ltac:(lia)) as [Hlo Hhi].
    pose proof (Z.log2_nonneg v). split; [done|]. destruct (Z.eq_dec v (2 ^ Z.log2 v)) as [|Hne]; [done|]. exfalso.
    assert (Hb : Z.testbit (Z.land v (v - 1)) (Z.log2 v) = true).
    { rewrite Z.land_spec, (Z.bit_log2 v) by lia. replace (Z.log2 v) with (Z.log2 (v - 1)).
      - rewrite (Z.bit_log2 (v - 1)); [done|]. assert (0 < 2 ^ Z.log2 v) by (apply Z.pow_pos_nonneg; lia). lia.
      - apply Z.log2_unique; [done|]. rewrite Z.pow_succ_r in * by lia. lia. }
    by rewrite H0, Z.testbit_0_l in Hb.
  - intros (k & Hk & ->). assert (0 < 2 ^ k) by (apply Z.pow_pos_nonneg; lia). split; [lia|].
    rewrite u64_small by ulia. rewrite land_low by done. by apply Z.mod_same; lia.
Qed.

Lemma ident_spec eh : ehdr_ranges eh ->
  exists rc, m11_validate_ident eh = Some rc /\
    (rc = M11_OK <-> take 7 (e_ident eh) = [0x7f; 69; 76; 70; 2; 1; 1] /\ e_version eh = 1).
Proof.
  intros [Hl _ _ _ _]. unfold m11_validate_ident.
  destruct (e_ident eh) as [|i0 [|i1 [|i2 [|i3 [|i4 [|i5 [|i6 l]]]]]]]; cbn [length] in Hl; try lia.
  cbn [arr_get Z.leb Z.compare Z.to_nat lookup list_lookup mbind option_bind Pos.to_nat Pos.iter_op Init.Nat.add].
  eexists. split; [done|]. cbn [take].
  unfold M11_ELFMAG0, M11_ELFMAG1, M11_ELFMAG2, M11_ELFMAG3, M11_ELFCLASS64, M11_ELFDATA2LSB, M11_EV_CURRENT.
  split.
  - intros H. repeat case_bool_in H; bool_to_prop; try done. subst. done.
  - intros [[= -> -> -> -> -> -> ->] ->]. done.
Qed.

Lemma phdr_bounds_spec eh size : ehdr_ranges eh -> is_u64 size ->
  m11_validate_phdr_bounds eh size = M11_OK <->
  0 < e_phnum eh /\ e_phentsize eh = 56 /\ e_phoff eh + 56 * e_phnum eh <= size.
Proof.
  intros [_ _ Ho He Hn] Hs. unfold m11_validate_phdr_bounds, PHDR_SIZE, is_u64 in *.
  destruct (Z.eqb_spec (e_phnum eh) 0); [split; [done|lia]|].
  destruct (Z.eqb_spec (e_phentsize eh) 56) as [->|]; cbn [negb]; [|split; [done|lia]].
  rewrite (u64_small (56 * e_phnum eh)) by ulia. rewrite Z.div_mul by lia. rewrite Z.eqb_refl. cbn [negb andb].
  rewrite add_overflow_spec by (unfold is_u64; lia).
  destruct (Z.ltb_spec (e_phoff eh + 56 * e_phnum eh) (2 ^ 64)); [|split; [done|lia]].
  destruct (_ || _) eqn:E.
  - split; [done|]. bool_to_prop. destruct E; bool_to_prop; lia.
  - bool_to_prop. split; [lia|done].
Qed.

Lemma flags_spec f : is_u32 f ->
  (Z.land f (not32 (Z.lor (Z.lor M11_PF_R M11_PF_W) M11_PF_X)) =? 0) = (f <? 8).
Proof.
  intros Hf. change (not32 (Z.lor (Z.lor M11_PF_R M11_PF_W) M11_PF_X)) with (Z.shiftl (2 ^ 29 - 1) 3).
  assert (Hs : Z.land f (Z.shiftl (2 ^ 29 - 1) 3) = Z.shiftl (f / 8) 3).
  { apply Z.bits_inj'. intros i Hi. rewrite Z.land_spec. destruct (Z.ltb_spec i 3).
    - rewrite !(Z.shiftl_spec_low _ 3) by lia. apply andb_false_r.
    - rewrite !Z.shiftl_spec, testbit_ones_low by lia. change 8 with (2 ^ 3).
      rewrite Z.div_pow2_bits by lia. replace (i - 3 + 3) with i by lia.
      destruct (Z.ltb_spec (i - 3) 29); [apply andb_true_r|].
      rewrite (testbit_high 32 f) by (unfold is_u32 in Hf; lia). done. }
  rewrite Hs, Z.shiftl_mul_pow2 by lia. unfold is_u32 in Hf.
  destruct (Z.ltb_spec f 8); [rewrite (Z.div_small f 8) by lia; done|]. apply Z.eqb_neq.
  assert (0 < f / 8) by (apply Z.div_str_pos; lia). lia.
Qed.

Lemma load_segment_spec ph size r : phdr_ranges ph -> region_ok r -> is_u64 size ->
  m11_validate_load_segment ph size r = M11_OK <-> load_ok size r ph.
Proof.
  intros [Hfl Ho Hva Hfs Hms Hal] Hr Hs. unfold m11_validate_load_segment.
  rewrite flags_spec by done. change M11_PF_W with (2 ^ 1). change M11_PF_X with (2 ^ 0). rewrite !land_pow2_test by lia.
  rewrite add_overflow_spec by done.
  destruct (Z.ltb_spec (p_flags ph) 8); cbn [negb]; [|split; [done|intros [? _ _ _ _ _]; lia]].
  destruct (Z.testbit (p_flags ph) 1 && Z.testbit (p_flags ph) 0) eqn:Ewx.
  { apply andb_true_iff in Ewx. split; [done|]. by intros [_ ? _ _ _ _]. }
  apply andb_false_iff in Ewx.
  destruct (Z.ltb_spec (p_memsz ph) (p_filesz ph)); [split; [done|intros [_ _ ? _ _ _]; lia]|].
  assert (Halign : (negb (p_align ph =? 0) && negb (p_align ph =? 1) && negb (m11_is_power_of_two_u64 (p_align ph)) = false /\
    negb (p_align ph =? 0) && negb (p_align ph =? 1) && negb (p_vaddr ph mod p_align ph =? p_offset ph mod p_align ph) = false) <->
    (p_align ph <= 1 \/ (exists k, 0 <= k /\ p_align ph = 2 ^ k) /\ p_vaddr ph mod p_align ph = p_offset ph mod p_align ph)).
  { rewrite <- power_of_two_spec by done. unfold is_u64 in Hal.
    destruct (Z.eqb_spec (p_align ph) 0); [cbn; split; [lia|done]|].
    destruct (Z.eqb_spec (p_align ph) 1); [cbn; split; [lia|done]|]. cbn [negb andb].
    rewrite !negb_false_iff, Z.eqb_eq. split; [tauto|]. intros [?|?]; [lia|done]. }
  destruct (negb (p_align ph =? 0) && negb (p_align ph =? 1) && negb (m11_is_power_of_two_u64 (p_align ph))) eqn:Ea1.
  { split; [done|]. intros [_ _ _ _ Hx _]. apply Halign in Hx. naive_solver. }
  destruct (negb (p_align ph =? 0) && negb (p_align ph =? 1) && negb (_ =? _)) eqn:Ea2.
  { split; [done|]. intros [_ _ _ _ Hx _]. apply Halign in Hx. naive_solver. }
  pose proof (proj1 Halign (conj eq_refl eq_refl)) as Hok. unfold is_u64 in *.
  destruct (Z.ltb_spec (p_offset ph + p_filesz ph) (2 ^ 64)); [|split; [done|intros [_ _ _ ? _ _]; lia]].
  destruct (_ || _) eqn:Eb.
  { split; [done|]. intros [_ _ _ Hx _ _]. bool_to_prop. destruct Eb; bool_to_prop; lia. }
  bool_to_prop. rewrite user_range_spec by done. split.
  - intros Hin. split; try done; try lia. intros [Hx Hy]. destruct Ewx; congruence.
  - intros [_ _ _ _ _ Hx]. done.
Qed.

(** * Lemmas: the plan *)

(** The plan that holds the segments of [acc]. *)
Definition plan_of (en : Z) (acc : list m11_elf64_phdr) : m11_process_image_plan :=
  mk_plan en (Z.of_nat (length acc)) ((segment_of <$> acc) ++ replicate (8 - length acc) zero_segment).

Lemma plan_of_snoc en acc ph : (length acc < 8)%nat ->
  arr_set (segments (plan_of en acc)) (Z.of_nat (length acc)) (segment_of ph) = Some (segments (plan_of en (acc ++ [ph]))).
Proof.
  intros Hl. cbn [segments plan_of]. rewrite arr_set_lt by (rewrite length_app, length_fmap, length_replicate; lia).
  f_equal. rewrite Nat2Z.id, insert_app_r_alt by (rewrite length_fmap; lia). rewrite length_fmap, Nat.sub_diag.
  rewrite length_app, fmap_app, <- app_assoc. f_equal. cbn [length].
  replace (8 - length acc)%nat with (S (8 - (length acc + 1))) by lia. done.
Qed.

Lemma plan_loop_spec img r phoff en :
  image_ok img -> region_ok r -> 0 <= phoff ->
  forall n i acc, 0 <= i -> phoff + 56 * (i + Z.of_nat n) <= Z.of_nat (length img) -> (length acc <= 8)%nat ->
  let size := Z.of_nat (length img) in
  let loads := filter (fun ph => p_type ph = M11_PT_LOAD) (phdrs img phoff n i) in
  (Forall (load_ok size r) loads /\ (length acc + length loads <= 8)%nat /\
   plan_loop img size phoff r n i (plan_of en acc) = Some (M11_OK, plan_of en (acc ++ loads))) \/
  (~ (Forall (load_ok size r) loads /\ (length acc + length loads <= 8)%nat) /\
   exists rc, plan_loop img size phoff r n i (plan_of en acc) = Some (rc, m11_zero_plan) /\ rc <> M11_OK).
Proof.
  intros Himg Hr Hpo n. induction n as [|n IH]; intros i acc Hi Hl Hacc; cbn zeta.
  { left. cbn [plan_loop phdrs]. rewrite filter_nil, app_nil_r. split_and!; [constructor|cbn; lia|done]. }
  cbn [plan_loop phdrs]. unfold PHDR_SIZE in *.
  destruct (read_phdr_ok img (phoff + 56 * i) Himg) as (ph & -> & Hph); [lia|lia|]. cbn [mbind option_bind].
  assert (Hsz : is_u64 (Z.of_nat (length img))) by (destruct Himg; unfold is_u64; lia).
  rewrite filter_cons. destruct (Z.eqb_spec (p_type ph) M11_PT_LOAD) as [Hty|Hty]; cbn [negb].
  2:{ rewrite decide_False by done. apply IH; lia. }
  rewrite decide_True by done. unfold M11_MAX_LOAD_SEGMENTS. change (segment_count (plan_of en acc)) with (Z.of_nat (length acc)).
  destruct (Z.leb_spec 8 (Z.of_nat (length acc))).
  { right. split; [intros [_ Hx]; cbn [length] in Hx; lia|]. by exists M11_ERR_SEGCOUNT. }
  destruct (Z.eqb_spec (m11_validate_load_segment ph (Z.of_nat (length img)) r) M11_OK) as [Hok|Hbad]; cbn [negb].
  2:{ right. split; [|eauto]. intros [Hx _]. apply Forall_cons in Hx as [Hx _]. by apply load_segment_spec in Hx. }
  apply load_segment_spec in Hok; [|done..]. rewrite plan_of_snoc by lia. cbn [mbind option_bind].
  assert (mk_plan (plan_entry (plan_of en acc)) (Z.of_nat (length acc) + 1) (segments (plan_of en (acc ++ [ph]))) =
    plan_of en (acc ++ [ph])) as -> by (unfold plan_of; cbn; f_equal; rewrite length_app; cbn; lia).
  destruct (IH (i + 1) (acc ++ [ph])) as [(Hf & Hc & ->)|(Hn & rc & -> & Hrc)]; [lia|lia|rewrite length_app; cbn; lia| |].
  - left. rewrite length_app in Hc. cbn [length] in *. split_and!; [by constructor|lia|]. by rewrite <- app_assoc.
  - right. split; [|by exists rc]. intros [Hx Hy]. apply Hn. apply Forall_cons in Hx as [_ Hx].
    rewrite length_app. cbn [length] in *. split; [done|lia].
Qed.

(** The checks of the header. *)
Lemma plan_load_cases img r p0 :
  image_ok img -> region_ok r ->
  let size := Z.of_nat (length img) in
  (exists rc, m11_elf64_plan_load (Ref img) size r (Ref p0) = Some (rc, Ref m11_zero_plan) /\ rc <> M11_OK /\
     forall eh, read_ehdr img = Some eh -> 64 <= size -> ~ header_ok size r eh) \/
  (exists eh, read_ehdr img = Some eh /\ 64 <= size /\ header_ok size r eh /\ ehdr_ranges eh /\
     m11_elf64_plan_load (Ref img) size r (Ref p0) =
       ('(rc, plan) ← plan_loop img size (e_phoff eh) r (Z.to_nat (e_phnum eh)) 0 (plan_of (e_entry eh) []);
        if negb (rc =? M11_OK) then Some (rc, Ref plan)
        else if segment_count plan =? 0 then Some (M11_ERR_SEGCOUNT, Ref plan) else Some (M11_OK, Ref plan))).
Proof.
  intros Himg Hr size. assert (Hsz : is_u64 size) by (destruct Himg; unfold is_u64, size; lia).
  unfold m11_elf64_plan_load, EHDR_SIZE. destruct (Z.ltb_spec size 64) as [Hs|Hs].
  { left. exists M11_ERR_SIZE. split_and!; [done|done|]. intros. lia. }
  destruct (read_ehdr_ok img Himg Hs) as (eh & Heh & Hra). rewrite Heh. cbn [mbind option_bind].
  destruct (ident_spec eh Hra) as (rc1 & -> & H1). cbn [mbind option_bind].
  assert (Hleft : forall rc, rc <> M11_OK -> ~ header_ok size r eh ->
    exists rc', Some (rc, Ref m11_zero_plan) = Some (rc', Ref m11_zero_plan) /\ rc' <> M11_OK /\
      forall eh', Some eh = Some eh' -> 64 <= size -> ~ header_ok size r eh').
  { intros rc Hrc Hn. exists rc. split_and!; [done|done|]. by intros eh' [= <-]. }
  destruct (Z.eqb_spec rc1 M11_OK) as [Hi|Hi]; cbn [negb].
  2:{ left. apply Hleft; [done|]. intros [? ? _ _ _ _ _ _ _]. tauto. }
  destruct (negb (e_type eh =? M11_ET_EXEC) && negb (e_type eh =? M11_ET_DYN)) eqn:Et; bool_to_prop.
  { left. apply Hleft; [done|]. intros [_ _ Hx _ _ _ _ _ _]. tauto. }
  destruct (Z.eqb_spec (e_machine eh) M11_EM_X86_64) as [Hm|Hm]; cbn [negb].
  2:{ left. apply Hleft; [done|]. by intros [_ _ _ ? _ _ _ _ _]. }
  destruct (Z.eqb_spec (e_ehsize eh) 64) as [He|He]; cbn [negb].
  2:{ left. apply Hleft; [done|]. by intros [_ _ _ _ ? _ _ _ _]. }
  pose proof (phdr_bounds_spec eh size Hra Hsz) as Hpb.
  destruct (Z.eqb_spec (m11_validate_phdr_bounds eh size) M11_OK) as [Hb|Hb]; cbn [negb].
  2:{ left. apply Hleft; [done|]. intros [_ _ _ _ _ ? ? ? _]. apply Hb, Hpb. done. }
  pose proof (user_range_spec r (e_entry eh) 1 Hr (er_entry _ Hra)) as Hur.
  destruct (Z.eqb_spec (m11_validate_user_range r (e_entry eh) 1) M11_OK) as [Hen|Hen]; cbn [negb].
  2:{ left. apply Hleft; [done|]. intros [_ _ _ _ _ _ _ _ Hx]. apply Hen, Hur; [unfold is_u64; lia|done]. }
  right. exists eh. split_and!; [done|done| |done|done].
  apply H1 in Hi as [? ?]. apply Hpb in Hb as (? & ? & ?). apply Hur in Hen; [|unfold is_u64; lia].
  split; try done. destruct Et as [Et|Et]; bool_to_prop; auto.
Qed.

Lemma phdrs_ranges img phoff : image_ok img -> 0 <= phoff -> forall n i,
  0 <= i -> phoff + 56 * (i + Z.of_nat n) <= Z.of_nat (length img) -> Forall phdr_ranges (phdrs img phoff n i).
Proof.
  intros Himg Hpo n. induction n as [|n IH]; intros i Hi Hl; cbn [phdrs]; [constructor|]. unfold PHDR_SIZE.
  destruct (read_phdr_ok img (phoff + 56 * i) Himg) as (ph & -> & Hph); [lia|lia|]. constructor; [done|]. apply IH; lia.
Qed.

Lemma load_headers_ranges img r eh : image_ok img -> header_ok (Z.of_nat (length img)) r eh -> ehdr_ranges eh ->
  Forall phdr_ranges (load_headers img eh).
Proof.
  intros Himg Hok Hra. pose proof (ho_table _ _ _ Hok). pose proof (er_phnum _ Hra).
  pose proof (er_phoff _ Hra) as Hpo. unfold is_u64 in Hpo. apply Forall_forall. intros ph [_ Hph]%list_elem_of_filter.
  eapply Forall_forall; [apply (phdrs_ranges img (e_phoff eh)) with (n := Z.to_nat (e_phnum eh)) (i := 0)|]; try done; lia.
Qed.

(** * A concrete image *)

(** The [n] little-endian bytes of [v]. *)
Fixpoint le (n : nat) (v : Z) : list Z :=
  match n with O => [] | S n => v mod 256 :: le n (v / 256) end.

(** A header for entry [en] and [k] program headers, and a program header. *)
Definition demo_ehdr (en k : Z) : list Z :=
  [0x7f; 69; 76; 70; 2; 1; 1] ++ replicate 9 0 ++ le 2 2 ++ le 2 62 ++ le 4 1 ++ le 8 en ++ le 8 64 ++ le 8 0 ++
  le 4 0 ++ le 2 64 ++ le 2 56 ++ le 2 k ++ le 2 0 ++ le 2 0 ++ le 2 0.
Definition demo_phdr (fl off va fs ms : Z) : list Z :=
  le 4 1 ++ le 4 fl ++ le 8 off ++ le 8 va ++ le 8 va ++ le 8 fs ++ le 8 ms ++ le 8 0.

(** One readable, writable segment of 16 bytes, 8 of them in the file; entry at its start. *)
Definition demo_image : list Z := demo_ehdr 0x400000 1 ++ demo_phdr 6 120 0x400000 8 16 ++ replicate 8 1.
Definition demo_region : m11_user_region := mk_region 0x400000 0x500000.

Lemma demo_image_ok : image_ok demo_image.
Proof.
  split; [|by vm_compute]. apply (bool_decide_unpack (Forall (fun b => 0 <= b < 2 ^ 8) demo_image)). by vm_compute.
Qed.

(** * Properties *)

(** Distinct statuses have distinct names. *)
Lemma m11_error_name_inj c c' :
  M11_ERR_FLAGS <= c <= M11_OK -> M11_ERR_FLAGS <= c' <= M11_OK -> m11_error_name c = m11_error_name c' -> c = c'.
Proof.
  intros Hc Hc'. unfold M11_ERR_FLAGS, M11_OK in *.
  assert (Hr : forall z, -17 <= z <= 0 -> z ∈ seqZ (-17) 18) by (intros; apply elem_of_seqZ; lia).
  apply Hr in Hc, Hc'.
  assert (Hall : Forall (fun c => Forall (fun c' => c = c' \/ m11_error_name c <> m11_error_name c') (seqZ (-17) 18)) (seqZ (-17) 18))
    by (apply (bool_decide_unpack _); by vm_compute).
  rewrite Forall_forall in Hall. specialize (Hall c Hc). rewrite Forall_forall in Hall. specialize (Hall c' Hc').
  intros E. destruct Hall; [done|congruence].
Qed.

(** C14. [m11_elf64_plan_load] accepts exactly the loadable images. For any image bytes and user region it returns a status
    without reading outside the image; the status is M11_OK exactly when the header is a valid
    x86-64 ELF64 header whose program header table lies in the image and whose entry lies in the
    region, there are one to eight PT_LOAD headers, and each of them is loadable; the plan then holds the
    entry and those segments in order. Any other status leaves no segment in the plan. *)
Theorem elf_plan_load_exact img r p0 :
  image_ok img -> region_ok r ->
  exists rc plan, m11_elf64_plan_load (Ref img) (Z.of_nat (length img)) r (Ref p0) = Some (rc, Ref plan) /\
    (rc = M11_OK <-> exists eh, read_ehdr img = Some eh /\ 64 <= Z.of_nat (length img) /\
       header_ok (Z.of_nat (length img)) r eh /\
       Forall (load_ok (Z.of_nat (length img)) r) (load_headers img eh) /\
       (1 <= length (load_headers img eh) <= 8)%nat) /\
    (rc = M11_OK -> exists eh, read_ehdr img = Some eh /\ plan = plan_of (e_entry eh) (load_headers img eh)) /\
    (rc <> M11_OK -> segment_count plan = 0 /\ segments plan = segments m11_zero_plan).
Proof.
  intros Himg Hr. destruct (plan_load_cases img r p0 Himg Hr) as [(rc & -> & Hrc & Hno)|(eh & Heh & Hs & Hok & Hra & ->)].
  { exists rc, m11_zero_plan. split_and!; try done. split; [done|]. intros (eh & He & Hs & Hh & _). by destruct (Hno eh He Hs). }
  pose proof (ho_table _ _ _ Hok). pose proof (er_phnum _ Hra). pose proof (er_phoff _ Hra) as Hpo. unfold is_u64 in Hpo.
  destruct (plan_loop_spec img r (e_phoff eh) (e_entry eh) Himg Hr) with (n := Z.to_nat (e_phnum eh)) (i := 0)
    (acc := @nil m11_elf64_phdr) as [(Hf & Hc & ->)|(Hn & rc & -> & Hrc)]; [lia|lia|lia|cbn; lia| |]; cbn [mbind option_bind];
    fold (load_headers img eh) in *; rewrite ?app_nil_l in *.
  - change (negb (M11_OK =? M11_OK)) with false. cbn iota. cbn [segment_count plan_of length] in *.
    destruct (Z.eqb_spec (Z.of_nat (length (load_headers img eh))) 0) as [Hz|Hz].
    + destruct (load_headers img eh) as [|ph l] eqn:El; [|cbn in Hz; lia]. eexists _, _. split; [done|]. split_and!; try done.
      split; [done|]. intros (eh' & He & _ & _ & _ & Hx). rewrite Heh in He. injection He as <-. rewrite El in Hx. cbn in Hx. lia.
    + eexists _, _. split; [done|]. split_and!; try done; [|eauto]. split; [|done]. intros _. exists eh. split_and!; try done; lia.
  - destruct (Z.eqb_spec rc M11_OK); [done|]. cbn [negb]. eexists _, _. split; [done|]. split_and!; try done.
    split; [done|]. intros (eh' & He & _ & _ & Hx & Hy). rewrite Heh in He. injection He as <-. destruct Hn. split; [done|cbn; lia].
Qed.

Lemma elf_plan_load_exact_witness :
  exists rc plan, m11_elf64_plan_load (Ref demo_image) (Z.of_nat (length demo_image)) demo_region (Ref m11_zero_plan) = Some (rc, Ref plan) /\
    (rc = M11_OK <-> exists eh, read_ehdr demo_image = Some eh /\ 64 <= Z.of_nat (length demo_image) /\
       header_ok (Z.of_nat (length demo_image)) demo_region eh /\
       Forall (load_ok (Z.of_nat (length demo_image)) demo_region) (load_headers demo_image eh) /\
       (1 <= length (load_headers demo_image eh) <= 8)%nat) /\
    (rc = M11_OK -> exists eh, read_ehdr demo_image = Some eh /\ plan = plan_of (e_entry eh) (load_headers demo_image eh)) /\
    (rc <> M11_OK -> segment_count plan = 0 /\ segments plan = segments m11_zero_plan).
Proof.
  apply (elf_plan_load_exact demo_image demo_region m11_zero_plan); [apply demo_image_ok|].
  split; by vm_compute.
Defined.

(** C27. A plan is safe to carry out: every segment of an accepted image copies bytes that lie in the image into
    memory that lies in the user region, no more than the memory it reserves, and no segment is
    both writable and executable. *)
Theorem elf_plan_safe img r p0 plan seg :
  image_ok img -> region_ok r ->
  m11_elf64_plan_load (Ref img) (Z.of_nat (length img)) r (Ref p0) = Some (M11_OK, Ref plan) ->
  seg ∈ take (Z.to_nat (segment_count plan)) (segments plan) ->
  (1 <= segment_count plan <= 8) /\ in_region r (plan_entry plan) 1 /\
  0 <= file_offset seg /\ file_offset seg + filesz seg <= Z.of_nat (length img) /\ 0 <= filesz seg <= memsz seg /\
  in_region r (vaddr seg) (memsz seg) /\
  ~ (Z.testbit (flags seg) 1 = true /\ Z.testbit (flags seg) 0 = true).
Proof.
  intros Himg Hr Hload Hin.
  destruct (plan_load_cases img r p0 Himg Hr) as [(rc & He & Hrc & _)|(eh & Heh & Hs & Hok & Hra & He)].
  { rewrite He in Hload. injection Hload as -> _. done. }
  rewrite He in Hload. pose proof (ho_table _ _ _ Hok). pose proof (er_phnum _ Hra). pose proof (er_phoff _ Hra) as Hpo. unfold is_u64 in Hpo.
  destruct (plan_loop_spec img r (e_phoff eh) (e_entry eh) Himg Hr) with (n := Z.to_nat (e_phnum eh)) (i := 0)
    (acc := @nil m11_elf64_phdr) as [(Hf & Hc & Hl)|(Hn & rc & Hl & Hrc)]; [lia|lia|lia|cbn; lia| |];
    rewrite Hl in Hload; cbn [mbind option_bind] in Hload; fold (load_headers img eh) in *; rewrite ?app_nil_l in *.
  2:{ destruct (Z.eqb_spec rc M11_OK); [done|]. cbn in Hload. injection Hload as -> _. done. }
  change (negb (M11_OK =? M11_OK)) with false in Hload. cbn iota in Hload.
  destruct (segment_count _ =? 0) eqn:E0; [done|]. injection Hload as <-. cbn [segment_count plan_of length] in *. bool_to_prop.
  cbn [segments plan_entry plan_of] in *. rewrite Nat2Z.id, take_app_length' in Hin by (by rewrite length_fmap).
  apply list_elem_of_fmap in Hin as (ph & -> & Hph). pose proof (load_headers_ranges img r eh Himg Hok Hra) as Hall.
  pose proof (proj1 (Forall_forall _ _) Hf ph Hph) as [L1 L2 L3 L4 L5 L6].
  apply (proj1 (Forall_forall _ _) Hall) in Hph as [_ Ho _ Hfs _ _]. unfold is_u64 in *. cbn. split_and!; try done; try lia. apply Hok.
Qed.

Lemma elf_plan_safe_witness :
  exists plan seg, (1 <= segment_count plan <= 8) /\ in_region demo_region (plan_entry plan) 1 /\
  0 <= file_offset seg /\ file_offset seg + filesz seg <= Z.of_nat (length demo_image) /\ 0 <= filesz seg <= memsz seg /\
  in_region demo_region (vaddr seg) (memsz seg) /\
  ~ (Z.testbit (flags seg) 1 = true /\ Z.testbit (flags seg) 0 = true).
Proof.
  exists (mk_plan 0x400000 1 (mk_segment 120 0x400000 8 16 0 6 :: replicate 7 zero_segment)), (mk_segment 120 0x400000 8 16 0 6).
  apply (elf_plan_safe demo_image demo_region m11_zero_plan).
  - apply demo_image_ok.
  - split; by vm_compute.
  - vm_compute. reflexivity.
  - apply list_elem_of_here.
Defined.

(** The planner accepts an entry that lies in no executable segment: the only segment of the demonstration image is
    readable and writable. *)
Example elf_entry_not_executable :
  exists plan, m11_elf64_plan_load (Ref demo_image) (Z.of_nat (length demo_image)) demo_region (Ref m11_zero_plan) =
    Some (M11_OK, Ref plan) /\
  forallb (fun seg => Z.land (flags seg) M11_PF_X =? 0) (segments plan) = true.
Proof. eexists. split; [vm_compute; reflexivity|]. by vm_compute. Qed.
