(* ===== verification/Io.v ===== *)
(** Port input and output, the serial line, the log, the panic report, the interrupt controllers and the
    interval timer: kernel/arch/x86_64/include/mcsos/arch/{io,cpu,pic,pit}.h and
    kernel/core/{serial,log,panic,pic,pit}.c.

    The devices are a parameter: what a read of a port returns is a function of the
    accesses made before. Code that performs accesses is written in a monad over the history of accesses and the static
    variables; it may end in a panic, which does not return. *)

From stdpp Require Import strings.
From S2P Require Import Prelude.

(** * Hardware *)

Inductive io_event :=
| In (port v : Z)
| Out (port v : Z)
| Cli
| Sti
| Hlt.

(** The newest event comes first. *)
Abbreviation history := (list io_event).

(** The value on a port, and the flags and fault address registers, after a history; [polls] bounds the number of times that the loop
    of [serial_putc] reads the line status. *)
Class Hardware := {
  hw_in : history -> Z -> Z;
  hw_rflags : history -> Z;
  hw_cr2 : history -> Z;
  polls : nat
}.

(** The history and the static variables of log.c, pit.c and trap.c. *)
Record kdev := mk_kdev {
  trace : history;
  g_log_ready : Z;
  g_ticks : Z;
  trap_count : Z
}.

Definition add_event (s : kdev) (e : io_event) : kdev := mk_kdev (e :: trace s) (g_log_ready s) (g_ticks s) (trap_count s).

(** * The monad *)

Inductive outcome (A : Type) : Type :=
| Done (a : A)
| Panic (code : Z).
Arguments Done {A} a.
Arguments Panic {A} code.

Definition io (A : Type) : Type := kdev -> option (outcome A * kdev).

#[export] Instance io_ret : MRet io := fun A a s => Some (Done a, s).

#[export] Instance io_bind : MBind io := fun A B k e s =>
  match e s with
  | Some (Done a, s) => k a s
  | Some (Panic c, s) => Some (Panic c, s)
  | None => None
  end.

(** An undefined operation, or a loop out of fuel. *)
Definition io_undef {A} : io A := fun _ => None.

(** The end of a panic. *)
Definition io_panic {A} (code : Z) : io A := fun s => Some (Panic code, s).

Definition io_lift {A} (o : option A) : io A := match o with Some a => mret a | None => io_undef end.

(** * Operations: io.h and cpu.h *)

Section Operations.
Context `{Hardware}.

Definition outb (port value : Z) : io unit := fun s => Some (Done tt, add_event s (Out port (u8 value))).

Definition inb (port : Z) : io Z := fun s =>
  let v := u8 (hw_in (trace s) port) in Some (Done v, add_event s (In port v)).

Definition io_wait : io unit := outb 0x80 0.

Definition cpu_cli : io unit := fun s => Some (Done tt, add_event s Cli).
Definition cpu_sti : io unit := fun s => Some (Done tt, add_event s Sti).
(** [hlt] is an event; what the code does behind it, it does once an interrupt has woken the processor. *)
Definition cpu_hlt : io unit := fun s => Some (Done tt, add_event s Hlt).
Definition cpu_read_rflags : io Z := fun s => Some (Done (hw_rflags (trace s)), s).

(** Does not return. *)
Definition cpu_halt_forever (code : Z) : io unit := cpu_cli;; cpu_hlt;; io_panic code.

(** * Operations: pic.c *)

Definition PIC1_COMMAND : Z := 0x20.
Definition PIC1_DATA : Z := 0x21.
Definition PIC2_COMMAND : Z := 0xA0.
Definition PIC2_DATA : Z := 0xA1.
Definition PIC_EOI : Z := 0x20.

Definition PIC_MASTER_OFFSET : Z := 0x20.
Definition PIC_SLAVE_OFFSET : Z := 0x28.

Definition pic_remap (master_offset slave_offset : Z) : io unit :=
  master_mask ← inb PIC1_DATA;
  slave_mask ← inb PIC2_DATA;
  outb PIC1_COMMAND 0x11;; io_wait;;
  outb PIC2_COMMAND 0x11;; io_wait;;
  outb PIC1_DATA master_offset;; io_wait;;
  outb PIC2_DATA slave_offset;; io_wait;;
  outb PIC1_DATA 0x04;; io_wait;;
  outb PIC2_DATA 0x02;; io_wait;;
  outb PIC1_DATA 0x01;; io_wait;;
  outb PIC2_DATA 0x01;; io_wait;;
  outb PIC1_DATA master_mask;;
  outb PIC2_DATA slave_mask.

Definition pic_mask_all : io unit :=
  outb PIC1_DATA 0xFF;;
  outb PIC2_DATA 0xFF.

(** A shift by 32 or more is undefined. *)
Definition pic_unmask_irq (irq : Z) : io unit :=
  let '(port, line) := if irq <? 8 then (PIC1_DATA, irq) else (PIC2_DATA, u8 (irq - 8)) in
  mask ← inb port;
  if 32 <=? line then io_undef
  else
    let mask := u8 (Z.land mask (u8 (not32 (u32 (Z.shiftl 1 line))))) in
    outb port mask.

Definition pic_send_eoi (irq : Z) : io unit :=
  (if 8 <=? irq then outb PIC2_COMMAND PIC_EOI else mret tt);;
  outb PIC1_COMMAND PIC_EOI.

Definition pic_read_master_mask : io Z := inb PIC1_DATA.
Definition pic_read_slave_mask : io Z := inb PIC2_DATA.

(** * Operations: pit.c *)

Definition PIT_BASE_FREQUENCY_HZ : Z := 1193182.
Definition PIT_CHANNEL0 : Z := 0x40.
Definition PIT_COMMAND : Z := 0x43.

Definition pit_configure_hz (hz : Z) : io unit :=
  let hz := if hz =? 0 then 100 else hz in
  let divisor := PIT_BASE_FREQUENCY_HZ / hz in
  let divisor := if divisor =? 0 then 1 else divisor in
  let divisor := if 0xFFFF <? divisor then 0xFFFF else divisor in
  outb PIT_COMMAND 0x36;;
  outb PIT_CHANNEL0 (u8 (Z.land divisor 0xFF));;
  outb PIT_CHANNEL0 (u8 (Z.land (Z.shiftr divisor 8) 0xFF)).

Definition timer_ticks : io Z := fun s => Some (Done (g_ticks s), s).

Definition timer_on_irq0 : io unit := fun s =>
  Some (Done tt, mk_kdev (trace s) (g_log_ready s) (u64 (g_ticks s + 1)) (trap_count s)).

(** * Operations: serial.c *)

Definition COM1_PORT : Z := 0x3F8.

Definition serial_transmit_empty : io bool :=
  v ← inb (u16 (COM1_PORT + 5));
  mret (negb (Z.land v 0x20 =? 0)).

Definition serial_init : io unit :=
  outb (u16 (COM1_PORT + 1)) 0x00;;
  outb (u16 (COM1_PORT + 3)) 0x80;;
  outb (u16 (COM1_PORT + 0)) 0x03;;
  outb (u16 (COM1_PORT + 1)) 0x00;;
  outb (u16 (COM1_PORT + 3)) 0x03;;
  outb (u16 (COM1_PORT + 2)) 0xC7;;
  outb (u16 (COM1_PORT + 4)) 0x0B.

(** [while (!serial_transmit_empty()) { }] *)
Fixpoint serial_wait (fuel : nat) : io unit :=
  match fuel with
  | O => io_undef
  | S fuel => e ← serial_transmit_empty; if (e : bool) then mret tt else serial_wait fuel
  end.

(** [serial_putc] on a character other than a newline. *)
Definition serial_putc_plain (c : Z) : io unit :=
  serial_wait polls;;
  outb (u16 COM1_PORT) (u8 c).

Definition serial_putc (c : Z) : io unit :=
  (if c =? 10 then serial_putc_plain 13 else mret tt);;
  serial_putc_plain c.

(** [while ( *s != '\0') serial_putc( *s++);] *)
Fixpoint serial_write_loop (s : list Z) : io unit :=
  match s with
  | [] => io_undef
  | c :: s => if c =? 0 then mret tt else serial_putc c;; serial_write_loop s
  end.

Definition serial_write (s : ptr (list Z)) : io unit :=
  match s with
  | NULL => mret tt
  | Ref s => serial_write_loop s
  end.

(** * Operations: log.c *)

Definition set_log_ready : io unit := fun s => Some (Done tt, mk_kdev (trace s) 1 (g_ticks s) (trap_count s)).

(** [if (g_log_ready == 0) { serial_init(); g_log_ready = 1; }] *)
Definition log_ensure : io unit := fun s =>
  (if g_log_ready s =? 0 then serial_init;; set_log_ready else mret tt) s.

Definition log_init : io unit := serial_init;; set_log_ready.

Definition log_putc (c : Z) : io unit := log_ensure;; serial_putc c.

Definition log_write (s : ptr (list Z)) : io unit := log_ensure;; serial_write s.

Definition log_writeln (s : ptr (list Z)) : io unit := log_write s;; log_putc 10.

(** The bytes of a string literal, and the array that holds it. *)
Definition bytes_of (s : string) : list Z := (fun a => Z.of_N (Ascii.N_of_ascii a)) <$> String.list_ascii_of_string s.
Definition lit (s : string) : ptr (list Z) := Ref (bytes_of s ++ [0]).

Definition digits : list Z := bytes_of "0123456789abcdef" ++ [0].

(** [for (int shift = 60; shift >= 0; shift -= 4)] *)
Fixpoint hex_loop (fuel : nat) (value shift : Z) : io unit :=
  if shift <? 0 then mret tt
  else
    match fuel with
    | O => io_undef
    | S fuel =>
        let nibble := u8 (Z.land (Z.shiftr value shift) 0x0F) in
        c ← io_lift (arr_get digits nibble);
        log_putc c;;
        hex_loop fuel value (shift - 4)
    end.

Definition log_hex64 (value : Z) : io unit :=
  log_write (lit "0x");;
  hex_loop 16 value 60.

Definition log_key_value_hex64 (key : ptr (list Z)) (value : Z) : io unit :=
  log_write key;;
  log_write (lit "=");;
  log_hex64 value;;
  log_putc 10.

(** * Operations: panic.c *)

(** [while (value != 0u && i < sizeof(buf))] *)
Fixpoint dec_fill (fuel : nat) (buf : list Z) (i value : Z) : option (list Z * Z) :=
  if negb (value =? 0) && (i <? Z.of_nat (length buf)) then
    match fuel with
    | O => None
    | S fuel => buf ← arr_set buf i (48 + value mod 10); dec_fill fuel buf (u32 (i + 1)) (value / 10)
    end
  else Some (buf, i).

(** [while (i != 0u) log_putc(buf[--i]);] *)
Fixpoint dec_print (fuel : nat) (buf : list Z) (i : Z) : io unit :=
  if i =? 0 then mret tt
  else
    match fuel with
    | O => io_undef
    | S fuel => let i := u32 (i - 1) in c ← io_lift (arr_get buf i); log_putc c;; dec_print fuel buf i
    end.

(** [buf0] is what the stack holds in the uninitialised buffer. *)
Definition log_dec_u32 (buf0 : list Z) (value : Z) : io unit :=
  if value =? 0 then log_putc 48
  else
    '(buf, i) ← io_lift (dec_fill 11 buf0 0 value);
    dec_print 11 buf i.

Definition MCSOS_NAME : ptr (list Z) := lit "MCSOS".
Definition MCSOS_VERSION : ptr (list Z) := lit "260502".
Definition MCSOS_MILESTONE : ptr (list Z) := lit "M3".

Definition or_else (s d : ptr (list Z)) : ptr (list Z) := if is_null s then d else s.

(** The report, once interrupts are disabled. *)
Definition panic_report (buf0 : list Z) (file : ptr (list Z)) (line : Z) (reason : ptr (list Z)) (code rflags : Z) : io unit :=
  log_writeln (lit "");;
  log_writeln (lit "================ MCSOS KERNEL PANIC ================");;
  log_write (lit "system=");;
  log_write MCSOS_NAME;;
  log_write (lit " version=");;
  log_write MCSOS_VERSION;;
  log_write (lit " milestone=");;
  log_writeln MCSOS_MILESTONE;;
  log_write (lit "reason=");;
  log_writeln (or_else reason (lit "<null>"));;
  log_write (lit "location=");;
  log_write (or_else file (lit "<unknown>"));;
  log_write (lit ":");;
  log_dec_u32 buf0 (u32 line);;
  log_putc 10;;
  log_key_value_hex64 (lit "panic_code") code;;
  log_key_value_hex64 (lit "rflags_before_cli") rflags;;
  log_writeln (lit "state=halted");;
  log_writeln (lit "====================================================");;
  cpu_halt_forever code.

Definition kernel_panic_at (buf0 : list Z) (file : ptr (list Z)) (line : Z) (reason : ptr (list Z)) (code : Z) : io unit :=
  rflags ← cpu_read_rflags;
  cpu_cli;;
  panic_report buf0 file line reason code rflags.

End Operations.

(** * Specification: the serial controller *)

(** The registers of the 16550 that a history has written; [u_tx] is what went out on the line. *)
Record uart := mk_uart {
  u_ier : Z;
  u_lcr : Z;
  u_fcr : Z;
  u_mcr : Z;
  u_dll : Z;
  u_dlm : Z;
  u_tx : list Z
}.

(** The divisor latch access bit: ports 0 and 1 select the divisor instead of the data and the interrupt enable
    register. *)
Definition dlab (u : uart) : bool := Z.testbit (u_lcr u) 7.

Definition uart_step (e : io_event) (u : uart) : uart :=
  match e with
  | Out port v =>
      if port =? 0x3F8 then
        if dlab u then mk_uart (u_ier u) (u_lcr u) (u_fcr u) (u_mcr u) v (u_dlm u) (u_tx u)
        else mk_uart (u_ier u) (u_lcr u) (u_fcr u) (u_mcr u) (u_dll u) (u_dlm u) (u_tx u ++ [v])
      else if port =? 0x3F9 then
        if dlab u then mk_uart (u_ier u) (u_lcr u) (u_fcr u) (u_mcr u) (u_dll u) v (u_tx u)
        else mk_uart v (u_lcr u) (u_fcr u) (u_mcr u) (u_dll u) (u_dlm u) (u_tx u)
      else if port =? 0x3FA then mk_uart (u_ier u) (u_lcr u) v (u_mcr u) (u_dll u) (u_dlm u) (u_tx u)
      else if port =? 0x3FB then mk_uart (u_ier u) v (u_fcr u) (u_mcr u) (u_dll u) (u_dlm u) (u_tx u)
      else if port =? 0x3FC then mk_uart (u_ier u) (u_lcr u) (u_fcr u) v (u_dll u) (u_dlm u) (u_tx u)
      else u
  | _ => u
  end.

Definition uart_reset : uart := mk_uart 0 0 0 0 0 0 [].

Definition uart_run (h : history) : uart := foldr uart_step uart_reset h.

(** The bytes sent so far, and whether the data port sends. *)
Definition sent (s : kdev) : list Z := u_tx (uart_run (trace s)).
Definition open_line (s : kdev) : Prop := dlab (uart_run (trace s)) = false.

(** Between two calls of the log: it will initialise the line, or has done so. *)
Definition line_ok (s : kdev) : Prop := g_log_ready s = 0 \/ open_line s.

Definition com1_event (e : io_event) : Prop :=
  match e with In port _ | Out port _ => 0x3F8 <= port <= 0x3FD | _ => False end.

(** The step from [s] to [s'] sends [bs] and does nothing else than access the serial controller. *)
Record printed (bs : list Z) (s s' : kdev) : Prop := {
  pr_open : open_line s';
  pr_sent : sent s' = sent s ++ bs;
  pr_ticks : g_ticks s' = g_ticks s;
  pr_traps : trap_count s' = trap_count s;
  pr_events : exists l, trace s' = l ++ trace s /\ Forall com1_event l
}.

(** [e] returns and sends [bs] whenever [P] holds. *)
Definition transmits (P : kdev -> Prop) (e : io unit) (bs : list Z) : Prop :=
  forall s, P s -> exists s', e s = Some (Done tt, s') /\ printed bs s s'.

(** The line ends that [serial_putc] sends. *)
Definition crlf1 (c : Z) : list Z := if c =? 10 then [13; 10] else [u8 c].
Definition crlf (s : list Z) : list Z := concat (crlf1 <$> s).

(** [n] further reads of the line status. *)
Fixpoint busy `{Hardware} (n : nat) (h : history) : history :=
  match n with
  | O => h
  | S n => busy n (In 0x3FD (u8 (hw_in h 0x3FD)) :: h)
  end.

(** The transmitter becomes empty: one of the next [polls] reads of the line status has bit 5 set. *)
Class UartReady `{Hardware} : Prop :=
  uart_ready : forall h, exists n, (n < polls)%nat /\ Z.testbit (hw_in (busy n h) 0x3FD) 5 = true.

(** * Specification: printed numbers *)

Definition digit_value (c : Z) : Z := if c <=? 57 then c - 48 else c - 87.

(** The number that digits in a base denote, after [acc]. *)
Definition parse_from (base acc : Z) (ds : list Z) : Z := foldl (fun a c => base * a + digit_value c) acc ds.

Definition is_digit (base c : Z) : Prop := (48 <= c <= 57 \/ 97 <= c <= 102) /\ digit_value c < base.

(** * Lemmas: sending *)

Lemma open_line_ok s : open_line s -> line_ok s.
Proof. by right. Qed.

Lemma printed_trans bs cs s1 s2 s3 : printed bs s1 s2 -> printed cs s2 s3 -> printed (bs ++ cs) s1 s3.
Proof.
  intros [O1 S1 T1 C1 (l1 & E1 & F1)] [O2 S2 T2 C2 (l2 & E2 & F2)]. split; [done| |congruence..|].
  - by rewrite S2, S1, app_assoc.
  - exists (l2 ++ l1). rewrite E2, E1, app_assoc. split; [done|]. by apply Forall_app.
Qed.

Lemma printed_nil s : open_line s -> printed [] s s.
Proof. intros Ho. split; [done|by rewrite app_nil_r|done..|]. by exists []. Qed.

(** Something is sent, and nothing else happens. *)
Definition sends (s s' : kdev) : Prop := exists bs, printed bs s s'.

Lemma sends_trans s1 s2 s3 : sends s1 s2 -> sends s2 s3 -> sends s1 s3.
Proof. intros [bs H1] [cs H2]. exists (bs ++ cs). by eapply printed_trans. Qed.

Lemma sends_open s s' : sends s s' -> open_line s'.
Proof. intros [bs Hp]. apply Hp. Qed.

Lemma sends_ticks s s' : sends s s' -> g_ticks s' = g_ticks s.
Proof. intros [bs Hp]. apply Hp. Qed.

Lemma transmits_weaken e bs : transmits line_ok e bs -> transmits open_line e bs.
Proof. intros He s Hs. apply He. by apply open_line_ok. Qed.

Lemma transmits_seq P e1 e2 bs cs :
  transmits P e1 bs -> transmits open_line e2 cs -> transmits P (e1;; e2) (bs ++ cs).
Proof.
  intros H1 H2 s Hs. destruct (H1 s Hs) as (s1 & E1 & P1). destruct (H2 s1 (pr_open _ _ _ P1)) as (s2 & E2 & P2).
  exists s2. split; [|by eapply printed_trans]. unfold mbind, io_bind. by rewrite E1.
Qed.

Lemma transmits_seq_ok e1 e2 bs cs :
  transmits line_ok e1 bs -> transmits line_ok e2 cs -> transmits line_ok (e1;; e2) (bs ++ cs).
Proof. intros H1 H2. apply transmits_seq; [done|]. by apply transmits_weaken. Qed.

Lemma transmits_ret : transmits open_line (mret tt) [].
Proof. intros s Hs. exists s. split; [done|]. by apply printed_nil. Qed.

Lemma crlf_cons c s : crlf (c :: s) = crlf1 c ++ crlf s.
Proof. done. Qed.

Lemma crlf_plain s : Forall (fun c => 11 <= c < 256) s -> crlf s = s.
Proof.
  induction 1 as [|c s Hc _ IH]; [done|]. rewrite crlf_cons, IH. unfold crlf1. rw_false (c =? 10).
  by rewrite u8_small by (unfold is_u8; lia).
Qed.

Section Sending.
Context `{Hardware} {Hready : UartReady}.

Lemma wait_spec fuel : forall s, open_line s ->
  (exists n, (n < fuel)%nat /\ Z.testbit (hw_in (busy n (trace s)) 0x3FD) 5 = true) ->
  exists s', serial_wait fuel s = Some (Done tt, s') /\ printed [] s s'.
Proof.
  induction fuel as [|fuel IH]; intros s Ho (n & Hn & Hb); [lia|]. cbn [serial_wait].
  unfold serial_transmit_empty, inb, mbind, io_bind, mret, io_ret. change (u16 (COM1_PORT + 5)) with 0x3FD.
  set (v := u8 (hw_in (trace s) 0x3FD)). set (s1 := add_event s (In 0x3FD v)).
  assert (P1 : printed [] s s1).
  { split; [exact Ho|by rewrite app_nil_r|done..|]. exists [In 0x3FD v]. split; [done|]. repeat constructor. all: cbn; lia. }
  change 0x20 with (2 ^ 5). rewrite (land_pow2_test v 5) by lia.
  destruct (Z.testbit v 5) eqn:Ev; [by exists s1|].
  destruct n as [|n].
  { cbn [busy] in Hb. unfold v in Ev. rewrite testbit_u8 in Ev by lia. by rewrite Hb in Ev. }
  destruct (IH s1) as (s' & E & P'); [apply P1|exists n; split; [lia|exact Hb]|].
  exists s'. split; [exact E|]. apply (printed_trans [] [] _ _ _ P1 P').
Qed.

Lemma outb_spec s c : open_line s -> exists s', outb 0x3F8 c s = Some (Done tt, s') /\ printed [u8 c] s s'.
Proof.
  intros Ho. eexists. split; [reflexivity|]. unfold open_line in Ho. split; unfold open_line, sent; cbn [add_event trace uart_run foldr uart_step];
    fold (uart_run (trace s)); [|..|done|done|].
  - rewrite Z.eqb_refl, Ho. exact Ho.
  - rewrite Z.eqb_refl, Ho. done.
  - exists [Out 0x3F8 (u8 c)]. split; [done|]. repeat constructor. all: cbn; lia.
Qed.

Lemma putc_plain_spec c : transmits open_line (serial_putc_plain c) [u8 c].
Proof.
  unfold serial_putc_plain. apply (transmits_seq _ _ _ [] [u8 c]).
  - intros s Hs. apply wait_spec; [done|apply uart_ready].
  - intros s Hs. change (u16 COM1_PORT) with 0x3F8. destruct (outb_spec s (u8 c) Hs) as (s' & E & Hp).
    exists s'. split; [exact E|]. by rewrite (u8_small (u8 c)) in Hp by apply u8_range.
Qed.

Lemma serial_putc_spec c : transmits open_line (serial_putc c) (crlf1 c).
Proof.
  unfold serial_putc, crlf1. destruct (Z.eqb_spec c 10) as [->|Hc].
  - apply (transmits_seq _ _ _ [13] [10]); apply putc_plain_spec.
  - apply (transmits_seq _ _ _ [] [u8 c]); [apply transmits_ret|apply putc_plain_spec].
Qed.

Lemma write_loop_spec s rest : 0 ∉ s -> transmits open_line (serial_write_loop (s ++ 0 :: rest)) (crlf s).
Proof.
  induction s as [|c s IH]; intros H0; cbn [app serial_write_loop]; [apply transmits_ret|].
  apply not_elem_of_cons in H0 as [Hc H0]. rw_false (c =? 0). rewrite crlf_cons.
  apply transmits_seq; [apply serial_putc_spec|auto].
Qed.

Lemma serial_init_spec s :
  exists s', serial_init s = Some (Done tt, s') /\ printed [] s s' /\ g_log_ready s' = g_log_ready s /\
    uart_run (trace s') = mk_uart (if dlab (uart_run (trace s)) then u_ier (uart_run (trace s)) else 0) 3 0xC7 0x0B 3 0 (sent s).
Proof.
  set (l := [Out 0x3FC 0x0B; Out 0x3FA 0xC7; Out 0x3FB 3; Out 0x3F9 0; Out 0x3F8 3; Out 0x3FB 0x80; Out 0x3F9 0]).
  assert (Hrun : forall u, foldr uart_step u l = mk_uart (if dlab u then u_ier u else 0) 3 0xC7 0x0B 3 0 (u_tx u)).
  { intros u. unfold l. cbn [foldr]. unfold uart_step at 7. cbn [Z.eqb Pos.eqb]. destruct (dlab u); reflexivity. }
  exists (mk_kdev (l ++ trace s) (g_log_ready s) (g_ticks s) (trap_count s)). split; [reflexivity|].
  assert (Ht : uart_run (l ++ trace s) = mk_uart (if dlab (uart_run (trace s)) then u_ier (uart_run (trace s)) else 0) 3 0xC7 0x0B 3 0 (sent s)).
  { unfold uart_run. rewrite foldr_app. apply Hrun. }
  split_and!; [|done|exact Ht]. split; [unfold open_line|unfold sent at 1|done..|]; cbn [trace].
  - by rewrite Ht.
  - rewrite Ht. by rewrite app_nil_r.
  - exists l. split; [done|]. repeat constructor; cbn; lia.
Qed.

Lemma ensure_spec : transmits line_ok log_ensure [].
Proof.
  intros s Hs. unfold log_ensure. destruct (Z.eqb_spec (g_log_ready s) 0) as [Hz|Hz].
  - destruct (serial_init_spec s) as (s1 & E & Hp & _). unfold mbind, io_bind. rewrite E. eexists. split; [reflexivity|].
    destruct Hp as [O S T C E']. by split.
  - destruct Hs as [|Ho]; [done|]. exists s. split; [done|]. by apply printed_nil.
Qed.

Lemma log_putc_spec c : transmits line_ok (log_putc c) (crlf1 c).
Proof. apply (transmits_seq _ _ _ []); [apply ensure_spec|apply serial_putc_spec]. Qed.

Lemma log_write_spec s rest : 0 ∉ s -> transmits line_ok (log_write (Ref (s ++ 0 :: rest))) (crlf s).
Proof. intros H0. apply (transmits_seq _ _ _ []); [apply ensure_spec|by apply write_loop_spec]. Qed.

Lemma log_write_null : transmits line_ok (log_write NULL) [].
Proof. apply (transmits_seq _ _ _ []); [apply ensure_spec|apply transmits_ret]. Qed.

Lemma log_writeln_spec s rest : 0 ∉ s -> transmits line_ok (log_writeln (Ref (s ++ 0 :: rest))) (crlf s ++ [13; 10]).
Proof. intros H0. apply transmits_seq_ok; [by apply log_write_spec|apply (log_putc_spec 10)]. Qed.

End Sending.

(** * Lemmas: printed numbers *)

Lemma parse_app base acc l1 l2 : parse_from base acc (l1 ++ l2) = parse_from base (parse_from base acc l1) l2.
Proof. unfold parse_from. apply foldl_app. Qed.

Lemma digit_plain base c : is_digit base c -> 11 <= c < 256.
Proof. unfold is_digit. lia. Qed.

Lemma hex_digit n : 0 <= n < 16 -> exists c, arr_get digits n = Some c /\ is_digit 16 c /\ digit_value c = n.
Proof.
  intros Hn. assert (Hc : Forall (fun n => exists c, arr_get digits n = Some c /\ is_digit 16 c /\ digit_value c = n)
    [0; 1; 2; 3; 4; 5; 6; 7; 8; 9; 10; 11; 12; 13; 14; 15]).
  { forall_cons; (eexists; split; [vm_compute; reflexivity|]; unfold is_digit; cbn; lia). }
  rewrite Forall_forall in Hc. apply Hc. repeat (rewrite elem_of_cons || rewrite elem_of_nil). lia.
Qed.

Section Numbers.
Context `{Hardware} {Hready : UartReady}.

Lemma log_digit_spec base c : is_digit base c -> transmits line_ok (log_putc c) [c].
Proof.
  intros Hd%digit_plain. pose proof (log_putc_spec c) as Hp. unfold crlf1 in Hp.
  rewrite (u8_small c) in Hp by (unfold is_u8; lia). by replace (c =? 10) with false in Hp by (symmetry; apply Z.eqb_neq; lia).
Qed.

Lemma lift_some {A B} (o : option A) (a : A) (k : A -> io B) : o = Some a -> (io_lift o ≫= k) = k a.
Proof. by intros ->. Qed.

Lemma hex_loop_spec v n : 0 <= v -> forall acc,
  exists ds, transmits open_line (hex_loop n v (4 * (Z.of_nat n - 1))) ds /\ length ds = n /\ Forall (is_digit 16) ds /\
    parse_from 16 acc ds = acc * 16 ^ Z.of_nat n + v mod 16 ^ Z.of_nat n.
Proof.
  intros Hv. induction n as [|n IH]; intros acc.
  { exists []. split_and!; [apply transmits_ret|done|constructor|]. cbn. rewrite Z.mod_1_r. lia. }
  set (d := v / 16 ^ Z.of_nat n mod 16). assert (Hpow : 0 < 16 ^ Z.of_nat n) by (apply Z.pow_pos_nonneg; lia).
  destruct (hex_digit d) as (c & Hc & Hd & Hval); [apply Z.mod_pos_bound; lia|].
  destruct (IH (16 * acc + d)) as (ds & Ht & Hl & Hf & Hp).
  exists (c :: ds). split_and!; [|cbn; lia|by constructor|].
  - cbn [hex_loop]. replace (4 * (Z.of_nat (S n) - 1)) with (4 * Z.of_nat n) by lia. rw_false (4 * Z.of_nat n <? 0).
    assert (Hn : u8 (Z.land (Z.shiftr v (4 * Z.of_nat n)) 15) = d).
    { rewrite Z.shiftr_div_pow2 by lia. change 15 with (2 ^ 4 - 1). rewrite land_low by lia.
      rewrite Z.pow_mul_r by lia. change (2 ^ 4) with 16. fold d. apply u8_small. unfold is_u8, d.
      pose proof (Z.mod_pos_bound (v / 16 ^ Z.of_nat n) 16). lia. }
    cbv zeta. rewrite Hn, (lift_some _ c) by done. replace (4 * Z.of_nat n - 4) with (4 * (Z.of_nat n - 1)) by lia.
    apply (transmits_seq _ _ _ [c] ds); [|done]. apply transmits_weaken. by eapply log_digit_spec.
  - change (c :: ds) with ([c] ++ ds). rewrite parse_app. change (parse_from 16 acc [c]) with (16 * acc + digit_value c).
    rewrite Hval, Hp, Nat2Z.inj_succ, Z.pow_succ_r by lia. unfold d.
    rewrite (Z.mul_comm 16 (16 ^ Z.of_nat n)), Z.rem_mul_r by lia. lia.
Qed.

Lemma log_hex64_spec v : is_u64 v ->
  exists ds, transmits line_ok (log_hex64 v) (48 :: 120 :: ds) /\ length ds = 16%nat /\ Forall (is_digit 16) ds /\ parse_from 16 0 ds = v.
Proof.
  intros Hv. unfold is_u64 in Hv. destruct (hex_loop_spec v 16 ltac:(lia) 0) as (ds & Ht & Hl & Hf & Hp). exists ds. split_and!; [|done..|].
  - apply (transmits_seq _ _ _ [48; 120] ds); [|exact Ht]. apply (log_write_spec [48; 120] []).
    rewrite !not_elem_of_cons. split_and!; [lia..|apply not_elem_of_nil].
  - rewrite Hp, Z.mod_small; [lia|]. change (16 ^ Z.of_nat 16) with (2 ^ 64). lia.
Qed.

(** The digits of [value] from the last to the first, from index [i] on. *)
Lemma dec_fill_spec fuel : forall buf i value,
  0 <= i -> Z.of_nat (length buf) < 2 ^ 32 -> i + Z.of_nat fuel <= Z.of_nat (length buf) -> 0 <= value < 10 ^ Z.of_nat fuel ->
  exists buf' ds, dec_fill fuel buf i value = Some (buf', i + Z.of_nat (length ds)) /\ length buf' = length buf /\
    take (Z.to_nat i + length ds) buf' = take (Z.to_nat i) buf ++ ds /\ (length ds <= fuel)%nat /\
    Forall (is_digit 10) ds /\ (value <> 0 -> last ds <> Some 48 /\ ds <> []) /\
    forall acc, parse_from 10 acc (reverse ds) = acc * 10 ^ Z.of_nat (length ds) + value.
Proof.
  induction fuel as [|fuel IH]; intros buf i value Hi Hlen Hroom Hv; cbn [dec_fill].
  { assert (value = 0) as -> by (cbn in Hv; lia). cbn [Z.eqb negb andb]. exists buf, [].
    rewrite Nat.add_0_r, Z.add_0_r, app_nil_r. split_and!; [done..|cbn; lia|constructor|done|]. intros acc. cbn. lia. }
  destruct (Z.eqb_spec value 0) as [->|Hnz]; cbn [negb andb].
  { exists buf, []. rewrite Nat.add_0_r, Z.add_0_r, app_nil_r. split_and!; [done..|cbn; lia|constructor|done|]. intros acc. cbn. lia. }
  rw_true (i <? Z.of_nat (length buf)). rewrite arr_set_lt by lia. cbn [mbind option_bind]. set (c := 48 + value mod 10).
  pose proof (Z.mod_pos_bound value 10 ltac:(lia)) as Hm. rewrite (u32_small (i + 1)) by (unfold is_u32; lia).
  destruct (IH (<[Z.to_nat i := c]> buf) (i + 1) (value / 10)) as (buf' & ds & E & Hl & Ht & Hle & Hf & Hlast & Hp).
  { lia. } { rewrite length_insert. lia. } { rewrite length_insert. lia. }
  { rewrite Nat2Z.inj_succ, Z.pow_succ_r in Hv by lia. split; [apply Z.div_pos; lia|]. apply Z.div_lt_upper_bound; lia. }
  exists buf', (c :: ds). split_and!.
  - rewrite E. cbn [length]. do 2 f_equal. lia.
  - by rewrite Hl, length_insert.
  - replace (Z.to_nat i + length (c :: ds))%nat with (Z.to_nat (i + 1) + length ds)%nat by (cbn; lia). rewrite Ht.
    replace (Z.to_nat (i + 1)) with (S (Z.to_nat i)) by lia.
    rewrite (take_S_r _ _ c) by (apply list_lookup_insert_eq; lia). rewrite take_insert_ge by lia. by rewrite <- app_assoc.
  - cbn. lia.
  - constructor; [|done]. unfold is_digit, digit_value, c. rw_true (48 + value mod 10 <=? 57). lia.
  - intros _. split; [|done]. destruct (decide (value / 10 = 0)) as [Hz|Hz].
    + assert (Hlt : value < 10) by (apply Z.div_small_iff in Hz; lia).
      destruct fuel as [|fuel]; cbn [dec_fill] in E; rewrite Hz in E; cbn [Z.eqb negb andb] in E; injection E as _ E;
        (destruct ds; [|cbn in E; lia]); cbn; intros [= Hc]; unfold c in Hc; rewrite Z.mod_small in Hc; lia.
    + destruct (Hlast Hz) as [Hl0 Hne]. by destruct ds.
  - intros acc. rewrite reverse_cons, parse_app, Hp. cbn [length]. rewrite Nat2Z.inj_succ, Z.pow_succ_r by lia.
    unfold parse_from. cbn [foldl]. unfold digit_value, c. rw_true (48 + value mod 10 <=? 57).
    pose proof (Z.div_mod value 10 ltac:(lia)). lia.
Qed.

Lemma dec_print_spec fuel : forall buf i,
  0 <= i <= Z.of_nat fuel -> i <= Z.of_nat (length buf) -> Z.of_nat (length buf) < 2 ^ 32 -> Forall (is_digit 10) (take (Z.to_nat i) buf) ->
  transmits (if i =? 0 then open_line else line_ok) (dec_print fuel buf i) (reverse (take (Z.to_nat i) buf)).
Proof.
  induction fuel as [|fuel IH]; intros buf i Hi Hl H32 Hf.
  { assert (i = 0) as -> by lia. apply transmits_ret. }
  cbn [dec_print]. destruct (Z.eqb_spec i 0) as [->|Hnz]; [apply transmits_ret|].
  rewrite (u32_small (i - 1)) by (unfold is_u32; lia). destruct (arr_get_lt buf (i - 1)) as [c Hc]; [lia|].
  rewrite (lift_some _ c) by done. apply arr_get_Some in Hc as [_ Hc].
  assert (Et : take (Z.to_nat i) buf = take (Z.to_nat (i - 1)) buf ++ [c]).
  { replace (Z.to_nat i) with (S (Z.to_nat (i - 1))) by lia. by apply take_S_r. }
  rewrite Et in Hf |- *. apply Forall_app in Hf as [Hf Hfc]. apply Forall_cons in Hfc as [Hfc _]. rewrite reverse_snoc.
  apply (transmits_seq _ _ _ [c]); [cbn; apply (log_digit_spec 10); exact Hfc|]. specialize (IH buf (i - 1) ltac:(lia) ltac:(lia) H32 Hf).
  destruct (i - 1 =? 0); [done|by apply transmits_weaken].
Qed.

Lemma log_dec_u32_spec buf0 v : length buf0 = 11%nat -> is_u32 v ->
  exists ds, transmits line_ok (log_dec_u32 buf0 v) ds /\ (length ds <= 10)%nat /\ Forall (is_digit 10) ds /\ parse_from 10 0 ds = v /\
    (v <> 0 -> head ds <> Some 48) /\ ds <> [].
Proof.
  intros Hl Hv. unfold is_u32 in Hv. unfold log_dec_u32. destruct (Z.eqb_spec v 0) as [->|Hnz].
  { exists [48]. split_and!; [|cbn; lia| |done|done|done].
    - apply (log_digit_spec 10). unfold is_digit. cbn. lia.
    - repeat constructor; cbn; lia. }
  destruct (dec_fill_spec 11 buf0 0 v) as (buf & ds & E & Hlb & Ht & Hle & Hf & Hlast & Hp); [lia|rewrite Hl; lia|rewrite Hl; lia|lia|].
  specialize (Hp 0). cbn [Z.add] in E. destruct (Hlast Hnz) as [Hh Hne]. rewrite (lift_some _ (buf, Z.of_nat (length ds))) by done.
  rewrite Nat.add_0_l in Ht. cbn [take app Z.to_nat] in Ht. change (take 0 buf0) with (@nil Z) in Ht. cbn [app] in Ht.
  assert (H10 : (length ds <= 10)%nat).
  { destruct (decide (length ds = 11%nat)) as [H11|]; [exfalso|lia].
    destruct ds as [|c ds] using rev_ind; [done|]. rewrite last_snoc in Hh. rewrite reverse_snoc in Hp.
    change (c :: reverse ds) with ([c] ++ reverse ds) in Hp. rewrite parse_app in Hp. apply Forall_app in Hf as [Hf Hc]. apply Forall_cons in Hc as [Hc _].
    assert (Hge : forall l acc, Forall (is_digit 10) l -> 0 <= acc -> acc * 10 ^ Z.of_nat (length l) <= parse_from 10 acc l).
    { clear. induction l as [|x l IH]; intros acc Hf Ha; [cbn; lia|]. apply Forall_cons in Hf as [Hx Hf].
      change (parse_from 10 acc (x :: l)) with (parse_from 10 (10 * acc + digit_value x) l). cbn [length]. rewrite Nat2Z.inj_succ, Z.pow_succ_r by lia.
      assert (0 <= digit_value x) by (unfold is_digit, digit_value in *; case_bool; lia).
      specialize (IH (10 * acc + digit_value x) Hf ltac:(lia)). assert (0 < 10 ^ Z.of_nat (length l)) by (apply Z.pow_pos_nonneg; lia). nia. }
    specialize (Hge (reverse ds) (parse_from 10 0 [c])). rewrite Hp, length_reverse in Hge. rewrite length_app in H11. cbn [length] in H11.
    replace (length ds) with 10%nat in Hge by lia. unfold parse_from in Hge. cbn [foldl] in Hge. unfold is_digit, digit_value in Hc, Hge.
    assert (c <> 48) by congruence. change (10 ^ Z.of_nat 10) with 10000000000 in Hge.
    destruct (Z.leb_spec c 57); [|lia]. rewrite Z.mul_0_l in Hge. specialize (Hge ltac:(by apply Forall_reverse) ltac:(lia)). lia. }
  exists (reverse ds). split_and!; [|rewrite length_reverse; lia|by apply Forall_reverse|lia| |].
  - pose proof (dec_print_spec 11 buf (Z.of_nat (length ds))) as Hd. rewrite Nat2Z.id, Ht in Hd.
    replace (Z.of_nat (length ds) =? 0) with false in Hd by (symmetry; apply Z.eqb_neq; destruct ds; [done|cbn; lia]).
    apply Hd; [lia|rewrite Hlb, Hl; lia|rewrite Hlb, Hl; lia|done].
  - intros _. by rewrite head_reverse.
  - intros Hr. apply Hne. apply (f_equal (@reverse Z)) in Hr. by rewrite reverse_involutive in Hr.
Qed.

End Numbers.

(** * Lemmas: the panic report *)

(** Up to [k], [e] sends [bs]. *)
Definition ends_after {A} (e : io A) (bs : list Z) (k : io A) : Prop :=
  forall s, line_ok s -> exists s', e s = k s' /\ printed bs s s'.

Lemma ends_one {A} e (k : io A) bs : transmits line_ok e bs -> ends_after (e;; k) bs k.
Proof.
  intros He s Hs. destruct (He s Hs) as (s' & E & Hp). exists s'. split; [|done]. unfold mbind, io_bind. by rewrite E.
Qed.

Lemma ends_more {A} e (e2 k : io A) bs cs : transmits line_ok e bs -> ends_after e2 cs k -> ends_after (e;; e2) (bs ++ cs) k.
Proof.
  intros He H2 s Hs. destruct (He s Hs) as (s1 & E & P1). destruct (H2 s1) as (s2 & E2 & P2).
  { apply open_line_ok, (pr_open _ _ _ P1). }
  exists s2. split; [|by eapply printed_trans]. unfold mbind, io_bind. by rewrite E.
Qed.

(** A string argument: null, or a terminated array. *)
Definition string_arg (p : ptr (list Z)) (s : list Z) : Prop :=
  (0 ∉ s) /\ match p with NULL => s = [] | Ref b => exists rest, b = s ++ 0 :: rest end.

Section Strings.
Context `{Hardware} {Hready : UartReady}.

Lemma log_write_arg p s : string_arg p s -> transmits line_ok (log_write p) (crlf s).
Proof. intros [H0 Hp]. destruct p as [|b]; [subst s; apply log_write_null|]. destruct Hp as [rest ->]. by apply log_write_spec. Qed.

Lemma log_writeln_arg p s : string_arg p s -> transmits line_ok (log_writeln p) (crlf s ++ [13; 10]).
Proof. intros Hp. apply transmits_seq_ok; [by apply log_write_arg|apply (log_putc_spec 10)]. Qed.

Lemma lit_arg s : forallb (fun c => negb (c =? 0)) (bytes_of s) = true -> string_arg (lit s) (bytes_of s).
Proof.
  intros Hs. split; [|by exists []]. intros Hin%list_elem_of_In. rewrite forallb_forall in Hs. by specialize (Hs 0 Hin).
Qed.

Lemma or_else_arg p s d : string_arg p s -> forallb (fun c => negb (c =? 0)) (bytes_of d) = true ->
  string_arg (or_else p (lit d)) (if is_null p then bytes_of d else s).
Proof. intros Hp Hd. destruct p; [by apply lit_arg|done]. Qed.

Lemma log_kv_spec p s v : string_arg p s -> is_u64 v ->
  exists ds, transmits line_ok (log_key_value_hex64 p v) (crlf s ++ [61; 48; 120] ++ ds ++ [13; 10]) /\ length ds = 16%nat /\
    Forall (is_digit 16) ds /\ parse_from 16 0 ds = v.
Proof.
  intros Hp Hv. destruct (log_hex64_spec v Hv) as (ds & Ht & Hl & Hf & Hpar). exists ds. split_and!; [|done..].
  apply transmits_seq_ok; [by apply log_write_arg|]. apply (transmits_seq_ok _ _ [61] ([48; 120] ++ ds ++ [13; 10])).
  { apply (log_write_arg _ [61]). by apply (lit_arg "="). }
  rewrite app_assoc. apply transmits_seq_ok; [exact Ht|apply (log_putc_spec 10)].
Qed.

End Strings.

(** * Specification: the interrupt controllers *)

(** An 8259: which initialisation word it expects on its data port (0 when it is operational), what the first word announced, the
    first vector, the cascade lines, the mode, and the mask. *)
Record pic := mk_pic {
  p_stage : Z;
  p_single : bool;
  p_needs4 : bool;
  p_base : Z;
  p_cascade : Z;
  p_mode : Z;
  p_imr : Z
}.

Definition after_cascade (needs4 : bool) : Z := if needs4 then 4 else 0.

Definition pic_step (command data : Z) (e : io_event) (p : pic) : pic :=
  match e with
  | Out port v =>
      if port =? command then
        if Z.testbit v 4 then mk_pic 2 (Z.testbit v 1) (Z.testbit v 0) (p_base p) (p_cascade p) (p_mode p) 0 else p
      else if port =? data then
        if p_stage p =? 2 then
          mk_pic (if p_single p then after_cascade (p_needs4 p) else 3) (p_single p) (p_needs4 p) (Z.land v 0xF8) (p_cascade p) (p_mode p) (p_imr p)
        else if p_stage p =? 3 then
          mk_pic (after_cascade (p_needs4 p)) (p_single p) (p_needs4 p) (p_base p) v (p_mode p) (p_imr p)
        else if p_stage p =? 4 then mk_pic 0 (p_single p) (p_needs4 p) (p_base p) (p_cascade p) v (p_imr p)
        else mk_pic (p_stage p) (p_single p) (p_needs4 p) (p_base p) (p_cascade p) (p_mode p) v
      else p
  | _ => p
  end.

Definition pic_run (command data : Z) (p0 : pic) (h : history) : pic := foldr (pic_step command data) p0 h.

(** The two chips of the machine, from the states [m0] and [s0] they are found in. *)
Abbreviation master m0 s := (pic_run 0x20 0x21 m0 (trace s)).
Abbreviation slave s0 s := (pic_run 0xA0 0xA1 s0 (trace s)).

(** Reading the data port of a chip gives its mask. *)
Class PicReads `{Hardware} (m0 s0 : pic) : Prop := {
  master_read : forall h, hw_in h 0x21 = p_imr (pic_run 0x20 0x21 m0 h);
  slave_read : forall h, hw_in h 0xA1 = p_imr (pic_run 0xA0 0xA1 s0 h)
}.

(** The mask bit of an interrupt line. *)
Definition irq_masked (m s : pic) (irq : Z) : bool :=
  if irq <? 8 then Z.testbit (p_imr m) irq else Z.testbit (p_imr s) (irq - 8).

(** * Lemmas: the interrupt controllers *)

Lemma land_f8 v : is_u8 v -> v mod 8 = 0 -> Z.land v 0xF8 = v.
Proof.
  intros Hv H8. unfold is_u8 in Hv. assert (E : v = Z.shiftl (v / 8) 3) by (rewrite Z.shiftl_mul_pow2 by lia; Z.div_mod_to_equations; lia).
  rewrite E at 1. change 0xF8 with (Z.shiftl 31 3). rewrite <- Z.shiftl_land. change 31 with (2 ^ 5 - 1). rewrite land_low by lia.
  rewrite Z.mod_small by (Z.div_mod_to_equations; lia). by rewrite <- E.
Qed.

(** Serial accesses do not concern the controllers. *)
Lemma pic_run_com1 c d p0 l h : c < 0x3F8 -> d < 0x3F8 -> Forall com1_event l -> pic_run c d p0 (l ++ h) = pic_run c d p0 h.
Proof.
  intros Hc Hd. induction 1 as [|e l He _ IH]; [done|]. cbn [app pic_run foldr]. fold (pic_run c d p0 (l ++ h)). rewrite IH.
  destruct e as [port v|port v| | |]; try done. cbn in He. cbn [pic_step]. by rw_false (port =? c); rw_false (port =? d).
Qed.

(** The accesses of [pic_remap], newest first. *)
Definition remap_events (o1 o2 r1 r2 m1 m2 : Z) : history :=
  [Out 0xA1 m2; Out 0x21 m1; Out 0x80 0; Out 0xA1 1; Out 0x80 0; Out 0x21 1; Out 0x80 0; Out 0xA1 2; Out 0x80 0; Out 0x21 4; Out 0x80 0;
   Out 0xA1 o2; Out 0x80 0; Out 0x21 o1; Out 0x80 0; Out 0xA0 0x11; Out 0x80 0; Out 0x20 0x11; In 0xA1 r2; In 0x21 r1].

Lemma remap_master o1 o2 r1 r2 m1 m2 p :
  foldr (pic_step 0x20 0x21) p (remap_events o1 o2 r1 r2 m1 m2) = mk_pic 0 false true (Z.land o1 0xF8) 4 1 m1.
Proof. reflexivity. Qed.

Lemma remap_slave o1 o2 r1 r2 m1 m2 p :
  foldr (pic_step 0xA0 0xA1) p (remap_events o1 o2 r1 r2 m1 m2) = mk_pic 0 false true (Z.land o2 0xF8) 2 1 m2.
Proof. reflexivity. Qed.

Section Controllers.
Context `{Hardware} (m0 s0 : pic) {Hreads : PicReads m0 s0}.

Lemma remap_spec o1 o2 s :
  is_u8 o1 -> o1 mod 8 = 0 -> is_u8 o2 -> o2 mod 8 = 0 ->
  exists s', pic_remap o1 o2 s = Some (Done tt, s') /\
    master m0 s' = mk_pic 0 false true o1 4 1 (u8 (p_imr (master m0 s))) /\
    slave s0 s' = mk_pic 0 false true o2 2 1 (u8 (p_imr (slave s0 s))).
Proof.
  intros H1 H1m H2 H2m. set (m1 := u8 (hw_in (trace s) 0x21)). set (m2 := u8 (hw_in (In 0x21 m1 :: trace s) 0xA1)).
  exists (mk_kdev (remap_events (u8 o1) (u8 o2) m1 m2 (u8 m1) (u8 m2) ++ trace s) (g_log_ready s) (g_ticks s) (trap_count s)).
  split; [reflexivity|]. cbn [trace]. unfold pic_run. rewrite !foldr_app, remap_master, remap_slave.
  rewrite !(u8_small o1), !(u8_small o2), !land_f8 by done. unfold m1, m2.
  rewrite !(u8_small (u8 _)) by apply u8_range. rewrite master_read, slave_read. done.
Qed.

(** The mask that [pic_unmask_irq] writes. *)
Lemma unmask_bits v line k : 0 <= line < 8 -> 0 <= k < 8 ->
  Z.testbit (u8 (Z.land (u8 v) (u8 (not32 (u32 (Z.shiftl 1 line)))))) k = Z.testbit v k && negb (k =? line).
Proof.
  intros Hl Hk. rewrite testbit_u8, Z.land_spec, !testbit_u8 by lia. rw_true (k <? 8). cbn [andb]. f_equal.
  unfold not32, u32. rewrite Z.mod_pow2_bits_low, Z.lnot_spec, Z.mod_pow2_bits_low by lia. f_equal.
  rewrite Z.shiftl_1_l, testbit_pow2 by lia. done.
Qed.

Lemma unmask_spec irq s :
  0 <= irq < 16 -> p_stage (master m0 s) = 0 -> p_stage (slave s0 s) = 0 ->
  exists s', pic_unmask_irq irq s = Some (Done tt, s') /\
    (forall k, 0 <= k < 16 -> irq_masked (master m0 s') (slave s0 s') k = irq_masked (master m0 s) (slave s0 s) k && negb (k =? irq)) /\
    p_stage (master m0 s') = 0 /\ p_stage (slave s0 s') = 0 /\
    p_base (master m0 s') = p_base (master m0 s) /\ p_base (slave s0 s') = p_base (slave s0 s).
Proof.
  intros Hi Hm Hs. unfold pic_unmask_irq, irq_masked. destruct (Z.ltb_spec irq 8) as [Hlt|Hge].
  - cbv beta iota zeta. rw_false (32 <=? irq). unfold mbind, io_bind, inb. unfold PIC1_DATA. rewrite master_read.
    eexists. split; [reflexivity|]. cbn [add_event trace pic_run foldr pic_step Z.eqb Pos.eqb]. fold (master m0 s) (slave s0 s).
    rewrite Hm. cbn [Z.eqb p_imr p_stage p_base]. split_and!; try done. intros k Hk. destruct (Z.ltb_spec k 8).
    + rewrite (u8_small (u8 _)) by apply u8_range. apply unmask_bits; lia.
    + rw_false (k =? irq). by rewrite andb_true_r.
  - cbv beta iota zeta. rewrite (u8_small (irq - 8)) by (unfold is_u8; lia). rw_false (32 <=? irq - 8). unfold mbind, io_bind, inb. unfold PIC2_DATA. rewrite slave_read.
    eexists. split; [reflexivity|]. cbn [add_event trace pic_run foldr pic_step Z.eqb Pos.eqb]. fold (master m0 s) (slave s0 s).
    rewrite Hs. cbn [Z.eqb p_imr p_stage p_base]. split_and!; try done. intros k Hk. destruct (Z.ltb_spec k 8).
    + rw_false (k =? irq). by rewrite andb_true_r.
    + rewrite (u8_small (u8 _)), unmask_bits by (apply u8_range || lia). by replace (k - 8 =? irq - 8) with (k =? irq) by lia.
Qed.

Lemma mask_all_spec s : p_stage (master m0 s) = 0 -> p_stage (slave s0 s) = 0 ->
  exists s', pic_mask_all s = Some (Done tt, s') /\
    (forall k, 0 <= k < 16 -> irq_masked (master m0 s') (slave s0 s') k = true) /\
    p_stage (master m0 s') = 0 /\ p_stage (slave s0 s') = 0 /\
    p_base (master m0 s') = p_base (master m0 s) /\ p_base (slave s0 s') = p_base (slave s0 s).
Proof.
  intros Hm Hs. eexists. split; [reflexivity|]. cbn [add_event trace pic_run foldr pic_step Z.eqb Pos.eqb PIC1_DATA PIC2_DATA].
  unfold PIC1_DATA, PIC2_DATA. cbn [Z.eqb Pos.eqb]. fold (master m0 s) (slave s0 s).
  rewrite Hm, Hs. cbn [Z.eqb p_imr p_stage p_base]. split_and!; try done. intros k Hk. unfold irq_masked. cbn [p_imr].
  change (u8 0xFF) with (2 ^ 8 - 1). destruct (Z.ltb_spec k 8); rewrite testbit_ones_low by lia; apply Z.ltb_lt; lia.
Qed.

End Controllers.

(** * Lemmas: the report of a panic *)

Section Report.
Context `{Hardware} {Hready : UartReady}.

Lemma log_write_lit x : forallb (fun c => negb (c =? 0)) (bytes_of x) = true -> transmits line_ok (log_write (lit x)) (crlf (bytes_of x)).
Proof. intros. by apply log_write_arg, lit_arg. Qed.

Lemma log_writeln_lit x : forallb (fun c => negb (c =? 0)) (bytes_of x) = true ->
  transmits line_ok (log_writeln (lit x)) (crlf (bytes_of x) ++ [13; 10]).
Proof. intros. by apply log_writeln_arg, lit_arg. Qed.

(** One step of the report: a literal, or a fact at hand. *)
Ltac report_step :=
  first [apply log_write_lit; reflexivity | apply log_writeln_lit; reflexivity | apply (log_putc_spec 10)
        | eassumption | by apply log_write_arg | by apply log_writeln_arg].

Lemma panic_sends s buf0 file f line reason r code :
  line_ok s -> length buf0 = 11%nat -> string_arg file f -> string_arg reason r -> is_u64 code -> is_u64 (hw_rflags (trace s)) ->
  exists s' pre mid dl hx post, kernel_panic_at buf0 file line reason code s = cpu_halt_forever code s' /\
    printed (pre ++ bytes_of "reason=" ++ crlf (if is_null reason then bytes_of "<null>" else r) ++ mid ++
      dl ++ [13; 10] ++ bytes_of "panic_code=0x" ++ hx ++ post) (add_event s Cli) s' /\
    parse_from 10 0 dl = u32 line /\ Forall (is_digit 10) dl /\ parse_from 16 0 hx = code /\ length hx = 16%nat.
Proof.
  intros Hs Hl Hf Hr Hc Hrf. apply (or_else_arg _ _ "<unknown>") in Hf; [|reflexivity]. apply (or_else_arg _ _ "<null>") in Hr; [|reflexivity].
  destruct (log_dec_u32_spec buf0 (u32 line) Hl) as (dl & Hdl & _ & Hdd & Hdv & _); [apply u32_range|].
  destruct (log_kv_spec (lit "panic_code") (bytes_of "panic_code") code) as (hx & Hhx & Hxl & _ & Hxv); [by apply lit_arg|done|].
  destruct (log_kv_spec (lit "rflags_before_cli") (bytes_of "rflags_before_cli") (hw_rflags (trace s))) as (fx & Hfx & _); [by apply lit_arg|done|].
  assert (Hs0 : line_ok (add_event s Cli)) by (destruct Hs; [by left|by right]).
  set (t := if is_null reason then _ else _) in *. set (g := if is_null file then _ else _) in *. clearbody t g.
  eassert (Hend : ends_after (panic_report buf0 file line reason code (hw_rflags (trace s))) _ (cpu_halt_forever code)).
  { unfold panic_report. do 18 (eapply ends_more; [report_step|]). eapply ends_one. report_step. }
  destruct (Hend _ Hs0) as (s' & E & Hp). set (w := fun x => crlf (bytes_of x)).
  exists s', ((w "" ++ [13; 10]) ++ (w "================ MCSOS KERNEL PANIC ================" ++ [13; 10]) ++ w "system=" ++ w "MCSOS" ++
    w " version=" ++ w "260502" ++ w " milestone=" ++ w "M3" ++ [13; 10]), ([13; 10] ++ w "location=" ++ crlf g ++ w ":"), dl, hx,
    ([13; 10] ++ (w "rflags_before_cli" ++ [61; 48; 120] ++ fx ++ [13; 10]) ++ (w "state=halted" ++ [13; 10]) ++
     (w "====================================================" ++ [13; 10])).
  split_and!; [exact E| |done..].
  match type of Hp with printed ?l _ _ => match goal with |- printed ?l' _ _ => replace l' with l; [exact Hp|] end end.
  change (bytes_of "panic_code=0x") with (w "panic_code" ++ [61; 48; 120]). change (bytes_of "reason=") with (w "reason="). unfold w.
  rewrite <- !app_assoc. reflexivity.
Qed.

End Report.

(** * A machine *)

(** The transmitter is found busy once before every character, and the chips start with masks of their own. *)
Definition demo_master : pic := mk_pic 0 false true 8 4 1 0xB8.
Definition demo_slave : pic := mk_pic 0 false true 0x70 2 1 0x8E.

#[local] Instance demo_hw : Hardware := {|
  hw_in h port :=
    if port =? 0x3FD then match h with In _ _ :: _ => 0x60 | _ => 0 end
    else if port =? 0x21 then p_imr (pic_run 0x20 0x21 demo_master h)
    else if port =? 0xA1 then p_imr (pic_run 0xA0 0xA1 demo_slave h)
    else 0xFF;
  hw_rflags _ := 0x202;
  hw_cr2 _ := 0xdead000;
  polls := 2
|}.

#[local] Instance demo_uart_ready : UartReady.
Proof. intros h. exists 1%nat. split; [cbn; lia|]. reflexivity. Qed.

#[local] Instance demo_pic_reads : PicReads demo_master demo_slave.
Proof. by split. Qed.

Definition demo_dev : kdev := mk_kdev [] 0 0 0.

Lemma demo_line_ok : line_ok demo_dev.
Proof. by left. Qed.

(** * Properties *)

(** Writing a message works whatever the state of the line: a message logged on a line that becomes ready is sent completely and in order, with a carriage
    return before every newline, after the controller has been programmed if that had not been done; the call terminates,
    reads nothing past the terminator, and accesses only the serial controller. *)
Theorem log_write_sends `{Hardware} {Hready : UartReady} s msg rest :
  line_ok s -> 0 ∉ msg ->
  exists s', log_writeln (Ref (msg ++ 0 :: rest)) s = Some (Done tt, s') /\ sent s' = sent s ++ crlf msg ++ [13; 10] /\
    line_ok s' /\ g_ticks s' = g_ticks s /\ trap_count s' = trap_count s /\
    exists l, trace s' = l ++ trace s /\ Forall com1_event l.
Proof.
  intros Hs H0. destruct (log_writeln_spec msg rest H0 s Hs) as (s' & E & [O S T C L]). exists s'. split_and!; try done. by right.
Qed.

Lemma log_write_sends_witness :
  exists s', log_writeln (Ref (bytes_of "ok" ++ [0])) demo_dev = Some (Done tt, s') /\ sent s' = bytes_of "ok" ++ [13; 10].
Proof.
  destruct (log_write_sends demo_dev (bytes_of "ok") [] demo_line_ok) as (s' & E & S & _); [|by exists s'].
  apply (bool_decide_unpack _). vm_compute. exact I.
Defined.

(** Numbers in the log can be read back: [log_hex64] prints 0x and sixteen hexadecimal digits that denote the value, and
    [log_dec_u32] prints at most ten decimal digits that denote it, without leading zeros and without leaving its buffer of eleven bytes,
    whatever that held before. *)
Theorem log_numbers_roundtrip `{Hardware} {Hready : UartReady} s v w buf0 :
  line_ok s -> is_u64 v -> is_u32 w -> length buf0 = 11%nat ->
  (exists s' ds, log_hex64 v s = Some (Done tt, s') /\ sent s' = sent s ++ bytes_of "0x" ++ ds /\
     length ds = 16%nat /\ Forall (is_digit 16) ds /\ parse_from 16 0 ds = v) /\
  (exists s' ds, log_dec_u32 buf0 w s = Some (Done tt, s') /\ sent s' = sent s ++ ds /\
     (1 <= length ds <= 10)%nat /\ Forall (is_digit 10) ds /\ parse_from 10 0 ds = w /\ (w <> 0 -> head ds <> Some 48)).
Proof.
  intros Hs Hv Hw Hl. split.
  - destruct (log_hex64_spec v Hv) as (ds & Ht & ? & ? & ?). destruct (Ht s Hs) as (s' & E & Hp). exists s', ds.
    split_and!; try done. apply (pr_sent _ _ _ Hp).
  - destruct (log_dec_u32_spec buf0 w Hl Hw) as (ds & Ht & ? & ? & ? & ? & Hne). destruct (Ht s Hs) as (s' & E & Hp). exists s', ds.
    split_and!; try done; [apply (pr_sent _ _ _ Hp)|]. destruct ds; [done|cbn; lia].
Qed.

Lemma log_numbers_roundtrip_witness :
  (exists s' ds, log_hex64 0xdeadbeef demo_dev = Some (Done tt, s') /\ sent s' = bytes_of "0x" ++ ds /\ parse_from 16 0 ds = 0xdeadbeef) /\
  (exists s' ds, log_dec_u32 (replicate 11 0) 4294967295 demo_dev = Some (Done tt, s') /\ sent s' = ds /\ parse_from 10 0 ds = 4294967295).
Proof.
  destruct (log_numbers_roundtrip demo_dev 0xdeadbeef 4294967295 (replicate 11 0) demo_line_ok) as [(s1 & d1 & A1 & A2 & _ & _ & A3) (s2 & d2 & B1 & B2 & _ & _ & B3 & _)];
    [unfold is_u64; lia|unfold is_u32; lia|done|]. split; [exists s1, d1|exists s2, d2]; split_and!; assumption.
Defined.

(** C38. A panic disables interrupts before it does anything else, reports the reason, the line and the code so that they can be read
    back, touches nothing but the serial controller on the way, and halts with interrupts disabled; it does not return. *)
Theorem panic_reports_and_halts `{Hardware} {Hready : UartReady} s buf0 file f line reason r code :
  line_ok s -> length buf0 = 11%nat -> string_arg file f -> string_arg reason r -> is_u64 code -> is_u64 (hw_rflags (trace s)) ->
  exists s' pre mid dl hx post l,
    kernel_panic_at buf0 file line reason code s = Some (Panic code, s') /\
    trace s' = Hlt :: Cli :: l ++ Cli :: trace s /\ Forall com1_event l /\
    sent s' = sent s ++ pre ++ bytes_of "reason=" ++ crlf (if is_null reason then bytes_of "<null>" else r) ++ mid ++
      dl ++ [13; 10] ++ bytes_of "panic_code=0x" ++ hx ++ post /\
    parse_from 10 0 dl = u32 line /\ Forall (is_digit 10) dl /\ parse_from 16 0 hx = code /\ length hx = 16%nat.
Proof.
  intros Hs Hl Hf Hr Hc Hrf.
  destruct (panic_sends s buf0 file f line reason r code Hs Hl Hf Hr Hc Hrf) as (s1 & pre & mid & dl & hx & post & E & Hp & H1 & H2 & H3 & H4).
  destruct (pr_events _ _ _ Hp) as (l & El & Hl1).
  exists (add_event (add_event s1 Cli) Hlt), pre, mid, dl, hx, post, l. split_and!; try done.
  - cbn [add_event trace]. by rewrite El.
  - apply (pr_sent _ _ _ Hp).
Qed.

Lemma panic_reports_and_halts_witness :
  exists s' pre mid dl hx post l,
    kernel_panic_at (replicate 11 0) NULL 77 (lit "VMM: no root table frame") 0x42 demo_dev = Some (Panic 0x42, s') /\
    trace s' = Hlt :: Cli :: l ++ Cli :: trace demo_dev /\
    sent s' = sent demo_dev ++ pre ++ bytes_of "reason=" ++ crlf (bytes_of "VMM: no root table frame") ++ mid ++
      dl ++ [13; 10] ++ bytes_of "panic_code=0x" ++ hx ++ post /\
    parse_from 10 0 dl = 77 /\ parse_from 16 0 hx = 0x42.
Proof.
  destruct (panic_reports_and_halts demo_dev (replicate 11 0) NULL [] 77 (lit "VMM: no root table frame") (bytes_of "VMM: no root table frame") 0x42)
    as (s' & pre & mid & dl & hx & post & l & H1 & H2 & _ & H3 & H4 & _ & H5 & _).
  - apply demo_line_ok.
  - reflexivity.
  - split; [apply not_elem_of_nil|reflexivity].
  - apply lit_arg. reflexivity.
  - unfold is_u64. lia.
  - unfold is_u64. cbn. lia.
  - exists s', pre, mid, dl, hx, post, l. split_and!; assumption.
Defined.

(** C37. [pic_remap] programs both controllers from whatever state they are in: afterwards they are operational, deliver their eight lines
    at the given offsets, are cascaded through line 2 in 8086 mode, and have the masks they had before. After the sequence that kmain
    runs, [pic_mask_all] and then [pic_unmask_irq], exactly the unmasked line is enabled. *)
Theorem pic_remap_correct `{Hardware} m0 s0 {Hreads : PicReads m0 s0} s o1 o2 irq :
  is_u8 o1 -> o1 mod 8 = 0 -> is_u8 o2 -> o2 mod 8 = 0 -> 0 <= irq < 16 ->
  exists s1 s2, pic_remap o1 o2 s = Some (Done tt, s1) /\
    master m0 s1 = mk_pic 0 false true o1 4 1 (u8 (p_imr (master m0 s))) /\
    slave s0 s1 = mk_pic 0 false true o2 2 1 (u8 (p_imr (slave s0 s))) /\
    (pic_mask_all;; pic_unmask_irq irq) s1 = Some (Done tt, s2) /\
    (forall k, 0 <= k < 16 -> irq_masked (master m0 s2) (slave s0 s2) k = negb (k =? irq)) /\
    p_base (master m0 s2) = o1 /\ p_base (slave s0 s2) = o2.
Proof.
  intros H1 H1m H2 H2m Hi. destruct (remap_spec m0 s0 o1 o2 s H1 H1m H2 H2m) as (s1 & E1 & Hm & Hs).
  destruct (mask_all_spec m0 s0 s1) as (s2 & E2 & Ha & Hm2 & Hs2 & Hb1 & Hb2); [by rewrite Hm|by rewrite Hs|].
  destruct (unmask_spec m0 s0 irq s2 Hi Hm2 Hs2) as (s3 & E3 & Hu & _ & _ & Hb3 & Hb4).
  exists s1, s3. split_and!; try done.
  - unfold mbind, io_bind. by rewrite E2.
  - intros k Hk. by rewrite Hu, Ha.
  - by rewrite Hb3, Hb1, Hm.
  - by rewrite Hb4, Hb2, Hs.
Qed.

(** The call of kmain. *)
Lemma pic_remap_correct_witness :
  exists s1 s2, pic_remap PIC_MASTER_OFFSET PIC_SLAVE_OFFSET demo_dev = Some (Done tt, s1) /\
    (pic_mask_all;; pic_unmask_irq 0) s1 = Some (Done tt, s2) /\
    (forall k, 0 <= k < 16 -> irq_masked (master demo_master s2) (slave demo_slave s2) k = negb (k =? 0)).
Proof.
  destruct (pic_remap_correct demo_master demo_slave demo_dev PIC_MASTER_OFFSET PIC_SLAVE_OFFSET 0) as (s1 & s2 & H1 & _ & _ & H2 & H3 & _);
    [unfold is_u8, PIC_MASTER_OFFSET; lia|reflexivity|unfold is_u8, PIC_SLAVE_OFFSET; lia|reflexivity|lia|].
  exists s1, s2. split_and!; assumption.
Defined.

(** [pic_unmask_irq] enables exactly the given line of an operational pair of controllers: no other line changes. *)
Theorem pic_unmask_irq_exact `{Hardware} m0 s0 {Hreads : PicReads m0 s0} s irq :
  0 <= irq < 16 -> p_stage (master m0 s) = 0 -> p_stage (slave s0 s) = 0 ->
  exists s', pic_unmask_irq irq s = Some (Done tt, s') /\
    forall k, 0 <= k < 16 -> irq_masked (master m0 s') (slave s0 s') k = irq_masked (master m0 s) (slave s0 s) k && negb (k =? irq).
Proof. intros Hi Hm Hs. destruct (unmask_spec m0 s0 irq s Hi Hm Hs) as (s' & E & Hu & _). eauto. Qed.

Lemma pic_unmask_irq_exact_witness :
  exists s', pic_unmask_irq 12 demo_dev = Some (Done tt, s') /\
    forall k, 0 <= k < 16 -> irq_masked (master demo_master s') (slave demo_slave s') k = irq_masked demo_master demo_slave k && negb (k =? 12).
Proof. apply (pic_unmask_irq_exact demo_master demo_slave demo_dev 12); [lia|reflexivity|reflexivity]. Defined.

(** [pit_configure_hz] never programs the counter with 0, which the timer takes for 65536: it sends the command for a square wave and the
    two bytes of a divisor between 1 and 65535, which is the base frequency divided by the requested one, rounded down, wherever that fits;
    slower frequencies get the largest divisor, faster ones the smallest, and 0 means 100 Hz. *)
Theorem pit_configure_hz_bounds (hz : Z) s :
  is_u32 hz ->
  exists d lo hi, pit_configure_hz hz s = Some (Done tt, mk_kdev (Out 0x40 hi :: Out 0x40 lo :: Out 0x43 0x36 :: trace s)
      (g_log_ready s) (g_ticks s) (trap_count s)) /\
    is_u8 lo /\ is_u8 hi /\ lo + 256 * hi = d /\ 1 <= d <= 65535 /\
    (19 <= hz <= PIT_BASE_FREQUENCY_HZ -> d * hz <= PIT_BASE_FREQUENCY_HZ < (d + 1) * hz) /\
    (1 <= hz < 19 -> d = 65535) /\ (PIT_BASE_FREQUENCY_HZ < hz -> d = 1) /\ (hz = 0 -> d = 11931).
Proof.
  intros Hh. unfold is_u32 in Hh. unfold pit_configure_hz. set (h := if hz =? 0 then 100 else hz).
  assert (Hpos : 0 < h) by (unfold h; destruct (Z.eqb_spec hz 0); lia). unfold PIT_BASE_FREQUENCY_HZ. set (q := 1193182 / h).
  assert (Hq : h * q <= 1193182 < h * q + h /\ 0 <= q) by
    (unfold q; pose proof (Z.div_mod 1193182 h); pose proof (Z.mod_pos_bound 1193182 h); pose proof (Z.div_pos 1193182 h); lia). clearbody q.
  set (d1 := if q =? 0 then 1 else q). set (d := if 65535 <? d1 then 65535 else d1).
  assert (Hd : d = Z.max 1 (Z.min q 65535)).
  { unfold d, d1. destruct (Z.eqb_spec q 0); case_bool; lia. }
  exists d, (u8 (u8 (Z.land d 255))), (u8 (u8 (Z.land (Z.shiftr d 8) 255))). split; [reflexivity|].
  change 255 with (2 ^ 8 - 1). rewrite !land_low, Z.shiftr_div_pow2, !(u8_small (u8 _)) by (lia || apply u8_range).
  split_and!; [apply u8_range..| |lia|lia| | | |].
  - unfold u8. rewrite !Z.mod_mod by lia. Z.div_mod_to_equations. lia.
  - intros H. unfold h in *. destruct (Z.eqb_spec hz 0); [lia|]. assert (1 <= q) by nia. assert (q <= 65535) by nia. rewrite Hd, Z.min_l, Z.max_r by lia. lia.
  - intros H. unfold h in *. destruct (Z.eqb_spec hz 0); [lia|]. destruct (Z.le_gt_cases 65535 q); [lia|].
    assert (hz * (q + 1) <= 18 * 65535) by (apply Z.mul_le_mono_nonneg; lia). lia.
  - intros H. unfold h in *. destruct (Z.eqb_spec hz 0); [lia|]. assert (q = 0) by nia. lia.
  - intros ->. unfold h in *. cbn [Z.eqb] in *. lia.
Qed.

Lemma pit_configure_hz_bounds_witness :
  exists lo hi, pit_configure_hz 100 demo_dev = Some (Done tt, mk_kdev [Out 0x40 hi; Out 0x40 lo; Out 0x43 0x36] 0 0 0) /\
    (lo + 256 * hi) * 100 <= PIT_BASE_FREQUENCY_HZ < (lo + 256 * hi + 1) * 100.
Proof.
  destruct (pit_configure_hz_bounds 100 demo_dev) as (d & lo & hi & E & _ & _ & Hd & _ & Hr & _); [unfold is_u32; lia|].
  exists lo, hi. split; [exact E|]. rewrite Hd. apply Hr. unfold PIT_BASE_FREQUENCY_HZ. lia.
Defined.
