(* ===== verification/Trap.v ===== *)
(** Interrupt entry and dispatch: kernel/arch/x86_64/idt.c, kernel/arch/x86_64/isr.S and kernel/core/trap.c.

    The stubs of isr.S are modelled on byte-addressed memory, since what the C code finds in
    the frame depends on the order in which they push the registers. *)

From stdpp Require Import strings.
From S2P Require Import Prelude Mem Io.

(** * Data *)

Definition X86_64_IDT_VECTOR_COUNT : Z := 256.
Definition X86_64_IDT_GATE_INTERRUPT : Z := 0x8E.
Definition X86_64_IDT_GATE_TRAP : Z := 0xEF.

Record x86_64_idt_entry := mk_gate {
  offset_low : Z;
  selector : Z;
  ist : Z;
  type_attr : Z;
  offset_mid : Z;
  offset_high : Z;
  zero : Z
}.

(** [sizeof(struct x86_64_idt_entry_t)], packed. *)
Definition IDT_ENTRY_SIZE : Z := 16.

Record x86_64_idtr := mk_idtr { limit : Z; base : Z }.

Record x86_64_trap_frame := mk_frame {
  fr_r15 : Z; fr_r14 : Z; fr_r13 : Z; fr_r12 : Z; fr_r11 : Z; fr_r10 : Z; fr_r9 : Z; fr_r8 : Z;
  fr_rsi : Z; fr_rdi : Z; fr_rbp : Z; fr_rdx : Z; fr_rcx : Z; fr_rbx : Z; fr_rax : Z;
  fr_vector : Z;
  fr_error_code : Z;
  fr_rip : Z;
  fr_cs : Z;
  fr_rflags : Z
}.

(** [sizeof(x86_64_trap_frame_t)] *)
Definition FRAME_SIZE : Z := 160.

(** The frame at an address. *)
Definition read_frame (m : mem) (a : Z) : x86_64_trap_frame :=
  mk_frame (load64 m a) (load64 m (a + 8)) (load64 m (a + 16)) (load64 m (a + 24)) (load64 m (a + 32)) (load64 m (a + 40))
    (load64 m (a + 48)) (load64 m (a + 56)) (load64 m (a + 64)) (load64 m (a + 72)) (load64 m (a + 80)) (load64 m (a + 88))
    (load64 m (a + 96)) (load64 m (a + 104)) (load64 m (a + 112)) (load64 m (a + 120)) (load64 m (a + 128)) (load64 m (a + 136))
    (load64 m (a + 144)) (load64 m (a + 152)).

(** * Operations: idt.c *)

(** [cs] is what [x86_64_read_cs] returns. *)
Definition x86_64_idt_set_gate (cs : Z) (idt : list x86_64_idt_entry) (vector handler type_attr : Z) : option (list x86_64_idt_entry) :=
  arr_set idt vector (mk_gate
    (u16 (Z.land handler 0xFFFF))
    cs
    0
    type_attr
    (u16 (Z.land (Z.shiftr handler 16) 0xFFFF))
    (u32 (Z.land (Z.shiftr handler 32) 0xFFFFFFFF))
    0).

(** The body of the second loop of [x86_64_idt_init]. *)
Definition idt_install (cs : Z) (isr_stub_table : list Z) (vector : Z) (idt : list x86_64_idt_entry) : option (list x86_64_idt_entry) :=
  let gate_type := if vector =? 3 then X86_64_IDT_GATE_TRAP else X86_64_IDT_GATE_INTERRUPT in
  stub ← arr_get isr_stub_table vector;
  x86_64_idt_set_gate cs idt vector stub gate_type.

(** [idt_addr] is the address of the table; [lidt] loads the pair that is returned with it. *)
Definition x86_64_idt_init (cs idt_addr : Z) (isr_stub_table : list Z) (idt : list x86_64_idt_entry) :
    option (list x86_64_idt_entry * x86_64_idtr) :=
  idt ← for_loop (loop_fuel 0 X86_64_IDT_VECTOR_COUNT 1) 0 X86_64_IDT_VECTOR_COUNT 1
    (fun i idt => x86_64_idt_set_gate cs idt (u8 i) 0 0) idt;
  idt ← for_loop (loop_fuel 0 48 1) 0 48 1 (idt_install cs isr_stub_table) idt;
  Some (idt, mk_idtr (u16 (Z.of_nat (length idt) * IDT_ENTRY_SIZE - 1)) idt_addr).

(** * Operations: isr.S *)

Inductive reg := R15 | R14 | R13 | R12 | R11 | R10 | R9 | R8 | RSI | RDI | RBP | RDX | RCX | RBX | RAX.

#[export] Instance reg_eq_dec : EqDecision reg.
Proof. solve_decision. Defined.

Abbreviation regfile := (reg -> Z).

Definition push (st : mem * Z) (v : Z) : mem * Z := (store64 st.1 (st.2 - 8) v, st.2 - 8).

(** In the order of the instructions. *)
Definition isr_pushes : list reg := [R15; R14; R13; R12; R11; R10; R9; R8; RSI; RDI; RBP; RDX; RCX; RBX; RAX].
Definition isr_pops : list reg := [RAX; RBX; RCX; RDX; RBP; RDI; RSI; R8; R9; R10; R11; R12; R13; R14; R15].

(** The vectors whose stub is an [ISR_ERR]. *)
Definition isr_err (n : Z) : bool := bool_decide (n ∈ [8; 10; 11; 12; 13; 14; 17; 21; 29; 30]).

(** [ISR_NOERR n] and [ISR_ERR n] *)
Definition isr_stub (n : Z) (st : mem * Z) : mem * Z := push (if isr_err n then st else push st 0) n.

(** [isr_common_stub] up to the call. *)
Definition isr_save (rf : regfile) (st : mem * Z) : mem * Z := foldl (fun st r => push st (rf r)) st isr_pushes.

Definition pop (st : regfile * Z) (m : mem) (r : reg) : regfile * Z :=
  (fun x => if decide (x = r) then load64 m st.2 else st.1 x, st.2 + 8).

(** [isr_common_stub] after the call, up to [iretq]: the registers and the stack pointer. *)
Definition isr_restore (rf : regfile) (m : mem) (rsp : Z) : regfile * Z :=
  let '(rf, rsp) := foldl (fun st r => pop st m r) (rf, rsp) isr_pops in (rf, rsp + 16).

(** * Operations: trap.c *)

Definition exception_names : list string := [
  "#DE Divide Error"; "#DB Debug"; "NMI Interrupt"; "#BP Breakpoint"; "#OF Overflow"; "#BR Bound Range Exceeded";
  "#UD Invalid Opcode"; "#NM Device Not Available"; "#DF Double Fault"; "Coprocessor Segment Overrun"; "#TS Invalid TSS";
  "#NP Segment Not Present"; "#SS Stack Segment Fault"; "#GP General Protection Fault"; "#PF Page Fault"; "Reserved";
  "#MF x87 Floating-Point Exception"; "#AC Alignment Check"; "#MC Machine Check"; "#XM SIMD Floating-Point Exception";
  "#VE Virtualization Exception"; "#CP Control Protection Exception"; "Reserved"; "Reserved"; "Reserved"; "Reserved"; "Reserved";
  "Reserved"; "#HV Hypervisor Injection Exception"; "#VC VMM Communication Exception"; "#SX Security Exception"; "Reserved"]%string.

Definition trap_name (vector : Z) : option (ptr (list Z)) :=
  if vector <? 32 then s ← arr_get exception_names vector; Some (lit s)
  else Some (lit "external-or-user-defined-interrupt").

Section Dispatch.
Context `{Hardware}.

Definition m4_trap_count_for_test : io Z := fun s => Some (Done (trap_count s), s).

Definition inc_trap_count : io unit := fun s => Some (Done tt, mk_kdev (trace s) (g_log_ready s) (g_ticks s) (u64 (trap_count s + 1))).

Definition vmm_read_cr2 : io Z := fun s => Some (Done (hw_cr2 (trace s)), s).

Definition log_trap_frame (frame : x86_64_trap_frame) : io unit :=
  log_key_value_hex64 (lit "trap_vector") (fr_vector frame);;
  log_key_value_hex64 (lit "trap_error") (fr_error_code frame);;
  log_key_value_hex64 (lit "trap_rip") (fr_rip frame);;
  log_key_value_hex64 (lit "trap_cs") (fr_cs frame);;
  log_key_value_hex64 (lit "trap_rflags") (fr_rflags frame);;
  log_key_value_hex64 (lit "trap_rax") (fr_rax frame);;
  log_key_value_hex64 (lit "trap_rbx") (fr_rbx frame);;
  log_key_value_hex64 (lit "trap_rcx") (fr_rcx frame);;
  log_key_value_hex64 (lit "trap_rdx") (fr_rdx frame).

(** A line of the page-fault report: [log_write((error_code & (1u << bit)) ? yes : no)] between a label and a newline. *)
Definition log_bit (label : string) (error_code bit : Z) (yes no : string) : io unit :=
  log_write (lit label);;
  log_write (if negb (Z.land error_code (Z.shiftl 1 bit) =? 0) then lit yes else lit no);;
  log_putc 10.

(** [frame_addr] is the address of the frame. *)
Definition page_fault_dump (frame_addr : Z) (frame : x86_64_trap_frame) : io unit :=
  cr2 ← vmm_read_cr2;
  let error_code := fr_error_code frame in
  let rsp_est := u64 (frame_addr + FRAME_SIZE) in
  log_writeln (lit "[M7] #PF page fault diagnostics:");;
  log_key_value_hex64 (lit "pf_cr2") cr2;;
  log_key_value_hex64 (lit "pf_error_code") error_code;;
  log_key_value_hex64 (lit "pf_rip") (fr_rip frame);;
  log_key_value_hex64 (lit "pf_rsp_est") rsp_est;;
  log_bit "[M7] pf_present=" error_code 0 "1(protection)" "0(non-present)";;
  log_bit "[M7] pf_write=" error_code 1 "1(write)" "0(read)";;
  log_bit "[M7] pf_user=" error_code 2 "1(user)" "0(supervisor)";;
  log_bit "[M7] pf_rsvd=" error_code 3 "1(reserved-bit-set)" "0";;
  log_bit "[M7] pf_id=" error_code 4 "1(instruction-fetch)" "0(data-access)".

(** [file] is [__FILE__] and [buf0] the uninitialised buffer of the panic report. *)
Definition x86_64_trap_dispatch (file : ptr (list Z)) (buf0 : list Z) (frame_addr : Z) (frame : ptr x86_64_trap_frame) : io unit :=
  match frame with
  | NULL => kernel_panic_at buf0 file 118 (lit "assertion failed: frame != (x86_64_trap_frame_t *)0") 0xA55E4710
  | Ref frame =>
      inc_trap_count;;
      log_write (lit "[M4] trap dispatch: ");;
      name ← io_lift (trap_name (fr_vector frame));
      log_writeln name;;
      log_trap_frame frame;;
      if fr_vector frame =? 3 then log_writeln (lit "[M4] breakpoint handled; returning with iretq")
      else
        (if fr_vector frame =? 14 then
           page_fault_dump frame_addr frame;;
           kernel_panic_at buf0 file 132 (lit "unrecoverable page fault") (fr_error_code frame)
         else mret tt);;
        if (32 <=? fr_vector frame) && (fr_vector frame <=? 47) then pic_send_eoi (u8 (fr_vector frame - 32))
        else kernel_panic_at buf0 file 140 (lit "unrecoverable CPU exception") (fr_vector frame)
  end.

End Dispatch.

(** * Specification *)

(** The processor pushes an error code for double faults, the segment and stack faults, protection and page faults, and the alignment,
    control-protection, VMM-communication and security exceptions. *)
Definition cpu_pushes_error (n : Z) : bool :=
  (n =? 8) || (10 <=? n) && (n <=? 14) || (n =? 17) || (n =? 21) || (n =? 29) || (n =? 30).

(** What the processor pushes when vector [n] is raised: the stack, the flags, the return address, and for some
    vectors the error code. *)
Definition cpu_interrupt (n ss rsp rflags cs rip error : Z) (m : mem) (top : Z) : mem * Z :=
  let st := push (push (push (push (push (m, top) ss) rsp) rflags) cs) rip in
  if cpu_pushes_error n then push st error else st.

(** What the processor reads in a gate. *)
Definition gate_offset (g : x86_64_idt_entry) : Z := offset_low g + 2 ^ 16 * offset_mid g + 2 ^ 32 * offset_high g.
Definition gate_present (g : x86_64_idt_entry) : bool := Z.testbit (type_attr g) 7.
Definition gate_dpl (g : x86_64_idt_entry) : Z := Z.land (Z.shiftr (type_attr g) 5) 3.
Definition gate_type (g : x86_64_idt_entry) : Z := Z.land (type_attr g) 0xF.

(** A software interrupt is delivered when the gate is present and its privilege level admits the caller. *)
Definition int_allowed (cpl : Z) (g : x86_64_idt_entry) : bool := gate_present g && (cpl <=? gate_dpl g).

(** The gate that [x86_64_idt_set_gate] writes. *)
Definition gate_of (cs handler attr : Z) : x86_64_idt_entry :=
  mk_gate (u16 handler) cs 0 attr (u16 (handler / 2 ^ 16)) (u32 (handler / 2 ^ 32)) 0.

(** * Lemmas: the descriptor table *)

Lemma gate_of_offset cs h attr : is_u64 h -> gate_offset (gate_of cs h attr) = h.
Proof. intros Hh. unfold gate_offset, gate_of. cbn [offset_low offset_mid offset_high]. ulia. Qed.

Lemma set_gate_spec cs idt v h attr :
  0 <= v < Z.of_nat (length idt) -> x86_64_idt_set_gate cs idt v h attr = Some (<[Z.to_nat v := gate_of cs h attr]> idt).
Proof.
  intros Hv. unfold x86_64_idt_set_gate. rewrite arr_set_lt by done. do 2 f_equal. unfold gate_of.
  change 0xFFFF with (2 ^ 16 - 1). change 0xFFFFFFFF with (2 ^ 32 - 1). rewrite !Z.shiftr_div_pow2, !land_low by lia.
  unfold u16, u32. by rewrite !Z.mod_mod by lia.
Qed.

Definition zero_gate (cs : Z) : x86_64_idt_entry := gate_of cs 0 0.

Definition idt_type (v : Z) : Z := if v =? 3 then X86_64_IDT_GATE_TRAP else X86_64_IDT_GATE_INTERRUPT.

Lemma idt_init_spec cs addr stubs idt :
  length idt = 256%nat -> length stubs = 48%nat ->
  exists idt', x86_64_idt_init cs addr stubs idt = Some (idt', mk_idtr 4095 addr) /\ length idt' = 256%nat /\
    forall v, 0 <= v < 256 -> exists g, arr_get idt' v = Some g /\
      if v <? 48 then exists h, arr_get stubs v = Some h /\ g = gate_of cs h (idt_type v) else g = zero_gate cs.
Proof.
  intros Hl Hs. unfold x86_64_idt_init, X86_64_IDT_VECTOR_COUNT.
  destruct (for_loop_count (fun i t => length t = 256%nat /\ forall j, 0 <= j < i -> arr_get t j = Some (zero_gate cs)) 0 256
    (fun i idt => x86_64_idt_set_gate cs idt (u8 i) 0 0) idt) as (t1 & -> & Hl1 & H1).
  { lia. } { lia. } { split; [done|]. lia. }
  { intros i t Hi [Ht Hj]. rewrite u8_small by (unfold is_u8; lia). rewrite set_gate_spec by lia. eexists. split; [reflexivity|].
    split; [by rewrite length_insert|]. intros j Hj'. rewrite (arr_get_set t _ i) with (v := zero_gate cs) by (by apply arr_set_lt; lia).
    destruct (Z.eqb_spec j i); [done|]. apply Hj. lia. }
  cbn [mbind option_bind].
  destruct (for_loop_count (fun i t => length t = 256%nat /\ (forall j, i <= j < 256 -> arr_get t j = Some (zero_gate cs)) /\
     forall j, 0 <= j < i -> exists h, arr_get stubs j = Some h /\ arr_get t j = Some (gate_of cs h (idt_type j))) 0 48
    (idt_install cs stubs) t1) as (t2 & -> & Hl2 & H2 & H3).
  { lia. } { lia. } { split_and!; [done|exact H1|lia]. }
  { intros i t Hi (Ht & Hj & Hk). destruct (arr_get_lt stubs i) as [h Hh]; [lia|]. unfold idt_install. rewrite Hh. cbn [mbind option_bind].
    fold (idt_type i). rewrite set_gate_spec by lia. eexists. split; [reflexivity|].
    assert (Hget : forall j, arr_get (<[Z.to_nat i := gate_of cs h (idt_type i)]> t) j = if j =? i then Some (gate_of cs h (idt_type i)) else arr_get t j)
      by (intros j; apply arr_get_set; apply arr_set_lt; lia).
    split_and!; [by rewrite length_insert|intros j Hj'; rewrite Hget; rw_false (j =? i); apply Hj; lia|].
    intros j Hj'. rewrite Hget. destruct (Z.eqb_spec j i) as [->|]; [by exists h|]. apply Hk. lia. }
  cbn [mbind option_bind]. exists t2. rewrite Hl2. split_and!; [done..|]. intros v Hv. destruct (Z.ltb_spec v 48).
  - destruct (H3 v) as (h & Hh & Hg); [lia|]. eauto.
  - exists (zero_gate cs). split; [apply H2; lia|done].
Qed.

(** * Lemmas: the stack *)

Lemma pushes_spec vs : forall m sp, Forall is_u64 vs ->
  let st := foldl push (m, sp) vs in
  st.2 = sp - 8 * Z.of_nat (length vs) /\
  (forall i v, vs !! i = Some v -> load64 st.1 (sp - 8 * (Z.of_nat i + 1)) = v) /\
  (forall x, ~ sp - 8 * Z.of_nat (length vs) <= x < sp -> st.1 x = m x).
Proof.
  induction vs as [|v vs IH]; intros m sp Hvs; cbn [foldl length].
  { split_and!; [cbn; lia|by intros []|done]. }
  apply Forall_cons in Hvs as [Hv Hvs]. specialize (IH (store64 m (sp - 8) v) (sp - 8) Hvs). cbv zeta in *.
  unfold push at 2 4 6. cbn [fst snd]. destruct IH as (Hsp & Hget & Hout). split_and!.
  - rewrite Hsp. lia.
  - intros [|i] w Hi.
    + injection Hi as <-. change (8 * (Z.of_nat 0 + 1)) with 8. transitivity (load64 (store64 m (sp - 8) v) (sp - 8)); [|by apply load64_store64_same].
      apply load_ext. intros x Hx. apply Hout. lia.
    + specialize (Hget i w Hi). rewrite <- Hget. f_equal. lia.
  - intros x Hx. rewrite Hout by lia. unfold store64. apply store_other. lia.
Qed.

(** The words on the stack when [x86_64_trap_dispatch] is called, the oldest first. *)
Definition saved_words (rf : regfile) (n ss rsp rflags cs rip error : Z) : list Z :=
  [ss; rsp; rflags; cs; rip; if cpu_pushes_error n then error else 0; n] ++ (rf <$> isr_pushes).

Lemma saved_words_u64 rf n ss rsp rflags cs rip error :
  Forall is_u64 [ss; rsp; rflags; cs; rip; error; n] -> (forall r, is_u64 (rf r)) -> Forall is_u64 (saved_words rf n ss rsp rflags cs rip error).
Proof.
  intros Hw Hrf. unfold saved_words. repeat (apply Forall_cons in Hw as [? Hw]). apply Forall_app. split; [|apply Forall_fmap, Forall_forall; intros; apply Hrf].
  forall_cons; try done. destruct (cpu_pushes_error n); [done|unfold is_u64; lia].
Qed.

Lemma isr_err_cpu n : isr_err n = cpu_pushes_error n.
Proof.
  unfold isr_err, cpu_pushes_error. case_bool_decide as Hn.
  - repeat (apply elem_of_cons in Hn as [->|Hn]; [done|]). by apply elem_of_nil in Hn.
  - symmetry. rewrite !orb_false_iff, andb_false_iff, !Z.eqb_neq, !Z.leb_gt.
    repeat (apply not_elem_of_cons in Hn as [? Hn]). lia.
Qed.

Lemma entry_words rf n ss rsp rflags cs rip error m top :
  isr_save rf (isr_stub n (cpu_interrupt n ss rsp rflags cs rip error m top)) =
    foldl push (m, top) (saved_words rf n ss rsp rflags cs rip error).
Proof.
  unfold isr_stub, cpu_interrupt. rewrite isr_err_cpu. unfold saved_words. destruct (cpu_pushes_error n); reflexivity.
Qed.

(** * Lemmas: dispatch *)

Definition frame_u64 (f : x86_64_trap_frame) : Prop :=
  is_u64 (fr_vector f) /\ is_u64 (fr_error_code f) /\ is_u64 (fr_rip f) /\ is_u64 (fr_cs f) /\ is_u64 (fr_rflags f) /\
  is_u64 (fr_rax f) /\ is_u64 (fr_rbx f) /\ is_u64 (fr_rcx f) /\ is_u64 (fr_rdx f).

Section Handling.
Context `{Hardware} {Hready : UartReady}.

(** Sends something. *)
Definition quiet (e : io unit) : Prop := exists bs, transmits line_ok e bs.

Lemma quiet_seq e1 e2 : quiet e1 -> quiet e2 -> quiet (e1;; e2).
Proof. intros [b1 H1] [b2 H2]. exists (b1 ++ b2). by apply transmits_seq_ok. Qed.

Lemma quiet_kv x v : forallb (fun c => negb (c =? 0)) (bytes_of x) = true -> is_u64 v -> quiet (log_key_value_hex64 (lit x) v).
Proof. intros Hx Hv. destruct (log_kv_spec (lit x) (bytes_of x) v (lit_arg x Hx) Hv) as (ds & Ht & _). by eexists. Qed.

Lemma quiet_write x : forallb (fun c => negb (c =? 0)) (bytes_of x) = true -> quiet (log_write (lit x)).
Proof. intros Hx. eexists. by apply log_write_lit. Qed.

Lemma quiet_writeln x : forallb (fun c => negb (c =? 0)) (bytes_of x) = true -> quiet (log_writeln (lit x)).
Proof. intros Hx. eexists. by apply log_writeln_lit. Qed.

Lemma quiet_putc c : quiet (log_putc c).
Proof. eexists. apply log_putc_spec. Qed.

Ltac quiet := repeat first [apply quiet_kv; [reflexivity|] | apply quiet_writeln; reflexivity | apply quiet_write; reflexivity
                           | apply quiet_putc | apply quiet_seq].

Lemma log_trap_frame_quiet f : frame_u64 f -> quiet (log_trap_frame f).
Proof. intros (H1 & H2 & H3 & H4 & H5 & H6 & H7 & H8 & H9). unfold log_trap_frame. quiet; assumption. Qed.

Lemma log_bit_quiet label e bit yes no :
  forallb (fun c => negb (c =? 0)) (bytes_of label) = true -> forallb (fun c => negb (c =? 0)) (bytes_of yes) = true ->
  forallb (fun c => negb (c =? 0)) (bytes_of no) = true -> quiet (log_bit label e bit yes no).
Proof.
  intros H1 H2 H3. unfold log_bit. apply quiet_seq; [by apply quiet_write|]. apply quiet_seq; [|apply quiet_putc].
  case_match; by apply quiet_write.
Qed.

Lemma page_fault_quiet a f s : frame_u64 f -> is_u64 (hw_cr2 (trace s)) -> line_ok s ->
  exists s' bs, page_fault_dump a f s = Some (Done tt, s') /\ printed bs s s'.
Proof.
  intros (H1 & H2 & H3 & _) Hc Hs.
  assert (Hq : quiet (log_writeln (lit "[M7] #PF page fault diagnostics:");;
    log_key_value_hex64 (lit "pf_cr2") (hw_cr2 (trace s));; log_key_value_hex64 (lit "pf_error_code") (fr_error_code f);;
    log_key_value_hex64 (lit "pf_rip") (fr_rip f);; log_key_value_hex64 (lit "pf_rsp_est") (u64 (a + FRAME_SIZE));;
    log_bit "[M7] pf_present=" (fr_error_code f) 0 "1(protection)" "0(non-present)";;
    log_bit "[M7] pf_write=" (fr_error_code f) 1 "1(write)" "0(read)";;
    log_bit "[M7] pf_user=" (fr_error_code f) 2 "1(user)" "0(supervisor)";;
    log_bit "[M7] pf_rsvd=" (fr_error_code f) 3 "1(reserved-bit-set)" "0";;
    log_bit "[M7] pf_id=" (fr_error_code f) 4 "1(instruction-fetch)" "0(data-access)")).
  { do 9 (apply quiet_seq; [first [apply log_bit_quiet; reflexivity | by quiet; auto with mcsos]|]). by apply log_bit_quiet. }
  destruct Hq as [bs Hq]. destruct (Hq s Hs) as (s' & E & Hp). exists s', bs. done.
Qed.

(** The part of the dispatcher before the decision. *)
Lemma dispatch_prefix file buf0 a f s :
  frame_u64 f -> line_ok s ->
  exists s1 bs, printed bs (mk_kdev (trace s) (g_log_ready s) (g_ticks s) (u64 (trap_count s + 1))) s1 /\
    x86_64_trap_dispatch file buf0 a (Ref f) s =
      (if fr_vector f =? 3 then log_writeln (lit "[M4] breakpoint handled; returning with iretq")
       else
         (if fr_vector f =? 14 then
            page_fault_dump a f;; kernel_panic_at buf0 file 132 (lit "unrecoverable page fault") (fr_error_code f)
          else mret tt);;
         if (32 <=? fr_vector f) && (fr_vector f <=? 47) then pic_send_eoi (u8 (fr_vector f - 32))
         else kernel_panic_at buf0 file 140 (lit "unrecoverable CPU exception") (fr_vector f)) s1.
Proof.
  intros Hf Hs. set (s0 := mk_kdev (trace s) (g_log_ready s) (g_ticks s) (u64 (trap_count s + 1))).
  assert (Hn : exists x, trap_name (fr_vector f) = Some (lit x) /\ forallb (fun c => negb (c =? 0)) (bytes_of x) = true).
  { unfold trap_name. destruct Hf as [Hv _]. unfold is_u64 in Hv. destruct (Z.ltb_spec (fr_vector f) 32); [|by eexists].
    destruct (arr_get_lt exception_names (fr_vector f)) as [x Hx]; [cbn; lia|]. rewrite Hx. exists x. split; [done|].
    apply arr_get_Some in Hx as [_ Hx]. assert (Hall : Forall (fun x => forallb (fun c => negb (c =? 0)) (bytes_of x) = true) exception_names)
      by (forall_cons; reflexivity). eapply Forall_lookup_1 in Hall; [exact Hall|exact Hx]. }
  destruct Hn as (x & Hn & Hx).
  destruct (quiet_write "[M4] trap dispatch: " eq_refl) as [b1 H1]. destruct (H1 s0 Hs) as (s1 & E1 & P1).
  destruct (quiet_writeln x Hx) as [b2 H2]. destruct (H2 s1) as (s2 & E2 & P2); [apply open_line_ok, P1|].
  destruct (log_trap_frame_quiet f Hf) as [b3 H3]. destruct (H3 s2) as (s3 & E3 & P3); [apply open_line_ok, P2|].
  exists s3, ((b1 ++ b2) ++ b3). split; [by eapply printed_trans; [eapply printed_trans|]|].
  unfold x86_64_trap_dispatch, mbind at 1 2 3 4 5, io_bind, inc_trap_count. fold s0. rewrite E1, Hn. cbn [io_lift mret io_ret].
  rewrite E2, E3. done.
Qed.

(** The acknowledgement of an interrupt, newest access first. *)
Definition eoi_events (v : Z) : history := if 40 <=? v then [Out 0x20 0x20; Out 0xA0 0x20] else [Out 0x20 0x20].

(** An external interrupt is reported, acknowledged and over. *)
Lemma irq_dispatch file buf0 a f s :
  frame_u64 f -> line_ok s -> 32 <= fr_vector f <= 47 ->
  exists s' l, x86_64_trap_dispatch file buf0 a (Ref f) s = Some (Done tt, s') /\ open_line s' /\ g_ticks s' = g_ticks s /\ trap_count s' = u64 (trap_count s + 1) /\
    trace s' = eoi_events (fr_vector f) ++ l ++ trace s /\ Forall com1_event l.
Proof.
  intros Hf Hs Hv. destruct (dispatch_prefix file buf0 a f s Hf Hs) as (s1 & bs & [O1 S1 T1 C1 (l1 & E1 & F1)] & ->).
  rw_false (fr_vector f =? 3). rw_false (fr_vector f =? 14). rw_true (32 <=? fr_vector f). rw_true (fr_vector f <=? 47). cbn [andb].
  unfold mbind at 1, io_bind, mret, io_ret, pic_send_eoi, eoi_events. rewrite u8_small by (unfold is_u8; lia). replace (8 <=? fr_vector f - 32) with (40 <=? fr_vector f) by lia.
  destruct (40 <=? fr_vector f); eexists _, l1; (split; [reflexivity|]); cbn [add_event trace g_ticks trap_count]; (split; [exact O1|]); by rewrite E1.
Qed.

End Handling.

(** A panic after the dispatcher has printed something. *)
Lemma panic_outcome `{Hardware} {Hready : UartReady} s buf0 file f line reason r code :
  line_ok s -> length buf0 = 11%nat -> string_arg file f -> string_arg reason r -> is_u64 code -> is_u64 (hw_rflags (trace s)) ->
  exists s' l, kernel_panic_at buf0 file line reason code s = Some (Panic code, s') /\
    trace s' = Hlt :: Cli :: l ++ Cli :: trace s /\ Forall com1_event l /\ g_ticks s' = g_ticks s /\ trap_count s' = trap_count s.
Proof.
  intros Hs Hl Hf Hr Hc Hrf.
  destruct (panic_sends s buf0 file f line reason r code Hs Hl Hf Hr Hc Hrf) as (s1 & pre & mid & dl & hx & post & E & [O S T C L] & _).
  destruct L as (l & El & Hl1). eexists _, l. split; [rewrite E; reflexivity|]. cbn [add_event trace g_ticks trap_count].
  rewrite El. split_and!; try done.
Qed.

(** The pops restore what the pushes have saved. *)
Lemma restore_saved rf m a (g : reg -> Z) :
  (forall i r, isr_pops !! i = Some r -> load64 m (a + 8 * Z.of_nat i) = g r) ->
  exists rf', isr_restore rf m a = (rf', a + 136) /\ forall r, rf' r = g r.
Proof.
  intros Hg. unfold isr_restore, isr_pops, pop. cbn [foldl fst snd]. eexists. split; [f_equal; lia|]. intros r.
  assert (Hr : exists i, isr_pops !! i = Some r) by (destruct r; [by exists 14%nat|by exists 13%nat|by exists 12%nat|by exists 11%nat|by exists 10%nat|by exists 9%nat|by exists 8%nat|by exists 7%nat
    |by exists 6%nat|by exists 5%nat|by exists 4%nat|by exists 3%nat|by exists 2%nat|by exists 1%nat|by exists 0%nat]).
  destruct Hr as [i Hi]. rewrite <- (Hg i r Hi). do 15 (destruct i as [|i]; [injection Hi as <-; repeat (rewrite decide_False by done); rewrite decide_True by done; f_equal; lia|]). done.
Qed.

(** The register that is popped at a place was pushed there. *)
Lemma popped_word rf n ss rsp rflags cs rip error i r :
  isr_pops !! i = Some r -> saved_words rf n ss rsp rflags cs rip error !! (21 - i)%nat = Some (rf r) /\ (i < 15)%nat.
Proof. intros Hi. do 15 (destruct i as [|i]; [injection Hi as <-; split; [reflexivity|lia]|]). done. Qed.

(** * Properties *)

(** C18. [x86_64_trap_dispatch] decides by the vector alone, and always ends: a breakpoint is reported and returns; an external interrupt is reported, acknowledged at the
    master controller, and before that at the slave exactly when it came from there, and returns; a page fault and every other
    vector are reported and end in a panic that halts with interrupts disabled, with the error code or the vector as its code. Nothing else is
    accessed, every trap is counted, and the timer ticks never change, not even for the timer interrupt. *)
Theorem trap_dispatch_correct `{Hardware} {Hready : UartReady} file fs buf0 a f s :
  frame_u64 f -> line_ok s -> length buf0 = 11%nat -> string_arg file fs ->
  (forall h, is_u64 (hw_rflags h)) -> (forall h, is_u64 (hw_cr2 h)) ->
  exists r s', x86_64_trap_dispatch file buf0 a (Ref f) s = Some (r, s') /\
    g_ticks s' = g_ticks s /\ trap_count s' = u64 (trap_count s + 1) /\
    let v := fr_vector f in
    if v =? 3 then r = Done tt /\ exists l, trace s' = l ++ trace s /\ Forall com1_event l
    else if (32 <=? v) && (v <=? 47) then
      r = Done tt /\ exists l, trace s' = (if 40 <=? v then [Out 0x20 0x20; Out 0xA0 0x20] else [Out 0x20 0x20]) ++ l ++ trace s /\ Forall com1_event l
    else
      r = Panic (if v =? 14 then fr_error_code f else v) /\
      exists l1 l2, trace s' = Hlt :: Cli :: l1 ++ Cli :: l2 ++ trace s /\ Forall com1_event l1 /\ Forall com1_event l2.
Proof.
  intros Hf Hs Hb Hfile Hrf Hcr. destruct (dispatch_prefix file buf0 a f s Hf Hs) as (s1 & bs & [O1 S1 T1 C1 (l1 & E1 & F1)] & ->).
  cbn [trace g_ticks trap_count] in *. cbv zeta. pose proof Hf as (Hv & He & _). unfold is_u64 in Hv.
  destruct (Z.eqb_spec (fr_vector f) 3) as [H3|H3].
  { destruct (log_writeln_lit "[M4] breakpoint handled; returning with iretq" eq_refl s1) as (s2 & E2 & [O2 S2 T2 C2 (l2 & L2 & F2)]); [by apply open_line_ok|].
    exists (Done tt), s2. split_and!; [exact E2|congruence..|]. exists (l2 ++ l1). rewrite L2, E1, app_assoc. split; [done|]. by apply Forall_app. }
  unfold mbind at 1, io_bind. destruct (Z.eqb_spec (fr_vector f) 14) as [H14|H14].
  { rewrite H14. cbn [Z.leb Z.compare Pos.compare Pos.compare_cont andb].
    destruct (page_fault_quiet a f s1 Hf (Hcr _) (open_line_ok _ O1)) as (s2 & b2 & E2 & [O2 S2 T2 C2 (l2 & L2 & F2)]).
    destruct (panic_outcome s2 buf0 file fs 132 (lit "unrecoverable page fault") (bytes_of "unrecoverable page fault") (fr_error_code f))
      as (s3 & l3 & E3 & L3 & F3 & T3 & C3); [by apply open_line_ok|done|done|by apply lit_arg|done|apply Hrf|].
    exists (Panic (fr_error_code f)), s3. unfold mbind, io_bind. rewrite E2, E3. split_and!; [done|congruence..|].
    exists l3, (l2 ++ l1). rewrite L3, L2, E1, app_assoc. split_and!; [done..|]. by apply Forall_app. }
  cbn [mret io_ret]. unfold mret, io_ret. destruct ((32 <=? fr_vector f) && (fr_vector f <=? 47)) eqn:Eirq; bool_to_prop.
  - unfold pic_send_eoi. rewrite u8_small by (unfold is_u8; lia). replace (8 <=? fr_vector f - 32) with (40 <=? fr_vector f) by lia.
    destruct (40 <=? fr_vector f); eexists _, _; (split; [reflexivity|]); cbn [add_event trace g_ticks trap_count]; (split_and!; [congruence..|]);
      exists l1; by rewrite E1.
  - destruct (panic_outcome s1 buf0 file fs 140 (lit "unrecoverable CPU exception") (bytes_of "unrecoverable CPU exception") (fr_vector f))
      as (s3 & l3 & E3 & L3 & F3 & T3 & C3); [by apply open_line_ok|done|done|by apply lit_arg|done|apply Hrf|].
    exists (Panic (fr_vector f)), s3. split_and!; [done|congruence..|]. exists l3, l1. by rewrite L3, E1.
Qed.

(** A machine whose serial line is always ready. *)
Definition quiet_hw : Hardware := {| hw_in _ _ := 0x20; hw_rflags _ := 2; hw_cr2 _ := 0x1000; polls := 1 |}.

Lemma quiet_hw_ready : @UartReady quiet_hw.
Proof. intros h. exists 0%nat. split; [cbn; lia|]. reflexivity. Qed.

(** The keyboard interrupt of the slave range, vector 44. *)
Lemma trap_dispatch_correct_witness :
  exists s' l, @x86_64_trap_dispatch quiet_hw NULL (replicate 11 0) 0x1000 (Ref (mk_frame 0 0 0 0 0 0 0 0 0 0 0 0 0 0 0 44 0 0x401000 8 0x202)) (mk_kdev [] 0 7 1) = Some (Done tt, s') /\
    g_ticks s' = 7 /\ trap_count s' = 2 /\ trace s' = [Out 0x20 0x20; Out 0xA0 0x20] ++ l ++ [].
Proof.
  destruct (@trap_dispatch_correct quiet_hw quiet_hw_ready NULL [] (replicate 11 0) 0x1000
    (mk_frame 0 0 0 0 0 0 0 0 0 0 0 0 0 0 0 44 0 0x401000 8 0x202) (mk_kdev [] 0 7 1)) as (r & s' & H1 & H2 & H3 & H4).
  - unfold frame_u64, is_u64. cbn. lia.
  - left. reflexivity.
  - reflexivity.
  - split; [apply not_elem_of_nil|reflexivity].
  - intros h. unfold is_u64. cbn. lia.
  - intros h. unfold is_u64. cbn. lia.
  - cbn [fr_vector Z.eqb Pos.eqb Z.leb Z.compare Pos.compare Pos.compare_cont andb] in H4. destruct H4 as (-> & l & H4 & _).
    exists s', l. split_and!; assumption.
Defined.

(** Interrupt entry and exit are transparent. The stub of each vector and the common stub give the dispatcher a frame with the vector, the error code the
    processor pushed (0 for vectors without one), and the interrupted instruction pointer, code segment and flags; if the dispatcher
    leaves that part of the stack alone, every general register has its value back when [iretq] is reached, and the stack pointer designates the
    return address the processor pushed. Memory outside the interrupt stack is not written. *)
Theorem isr_roundtrip rf n ss rsp rflags cs rip error m top :
  Forall is_u64 [ss; rsp; rflags; cs; rip; error; n] -> (forall r, is_u64 (rf r)) ->
  let '(m', a) := isr_save rf (isr_stub n (cpu_interrupt n ss rsp rflags cs rip error m top)) in
  let f := read_frame m' a in
  a = top - 176 /\ fr_vector f = n /\ fr_error_code f = (if cpu_pushes_error n then error else 0) /\
  fr_rip f = rip /\ fr_cs f = cs /\ fr_rflags f = rflags /\
  (forall x, ~ top - 176 <= x < top -> m' x = m x) /\
  forall m'' rf', (forall x, top - 176 <= x < top -> m'' x = m' x) ->
    exists rf'', isr_restore rf' m'' a = (rf'', top - 40) /\ (forall r, rf'' r = rf r) /\ load64 m'' (top - 40) = rip.
Proof.
  intros Hw Hrf. rewrite entry_words.
  destruct (pushes_spec (saved_words rf n ss rsp rflags cs rip error) m top) as (Hsp & Hget & Hout).
  { by apply saved_words_u64. }
  destruct (foldl push (m, top) _) as [m' a]. cbn [fst snd] in *. change (length (saved_words _ _ _ _ _ _ _ _)) with 22%nat in *.
  assert (Hword : forall i v k, saved_words rf n ss rsp rflags cs rip error !! i = Some v -> k = 168 - 8 * Z.of_nat i -> load64 m' (a + k) = v).
  { intros i v k Hi ->. rewrite <- (Hget i v Hi). f_equal. lia. }
  cbv zeta. split_and!; [lia| | | | | |intros x Hx; apply Hout; lia|]; cbn [read_frame fr_vector fr_error_code fr_rip fr_cs fr_rflags].
  1: by apply (Hword 6%nat). 1: by apply (Hword 5%nat). 1: by apply (Hword 4%nat). 1: by apply (Hword 3%nat). 1: by apply (Hword 2%nat).
  intros m'' rf' Hm. assert (Hload : forall i v k, saved_words rf n ss rsp rflags cs rip error !! i = Some v -> k = 168 - 8 * Z.of_nat i -> load64 m'' (a + k) = v).
  { intros i v k Hi Hk. rewrite <- (Hword i v k Hi Hk). apply lookup_lt_Some in Hi. change (length (saved_words _ _ _ _ _ _ _ _)) with 22%nat in Hi.
    apply load_ext. intros x Hx. apply Hm. lia. }
  destruct (restore_saved rf' m'' a rf) as (rf'' & E & Hr).
  { intros i r Hi. destruct (popped_word rf n ss rsp rflags cs rip error _ _ Hi) as [Hp Hlt]. apply (Hload _ _ _ Hp). lia. }
  exists rf''. split; [rewrite E; f_equal; lia|]. split; [exact Hr|]. replace (top - 40) with (a + 136) by lia. by apply (Hload 4%nat).
Qed.

(** A page fault with error code 2. *)
Lemma isr_roundtrip_witness :
  let '(m', a) := isr_save (fun r => if decide (r = RAX) then 17 else 5) (isr_stub 14 (cpu_interrupt 14 16 0x9000 0x202 8 0x401000 2 (fun _ => 0) 0x8000)) in
  fr_vector (read_frame m' a) = 14 /\ fr_error_code (read_frame m' a) = 2 /\
  exists rf'', isr_restore (fun _ => 0) m' a = (rf'', 0x8000 - 40) /\ rf'' RAX = 17.
Proof.
  assert (Hrf : forall r, is_u64 (if decide (r = RAX) then 17 else 5)) by (intros r; unfold is_u64; destruct (decide _); lia).
  pose proof (isr_roundtrip (fun r => if decide (r = RAX) then 17 else 5) 14 16 0x9000 0x202 8 0x401000 2 (fun _ => 0) 0x8000
    ltac:(forall_cons; unfold is_u64; lia) Hrf) as H.
  destruct (isr_save _ _) as [m' a]. cbv zeta in H. destruct H as (_ & H1 & H2 & _ & _ & _ & _ & H3). split; [exact H1|]. split; [exact H2|].
  destruct (H3 m' (fun _ => 0)) as (rf'' & H4 & H5 & _); [intros; reflexivity|]. exists rf''. split; [exact H4|]. apply (H5 RAX).
Defined.

(** The register fields of the frame are in the wrong order: the stubs push r15 first and rax last, so that the structure the dispatcher
    declares, which starts with r15, has rax there. What the trap report prints as rax, rbx, rcx and rdx are r15, r14, r13 and r12. *)
Theorem trap_frame_registers_reversed rf n ss rsp rflags cs rip error m top :
  Forall is_u64 [ss; rsp; rflags; cs; rip; error; n] -> (forall r, is_u64 (rf r)) ->
  let '(m', a) := isr_save rf (isr_stub n (cpu_interrupt n ss rsp rflags cs rip error m top)) in
  let f := read_frame m' a in
  fr_rax f = rf R15 /\ fr_rbx f = rf R14 /\ fr_rcx f = rf R13 /\ fr_rdx f = rf R12 /\ fr_r15 f = rf RAX.
Proof.
  intros Hw Hrf. rewrite entry_words.
  destruct (pushes_spec (saved_words rf n ss rsp rflags cs rip error) m top) as (Hsp & Hget & _); [by apply saved_words_u64|].
  destruct (foldl push (m, top) _) as [m' a]. cbn [fst snd] in *. change (length (saved_words _ _ _ _ _ _ _ _)) with 22%nat in *.
  cbv zeta. cbn [read_frame fr_rax fr_rbx fr_rcx fr_rdx fr_r15].
  split_and!; [rewrite <- (Hget 7%nat _ eq_refl)|rewrite <- (Hget 8%nat _ eq_refl)|rewrite <- (Hget 9%nat _ eq_refl)
              |rewrite <- (Hget 10%nat _ eq_refl)|rewrite <- (Hget 21%nat _ eq_refl)]; f_equal; lia.
Qed.

Lemma trap_frame_registers_reversed_witness :
  let '(m', a) := isr_save (fun r => if decide (r = RAX) then 17 else 5) (isr_stub 3 (cpu_interrupt 3 16 0x9000 0x202 8 0x401000 0 (fun _ => 0) 0x8000)) in
  fr_rax (read_frame m' a) = 5 /\ fr_r15 (read_frame m' a) = 17.
Proof.
  assert (Hrf : forall r, is_u64 (if decide (r = RAX) then 17 else 5)) by (intros r; unfold is_u64; destruct (decide _); lia).
  pose proof (trap_frame_registers_reversed (fun r => if decide (r = RAX) then 17 else 5) 3 16 0x9000 0x202 8 0x401000 0 (fun _ => 0) 0x8000
    ltac:(forall_cons; unfold is_u64; lia) Hrf) as H.
  destruct (isr_save _ _) as [m' a]. cbv zeta in H. destruct H as (H1 & _ & _ & _ & H2). split; [exact H1|exact H2].
Defined.

(** C36. After [x86_64_idt_init] the processor reaches exactly the right handler for every vector: the gates of the first 48 vectors are present and lead to the address of
    their stub, whatever the table held before; only the breakpoint gate can be raised by a program in user mode; all other
    gates are absent; and the limit given to the processor covers the 256 entries. *)
Theorem idt_init_correct cs addr stubs idt :
  length idt = 256%nat -> length stubs = 48%nat -> Forall is_u64 stubs ->
  exists idt', x86_64_idt_init cs addr stubs idt = Some (idt', mk_idtr 4095 addr) /\ length idt' = 256%nat /\
    forall v, 0 <= v < 256 -> exists g, arr_get idt' v = Some g /\ selector g = cs /\
      gate_present g = (v <? 48) /\ (v < 48 -> arr_get stubs v = Some (gate_offset g)) /\
      gate_type g = (if v <? 48 then if v =? 3 then 0xF else 0xE else 0) /\ int_allowed 3 g = (v =? 3) /\ (v < 48 -> int_allowed 0 g = true).
Proof.
  intros Hl Hs H64. destruct (idt_init_spec cs addr stubs idt Hl Hs) as (idt' & E & Hl' & Hg). exists idt'. split_and!; [done..|].
  intros v Hv. destruct (Hg v Hv) as (g & Hget & Hgate). exists g. split; [done|]. destruct (Z.ltb_spec v 48) as [Hlt|Hge].
  - destruct Hgate as (h & Hh & ->). assert (is_u64 h) by (apply arr_get_Some in Hh as [_ Hh]; eapply Forall_lookup_1; [exact H64|exact Hh]).
    rewrite gate_of_offset by done. unfold int_allowed, gate_present, gate_dpl, gate_type, gate_of, idt_type, X86_64_IDT_GATE_TRAP, X86_64_IDT_GATE_INTERRUPT.
    cbn [type_attr selector]. destruct (Z.eqb_spec v 3); by split_and!.
  - subst g. split_and!; try done; try lia. symmetry. apply Z.eqb_neq. lia.
Qed.

Lemma idt_init_correct_witness :
  exists idt', x86_64_idt_init 0x28 0x7000 (replicate 48 0xffffffff80001000) (replicate 256 (zero_gate 0)) = Some (idt', mk_idtr 4095 0x7000) /\
    exists g, arr_get idt' 14 = Some g /\ gate_offset g = 0xffffffff80001000 /\ gate_present g = true.
Proof.
  destruct (idt_init_correct 0x28 0x7000 (replicate 48 0xffffffff80001000) (replicate 256 (zero_gate 0))) as (idt' & E & _ & Hg);
    [reflexivity|reflexivity|apply Forall_replicate; unfold is_u64; lia|].
  exists idt'. split; [exact E|]. destruct (Hg 14) as (g & G1 & _ & G2 & G3 & _); [lia|]. exists g. split; [exact G1|]. split; [|exact G2].
  specialize (G3 ltac:(lia)). injection G3 as G3. symmetry. exact G3.
Defined.
