(* ===== verification/Syscall.v ===== *)
(** System calls: kernel/syscall/syscall.c and include/mcsos/syscall.h, over the descriptor layer of Fd.

    The dispatcher reaches the rest of the kernel through the function pointers of [mcsos_syscall_ops]. They
    act on a state of the kernel [W], in which descriptor tables are found by address (the class [FdTables]). User memory is
    byte-addressed; the buffers on the kernel stack are arrays whose initial contents are arguments. *)

From S2P Require Import Prelude Mem Ramfs Fd.

(** * Constants *)

Definition MCSOS_SYS_MAX : Z := 10.

Definition MCSOS_OK : Z := 0.
Definition MCSOS_EINVAL : Z := -22.
Definition MCSOS_ENOSYS : Z := -38.
Definition MCSOS_EFAULT : Z := -14.
Definition MCSOS_EPERM : Z := -1.
Definition MCSOS_EBUSY : Z := -16.

Definition SYS_MAX_PATH : Z := 128.

(** * Data *)

(** Descriptor tables in the state of the kernel: reading the one at an address, and replacing it. *)
Class FdTables (W : Type) := {
  tab_get : W -> Z -> option mcs_fd_table;
  tab_put : W -> Z -> mcs_fd_table -> option W
}.

Record mcsos_user_region := mk_user_region { ur_base : Z; ur_limit : Z }.

Record mcsos_syscall_frame := mk_sysframe {
  sf_nr : Z; sf_arg0 : Z; sf_arg1 : Z; sf_arg2 : Z; sf_arg3 : Z; sf_arg4 : Z; sf_arg5 : Z; sf_ret : Z
}.

(** Function pointers. [write_serial] gets the memory it reads the characters from. *)
Record mcsos_syscall_ops (W : Type) := mk_ops {
  get_ticks : ptr (W -> option (Z * W));
  yield_current : ptr (W -> option W);
  exit_current : ptr (Z -> W -> option W);
  write_serial : ptr (mem -> Z -> Z -> W -> option (Z * W));
  get_current_fd_table : ptr (W -> ptr Z);
  get_ramfs : ptr (W -> ptr nat)
}.
Arguments mk_ops {W}.
Arguments get_ticks {W}.
Arguments yield_current {W}.
Arguments exit_current {W}.
Arguments write_serial {W}.
Arguments get_current_fd_table {W}.
Arguments get_ramfs {W}.

(** The static variables, the rest of the kernel, user memory, and the file systems. *)
Record sys_state (W : Type) := mk_sys {
  g_ops : mcsos_syscall_ops W;
  g_user_region : mcsos_user_region;
  world : W;
  umem : mem;
  files : fs_heap
}.
Arguments mk_sys {W}.
Arguments g_ops {W}.
Arguments g_user_region {W}.
Arguments world {W}.
Arguments umem {W}.
Arguments files {W}.

(** * Operations: user memory *)

Definition mcsos_user_check_range (r : mcsos_user_region) (addr len : Z) : bool :=
  if len =? 0 then true
  else if (ur_base r =? 0) || (ur_limit r <=? ur_base r) then false
  else if addr <? ur_base r then false
  else if ur_limit r <? addr then false
  else
    let last := u64 (u64 (addr + len) - 1) in
    if last <? addr then false
    else if ur_limit r <=? last then false
    else true.

Definition mcsos_copy_from_user (r : mcsos_user_region) (m : mem) (dst : ptr (list Z)) (src len : Z) : option (Z * ptr (list Z)) :=
  if len =? 0 then Some (MCSOS_OK, dst)
  else
    match dst with
    | NULL => Some (MCSOS_EINVAL, dst)
    | Ref d =>
        if src =? 0 then Some (MCSOS_EINVAL, dst)
        else if negb (mcsos_user_check_range r src len) then Some (MCSOS_EFAULT, dst)
        else
          d ← for_loop (loop_fuel 0 len 1) 0 len 1 (fun i d => arr_set d i (load8 m (src + i))) d;
          Some (MCSOS_OK, Ref d)
    end.

Definition mcsos_copy_to_user (r : mcsos_user_region) (m : mem) (dst : Z) (src : ptr (list Z)) (len : Z) : option (Z * mem) :=
  if len =? 0 then Some (MCSOS_OK, m)
  else
    match src with
    | NULL => Some (MCSOS_EINVAL, m)
    | Ref s =>
        if dst =? 0 then Some (MCSOS_EINVAL, m)
        else if negb (mcsos_user_check_range r dst len) then Some (MCSOS_EFAULT, m)
        else
          m ← for_loop (loop_fuel 0 len 1) 0 len 1 (fun i m => c ← arr_get s i; Some (store8 m (dst + i) c)) m;
          Some (MCSOS_OK, m)
    end.

(** * Operations: the calls *)

Section Calls.
Context {W : Type} `{FdTables W}.
Context (kpath0 kbuf0 : list Z).

Definition default_write_serial (m : mem) (buf len : Z) (w : W) : option (Z * W) := Some (i64 len, w).

Definition or_keep {A} (new old : ptr A) : ptr A := match new with NULL => old | Ref _ => new end.

Definition no_ops : mcsos_syscall_ops W := mk_ops NULL NULL NULL (Ref default_write_serial) NULL NULL.

Definition mcsos_syscall_init (ops : ptr (mcsos_syscall_ops W)) (st : sys_state W) : sys_state W :=
  let new :=
    match ops with
    | NULL => no_ops
    | Ref o => mk_ops (or_keep (get_ticks o) (get_ticks no_ops)) (or_keep (yield_current o) (yield_current no_ops))
        (or_keep (exit_current o) (exit_current no_ops)) (or_keep (write_serial o) (write_serial no_ops))
        (or_keep (get_current_fd_table o) (get_current_fd_table no_ops)) (or_keep (get_ramfs o) (get_ramfs no_ops))
    end in
  mk_sys new (g_user_region st) (world st) (umem st) (files st).

Definition mcsos_syscall_set_user_region (r : mcsos_user_region) (st : sys_state W) : sys_state W :=
  mk_sys (g_ops st) r (world st) (umem st) (files st).

Definition set_world (st : sys_state W) (w : W) : sys_state W := mk_sys (g_ops st) (g_user_region st) w (umem st) (files st).
Definition set_umem (st : sys_state W) (m : mem) : sys_state W := mk_sys (g_ops st) (g_user_region st) (world st) m (files st).

(** A call of the descriptor layer on the table at [k]. *)
Definition on_table (st : sys_state W) (k : Z) (f : mcs_fd_table -> option (Z * ptr mcs_fd_table * fs_heap)) : option (Z * sys_state W) :=
  t ← tab_get (world st) k;
  '(rc, t, fss) ← f t;
  match t with
  | NULL => None
  | Ref t => w ← tab_put (world st) k t; Some (rc, mk_sys (g_ops st) (g_user_region st) w (umem st) fss)
  end.

Definition sys_ping (a0 a1 a2 a3 a4 a5 : Z) (st : sys_state W) : option (Z * sys_state W) := Some (0x2605020A, st).

Definition sys_get_ticks (a0 a1 a2 a3 a4 a5 : Z) (st : sys_state W) : option (Z * sys_state W) :=
  match get_ticks (g_ops st) with
  | NULL => Some (MCSOS_EBUSY, st)
  | Ref f => '(t, w) ← f (world st); Some (i64 t, set_world st w)
  end.

(** Calling a null pointer is undefined. *)
Definition sys_write_serial (ptr_ len a2 a3 a4 a5 : Z) (st : sys_state W) : option (Z * sys_state W) :=
  if ptr_ =? 0 then Some (MCSOS_EINVAL, st)
  else if 4096 <? len then Some (MCSOS_EINVAL, st)
  else if negb (mcsos_user_check_range (g_user_region st) ptr_ len) then Some (MCSOS_EFAULT, st)
  else
    match write_serial (g_ops st) with
    | NULL => None
    | Ref f => '(rc, w) ← f (umem st) ptr_ len (world st); Some (rc, set_world st w)
    end.

Definition sys_yield (a0 a1 a2 a3 a4 a5 : Z) (st : sys_state W) : option (Z * sys_state W) :=
  match yield_current (g_ops st) with
  | NULL => Some (MCSOS_EBUSY, st)
  | Ref f => w ← f (world st); Some (MCSOS_OK, set_world st w)
  end.

Definition sys_exit_thread (code a1 a2 a3 a4 a5 : Z) (st : sys_state W) : option (Z * sys_state W) :=
  match exit_current (g_ops st) with
  | NULL => Some (MCSOS_EBUSY, st)
  | Ref f => w ← f (i32 code) (world st); Some (MCSOS_OK, set_world st w)
  end.

Definition sys_open (path_ptr path_len flags a3 a4 a5 : Z) (st : sys_state W) : option (Z * sys_state W) :=
  match get_current_fd_table (g_ops st), get_ramfs (g_ops st) with
  | Ref get_table, Ref get_fs =>
      if (path_len =? 0) || (SYS_MAX_PATH <=? path_len) then Some (MCSOS_EINVAL, st)
      else
        '(rc, kpath) ← mcsos_copy_from_user (g_user_region st) (umem st) (Ref kpath0) path_ptr path_len;
        if negb (rc =? MCSOS_OK) then Some (rc, st)
        else
          match kpath with
          | NULL => None
          | Ref kpath =>
              kpath ← arr_set kpath path_len 0;
              match get_table (world st), get_fs (world st) with
              | Ref k, Ref fs => on_table st k (fun t => mcs_vfs_open (Ref t) (files st) (Ref fs) (Ref kpath) (u32 flags))
              | _, _ => Some (MCSOS_EBUSY, st)
              end
          end
  | _, _ => Some (MCSOS_EBUSY, st)
  end.

Definition sys_read (fd buf_ptr len a3 a4 a5 : Z) (st : sys_state W) : option (Z * sys_state W) :=
  match get_current_fd_table (g_ops st) with
  | NULL => Some (MCSOS_EBUSY, st)
  | Ref get_table =>
      if 4096 <? len then Some (MCSOS_EINVAL, st)
      else
        match get_table (world st) with
        | NULL => Some (MCSOS_EBUSY, st)
        | Ref k =>
            t ← tab_get (world st) k;
            '(n, t, kbuf) ← mcs_vfs_read (Ref t) (files st) (i32 fd) (Ref kbuf0) len;
            '(_, st) ← on_table st k (fun _ => Some (n, t, files st));
            if n <? 0 then Some (n, st)
            else
              '(rc, m) ← mcsos_copy_to_user (g_user_region st) (umem st) buf_ptr kbuf n;
              if negb (rc =? MCSOS_OK) then Some (rc, set_umem st m)
              else Some (n, set_umem st m)
        end
  end.

Definition sys_write (fd buf_ptr len a3 a4 a5 : Z) (st : sys_state W) : option (Z * sys_state W) :=
  match get_current_fd_table (g_ops st) with
  | NULL => Some (MCSOS_EBUSY, st)
  | Ref get_table =>
      if 4096 <? len then Some (MCSOS_EINVAL, st)
      else
        '(rc, kbuf) ← mcsos_copy_from_user (g_user_region st) (umem st) (Ref kbuf0) buf_ptr len;
        if negb (rc =? MCSOS_OK) then Some (rc, st)
        else
          match get_table (world st) with
          | NULL => Some (MCSOS_EBUSY, st)
          | Ref k => on_table st k (fun t => mcs_vfs_write (Ref t) (files st) (i32 fd) kbuf len)
          end
  end.

(** A call of the descriptor layer that needs the table only. *)
Definition table_call (st : sys_state W) (f : mcs_fd_table -> option (Z * ptr mcs_fd_table)) : option (Z * sys_state W) :=
  match get_current_fd_table (g_ops st) with
  | NULL => Some (MCSOS_EBUSY, st)
  | Ref get_table =>
      match get_table (world st) with
      | NULL => Some (MCSOS_EBUSY, st)
      | Ref k => on_table st k (fun t => '(rc, t) ← f t; Some (rc, t, files st))
      end
  end.

Definition sys_lseek (fd offset whence a3 a4 a5 : Z) (st : sys_state W) : option (Z * sys_state W) :=
  table_call st (fun t => mcs_vfs_lseek (Ref t) (files st) (i32 fd) (i64 offset) (i32 whence)).

Definition sys_close (fd a1 a2 a3 a4 a5 : Z) (st : sys_state W) : option (Z * sys_state W) :=
  table_call st (fun t => mcs_vfs_close (Ref t) (i32 fd)).

Abbreviation syscall_fn := (Z -> Z -> Z -> Z -> Z -> Z -> sys_state W -> option (Z * sys_state W)).

Definition g_table : list (ptr syscall_fn) :=
  [Ref sys_ping; Ref sys_get_ticks; Ref sys_write_serial; Ref sys_yield; Ref sys_exit_thread; Ref sys_open; Ref sys_read; Ref sys_write;
   Ref sys_lseek; Ref sys_close].

Definition mcsos_syscall_dispatch (nr arg0 arg1 arg2 arg3 arg4 arg5 : Z) (st : sys_state W) : option (Z * sys_state W) :=
  if MCSOS_SYS_MAX <=? nr then Some (MCSOS_ENOSYS, st)
  else
    fn ← arr_get g_table nr;
    match fn with
    | NULL => Some (MCSOS_ENOSYS, st)
    | Ref fn => fn arg0 arg1 arg2 arg3 arg4 arg5 st
    end.

Definition mcsos_syscall_dispatch_frame (frame : ptr mcsos_syscall_frame) (st : sys_state W) : option (ptr mcsos_syscall_frame * sys_state W) :=
  match frame with
  | NULL => Some (NULL, st)
  | Ref f =>
      '(ret, st) ← mcsos_syscall_dispatch (sf_nr f) (sf_arg0 f) (sf_arg1 f) (sf_arg2 f) (sf_arg3 f) (sf_arg4 f) (sf_arg5 f) st;
      Some (Ref (mk_sysframe (sf_nr f) (sf_arg0 f) (sf_arg1 f) (sf_arg2 f) (sf_arg3 f) (sf_arg4 f) (sf_arg5 f) ret), st)
  end.

End Calls.

(** * Specification *)

(** A range that a program may name: empty, or inside the user region. *)
Definition user_range (r : mcsos_user_region) (addr len : Z) : Prop :=
  len = 0 \/ 0 < ur_base r /\ ur_base r <= addr /\ addr + len <= ur_limit r.

(** The bytes that a program sees in its memory. *)
Definition user_bytes (m : mem) (addr : Z) (n : nat) : list Z := (fun i => load8 m (addr + Z.of_nat i)) <$> seq 0 n.

(** Replacing a table changes that table only. *)
Class FdTablesOk (W : Type) `{FdTables W} : Prop :=
  tab_put_ok : forall w k t t', tab_get w k = Some t ->
    exists w', tab_put w k t' = Some w' /\ forall k', tab_get w' k' = if k' =? k then Some t' else tab_get w k'.

(** What the dispatcher relies on: from a state of the kernel that satisfies [I], the function pointers that are set return, keep [I] and
    do not touch the descriptor tables; the current table exists, and the file system is one of [D]. *)
Record ops_ok {W : Type} `{FdTables W} (I : W -> Prop) (D : nat -> Prop) (o : mcsos_syscall_ops W) : Prop := {
  ok_ticks f w : get_ticks o = Ref f -> I w -> exists t w', f w = Some (t, w') /\ I w' /\ forall k, tab_get w' k = tab_get w k;
  ok_yield f w : yield_current o = Ref f -> I w -> exists w', f w = Some w' /\ I w' /\ forall k, tab_get w' k = tab_get w k;
  ok_exit f c w : exit_current o = Ref f -> I w -> exists w', f c w = Some w' /\ I w' /\ forall k, tab_get w' k = tab_get w k;
  ok_serial : exists f, write_serial o = Ref f /\
    forall m p len w, I w -> 0 <= len <= 4096 -> exists rc w', f m p len w = Some (rc, w') /\ I w' /\ (forall k, tab_get w' k = tab_get w k) /\
      forall m', (forall x, p <= x < p + len -> m' x = m x) -> f m' p len w = Some (rc, w');
  ok_table f w k : get_current_fd_table o = Ref f -> I w -> f w = Ref k -> is_Some (tab_get w k);
  ok_ramfs f w k : get_ramfs o = Ref f -> I w -> f w = Ref k -> D k;
  ok_put w k t w' : I w -> length t = Z.to_nat MCS_MAX_OPEN_FILES -> tab_put w k t = Some w' -> I w'
}.

(** The state between two system calls. *)
Record sys_wf {W : Type} `{FdTables W} (I : W -> Prop) (D : nat -> Prop) (st : sys_state W) : Prop := {
  wf_ops : ops_ok I D (g_ops st);
  wf_world : I (world st);
  wf_files : heap_wf (files st);
  wf_tables k t : tab_get (world st) k = Some t -> vfs_wf (files st) t;
  wf_dom k : D k -> is_Some (files st !! k);
  wf_base : is_u64 (ur_base (g_user_region st));
  wf_limit : is_u64 (ur_limit (g_user_region st))
}.

(** The descriptors of the calling thread. *)
Definition caller_table {W : Type} `{FdTables W} (st : sys_state W) : option mcs_fd_table :=
  match get_current_fd_table (g_ops st) with
  | NULL => None
  | Ref g => match g (world st) with NULL => None | Ref k => tab_get (world st) k end
  end.

(** The one kind of call that is undefined: the dispatcher passes on a seek of the caller that overflows a signed long. *)
Definition call_overflows {W : Type} `{FdTables W} (st : sys_state W) (nr fd offset whence : Z) : bool :=
  (nr =? 8) && match caller_table st with Some t => seek_overflows (files st) t (i32 fd) (i64 offset) (i32 whence) | None => false end.

(** * Lemmas: user memory *)

Lemma check_range_spec r addr len :
  is_u64 addr -> is_u64 len -> is_u64 (ur_base r) -> is_u64 (ur_limit r) ->
  mcsos_user_check_range r addr len = true <-> user_range r addr len.
Proof.
  unfold is_u64, user_range, mcsos_user_check_range. intros Ha Hl Hb Hm.
  destruct (Z.eqb_spec len 0) as [H0|H0]; [by split; [left|]|].
  destruct (_ || _) eqn:E1; bool_to_prop; [split; [done|]; intros; destruct E1; bool_to_prop; lia|].
  destruct (Z.ltb_spec addr (ur_base r)); [split; [done|]; lia|].
  destruct (Z.ltb_spec (ur_limit r) addr); [split; [done|]; lia|]. cbv zeta.
  assert (Hlast : u64 (u64 (addr + len) - 1) = if addr + len <=? 2 ^ 64 then addr + len - 1 else addr + len - 1 - 2 ^ 64).
  { destruct (Z.leb_spec (addr + len) (2 ^ 64)); ulia. }
  rewrite Hlast. destruct (Z.leb_spec (addr + len) (2 ^ 64)).
  - rw_false (addr + len - 1 <? addr). destruct (Z.leb_spec (ur_limit r) (addr + len - 1)); (split; [|intros; first [done|lia]]); [done|]. lia.
  - rw_true (addr + len - 1 - 2 ^ 64 <? addr). split; [done|]. lia.
Qed.

Lemma user_bytes_S m a n : user_bytes m a (S n) = user_bytes m a n ++ [load8 m (a + Z.of_nat n)].
Proof. unfold user_bytes. rewrite seq_S, fmap_app. done. Qed.

Lemma user_bytes_length m a n : length (user_bytes m a n) = n.
Proof. unfold user_bytes. by rewrite length_fmap, length_seq. Qed.

Lemma user_bytes_ext m m' a n : (forall x, a <= x < a + Z.of_nat n -> m' x = m x) -> user_bytes m' a n = user_bytes m a n.
Proof.
  intros Hx. unfold user_bytes. apply list_fmap_ext. intros i j Hj. apply lookup_seq in Hj as [-> Hlt]. unfold load8. rewrite Hx by lia. done.
Qed.

Lemma copy_from_loop m src len d :
  0 <= len <= Z.of_nat (length d) -> len < 2 ^ 64 ->
  for_loop (loop_fuel 0 len 1) 0 len 1 (fun i d => arr_set d i (load8 m (src + i))) d =
    Some (user_bytes m src (Z.to_nat len) ++ drop (Z.to_nat len) d).
Proof.
  intros Hl H64.
  destruct (for_loop_count (fun i d' => length d' = length d /\ d' = user_bytes m src (Z.to_nat i) ++ drop (Z.to_nat i) d) 0 len
    (fun i d => arr_set d i (load8 m (src + i))) d) as (d' & E & _ & ->); [lia|lia|done| |exact E].
  intros i d' Hi [Hl' ->]. rewrite arr_set_lt by lia. eexists. split; [reflexivity|]. split; [by rewrite length_insert|].
  replace (Z.to_nat (i + 1)) with (S (Z.to_nat i)) by lia. rewrite user_bytes_S, <- app_assoc, Z2Nat.id by lia.
  rewrite insert_app_r_alt by (rewrite user_bytes_length; lia). rewrite user_bytes_length, Nat.sub_diag. f_equal.
  destruct (lookup_lt_is_Some_2 d (Z.to_nat i)) as [c Hc]; [lia|]. by rewrite (drop_S d c) by done.
Qed.

Lemma copy_from_spec r m d src len :
  is_u64 src -> 0 <= len <= Z.of_nat (length d) -> len < 2 ^ 64 -> is_u64 (ur_base r) -> is_u64 (ur_limit r) ->
  mcsos_copy_from_user r m (Ref d) src len =
    if len =? 0 then Some (MCSOS_OK, Ref d)
    else if src =? 0 then Some (MCSOS_EINVAL, Ref d)
    else if mcsos_user_check_range r src len then Some (MCSOS_OK, Ref (user_bytes m src (Z.to_nat len) ++ drop (Z.to_nat len) d))
    else Some (MCSOS_EFAULT, Ref d).
Proof.
  intros Hs Hl H64 Hb Hm. unfold mcsos_copy_from_user. destruct (len =? 0); [done|]. destruct (src =? 0); [done|].
  destruct (mcsos_user_check_range r src len); cbn [negb]; [|done]. by rewrite copy_from_loop.
Qed.

(** Memory after the bytes [bs] have been stored from [a] on. *)
Definition write_bytes (m : mem) (a : Z) (bs : list Z) : mem :=
  fun x => if (a <=? x) && (x <? a + Z.of_nat (length bs)) then u8 (default 0 (bs !! Z.to_nat (x - a))) else m x.

Lemma copy_to_loop m dst len bs :
  0 <= len <= Z.of_nat (length bs) -> len < 2 ^ 64 ->
  exists m', for_loop (loop_fuel 0 len 1) 0 len 1 (fun i m => c ← arr_get bs i; Some (store8 m (dst + i) c)) m = Some m' /\
    forall x, m' x = write_bytes m dst (take (Z.to_nat len) bs) x.
Proof.
  intros Hl H64.
  destruct (for_loop_count (fun i m' => forall x, m' x = write_bytes m dst (take (Z.to_nat i) bs) x) 0 len
    (fun i m => c ← arr_get bs i; Some (store8 m (dst + i) c)) m) as (m' & E & Hm'); [lia|lia| | |by exists m'].
  { intros x. unfold write_bytes. cbn [take length]. rewrite Z.add_0_r. case_bool; [lia|done]. }
  intros i m' Hi Hm'. destruct (arr_get_lt bs i) as [c Hc]; [lia|]. rewrite Hc. cbn [mbind option_bind]. eexists. split; [reflexivity|].
  apply arr_get_Some in Hc as [_ Hc]. intros x. unfold store8. rewrite Hm'. unfold write_bytes.
  rewrite !length_take. replace (Z.of_nat (Z.to_nat i `min` length bs)) with i by lia.
  replace (Z.of_nat (Z.to_nat (i + 1) `min` length bs)) with (i + 1) by lia.
  destruct (Z.eqb_spec x (dst + i)) as [->|Hne].
  - rw_true (dst <=? dst + i). rw_true (dst + i <? dst + (i + 1)). cbn [andb]. replace (dst + i - dst) with i by lia.
    rewrite lookup_take_lt by lia. by rewrite Hc.
  - destruct (Z.leb_spec dst x), (Z.ltb_spec x (dst + i)), (Z.ltb_spec x (dst + (i + 1))); cbn [andb]; try lia; try done.
    by rewrite !lookup_take_lt by lia.
Qed.

(** An array that contains a zero is a string. *)
Lemma has_cstr l rest : exists s, is_cstr (l ++ 0 :: rest) s.
Proof.
  induction l as [|c l IH]; [exists []; split; [apply not_elem_of_nil|by exists rest]|]. destruct (decide (c = 0)) as [->|Hc].
  - exists []. split; [apply not_elem_of_nil|]. by eexists.
  - destruct IH as (s & H0 & r & Er). exists (c :: s). split; [by apply not_elem_of_cons|]. exists r. cbn. by rewrite Er.
Qed.

(** The path that [sys_open] passes on. *)
Lemma kpath_spec m p n d : 0 <= n < Z.of_nat (length d) ->
  arr_set (user_bytes m p (Z.to_nat n) ++ drop (Z.to_nat n) d) n 0 = Some (user_bytes m p (Z.to_nat n) ++ 0 :: drop (S (Z.to_nat n)) d).
Proof.
  intros Hn. rewrite arr_set_lt by (rewrite length_app, user_bytes_length, length_drop; lia).
  rewrite insert_app_r_alt by (rewrite user_bytes_length; lia). rewrite user_bytes_length, Nat.sub_diag. do 2 f_equal.
  destruct (lookup_lt_is_Some_2 d (Z.to_nat n)) as [c Hc]; [lia|]. by rewrite (drop_S d c) by done.
Qed.

(** * Lemmas: the calls keep the invariant *)

Section Invariant.
Context {W : Type} `{FdTables W} {Hlaws : FdTablesOk W} (I : W -> Prop) (D : nat -> Prop).
Context (kpath0 kbuf0 : list Z) (Hkpath : length kpath0 = 128%nat) (Hkbuf : length kbuf0 = 4096%nat).

(** The state after a call: still well formed, with the same operations and region. *)
Definition call_ok (st st' : sys_state W) : Prop := sys_wf I D st' /\ g_ops st' = g_ops st /\ g_user_region st' = g_user_region st.

Lemma call_ok_refl st : sys_wf I D st -> call_ok st st.
Proof. intros Hst. split; [done|]. by split. Qed.

Lemma set_world_ok st w :
  sys_wf I D st -> I w -> (forall k, tab_get w k = tab_get (world st) k) -> call_ok st (set_world st w).
Proof.
  intros [H1 H2 H3 H4 H5 H6 H7] Hw Ht. split; [|by split]. split; try done. intros k t. cbn [set_world world files]. rewrite Ht. apply H4.
Qed.

Lemma set_umem_ok st m : sys_wf I D st -> call_ok st (set_umem st m).
Proof. intros [H1 H2 H3 H4 H5 H6 H7]. split; [|by split]. by split. Qed.

Lemma on_table_spec st k t rc t' fss' (f : mcs_fd_table -> option (Z * ptr mcs_fd_table * fs_heap)) :
  sys_wf I D st -> tab_get (world st) k = Some t -> f t = Some (rc, Ref t', fss') -> vfs_wf fss' t' -> heap_le (files st) fss' ->
  exists st', on_table st k f = Some (rc, st') /\ call_ok st st' /\ umem st' = umem st /\ files st' = fss' /\
    tab_put (world st) k t' = Some (world st') /\ forall k', tab_get (world st') k' = if k' =? k then Some t' else tab_get (world st) k'.
Proof.
  intros [H1 H2 H3 H4 H5 H6 H7] Hk Hf Hwf Hle. unfold on_table. rewrite Hk. cbn [mbind option_bind]. rewrite Hf. cbn [mbind option_bind].
  destruct (tab_put_ok (world st) k t t' Hk) as (w' & Hput & Hget). rewrite Hput. cbn [mbind option_bind].
  eexists. split; [reflexivity|]. split; [|by split_and!]. split; [|done]. split; cbn; try done.
  - eapply (ok_put I D _ H1); [done|apply Hwf|exact Hput].
  - apply Hwf.
  - intros k' t1. rewrite Hget. destruct (k' =? k); [by intros [= <-]|]. intros Hk'. eapply vfs_wf_heap; [by eapply H4|apply Hwf|done].
  - intros d Hd. eapply heap_le_dom; [done|done|]. by apply H5.
Qed.

Lemma table_call_spec st (f : mcs_fd_table -> option (Z * ptr mcs_fd_table)) :
  sys_wf I D st ->
  (forall t, caller_table st = Some t -> vfs_wf (files st) t -> exists rc t', f t = Some (rc, Ref t') /\ vfs_wf (files st) t') ->
  exists ret st', table_call st f = Some (ret, st') /\ call_ok st st' /\ umem st' = umem st.
Proof.
  intros Hst Hf. unfold table_call. unfold caller_table in Hf. destruct (get_current_fd_table (g_ops st)) as [|g] eqn:Eg.
  { exists MCSOS_EBUSY, st. split_and!; try done; by apply call_ok_refl. }
  destruct (g (world st)) as [|k] eqn:Ek.
  { exists MCSOS_EBUSY, st. split_and!; try done; by apply call_ok_refl. }
  destruct (ok_table I D _ (wf_ops _ _ _ Hst) g (world st) k Eg (wf_world _ _ _ Hst) Ek) as [t Ht].
  destruct (Hf t Ht (wf_tables _ _ _ Hst k t Ht)) as (rc & t' & Ef & Hwf').
  destruct (on_table_spec st k t rc t' (files st) (fun t => '(rc, t) ← f t; Some (rc, t, files st))) as (st' & E & Hc & Hu & _);
    [done|done|by rewrite Ef|done|apply heap_le_refl|].
  exists rc, st'. split_and!; try done; apply Hc.
Qed.

Lemma i64_range z : LONG_MIN <= i64 z <= LONG_MAX.
Proof. unfold i64, LONG_MIN, LONG_MAX. pose proof (Z.mod_pos_bound (z + 2 ^ 63) (2 ^ 64)). lia. Qed.

(** What a call establishes that does not write user memory, and what it establishes when it writes it only in [lo, hi). *)
Definition quiet_call (r : option (Z * sys_state W)) (st : sys_state W) : Prop :=
  exists ret st', r = Some (ret, st') /\ call_ok st st' /\ umem st' = umem st.

Definition call_spec (lo hi : Z) (r : option (Z * sys_state W)) (st : sys_state W) : Prop :=
  exists ret st', r = Some (ret, st') /\ call_ok st st' /\ forall x, ~ lo <= x < hi -> umem st' x = umem st x.

Lemma quiet_same st ret : sys_wf I D st -> quiet_call (Some (ret, st)) st.
Proof. intros Hst. exists ret, st. split; [done|]. split; [by apply call_ok_refl|done]. Qed.

Lemma quiet_spec lo hi r st : quiet_call r st -> call_spec lo hi r st.
Proof. intros (ret & st' & E & Hc & Hu). exists ret, st'. split_and!; [done|done|]. intros x _. by rewrite Hu. Qed.

Lemma sys_open_spec p n flags a3 a4 a5 st :
  sys_wf I D st -> is_u64 p -> is_u64 n -> quiet_call (sys_open kpath0 p n flags a3 a4 a5 st) st.
Proof.
  intros Hst Hp Hn. pose proof (wf_base _ _ _ Hst). pose proof (wf_limit _ _ _ Hst). unfold is_u64 in Hn.
  unfold sys_open. destruct (get_current_fd_table (g_ops st)) as [|g] eqn:Eg; [by apply quiet_same|].
  destruct (get_ramfs (g_ops st)) as [|gf] eqn:Ef; [by apply quiet_same|].
  destruct ((n =? 0) || (SYS_MAX_PATH <=? n)) eqn:En; [by apply quiet_same|]. bool_to_prop. unfold SYS_MAX_PATH in *.
  rewrite copy_from_spec by (done || lia). rw_false (n =? 0).
  destruct (p =? 0); [by apply quiet_same|]. destruct (mcsos_user_check_range (g_user_region st) p n); [|by apply quiet_same].
  cbn [mbind option_bind]. change (negb (MCSOS_OK =? MCSOS_OK)) with false. cbn iota.
  rewrite kpath_spec by lia. cbn [mbind option_bind].
  destruct (g (world st)) as [|k] eqn:Ek; [by apply quiet_same|]. destruct (gf (world st)) as [|fk] eqn:Efk; [by apply quiet_same|].
  destruct (ok_table I D _ (wf_ops _ _ _ Hst) g (world st) k Eg (wf_world _ _ _ Hst) Ek) as [t Ht].
  pose proof (wf_dom _ _ _ Hst fk (ok_ramfs I D _ (wf_ops _ _ _ Hst) gf (world st) fk Ef (wf_world _ _ _ Hst) Efk)) as Hdom.
  destruct (has_cstr (user_bytes (umem st) p (Z.to_nat n)) (drop (S (Z.to_nat n)) kpath0)) as [s Hs].
  destruct (open_spec (files st) t fk _ s (u32 flags) (wf_tables _ _ _ Hst k t Ht) Hdom Hs) as (rc & t' & fss' & Eo & Hwf' & Hle & _).
  destruct (on_table_spec st k t rc t' fss' (fun t => mcs_vfs_open (Ref t) (files st) (Ref fk)
    (Ref (user_bytes (umem st) p (Z.to_nat n) ++ 0 :: drop (S (Z.to_nat n)) kpath0)) (u32 flags)) Hst Ht Eo Hwf' Hle) as (st' & E & Hc & Hu & _).
  by exists rc, st'.
Qed.

Lemma sys_write_spec fd p n a3 a4 a5 st :
  sys_wf I D st -> is_u64 p -> is_u64 n -> quiet_call (sys_write kbuf0 fd p n a3 a4 a5 st) st.
Proof.
  intros Hst Hp Hn. pose proof (wf_base _ _ _ Hst). pose proof (wf_limit _ _ _ Hst). unfold is_u64 in Hn.
  unfold sys_write. destruct (get_current_fd_table (g_ops st)) as [|g] eqn:Eg; [by apply quiet_same|].
  destruct (Z.ltb_spec 4096 n); [by apply quiet_same|].
  assert (Hcont : forall bs kbuf, take (length bs) kbuf = bs -> Z.of_nat (length bs) = n ->
    quiet_call (match g (world st) with NULL => Some (MCSOS_EBUSY, st)
      | Ref k => on_table st k (fun t => mcs_vfs_write (Ref t) (files st) (i32 fd) (Ref kbuf) n) end) st).
  { intros bs kbuf Hbs Hlen. destruct (g (world st)) as [|k] eqn:Ek; [by apply quiet_same|].
    destruct (ok_table I D _ (wf_ops _ _ _ Hst) g (world st) k Eg (wf_world _ _ _ Hst) Ek) as [t Ht].
    destruct (write_any (files st) t (i32 fd) bs (wf_tables _ _ _ Hst k t Ht)) as (rc & t' & fss' & Hwf' & Hle & Hw); [lia|].
    specialize (Hw kbuf Hbs). rewrite Hlen in Hw.
    destruct (on_table_spec st k t rc t' fss' (fun t => mcs_vfs_write (Ref t) (files st) (i32 fd) (Ref kbuf) n) Hst Ht Hw Hwf' Hle) as (st' & E & Hc & Hu & _).
    by exists rc, st'. }
  rewrite copy_from_spec by (done || lia). destruct (Z.eqb_spec n 0) as [->|Hn0].
  { cbn [mbind option_bind]. change (negb (MCSOS_OK =? MCSOS_OK)) with false. cbn iota. by apply (Hcont []). }
  destruct (p =? 0); [by apply quiet_same|]. destruct (mcsos_user_check_range (g_user_region st) p n); [|by apply quiet_same].
  cbn [mbind option_bind]. change (negb (MCSOS_OK =? MCSOS_OK)) with false. cbn iota.
  apply (Hcont (user_bytes (umem st) p (Z.to_nat n))); rewrite user_bytes_length; [|lia].
  rewrite take_app_length' by (by rewrite user_bytes_length). done.
Qed.

Lemma sys_read_spec fd p n a3 a4 a5 st :
  sys_wf I D st -> is_u64 p -> is_u64 n ->
  exists ret st', sys_read kbuf0 fd p n a3 a4 a5 st = Some (ret, st') /\ call_ok st st' /\
    ((forall x, umem st' x = umem st x) \/
     exists bs, 0 < ret /\ length bs = Z.to_nat ret /\ user_range (g_user_region st) p ret /\ forall x, umem st' x = write_bytes (umem st) p bs x).
Proof.
  intros Hst Hp Hn. pose proof (wf_base _ _ _ Hst). pose proof (wf_limit _ _ _ Hst). pose proof (call_ok_refl st Hst). unfold is_u64 in Hn.
  unfold sys_read. destruct (get_current_fd_table (g_ops st)) as [|g] eqn:Eg; [exists MCSOS_EBUSY, st; auto|].
  destruct (Z.ltb_spec 4096 n); [exists MCSOS_EINVAL, st; auto|].
  destruct (g (world st)) as [|k] eqn:Ek; [exists MCSOS_EBUSY, st; auto|].
  destruct (ok_table I D _ (wf_ops _ _ _ Hst) g (world st) k Eg (wf_world _ _ _ Hst) Ek) as [t Ht]. rewrite Ht. cbn [mbind option_bind].
  destruct (read_any (files st) t (i32 fd) n (wf_tables _ _ _ Hst k t Ht)) as (rc & t' & bs & Hwf' & Hrc & Hbs & Hr); [lia|].
  rewrite Hr by lia. cbn [mbind option_bind].
  destruct (on_table_spec st k t rc t' (files st) (fun _ => Some (rc, Ref t', files st)) Hst Ht eq_refl Hwf' (heap_le_refl _)) as (st1 & E1 & Hc1 & Hu1 & _).
  rewrite E1. cbn [mbind option_bind]. destruct Hc1 as (Hst1 & Ho1 & Hr1). rewrite Hu1, Hr1.
  assert (Hset : forall m, call_ok st (set_umem st1 m)) by (intros m; destruct (set_umem_ok st1 m Hst1) as (? & ? & ?); split; [done|by split]).
  destruct (Z.ltb_spec rc 0); [exists rc, st1; split; [done|]; split; [by split|left; by rewrite Hu1]|].
  unfold mcsos_copy_to_user. destruct (Z.eqb_spec rc 0) as [->|Hrc0].
  { cbn [mbind option_bind]. change (negb (MCSOS_OK =? MCSOS_OK)) with false. cbn iota. eexists _, _. split; [reflexivity|]. split; [apply Hset|by left]. }
  destruct (p =? 0); [eexists _, _; split; [reflexivity|]; split; [apply Hset|by left]|].
  destruct (mcsos_user_check_range (g_user_region st) p rc) eqn:Ec; cbn [negb]; [|eexists _, _; split; [reflexivity|]; split; [apply Hset|by left]].
  destruct (copy_to_loop (umem st) p rc (bs ++ drop (length bs) kbuf0)) as (m' & -> & Hm'); [rewrite length_app, length_drop; lia|lia|].
  cbn [mbind option_bind]. change (negb (MCSOS_OK =? MCSOS_OK)) with false. cbn iota. eexists _, _. split_and!; [reflexivity|apply Hset|].
  right. exists bs. split_and!; [lia|done|apply check_range_spec; try done; unfold is_u64 in *; lia|]. intros x. cbn [set_umem umem]. rewrite Hm'.
  by rewrite take_app_length'.
Qed.

Lemma sys_simple_spec nr h a0 a1 a2 a3 a4 a5 st :
  sys_wf I D st -> is_u64 a0 -> is_u64 a1 ->
  arr_get (g_table kpath0 kbuf0) nr = Some (Ref h) -> nr <> 5 -> nr <> 6 -> nr <> 7 -> call_overflows st nr a0 a1 a2 = false ->
  quiet_call (h a0 a1 a2 a3 a4 a5 st) st.
Proof.
  intros Hst H0 H1 Hh N5 N6 N7 Hseek. pose proof (wf_ops _ _ _ Hst) as Ho. pose proof (wf_world _ _ _ Hst) as Hw.
  assert (Hset : forall ret w, I w -> (forall k, tab_get w k = tab_get (world st) k) -> quiet_call (Some (ret, set_world st w)) st).
  { intros ret w HI Ht. exists ret, (set_world st w). split; [done|]. split; [by apply set_world_ok|done]. }
  pose proof (arr_get_bound _ _ _ Hh) as Hb. change (length (g_table kpath0 kbuf0)) with 10%nat in Hb.
  assert (nr = 0 \/ nr = 1 \/ nr = 2 \/ nr = 3 \/ nr = 4 \/ nr = 8 \/ nr = 9) as Hnr by lia.
  destruct Hnr as [->|[->|[->|[->|[->|[->| ->] ] ] ] ] ]; injection Hh as <-.
  - by apply quiet_same.
  - unfold sys_get_ticks. destruct (get_ticks (g_ops st)) as [|f] eqn:Ef; [by apply quiet_same|].
    destruct (ok_ticks I D _ Ho f _ Ef Hw) as (t & w & -> & Hi & Ht). by apply Hset.
  - unfold sys_write_serial. destruct (a0 =? 0); [by apply quiet_same|]. destruct (Z.ltb_spec 4096 a1); [by apply quiet_same|].
    destruct (negb _); [by apply quiet_same|]. destruct (ok_serial I D _ Ho) as (f & -> & Hf). unfold is_u64 in H1.
    destruct (Hf (umem st) a0 a1 (world st) Hw ltac:(lia)) as (rc & w & -> & Hi & Ht & _). by apply Hset.
  - unfold sys_yield. destruct (yield_current (g_ops st)) as [|f] eqn:Ef; [by apply quiet_same|].
    destruct (ok_yield I D _ Ho f _ Ef Hw) as (w & -> & Hi & Ht). by apply Hset.
  - unfold sys_exit_thread. destruct (exit_current (g_ops st)) as [|f] eqn:Ef; [by apply quiet_same|].
    destruct (ok_exit I D _ Ho f (i32 a0) _ Ef Hw) as (w & -> & Hi & Ht). by apply Hset.
  - apply table_call_spec; [done|]. intros t Ht Hwf. pose proof (lseek_cases (files st) t (i32 a0) (i64 a1) (i32 a2) Hwf (i64_range _)) as Hc.
    unfold call_overflows in Hseek. rewrite Ht in Hseek. change (8 =? 8) with true in Hseek. cbn [andb] in Hseek. by rewrite Hseek in Hc.
  - apply table_call_spec; [done|]. intros t Ht Hwf. by apply close_wf.
Qed.

Lemma dispatch_spec nr a0 a1 a2 a3 a4 a5 st :
  sys_wf I D st -> is_u64 nr -> is_u64 a0 -> is_u64 a1 -> is_u64 a2 -> call_overflows st nr a0 a1 a2 = false ->
  exists ret st', mcsos_syscall_dispatch kpath0 kbuf0 nr a0 a1 a2 a3 a4 a5 st = Some (ret, st') /\ call_ok st st' /\
    (10 <= nr -> ret = MCSOS_ENOSYS /\ st' = st) /\
    forall x, umem st' x <> umem st x -> nr = 6 /\ user_range (g_user_region st) a1 ret /\ a1 <= x < a1 + ret.
Proof.
  intros Hst Hnr H0 H1 H2 Hseek. unfold mcsos_syscall_dispatch, MCSOS_SYS_MAX. unfold is_u64 in Hnr.
  destruct (Z.leb_spec 10 nr) as [Hge|Hlt].
  { exists MCSOS_ENOSYS, st. split; [done|]. split; [by apply call_ok_refl|]. done. }
  destruct (arr_get_lt (g_table kpath0 kbuf0) nr) as [fn Hfn]; [cbn; lia|]. rewrite Hfn. cbn [mbind option_bind].
  assert (Hq : forall r, quiet_call r st -> exists ret st', r = Some (ret, st') /\ call_ok st st' /\ (10 <= nr -> ret = MCSOS_ENOSYS /\ st' = st) /\
    forall x, umem st' x <> umem st x -> nr = 6 /\ user_range (g_user_region st) a1 ret /\ a1 <= x < a1 + ret).
  { intros r (ret & st' & E & Hc & Hu). exists ret, st'. split; [done|]. split; [done|]. split; [lia|]. by rewrite Hu. }
  destruct fn as [|h].
  { assert (Hall : Forall (fun p => is_null p = false) (g_table kpath0 kbuf0)) by (forall_cons; reflexivity).
    apply arr_get_Some in Hfn as [_ Hfn]. eapply Forall_lookup_1 in Hall; [|exact Hfn]. done. }
  destruct (Z.eq_dec nr 5) as [->|N5]; [injection Hfn as <-; by apply Hq, sys_open_spec|].
  destruct (Z.eq_dec nr 7) as [->|N7]; [injection Hfn as <-; by apply Hq, sys_write_spec|].
  destruct (Z.eq_dec nr 6) as [->|N6]; [|by apply Hq; eapply sys_simple_spec].
  injection Hfn as <-. destruct (sys_read_spec a0 a1 a2 a3 a4 a5 st Hst H1 H2) as (ret & st' & E & Hc & Hu).
  exists ret, st'. split; [done|]. split; [done|]. split; [lia|]. intros x Hx.
  destruct Hu as [Hu|(bs & Hpos & Hl & Hr & Hu)]; [by rewrite Hu in Hx|]. split; [done|]. split; [done|].
  rewrite Hu in Hx. unfold write_bytes in Hx. destruct ((a1 <=? x) && (x <? a1 + Z.of_nat (length bs))) eqn:E'; bool_to_prop; [lia|done].
Qed.

(** The overflowing seek is undefined. *)
Lemma dispatch_overflow nr a0 a1 a2 a3 a4 a5 st :
  sys_wf I D st -> call_overflows st nr a0 a1 a2 = true -> mcsos_syscall_dispatch kpath0 kbuf0 nr a0 a1 a2 a3 a4 a5 st = None.
Proof.
  intros Hst Ho. unfold call_overflows in Ho. apply andb_true_iff in Ho as [->%Z.eqb_eq Ho].
  change (mcsos_syscall_dispatch kpath0 kbuf0 8 a0 a1 a2 a3 a4 a5 st) with (sys_lseek a0 a1 a2 a3 a4 a5 st). unfold sys_lseek, table_call, caller_table in *.
  destruct (get_current_fd_table (g_ops st)) as [|g]; [done|]. destruct (g (world st)) as [|k]; [done|]. unfold on_table. destruct (tab_get (world st) k) as [t|] eqn:Ht; [|done].
  pose proof (lseek_cases (files st) t (i32 a0) (i64 a1) (i32 a2) (wf_tables _ _ _ Hst k t Ht) (i64_range _)) as Hc. rewrite Ho in Hc. cbn [mbind option_bind]. by rewrite Hc.
Qed.

(** A call that returns is no overflowing seek. *)
Lemma dispatch_returned nr a0 a1 a2 a3 a4 a5 st r :
  sys_wf I D st -> mcsos_syscall_dispatch kpath0 kbuf0 nr a0 a1 a2 a3 a4 a5 st = Some r -> call_overflows st nr a0 a1 a2 = false.
Proof. intros Hst E. destruct (call_overflows st nr a0 a1 a2) eqn:Eo; [|done]. by rewrite dispatch_overflow in E. Qed.

(** * Lemmas: what the calls read *)

(** [h] behaves the same when user memory is [m2], which agrees with the given one in the region, and so do the memories it leaves. *)
Definition region_only (st : sys_state W) (m2 : mem) (h : sys_state W -> option (Z * sys_state W)) : Prop :=
  forall ret st', h st = Some (ret, st') -> exists m2', h (set_umem st m2) = Some (ret, set_umem st' m2') /\
    forall x, ur_base (g_user_region st) <= x < ur_limit (g_user_region st) -> m2' x = umem st' x.

(** A call that passes memory through. *)
Lemma region_only_pass st m2 h :
  (forall x, ur_base (g_user_region st) <= x < ur_limit (g_user_region st) -> m2 x = umem st x) ->
  h (set_umem st m2) = (fun '(ret, st') => (ret, set_umem st' m2)) <$> h st ->
  (forall ret st', h st = Some (ret, st') -> umem st' = umem st) -> region_only st m2 h.
Proof. intros Hm Hh Hu ret st' E. exists m2. rewrite Hh, E. split; [done|]. rewrite (Hu _ _ E). exact Hm. Qed.

Lemma on_table_pass st m2 k f :
  on_table (set_umem st m2) k f = (fun '(ret, st') => (ret, set_umem st' m2)) <$> on_table st k f.
Proof.
  unfold on_table. cbn [set_umem world g_ops g_user_region umem]. destruct (tab_get (world st) k); [|done]. cbn [mbind option_bind].
  destruct (f _) as [[[rc t] fss]|]; [|done]. cbn [mbind option_bind]. destruct t; [done|]. by destruct (tab_put _ _ _).
Qed.

Lemma on_table_umem st k f ret st' : on_table st k f = Some (ret, st') -> umem st' = umem st.
Proof.
  unfold on_table. destruct (tab_get (world st) k); [|done]. cbn [mbind option_bind].
  destruct (f _) as [[[rc t] fss]|]; [|done]. cbn [mbind option_bind]. destruct t; [done|]. destruct (tab_put _ _ _); [|done]. cbn. by intros [= <- <-].
Qed.

Lemma copy_from_ext r m m2 d src len :
  (forall x, ur_base r <= x < ur_limit r -> m2 x = m x) ->
  is_u64 src -> 0 <= len <= Z.of_nat (length d) -> len < 2 ^ 64 -> is_u64 (ur_base r) -> is_u64 (ur_limit r) ->
  mcsos_copy_from_user r m2 (Ref d) src len = mcsos_copy_from_user r m (Ref d) src len.
Proof.
  intros Hm Hs Hl H64 Hb Hlim. rewrite !copy_from_spec by done. destruct (Z.eqb_spec len 0); [done|]. destruct (src =? 0); [done|].
  destruct (mcsos_user_check_range r src len) eqn:Ec; [|done]. apply check_range_spec in Ec; [|done|unfold is_u64; lia|done..].
  destruct Ec as [|(? & ? & ?)]; [done|]. do 4 f_equal. apply user_bytes_ext. intros x Hx. apply Hm. lia.
Qed.

Lemma table_call_pass st m2 f :
  table_call (set_umem st m2) f = (fun '(ret, st') => (ret, set_umem st' m2)) <$> table_call st f.
Proof.
  unfold table_call. cbn [set_umem g_ops world files]. destruct (get_current_fd_table (g_ops st)) as [|g]; [done|].
  destruct (g (world st)); [done|]. apply on_table_pass.
Qed.

Lemma table_call_umem st f ret st' : table_call st f = Some (ret, st') -> umem st' = umem st.
Proof.
  unfold table_call. destruct (get_current_fd_table (g_ops st)) as [|g]; [by intros [= <- <-]|].
  destruct (g (world st)); [by intros [= <- <-]|]. apply on_table_umem.
Qed.

Lemma sys_open_region p n flags a3 a4 a5 st m2 :
  sys_wf I D st -> is_u64 p -> is_u64 n ->
  (forall x, ur_base (g_user_region st) <= x < ur_limit (g_user_region st) -> m2 x = umem st x) ->
  region_only st m2 (sys_open kpath0 p n flags a3 a4 a5).
Proof.
  intros Hst Hp Hn Hm. pose proof (wf_base _ _ _ Hst). pose proof (wf_limit _ _ _ Hst). unfold is_u64 in Hn.
  destruct (sys_open_spec p n flags a3 a4 a5 st Hst Hp Hn) as (r & s1 & E1 & _ & Hu).
  apply region_only_pass; [done| |intros ret st' E; congruence]. clear E1 Hu. unfold sys_open. cbn [set_umem g_ops world umem files g_user_region].
  destruct (get_current_fd_table (g_ops st)) as [|g]; [done|]. destruct (get_ramfs (g_ops st)) as [|gf]; [done|].
  destruct ((n =? 0) || (SYS_MAX_PATH <=? n)) eqn:En; [done|]. bool_to_prop. unfold SYS_MAX_PATH in *.
  rewrite (copy_from_ext _ (umem st) m2) by (done || lia). destruct (mcsos_copy_from_user _ _ _ _ _) as [[rc kp]|]; [|done]. cbn [mbind option_bind].
  destruct (negb _); [done|]. destruct kp as [|kp]; [done|]. destruct (arr_set kp n 0); [|done]. cbn [mbind option_bind].
  destruct (g (world st)); [done|]. destruct (gf (world st)); [done|]. apply on_table_pass.
Qed.

Lemma sys_write_region fd p n a3 a4 a5 st m2 :
  sys_wf I D st -> is_u64 p -> is_u64 n ->
  (forall x, ur_base (g_user_region st) <= x < ur_limit (g_user_region st) -> m2 x = umem st x) ->
  region_only st m2 (sys_write kbuf0 fd p n a3 a4 a5).
Proof.
  intros Hst Hp Hn Hm. pose proof (wf_base _ _ _ Hst). pose proof (wf_limit _ _ _ Hst). unfold is_u64 in Hn.
  destruct (sys_write_spec fd p n a3 a4 a5 st Hst Hp Hn) as (r & s1 & E1 & _ & Hu).
  apply region_only_pass; [done| |intros ret st' E; congruence]. clear E1 Hu. unfold sys_write. cbn [set_umem g_ops world umem files g_user_region].
  destruct (get_current_fd_table (g_ops st)) as [|g]; [done|]. destruct (Z.ltb_spec 4096 n); [done|].
  rewrite (copy_from_ext _ (umem st) m2) by (done || lia). destruct (mcsos_copy_from_user _ _ _ _ _) as [[rc kp]|]; [|done]. cbn [mbind option_bind].
  destruct (negb _); [done|]. destruct (g (world st)); [done|]. apply on_table_pass.
Qed.

Lemma write_bytes_agree m m2 a bs x : m2 x = m x -> write_bytes m2 a bs x = write_bytes m a bs x.
Proof. intros Hx. unfold write_bytes. by rewrite Hx. Qed.

Lemma sys_read_region fd p n a3 a4 a5 st m2 :
  is_u64 p -> is_u64 n -> sys_wf I D st ->
  (forall x, ur_base (g_user_region st) <= x < ur_limit (g_user_region st) -> m2 x = umem st x) ->
  region_only st m2 (sys_read kbuf0 fd p n a3 a4 a5).
Proof.
  intros Hp Hn Hst Hm ret st' E. unfold sys_read in *. cbn [set_umem g_ops world files] in *.
  destruct (get_current_fd_table (g_ops st)) as [|g] eqn:Eg; [injection E as <- <-; by exists m2|].
  destruct (Z.ltb_spec 4096 n); [injection E as <- <-; by exists m2|].
  destruct (g (world st)) as [|k] eqn:Ek; [injection E as <- <-; by exists m2|].
  destruct (ok_table I D _ (wf_ops _ _ _ Hst) g (world st) k Eg (wf_world _ _ _ Hst) Ek) as [t Ht]. rewrite Ht in *. cbn [mbind option_bind] in *.
  unfold is_u64 in Hn.
  destruct (read_any (files st) t (i32 fd) n (wf_tables _ _ _ Hst k t Ht)) as (rc & t' & bs & Hwf' & Hrc & Hbs & Hr); [lia|].
  rewrite Hr in * by lia. cbn [mbind option_bind] in *. rewrite on_table_pass.
  destruct (on_table_spec st k t rc t' (files st) (fun _ => Some (rc, Ref t', files st)) Hst Ht eq_refl Hwf' (heap_le_refl _)) as (st1 & E1 & (_ & _ & Hr1) & Hu1 & _).
  rewrite E1 in *. cbn [fmap option_fmap option_map mbind option_bind] in *. cbn [set_umem g_user_region umem].
  destruct (Z.ltb_spec rc 0); [injection E as <- <-; exists m2; by rewrite Hu1|]. rewrite Hr1 in *. rewrite Hu1 in E.
  unfold mcsos_copy_to_user in *. destruct (Z.eqb_spec rc 0) as [->|].
  { cbn [mbind option_bind] in *. change (negb (MCSOS_OK =? MCSOS_OK)) with false in *. injection E as <- <-. by exists m2. }
  destruct (p =? 0); [injection E as <- <-; by exists m2|]. destruct (negb (mcsos_user_check_range _ _ _)); [injection E as <- <-; by exists m2|].
  destruct (copy_to_loop (umem st) p rc (bs ++ drop (length bs) kbuf0)) as (m' & Em & Hm'); [rewrite length_app, length_drop; lia|lia|].
  destruct (copy_to_loop m2 p rc (bs ++ drop (length bs) kbuf0)) as (m3 & Em3 & Hm3); [rewrite length_app, length_drop; lia|lia|].
  rewrite Em in E. rewrite Em3. cbn [mbind option_bind] in *. change (negb (MCSOS_OK =? MCSOS_OK)) with false in *. injection E as <- <-.
  exists m3. split; [done|]. intros x Hx. cbn [set_umem umem]. rewrite Hm3, Hm'. apply write_bytes_agree. by apply Hm.
Qed.

Lemma sys_simple_region nr h a0 a1 a2 a3 a4 a5 st m2 :
  sys_wf I D st -> is_u64 a0 -> is_u64 a1 ->
  (forall x, ur_base (g_user_region st) <= x < ur_limit (g_user_region st) -> m2 x = umem st x) ->
  arr_get (g_table kpath0 kbuf0) nr = Some (Ref h) -> nr <> 5 -> nr <> 6 -> nr <> 7 -> region_only st m2 (h a0 a1 a2 a3 a4 a5).
Proof.
  intros Hst H0 H1 Hm Hh N5 N6 N7. pose proof (wf_ops _ _ _ Hst) as Ho. pose proof (wf_world _ _ _ Hst) as Hw.
  pose proof (arr_get_bound _ _ _ Hh) as Hb. change (length (g_table kpath0 kbuf0)) with 10%nat in Hb.
  assert (nr = 0 \/ nr = 1 \/ nr = 2 \/ nr = 3 \/ nr = 4 \/ nr = 8 \/ nr = 9) as Hnr by lia.
  destruct Hnr as [->|[->|[->|[->|[->|[->| ->] ] ] ] ] ]; injection Hh as <-; (apply region_only_pass; [done| |]).
  - done.
  - by intros ret st' [= <- <-].
  - unfold sys_get_ticks. cbn [set_umem g_ops world]. destruct (get_ticks (g_ops st)) as [|f]; [done|]. by destruct (f (world st)) as [[? ?]|].
  - unfold sys_get_ticks. intros ret st'. destruct (get_ticks (g_ops st)) as [|f]; [by intros [= <- <-]|].
    destruct (f (world st)) as [[? ?]|]; [|done]. by intros [= <- <-].
  - unfold sys_write_serial. cbn [set_umem g_ops world umem g_user_region]. destruct (a0 =? 0); [done|]. destruct (Z.ltb_spec 4096 a1); [done|].
    destruct (mcsos_user_check_range (g_user_region st) a0 a1) eqn:Ec; cbn [negb]; [|done]. destruct (ok_serial I D _ Ho) as (f & -> & Hf).
    apply check_range_spec in Ec; [|done|done|apply (wf_base _ _ _ Hst)|apply (wf_limit _ _ _ Hst)].
    destruct (Hf (umem st) a0 a1 (world st) Hw ltac:(unfold is_u64 in *; lia)) as (rc & w & -> & _ & _ & Hext). rewrite Hext; [done|].
    intros x Hx. apply Hm. destruct Ec as [|(? & ? & ?)]; lia.
  - unfold sys_write_serial. intros ret st'. destruct (a0 =? 0); [by intros [= <- <-]|]. destruct (4096 <? a1); [by intros [= <- <-]|].
    destruct (negb _); [by intros [= <- <-]|]. destruct (write_serial (g_ops st)) as [|f]; [done|].
    destruct (f _ _ _ _) as [[? ?]|]; [|done]. by intros [= <- <-].
  - unfold sys_yield. cbn [set_umem g_ops world]. destruct (yield_current (g_ops st)) as [|f]; [done|]. by destruct (f (world st)).
  - unfold sys_yield. intros ret st'. destruct (yield_current (g_ops st)) as [|f]; [by intros [= <- <-]|].
    destruct (f (world st)); [|done]. by intros [= <- <-].
  - unfold sys_exit_thread. cbn [set_umem g_ops world]. destruct (exit_current (g_ops st)) as [|f]; [done|]. by destruct (f _ (world st)).
  - unfold sys_exit_thread. intros ret st'. destruct (exit_current (g_ops st)) as [|f]; [by intros [= <- <-]|].
    destruct (f _ (world st)); [|done]. by intros [= <- <-].
  - apply table_call_pass.
  - intros ret st'. apply table_call_umem.
  - apply table_call_pass.
  - intros ret st'. apply table_call_umem.
Qed.

Lemma dispatch_region nr a0 a1 a2 a3 a4 a5 st m2 :
  sys_wf I D st -> is_u64 nr -> is_u64 a0 -> is_u64 a1 -> is_u64 a2 ->
  (forall x, ur_base (g_user_region st) <= x < ur_limit (g_user_region st) -> m2 x = umem st x) ->
  region_only st m2 (mcsos_syscall_dispatch kpath0 kbuf0 nr a0 a1 a2 a3 a4 a5).
Proof.
  intros Hst Hnr H0 H1 H2 Hm ret st'. unfold mcsos_syscall_dispatch, MCSOS_SYS_MAX. unfold is_u64 in Hnr.
  destruct (Z.leb_spec 10 nr) as [Hge|Hlt]; [intros [= <- <-]; by exists m2|].
  destruct (arr_get_lt (g_table kpath0 kbuf0) nr) as [fn Hfn]; [cbn; lia|]. rewrite Hfn. cbn [mbind option_bind].
  destruct fn as [|h]; [intros [= <- <-]; by exists m2|].
  destruct (Z.eq_dec nr 5) as [->|N5]; [injection Hfn as <-; by apply sys_open_region|].
  destruct (Z.eq_dec nr 7) as [->|N7]; [injection Hfn as <-; by apply sys_write_region|].
  destruct (Z.eq_dec nr 6) as [->|N6]; [injection Hfn as <-; by apply sys_read_region|].
  by apply (sys_simple_region nr h a0 a1 a2 a3 a4 a5 st m2).
Qed.

(** One step of a program: it stores a byte in its region, or makes a system call. *)
Inductive sys_step : sys_state W -> sys_state W -> Prop :=
| step_store st x v :
    ur_base (g_user_region st) <= x < ur_limit (g_user_region st) -> sys_step st (set_umem st (store8 (umem st) x v))
| step_call st nr a0 a1 a2 a3 a4 a5 ret st' :
    is_u64 nr -> is_u64 a0 -> is_u64 a1 -> is_u64 a2 ->
    mcsos_syscall_dispatch kpath0 kbuf0 nr a0 a1 a2 a3 a4 a5 st = Some (ret, st') -> sys_step st st'.

Lemma step_preserves st st' : sys_step st st' -> sys_wf I D st ->
  call_ok st st' /\ forall x, ~ ur_base (g_user_region st) <= x < ur_limit (g_user_region st) -> umem st' x = umem st x.
Proof.
  intros [st1 x v Hx|st1 nr a0 a1 a2 a3 a4 a5 ret st2 Hnr H0 H1 H2 E] Hst.
  - split; [by apply set_umem_ok|]. intros y Hy. cbn [set_umem umem]. unfold store8. by rw_false (y =? x).
  - destruct (dispatch_spec nr a0 a1 a2 a3 a4 a5 st1 Hst Hnr H0 H1 H2 (dispatch_returned _ _ _ _ _ _ _ _ _ Hst E)) as (ret' & st3 & E' & Hc & _ & Hu). rewrite E in E'. injection E' as <- <-.
    split; [done|]. intros x Hx. destruct (Z.eq_dec (umem st2 x) (umem st1 x)) as [|Hne]; [done|].
    destruct (Hu x Hne) as (_ & [|(? & ? & ?)] & ?); lia.
Qed.

Lemma reach_preserves st st' : rtc sys_step st st' -> sys_wf I D st ->
  call_ok st st' /\ forall x, ~ ur_base (g_user_region st) <= x < ur_limit (g_user_region st) -> umem st' x = umem st x.
Proof.
  induction 1 as [st|st st1 st2 Hs _ IH]; intros Hst; [split; [by apply call_ok_refl|done]|].
  destruct (step_preserves st st1 Hs Hst) as ((Hst1 & Ho & Hr) & Hu). destruct (IH Hst1) as ((Hst2 & Ho2 & Hr2) & Hu2).
  split; [split; [done|split; congruence]|]. intros x Hx. rewrite Hu2 by (by rewrite Hr). by apply Hu.
Qed.

End Invariant.

(** * Lemmas: the calls on files *)

Lemma i32_small z : 0 <= z < 2 ^ 31 -> i32 z = z.
Proof. intros Hz. unfold i32. rewrite Z.mod_small; lia. Qed.

Lemma i64_small z : 0 <= z < 2 ^ 63 -> i64 z = z.
Proof. intros Hz. unfold i64. rewrite Z.mod_small; lia. Qed.

Lemma user_bytes_write m a bs : Forall is_u8 bs -> user_bytes (write_bytes m a bs) a (length bs) = bs.
Proof.
  intros Hbs. apply list_eq. intros i. unfold user_bytes. rewrite list_lookup_fmap.
  destruct (decide (i < length bs)%nat) as [Hi|Hi].
  - rewrite lookup_seq_lt by done. cbn [fmap option_fmap option_map]. unfold load8, write_bytes. cbn [Nat.add].
    rw_true (a <=? a + Z.of_nat i). rw_true (a + Z.of_nat i <? a + Z.of_nat (length bs)). cbn [andb].
    replace (Z.to_nat (a + Z.of_nat i - a)) with i by lia. destruct (lookup_lt_is_Some_2 bs i Hi) as [c Hc]. rewrite Hc. cbn [default].
    eapply Forall_lookup_1 in Hbs; [|exact Hc]. by rewrite !u8_small by (rewrite ?u8_small by done; done).
  - rewrite (lookup_ge_None_2 bs) by lia. rewrite lookup_seq_ge by lia. done.
Qed.

Lemma user_bytes_u8 m a n : Forall is_u8 (user_bytes m a n).
Proof. apply Forall_fmap, Forall_forall. intros i _. apply u8_range. Qed.

Section Files.
Context {W : Type} `{FdTables W} {Hlaws : FdTablesOk W} (I : W -> Prop) (D : nat -> Prop).
Context (kpath0 kbuf0 : list Z) (Hkpath : length kpath0 = 128%nat) (Hkbuf : length kbuf0 = 4096%nat).

(** The current table is the one at [k]. *)
Definition current_table (st : sys_state W) (k : Z) : Prop := exists g, get_current_fd_table (g_ops st) = Ref g /\ g (world st) = Ref k.

(** It is so also after the code has changed the table. *)
Definition keeps_caller (st : sys_state W) (k : Z) : Prop :=
  exists g, get_current_fd_table (g_ops st) = Ref g /\ g (world st) = Ref k /\ forall w t w', g w = Ref k -> tab_put w k t = Some w' -> g w' = Ref k.

Lemma do_write st k t fd p bs rc t' fss' n a3 a4 a5 :
  sys_wf I D st -> current_table st k -> tab_get (world st) k = Some t -> 0 <= fd < 2 ^ 31 -> is_u64 p ->
  0 < n <= 4096 -> user_range (g_user_region st) p n -> bs = user_bytes (umem st) p (Z.to_nat n) ->
  (forall wbuf, take (length bs) wbuf = bs -> mcs_vfs_write (Ref t) (files st) fd (Ref wbuf) n = Some (rc, Ref t', fss')) ->
  vfs_wf fss' t' -> heap_le (files st) fss' ->
  exists st', mcsos_syscall_dispatch kpath0 kbuf0 7 fd p n a3 a4 a5 st = Some (rc, st') /\ call_ok I D st st' /\ umem st' = umem st /\
    files st' = fss' /\ tab_get (world st') k = Some t' /\ tab_put (world st) k t' = Some (world st').
Proof.
  intros Hst (g & Eg & Ek) Ht Hfd Hp Hn Hr -> Hw Hwf Hle. pose proof (wf_base _ _ _ Hst) as Hb. pose proof (wf_limit _ _ _ Hst) as Hl.
  change (mcsos_syscall_dispatch kpath0 kbuf0 7 fd p n a3 a4 a5 st) with (sys_write kbuf0 fd p n a3 a4 a5 st). unfold sys_write. rewrite Eg.
  rw_false (4096 <? n). rewrite copy_from_spec by (done || lia). rw_false (n =? 0).
  assert (Hp0 : p <> 0) by (destruct Hr as [|(? & ? & ?)]; lia). rw_false (p =? 0).
  rewrite (proj2 (check_range_spec (g_user_region st) p n Hp ltac:(unfold is_u64; lia) Hb Hl)) by done.
  cbn [mbind option_bind]. change (negb (MCSOS_OK =? MCSOS_OK)) with false. cbn iota. rewrite Ek.
  rewrite i32_small by done. rewrite user_bytes_length in Hw.
  destruct (on_table_spec I D st k t rc t' fss' (fun t => mcs_vfs_write (Ref t) (files st) fd
    (Ref (user_bytes (umem st) p (Z.to_nat n) ++ drop (Z.to_nat n) kbuf0)) n) Hst Ht) as (st' & E & Hc & Hu & Hf & Hput & Hg); [|done..|].
  { apply Hw. by rewrite take_app_length' by by rewrite user_bytes_length. }
  exists st'. split_and!; try done; [apply Hc..|]. by rewrite Hg, Z.eqb_refl.
Qed.

Lemma do_seek st k t fd o rc t' a3 a4 a5 :
  sys_wf I D st -> current_table st k -> tab_get (world st) k = Some t -> 0 <= fd < 2 ^ 31 -> 0 <= o < 2 ^ 63 ->
  mcs_vfs_lseek (Ref t) (files st) fd o MCS_SEEK_SET = Some (rc, Ref t') -> vfs_wf (files st) t' ->
  exists st', mcsos_syscall_dispatch kpath0 kbuf0 8 fd o 0 a3 a4 a5 st = Some (rc, st') /\ call_ok I D st st' /\ umem st' = umem st /\
    files st' = files st /\ tab_get (world st') k = Some t' /\ tab_put (world st) k t' = Some (world st').
Proof.
  intros Hst (g & Eg & Ek) Ht Hfd Ho Hs Hwf.
  change (mcsos_syscall_dispatch kpath0 kbuf0 8 fd o 0 a3 a4 a5 st) with (sys_lseek fd o 0 a3 a4 a5 st). unfold sys_lseek, table_call. rewrite Eg, Ek.
  rewrite i32_small, i64_small by done. change (i32 0) with MCS_SEEK_SET.
  destruct (on_table_spec I D st k t rc t' (files st) (fun t => '(rc, t) ← mcs_vfs_lseek (Ref t) (files st) fd o MCS_SEEK_SET; Some (rc, t, files st)) Hst Ht)
    as (st' & E & Hc & Hu & Hf & Hput & Hg); [by rewrite Hs|done|apply heap_le_refl|].
  exists st'. split_and!; try done; [apply Hc..|]. by rewrite Hg, Z.eqb_refl.
Qed.

(** A read, whether the buffer of the program is good or not. *)
Lemma do_read st k t fd p n bs t' a3 a4 a5 :
  sys_wf I D st -> current_table st k -> tab_get (world st) k = Some t -> 0 <= fd < 2 ^ 31 -> is_u64 p -> is_u64 n ->
  Z.of_nat (length bs) <= n <= 4096 -> bs <> [] ->
  (forall buf, n <= Z.of_nat (length buf) ->
     mcs_vfs_read (Ref t) (files st) fd (Ref buf) n = Some (Z.of_nat (length bs), Ref t', Ref (bs ++ drop (length bs) buf))) ->
  vfs_wf (files st) t' ->
  exists ret st', mcsos_syscall_dispatch kpath0 kbuf0 6 fd p n a3 a4 a5 st = Some (ret, st') /\ call_ok I D st st' /\
    files st' = files st /\ tab_get (world st') k = Some t' /\ tab_put (world st) k t' = Some (world st') /\
    (user_range (g_user_region st) p (Z.of_nat (length bs)) ->
       ret = Z.of_nat (length bs) /\ forall x, umem st' x = write_bytes (umem st) p bs x) /\
    (~ user_range (g_user_region st) p (Z.of_nat (length bs)) ->
       ret = (if p =? 0 then MCSOS_EINVAL else MCSOS_EFAULT) /\ umem st' = umem st).
Proof.
  intros Hst (g & Eg & Ek) Ht Hfd Hp Hn Hlen Hne Hr Hwf. pose proof (wf_base _ _ _ Hst) as Hb. pose proof (wf_limit _ _ _ Hst) as Hl.
  change (mcsos_syscall_dispatch kpath0 kbuf0 6 fd p n a3 a4 a5 st) with (sys_read kbuf0 fd p n a3 a4 a5 st). unfold sys_read. rewrite Eg.
  rw_false (4096 <? n). rewrite Ek, Ht. cbn [mbind option_bind]. rewrite i32_small, Hr by (done || lia). cbn [mbind option_bind].
  assert (Hpos : 0 < Z.of_nat (length bs)) by (destruct bs; [done|cbn; lia]). set (c := Z.of_nat (length bs)) in *.
  destruct (on_table_spec I D st k t c t' (files st) (fun _ => Some (c, Ref t', files st)) Hst Ht eq_refl Hwf (heap_le_refl _))
    as (st1 & E1 & (Hst1 & Ho1 & Hr1) & Hu1 & Hf1 & Hput1 & Hg1).
  rewrite E1. cbn [mbind option_bind]. rewrite Hu1, Hr1. rw_false (c <? 0).
  assert (Hset : forall m, call_ok I D st (set_umem st1 m)) by (intros m; destruct (set_umem_ok I D st1 m Hst1) as (? & ? & ?); split; [done|by split]).
  specialize (Hg1 k). rewrite Z.eqb_refl in Hg1.
  pose proof (check_range_spec (g_user_region st) p c Hp ltac:(unfold is_u64; lia) Hb Hl) as Hc.
  unfold mcsos_copy_to_user. rw_false (c =? 0). destruct (Z.eqb_spec p 0) as [Hp0|Hp0].
  { eexists _, _. split; [reflexivity|]. split; [apply Hset|]. split_and!; try done. intros [|(? & ? & ?)]; lia. }
  destruct (mcsos_user_check_range (g_user_region st) p c) eqn:Ec; cbn [negb].
  - destruct (copy_to_loop (umem st) p c (bs ++ drop (length bs) kbuf0)) as (m' & -> & Hm'); [rewrite length_app; lia|lia|].
    cbn [mbind option_bind]. change (negb (MCSOS_OK =? MCSOS_OK)) with false. cbn iota.
    eexists _, _. split; [reflexivity|]. split; [apply Hset|]. split_and!; try done.
    + intros _. split; [done|]. intros x. cbn [set_umem umem]. rewrite Hm'. unfold c. by rewrite Nat2Z.id, take_app_length.
    + intros Hnr. exfalso. by apply Hnr, Hc.
  - cbn [mbind option_bind]. eexists _, _. split; [reflexivity|]. split; [apply Hset|]. split_and!; try done. by intros ?%Hc.
Qed.

Lemma do_open st k fk t p n flags rc t' fss' a3 a4 a5 :
  sys_wf I D st -> current_table st k -> (exists g, get_ramfs (g_ops st) = Ref g /\ g (world st) = Ref fk) -> tab_get (world st) k = Some t ->
  is_u64 p -> 0 < n < SYS_MAX_PATH -> user_range (g_user_region st) p n ->
  (forall rest, mcs_vfs_open (Ref t) (files st) (Ref fk) (Ref (user_bytes (umem st) p (Z.to_nat n) ++ 0 :: rest)) (u32 flags) = Some (rc, Ref t', fss')) ->
  vfs_wf fss' t' -> heap_le (files st) fss' ->
  exists st', mcsos_syscall_dispatch kpath0 kbuf0 5 p n flags a3 a4 a5 st = Some (rc, st') /\ call_ok I D st st' /\ umem st' = umem st /\
    files st' = fss' /\ tab_get (world st') k = Some t' /\ tab_put (world st) k t' = Some (world st').
Proof.
  intros Hst (g & Eg & Ek) (gf & Ef & Efk) Ht Hp Hn Hr Hopen Hwf Hle. unfold SYS_MAX_PATH in Hn. pose proof (wf_base _ _ _ Hst) as Hb. pose proof (wf_limit _ _ _ Hst) as Hl.
  change (mcsos_syscall_dispatch kpath0 kbuf0 5 p n flags a3 a4 a5 st) with (sys_open kpath0 p n flags a3 a4 a5 st). unfold sys_open, SYS_MAX_PATH. rewrite Eg, Ef.
  rw_false (n =? 0). rw_false (128 <=? n). cbn [orb]. rewrite copy_from_spec by (done || lia). rw_false (n =? 0).
  assert (Hp0 : p <> 0) by (destruct Hr as [|(? & ? & ?)]; lia). rw_false (p =? 0).
  rewrite (proj2 (check_range_spec (g_user_region st) p n Hp ltac:(unfold is_u64; lia) Hb Hl)) by done.
  cbn [mbind option_bind]. change (negb (MCSOS_OK =? MCSOS_OK)) with false. cbn iota. rewrite kpath_spec by lia. cbn [mbind option_bind]. rewrite Ek, Efk.
  destruct (on_table_spec I D st k t rc t' fss' (fun t => mcs_vfs_open (Ref t) (files st) (Ref fk)
    (Ref (user_bytes (umem st) p (Z.to_nat n) ++ 0 :: drop (S (Z.to_nat n)) kpath0)) (u32 flags)) Hst Ht (Hopen _) Hwf Hle) as (st' & E & Hc & Hu & Hf & Hput & Hg).
  exists st'. split_and!; try done; [apply Hc..|]. by rewrite Hg, Z.eqb_refl.
Qed.

Lemma do_close st k t fd rc t' a1 a2 a3 a4 a5 :
  sys_wf I D st -> current_table st k -> tab_get (world st) k = Some t -> 0 <= fd < 2 ^ 31 ->
  mcs_vfs_close (Ref t) fd = Some (rc, Ref t') -> vfs_wf (files st) t' ->
  exists st', mcsos_syscall_dispatch kpath0 kbuf0 9 fd a1 a2 a3 a4 a5 st = Some (rc, st') /\ call_ok I D st st' /\ umem st' = umem st /\
    files st' = files st /\ tab_get (world st') k = Some t' /\ tab_put (world st) k t' = Some (world st').
Proof.
  intros Hst (g & Eg & Ek) Ht Hfd Hs Hwf.
  change (mcsos_syscall_dispatch kpath0 kbuf0 9 fd a1 a2 a3 a4 a5 st) with (sys_close fd a1 a2 a3 a4 a5 st). unfold sys_close, table_call. rewrite Eg, Ek.
  rewrite i32_small by done.
  destruct (on_table_spec I D st k t rc t' (files st) (fun t => '(rc, t) ← mcs_vfs_close (Ref t) fd; Some (rc, t, files st)) Hst Ht)
    as (st' & E & Hc & Hu & Hf & Hput & Hg); [by rewrite Hs|done|apply heap_le_refl|].
  exists st'. split_and!; try done; [apply Hc..|]. by rewrite Hg, Z.eqb_refl.
Qed.

End Files.

(** * A kernel *)

(** Descriptor tables by address, and nothing else. *)
#[export] Instance map_tables : FdTables (gmap Z mcs_fd_table) := {| tab_get w k := w !! k; tab_put w k t := Some (<[k := t]> w) |}.

#[export] Instance map_tables_ok : FdTablesOk (gmap Z mcs_fd_table).
Proof.
  intros w k t t' Hk. eexists. split; [reflexivity|]. intros k'. cbn. destruct (Z.eqb_spec k' k) as [->|].
  - by rewrite lookup_insert_eq.
  - by rewrite lookup_insert_ne.
Qed.

Definition demo_ops : mcsos_syscall_ops (gmap Z mcs_fd_table) :=
  mk_ops (Ref (fun w => Some (42, w))) (Ref (fun w => Some w)) (Ref (fun _ w => Some w)) (Ref default_write_serial)
    (Ref (fun _ => Ref 0x100)) (Ref (fun _ => Ref 0%nat)).

(** The memory of a program that has the string "/a" and two bytes to write. *)
Definition demo_umem : mem := fun x => if x =? 0x400000 then 47 else if x =? 0x400001 then 97 else if x =? 0x400010 then 7 else if x =? 0x400011 then 8 else 0.

Definition demo_sys_of (v : vfs_state) : sys_state (gmap Z mcs_fd_table) :=
  mk_sys demo_ops (mk_user_region 0x400000 0x800000000000) {[ 0x100 := v.2 ]} demo_umem v.1.

(** "/a" is open on descriptor 0, empty. *)
Definition demo_sys : sys_state (gmap Z mcs_fd_table) := demo_sys_of demo_open.

(** It has two bytes, and the offset is 0. *)
Definition demo_rewound : vfs_state :=
  exec_result (vfs_exec (exec_result (vfs_exec demo_open (Write 0 [7; 8]))) (Lseek 0 0 MCS_SEEK_SET)).

Definition demo_inv (w : gmap Z mcs_fd_table) : Prop := is_Some (w !! 0x100).
Definition demo_dom (k : nat) : Prop := k = 0%nat.

Lemma demo_ops_ok : ops_ok demo_inv demo_dom demo_ops.
Proof.
  split; cbn.
  - intros f w [= <-] Hw. eauto.
  - intros f w [= <-] Hw. eauto.
  - intros f c w [= <-] Hw. eauto.
  - eexists. split; [reflexivity|]. intros m p len w Hw _. eexists _, _. split; [reflexivity|]. done.
  - by intros f w k [= <-] Hw [= <-].
  - by intros f w k [= <-] Hw [= <-].
  - intros w k t w' Hw _ [= <-]. unfold demo_inv. destruct (Z.eq_dec k 0x100) as [->|]; [rewrite lookup_insert_eq; eauto|by rewrite lookup_insert_ne].
Qed.

Lemma demo_sys_of_wf v : vfs_wf v.1 v.2 -> is_Some (v.1 !! 0%nat) -> sys_wf demo_inv demo_dom (demo_sys_of v).
Proof.
  intros Hwf Hk. split; cbn.
  - apply demo_ops_ok.
  - unfold demo_inv. rewrite lookup_singleton_eq. eauto.
  - apply Hwf.
  - intros k t Ht. apply lookup_singleton_Some in Ht as [_ <-]. exact Hwf.
  - by intros k ->.
  - unfold is_u64. lia.
  - unfold is_u64. lia.
Qed.

Lemma demo_sys_wf : sys_wf demo_inv demo_dom demo_sys.
Proof. apply demo_sys_of_wf; [apply demo_open_wf|]. apply (bool_decide_unpack _). vm_compute. exact I. Qed.

Lemma demo_rewound_wf : vfs_wf demo_rewound.1 demo_rewound.2.
Proof.
  destruct (vfs_exec_wf demo_open (Write 0 [7; 8]) demo_open_wf) as (rc & st1 & E1 & Hwf1); [cbn; lia|].
  unfold demo_rewound. rewrite E1. cbn [exec_result]. destruct st1 as [fss1 t1]. cbn [fst snd] in Hwf1.
  pose proof (lseek_cases fss1 t1 0 0 MCS_SEEK_SET Hwf1 ltac:(unfold LONG_MIN, LONG_MAX; lia)) as Hc. rewrite seek_set_defined in Hc. destruct Hc as (rc2 & t2 & E2 & Hwf2).
  cbn [vfs_exec]. rewrite E2. exact Hwf2.
Qed.

(** * Properties *)

(** C31. The check of user pointers is exact: whatever the numbers, wrap-around included, [mcsos_user_check_range] accepts a non-empty range exactly when the region is
    configured and every byte of the range lies in it; the copies it guards then transfer exactly these bytes, and refuse other ranges without touching anything. *)
Theorem user_check_range_exact r m addr len d :
  is_u64 addr -> is_u64 len -> is_u64 (ur_base r) -> is_u64 (ur_limit r) -> len <= Z.of_nat (length d) ->
  (mcsos_user_check_range r addr len = true <->
     len = 0 \/ 0 < ur_base r /\ forall x, addr <= x < addr + len -> ur_base r <= x < ur_limit r) /\
  (mcsos_copy_from_user r m (Ref d) addr len =
     if bool_decide (user_range r addr len) then Some (MCSOS_OK, Ref (user_bytes m addr (Z.to_nat len) ++ drop (Z.to_nat len) d))
     else Some (if addr =? 0 then MCSOS_EINVAL else MCSOS_EFAULT, Ref d)) /\
  exists m', mcsos_copy_to_user r m addr (Ref d) len =
      Some (if bool_decide (user_range r addr len) then MCSOS_OK else if addr =? 0 then MCSOS_EINVAL else MCSOS_EFAULT, m') /\
    forall x, m' x = if bool_decide (user_range r addr len) then write_bytes m addr (take (Z.to_nat len) d) x else m x.
Proof.
  intros Ha Hl Hb Hm Hd. pose proof (check_range_spec r addr len Ha Hl Hb Hm) as Hc. unfold is_u64 in Hl. split.
  { rewrite Hc. unfold user_range. split; (intros [|[? H]]; [by left|]); [right; split; [done|]; lia|].
    destruct (Z.eq_dec len 0) as [->|]; [by left|]. right. pose proof (H addr ltac:(lia)). pose proof (H (addr + len - 1) ltac:(lia)). lia. }
  assert (Hz : addr = 0 -> mcsos_user_check_range r addr len = true -> len = 0).
  { intros -> [?|(? & ? & ?)]%Hc; [done|lia]. }
  split.
  - rewrite copy_from_spec by (done || lia). destruct (Z.eqb_spec len 0) as [->|Hn].
    + rewrite bool_decide_true by by left. done.
    + destruct (Z.eqb_spec addr 0) as [Ez|Hnz].
      * rewrite bool_decide_false; [done|]. intros Hr. apply Hc in Hr. by apply Hn, Hz.
      * destruct (mcsos_user_check_range r addr len) eqn:E; [by rewrite bool_decide_true by by apply Hc|].
        rewrite bool_decide_false; [done|]. by intros Hr%Hc.
  - unfold mcsos_copy_to_user. destruct (Z.eqb_spec len 0) as [->|Hn].
    + rewrite bool_decide_true by by left. exists m. split; [done|]. intros x. unfold write_bytes. cbn. rewrite Z.add_0_r. case_bool; [lia|done].
    + destruct (Z.eqb_spec addr 0) as [Ez|Hnz].
      * exists m. rewrite bool_decide_false; [done|]. intros Hr. apply Hc in Hr. by apply Hn, Hz.
      * destruct (mcsos_user_check_range r addr len) eqn:E; cbn [negb].
        -- destruct (copy_to_loop m addr len d) as (m' & -> & Hm'); [lia|lia|]. exists m'. by rewrite bool_decide_true by by apply Hc.
        -- exists m. rewrite bool_decide_false; [done|]. by intros Hr%Hc.
Qed.

(** The last bytes of the address space. *)
Lemma user_check_range_exact_witness :
  mcsos_user_check_range (mk_user_region 0x400000 0xffffffffffffffff) 0xfffffffffffffff0 15 = true <->
    15 = 0 \/ 0 < 0x400000 /\ forall x, 0xfffffffffffffff0 <= x < 0xfffffffffffffff0 + 15 -> 0x400000 <= x < 0xffffffffffffffff.
Proof.
  apply (user_check_range_exact (mk_user_region 0x400000 0xffffffffffffffff) (fun _ => 0) 0xfffffffffffffff0 15 (replicate 16 0));
    unfold is_u64; cbn; lia.
Defined.

(** C9. System calls are safe and confined. From a well-formed state, after any sequence of stores of the program in its region and system calls that return: the descriptor tables
    and file systems are well formed, no byte outside the user region has changed, and the next call, whatever its number and arguments, returns a value, makes no access outside an array, and keeps all
    this, with one exception, which is exact: [sys_lseek] of the caller's open file by an offset whose sum exceeds a signed long is undefined. Numbers that name no call return
    [MCSOS_ENOSYS] and change nothing, and only [sys_read] writes user memory, at most the bytes it reports and only where the program may. The functions behind the pointers are those
    of any kernel that meets [ops_ok], which asks that they return. *)
Theorem syscall_isolation {W : Type} `{FdTables W} {Hlaws : FdTablesOk W} (I : W -> Prop) (D : nat -> Prop) kpath0 kbuf0 st0 st :
  length kpath0 = 128%nat -> length kbuf0 = 4096%nat -> sys_wf I D st0 -> rtc (sys_step kpath0 kbuf0) st0 st ->
  sys_wf I D st /\
  (forall x, ~ ur_base (g_user_region st0) <= x < ur_limit (g_user_region st0) -> umem st x = umem st0 x) /\
  forall nr a0 a1 a2 a3 a4 a5, is_u64 nr -> is_u64 a0 -> is_u64 a1 -> is_u64 a2 ->
    if call_overflows st nr a0 a1 a2 then mcsos_syscall_dispatch kpath0 kbuf0 nr a0 a1 a2 a3 a4 a5 st = None
    else exists ret st', mcsos_syscall_dispatch kpath0 kbuf0 nr a0 a1 a2 a3 a4 a5 st = Some (ret, st') /\ sys_wf I D st' /\
      (10 <= nr -> ret = MCSOS_ENOSYS /\ st' = st) /\
      forall x, umem st' x <> umem st x -> nr = 6 /\ user_range (g_user_region st0) a1 ret /\ a1 <= x < a1 + ret.
Proof.
  intros Hp Hb Hst0 Hr. destruct (reach_preserves I D kpath0 kbuf0 Hp Hb st0 st Hr Hst0) as ((Hst & _ & Hreg) & Hu). split_and!; [done..|].
  intros nr a0 a1 a2 a3 a4 a5 Hnr H0 H1 H2. destruct (call_overflows st nr a0 a1 a2) eqn:Hs; [by eapply dispatch_overflow|].
  destruct (dispatch_spec I D kpath0 kbuf0 Hp Hb nr a0 a1 a2 a3 a4 a5 st Hst Hnr H0 H1 H2 Hs) as (ret & st' & E & (Hst' & _ & _) & Hn & Hx).
  rewrite Hreg in Hx. exists ret, st'. by split_and!.
Qed.

(** After a store, a write of two bytes. *)
Lemma syscall_isolation_witness :
  let st := set_umem demo_sys (store8 (umem demo_sys) 0x400010 9) in
  sys_wf demo_inv demo_dom st /\
  exists ret st', mcsos_syscall_dispatch (replicate 128 0) (replicate 4096 0) 7 0 0x400010 2 0 0 0 st = Some (ret, st') /\
    forall x, umem st' x <> umem st x -> 7 = 6 /\ user_range (g_user_region demo_sys) 0x400010 ret /\ 0x400010 <= x < 0x400010 + ret.
Proof.
  intros st. destruct (syscall_isolation demo_inv demo_dom (replicate 128 0) (replicate 4096 0) demo_sys st) as (H1 & _ & H2);
    [apply length_replicate|apply length_replicate|apply demo_sys_wf|apply rtc_once, step_store; cbn; lia|].
  split; [exact H1|]. specialize (H2 7 0 0x400010 2 0 0 0). change (call_overflows st 7 0 0x400010 2) with false in H2. cbn iota in H2.
  destruct H2 as (ret & st' & E & _ & _ & Hx); [unfold is_u64; lia..|]. exists ret, st'. split; [exact E|exact Hx].
Defined.

(** C16. System calls read user memory only in the user region: if two states differ only in bytes outside it, a call that returns in one returns the same value in
    the other, and leaves states that again differ only in such bytes. Nothing of the kernel's memory reaches the program this way. *)
Theorem syscall_reads_user_region_only {W : Type} `{FdTables W} {Hlaws : FdTablesOk W} (I : W -> Prop) (D : nat -> Prop) kpath0 kbuf0
    nr a0 a1 a2 a3 a4 a5 st m2 ret st' :
  length kpath0 = 128%nat -> length kbuf0 = 4096%nat -> sys_wf I D st ->
  is_u64 nr -> is_u64 a0 -> is_u64 a1 -> is_u64 a2 ->
  (forall x, ur_base (g_user_region st) <= x < ur_limit (g_user_region st) -> m2 x = umem st x) ->
  mcsos_syscall_dispatch kpath0 kbuf0 nr a0 a1 a2 a3 a4 a5 st = Some (ret, st') ->
  exists m2', mcsos_syscall_dispatch kpath0 kbuf0 nr a0 a1 a2 a3 a4 a5 (set_umem st m2) = Some (ret, set_umem st' m2') /\
    forall x, ur_base (g_user_region st) <= x < ur_limit (g_user_region st) -> m2' x = umem st' x.
Proof. intros Hp Hb Hst Hnr H0 H1 H2 Hm E. eapply (dispatch_region I D kpath0 kbuf0); eassumption. Qed.

(** A write of two bytes, with other memory at 0x1000. *)
Lemma syscall_reads_user_region_only_witness :
  exists st' m2', mcsos_syscall_dispatch (replicate 128 0) (replicate 4096 0) 7 0 0x400010 2 0 0 0 demo_sys = Some (2, st') /\
    mcsos_syscall_dispatch (replicate 128 0) (replicate 4096 0) 7 0 0x400010 2 0 0 0 (set_umem demo_sys (store8 demo_umem 0x1000 5)) = Some (2, set_umem st' m2').
Proof.
  destruct (mcsos_syscall_dispatch (replicate 128 0) (replicate 4096 0) 7 0 0x400010 2 0 0 0 demo_sys) as [[ret st']|] eqn:E.
  2:{ apply (f_equal (fmap fst)) in E. vm_compute in E. discriminate E. }
  assert (Hret : ret = 2) by (apply (f_equal (fmap fst)) in E; vm_compute in E; congruence).
  destruct (syscall_reads_user_region_only demo_inv demo_dom (replicate 128 0) (replicate 4096 0) 7 0 0x400010 2 0 0 0 demo_sys (store8 demo_umem 0x1000 5)
    ret st') as (m2' & E2 & _);
    [apply length_replicate|apply length_replicate|apply demo_sys_wf|unfold is_u64; lia..| |exact E|exists st', m2'; rewrite Hret in E2; split; [by rewrite Hret|exact E2]].
  intros x Hx. cbn in Hx. unfold store8. by rw_false (x =? 0x1000).
Defined.

(** C32. Files work through system calls: in any kernel whose current thread stays current when its descriptors change, on a descriptor of that thread open for reading and writing, not
    appending, whose offset is within its file, [sys_write] of a range of the program's memory
    that fits (at most 4096 bytes, in the region and within the capacity of the file) returns its length, [sys_lseek] back to the start of the write succeeds, and [sys_read] of as many bytes stores exactly the bytes written in the
    program's buffer and changes no other byte of memory. *)
Theorem syscall_file_roundtrip {W : Type} `{FdTables W} {Hlaws : FdTablesOk W} (I : W -> Prop) (D : nat -> Prop) kpath0 kbuf0 st tk t fd f k i nd c p q n :
  length kpath0 = 128%nat -> length kbuf0 = 4096%nat -> sys_wf I D st ->
  keeps_caller st tk -> tab_get (world st) tk = Some t ->
  arr_get t fd = Some f -> f_used f = 1 ->
  mcs_can_write (f_flags f) = true -> mcs_can_read (f_flags f) = true -> flag_set (f_flags f) MCS_O_APPEND = false ->
  f_node f = Ref (k, i) -> get_node (files st) (k, i) = Some nd -> heap_contents (files st) (k, i) = Some c ->
  f_offset f <= Z.of_nat (length c) -> f_offset f + n <= data_capacity nd ->
  0 < n <= 4096 -> is_u64 p -> is_u64 q -> user_range (g_user_region st) p n -> user_range (g_user_region st) q n ->
  exists st1 st2 st3,
    mcsos_syscall_dispatch kpath0 kbuf0 7 fd p n 0 0 0 st = Some (n, st1) /\
    mcsos_syscall_dispatch kpath0 kbuf0 8 fd (f_offset f) 0 0 0 0 st1 = Some (f_offset f, st2) /\
    mcsos_syscall_dispatch kpath0 kbuf0 6 fd q n 0 0 0 st2 = Some (n, st3) /\
    user_bytes (umem st3) q (Z.to_nat n) = user_bytes (umem st) p (Z.to_nat n) /\
    forall x, ~ q <= x < q + n -> umem st3 x = umem st x.
Proof.
  intros Hkp Hkb Hst (g & Eg & Ek & Hput) Ht Hf Hu Hw Hr Happ Hnode Hget Hc Hle Hcap Hn Hp Hq Rp Rq.
  pose proof (wf_tables _ _ _ Hst tk t Ht) as Hwf. assert (Hu' : (f_used f =? 0) = false) by by rewrite Hu.
  destruct (open_slot _ _ _ _ Hwf Hf Hu') as (Hfd & Ho & _). unfold MCS_MAX_OPEN_FILES, LONG_MAX in Hfd, Ho.
  set (bs := user_bytes (umem st) p (Z.to_nat n)). assert (Hbl : Z.of_nat (length bs) = n) by (unfold bs; rewrite user_bytes_length; lia).
  destruct (write_seek_read (files st) t fd f k i nd c bs) as (t1 & fss1 & t2 & t3 & W1 & L1 & W2 & W3 & R1 & R2 & R3); try done; [lia|].
  rewrite Hbl in R1, R3.
  destruct (do_write I D kpath0 kbuf0 Hkp Hkb st tk t fd p bs n t1 fss1 n 0 0 0) as (st1 & E1 & (Hst1 & Ho1 & Hr1) & U1 & F1 & T1 & P1); try done; [by exists g|lia|].
  pose proof (Hput _ _ _ Ek P1) as Ek1. rewrite <- F1 in R2, R3, W2, W3.
  destruct (do_seek I D kpath0 kbuf0 st1 tk t1 fd (f_offset f) (f_offset f) t2 0 0 0) as (st2 & E2 & (Hst2 & Ho2 & Hr2) & U2 & F2 & T2 & P2); try done;
    [exists g; by rewrite Ho1|lia|lia|].
  pose proof (Hput _ _ _ Ek1 P2) as Ek2.
  rewrite <- F2 in R3, W3.
  destruct (do_read I D kpath0 kbuf0 Hkp Hkb st2 tk t2 fd q n bs t3 0 0 0) as (ret & st3 & E3 & _ & _ & _ & _ & Hgood & _); try done.
  { exists g. by rewrite Ho2, Ho1. } { lia. } { unfold is_u64. lia. } { lia. } { destruct bs; [cbn in Hbl; lia|done]. } { by rewrite Hbl. }
  rewrite Hbl, Hr2, Hr1, U2, U1 in Hgood. destruct (Hgood Rq) as [-> Hx]. exists st1, st2, st3. split_and!; try done.
  - rewrite (user_bytes_ext (write_bytes (umem st) q bs)) by (intros x _; apply Hx). replace (Z.to_nat n) with (length bs) at 1 by lia.
    apply user_bytes_write, user_bytes_u8.
  - intros x Hx'. rewrite Hx. unfold write_bytes. rewrite Hbl. case_bool; [lia|done].
Qed.

(** A failed read loses data: when the program's buffer is not in its region, [sys_read] returns an error and stores nothing, but the bytes have been consumed, since the
    offset of the descriptor has moved past them, and the next read continues there. *)
Theorem sys_read_fault_consumes {W : Type} `{FdTables W} {Hlaws : FdTablesOk W} (I : W -> Prop) (D : nat -> Prop) kpath0 kbuf0 st tk t fd f k i c p n :
  length kpath0 = 128%nat -> length kbuf0 = 4096%nat -> sys_wf I D st ->
  current_table st tk -> tab_get (world st) tk = Some t ->
  arr_get t fd = Some f -> f_used f = 1 -> mcs_can_read (f_flags f) = true ->
  f_node f = Ref (k, i) -> heap_contents (files st) (k, i) = Some c ->
  f_offset f + n <= Z.of_nat (length c) -> 0 < n <= 4096 -> is_u64 p -> ~ user_range (g_user_region st) p n ->
  exists st' t', mcsos_syscall_dispatch kpath0 kbuf0 6 fd p n 0 0 0 st = Some (if p =? 0 then MCSOS_EINVAL else MCSOS_EFAULT, st') /\
    umem st' = umem st /\ tab_get (world st') tk = Some t' /\ arr_get t' fd = Some (set_offset f (f_offset f + n)).
Proof.
  intros Hkp Hkb Hst (g & Eg & Ek) Ht Hf Hu Hr Hnode Hc Hle Hn Hp Rp.
  pose proof (wf_tables _ _ _ Hst tk t Ht) as Hwf. assert (Hu' : (f_used f =? 0) = false) by by rewrite Hu.
  destruct (open_slot _ _ _ _ Hwf Hf Hu') as (Hfd & Ho & k' & i' & fs & nd & H1 & H2 & H3 & H4 & H5 & H6 & _).
  unfold MCS_MAX_OPEN_FILES, LONG_MAX in Hfd, Ho. rewrite Hnode in H2. injection H2 as <- <-.
  unfold heap_contents in Hc. cbn [fst snd] in Hc. rewrite H3 in Hc. cbn [mbind option_bind] in Hc.
  destruct (file_or_dir fs i nd H5) as [Hd|[Hty _]].
  { unfold contents in Hc. destruct H5 as [_ Hnd]. rewrite Hnd in Hc. cbn in Hc. case_bool_decide as Hb; [|done].
    assert (type nd = MCS_VNODE_FILE) by apply Hb. congruence. }
  pose proof (contents_length fs i nd c H4 H5 Hty Hc) as Hcl. destruct (region_bound fs i nd H4 H5) as (? & ? & ? & ?).
  set (bs := take (Z.to_nat n) (drop (Z.to_nat (f_offset f)) c)).
  assert (Hbl : Z.of_nat (length bs) = n) by (unfold bs; rewrite length_take, length_drop; lia).
  set (t' := <[Z.to_nat fd := set_offset f (f_offset f + n)]> t).
  destruct (do_read I D kpath0 kbuf0 Hkp Hkb st tk t fd p n bs t' 0 0 0) as (ret & st' & E & _ & _ & T' & _ & _ & Hbad); try done.
  { by exists g. } { lia. } { unfold is_u64. lia. } { lia. } { destruct bs; [cbn in Hbl; lia|done]. }
  { intros buf Hbuf. rewrite (read_spec _ _ fd f k i fs nd buf n c) by (done || lia). rewrite Z.max_r, Z.min_l by lia. rewrite Hbl.
    replace (length bs) with (Z.to_nat n) by lia. done. }
  { apply set_offset_wf; try done. unfold LONG_MAX. lia. }
  rewrite Hbl in Hbad. destruct (Hbad Rp) as [-> Hum]. exists st', t'. split_and!; try done.
  apply arr_get_Some. split; [lia|]. apply list_lookup_insert_eq. destruct Hwf as [Hl _]. unfold MCS_MAX_OPEN_FILES in Hl. lia.
Qed.

Lemma sys_read_fault_consumes_witness :
  exists st' t', mcsos_syscall_dispatch (replicate 128 0) (replicate 4096 0) 6 0 0x1000 2 0 0 0 (demo_sys_of demo_rewound) = Some (MCSOS_EFAULT, st') /\
    tab_get (world st') 0x100 = Some t' /\ f_offset demo_file = 0 /\ arr_get t' 0 = Some (set_offset demo_file 2).
Proof.
  destruct (sys_read_fault_consumes demo_inv demo_dom (replicate 128 0) (replicate 4096 0) (demo_sys_of demo_rewound) 0x100 demo_rewound.2 0 demo_file 0 1
    [7; 8] 0x1000 2) as (st' & t' & E1 & _ & E2 & E3).
  - apply length_replicate.
  - apply length_replicate.
  - apply demo_sys_of_wf; [apply demo_rewound_wf|]. apply (bool_decide_unpack _). vm_compute. exact I.
  - eexists. split; reflexivity.
  - apply lookup_singleton_eq.
  - vm_compute. reflexivity.
  - reflexivity.
  - reflexivity.
  - reflexivity.
  - vm_compute. reflexivity.
  - cbn. lia.
  - lia.
  - unfold is_u64. lia.
  - intros [|(? & ? & ?)]; [lia|]. cbn in *. lia.
  - exists st', t'. split; [exact E1|]. split; [exact E2|]. split; [reflexivity|exact E3].
Defined.
