(* ===== verification/Kernel.v ===== *)
(** The kernel behind the system calls: the scheduler, system-call and heap bring-up of kernel/core/kmain.c, which instantiates the interface of Syscall
    with the scheduler of Thread, the devices of Io and the descriptor table of Trap, and runs the heap of Kmem.

    [kernel_ramfs] is the file system with key 0. *)

From stdpp Require Import strings.
From S2P Require Import Prelude Mem Kmem Ramfs Fd Io Trap Syscall Thread.

(** * Data *)

(** The static variables of the kernel that system calls reach. *)
Record kworld := mk_kworld {
  k_sched : mcsos_scheduler;
  k_machine : machine;
  k_dev : kdev;
  k_idt : list x86_64_idt_entry
}.

Definition set_dev (w : kworld) (d : kdev) : kworld := mk_kworld (k_sched w) (k_machine w) d (k_idt w).

(** The table of a thread. *)
Definition put_table (fdt : mcs_fd_table) (t : mcsos_thread) : mcsos_thread :=
  mk_thread (magic t) (t_id t) (t_name t) (state t) (context t) (entry t) (arg t) (stack_base t) (stack_size t) (next t)
    (switches t) (t_ticks t) (exit_code t) fdt.

#[export] Instance kworld_tables : FdTables kworld := {|
  tab_get w a := t_fd_table <$> threads (k_machine w) !! a;
  tab_put w a fdt := m ← update (k_machine w) a (put_table fdt); Some (mk_kworld (k_sched w) m (k_dev w) (k_idt w))
|}.

(** * The monad *)

(** Code on the whole state, which may panic. *)
Definition kio (A : Type) : Type := sys_state kworld -> option (outcome A * sys_state kworld).

#[export] Instance kio_ret : MRet kio := fun A a st => Some (Done a, st).

#[export] Instance kio_bind : MBind kio := fun A B k e st =>
  match e st with
  | Some (Done a, st) => k a st
  | Some (Panic c, st) => Some (Panic c, st)
  | None => None
  end.

(** * Operations: the function pointers *)

Section Kernel.
Context `{Hardware}.
(** The address after the switch in [mcsos_context_switch]. *)
Context (resume : Z).

(** Device code on the state of the kernel; a panic does not come back. *)
Definition on_dev {A} (e : io A) (w : kworld) : option (A * kworld) :=
  match e (k_dev w) with
  | Some (Done a, d) => Some (a, set_dev w d)
  | _ => None
  end.

Definition k_get_current_fd_table (w : kworld) : ptr Z :=
  if (initialized (k_sched w) =? 0) || is_null (current (k_sched w)) then NULL else current (k_sched w).

Definition k_get_ramfs (w : kworld) : ptr nat := Ref 0%nat.

Definition k_write_serial (m : mem) (buf len : Z) (w : kworld) : option (Z * kworld) :=
  w ← for_loop (loop_fuel 0 len 1) 0 len 1 (fun i w => '(_, w) ← on_dev (serial_putc (load8 m (buf + i))) w; Some w) w;
  Some (i64 len, w).

Definition k_get_ticks (w : kworld) : option (Z * kworld) := on_dev timer_ticks w.

Definition k_yield_current (w : kworld) : option kworld :=
  '(_, s, m) ← mcsos_sched_yield resume (Ref (k_sched w)) (k_machine w);
  match s with
  | NULL => None
  | Ref s => Some (mk_kworld s m (k_dev w) (k_idt w))
  end.

Definition k_exit_current (code : Z) (w : kworld) : option kworld :=
  '(_, w) ← on_dev (log_writeln (lit "[M10] exit_thread stub");; cpu_hlt) w; Some w.

Definition kernel_ops : mcsos_syscall_ops kworld :=
  mk_ops (Ref k_get_ticks) (Ref k_yield_current) (Ref k_exit_current) (Ref k_write_serial) (Ref k_get_current_fd_table) (Ref k_get_ramfs).

(** * Operations: bring-up *)

Definition run_dev {A} (e : io A) : kio A := fun st =>
  '(r, d) ← e (k_dev (world st)); Some (r, set_world st (set_dev (world st) d)).

Definition run_call (f : sys_state kworld -> option (Z * sys_state kworld)) : kio Z := fun st => '(r, st) ← f st; Some (Done r, st).

(** [KERNEL_PANIC(reason, code)] at a line of kmain.c; [file] is [__FILE__], [buf0] what the stack holds. *)
Definition kernel_panic (file : ptr (list Z)) (buf0 : list Z) (line : Z) (reason : string) (code : Z) : kio unit :=
  run_dev (kernel_panic_at buf0 file line (lit reason) code).

Definition M10_USER_REGION : mcsos_user_region := mk_user_region 0x400000 0x800000000000.

(** [cs] is the code segment and [stub] the address of [x86_64_syscall_int80_stub]. *)
Definition kernel_m10_syscall_init (file : ptr (list Z)) (buf0 kpath0 kbuf0 : list Z) (cs stub : Z) : kio unit := fun st =>
  let st := mcsos_syscall_init (Ref kernel_ops) st in
  let st := mcsos_syscall_set_user_region M10_USER_REGION st in
  idt ← x86_64_idt_set_gate cs (k_idt (world st)) 0x80 stub X86_64_IDT_GATE_INTERRUPT;
  let st := set_world st (mk_kworld (k_sched (world st)) (k_machine (world st)) (k_dev (world st)) idt) in
  (run_dev (log_writeln (lit "[M10] syscall init"));;
   r ← run_call (mcsos_syscall_dispatch kpath0 kbuf0 0 0 0 0 0 0 0);
   (if negb (r =? 0x2605020A) then kernel_panic file buf0 307 "M10 syscall ping failed" 0 else mret tt);;
   run_dev (log_writeln (lit "[M10] syscall ping ok"));;
   ticks ← run_call (mcsos_syscall_dispatch kpath0 kbuf0 1 0 0 0 0 0 0);
   (if ticks <? 0 then kernel_panic file buf0 310 "M10 syscall get_ticks failed" 0 else mret tt);;
   run_dev (log_writeln (lit "[M10] syscall get_ticks ok"));;
   run_dev (log_writeln (lit "[M10] syscall smoke done"))) st.

(** The addresses of the static objects and functions that the scheduler bring-up uses. *)
Record m9_layout := mk_m9 {
  g_boot_thread : Z;
  g_thread_a : Z;
  g_thread_b : Z;
  g_stack_a : Z;
  g_stack_b : Z;
  demo_thread_a : Z;
  demo_thread_b : Z;
  m9_thread_start : Z;
  thread_trampoline : Z
}.

Definition M9_STACK_SIZE : Z := 8192.

Definition with_rip (r : Z) (t : mcsos_thread) : mcsos_thread :=
  let c := context t in set_context t (mk_context (rsp c) (rbp c) (rbx c) (r12 c) (r13 c) (r14 c) (r15 c) r).

(** The function and the argument that [m9_thread_start] calls: those of the current thread. *)
Definition m9_thread_call (w : kworld) : option (Z * Z) :=
  match current (k_sched w) with
  | NULL => None
  | Ref a => t ← threads (k_machine w) !! a; Some (entry t, arg t)
  end.

(** A call of the scheduler: the status. *)
Definition run_sched (f : mcsos_scheduler -> machine -> option (Z * ptr mcsos_scheduler * machine)) : kio Z := fun st =>
  let w := world st in
  '(rc, s, m) ← f (k_sched w) (k_machine w);
  match s with
  | NULL => None
  | Ref s => Some (Done rc, set_world st (mk_kworld s m (k_dev w) (k_idt w)))
  end.

(** [th->context.rip = m9_thread_start] *)
Definition set_rip (l : m9_layout) (th : Z) : kio unit := fun st =>
  m ← update (k_machine (world st)) th (with_rip (m9_thread_start l));
  Some (Done tt, set_world st (mk_kworld (k_sched (world st)) m (k_dev (world st)) (k_idt (world st)))).

(** [mcsos_thread_prepare(..., g_sched.next_id++)] followed by the assignment of rip when it succeeded. *)
Definition prepare_demo (l : m9_layout) (th : Z) (nm : string) (fn stack : Z) (file : ptr (list Z)) (buf0 : list Z) (line : Z) (reason : string) : kio unit := fun st =>
  let w := world st in
  let s := k_sched w in
  let id := next_id s in
  let s := mk_sched (current s) (idle s) (ready_head s) (ready_tail s) (u64 (id + 1)) (runnable_count s) (context_switches s) (s_ticks s) (initialized s) in
  '(rc, m, mm) ← mcsos_thread_prepare (thread_trampoline l) (k_machine w) (umem st) (Ref th) (lit nm) fn 0 stack M9_STACK_SIZE id;
  let st := set_umem (set_world st (mk_kworld s m (k_dev w) (k_idt w))) mm in
  ((if negb (rc =? MCSOS_SCHED_OK) then kernel_panic file buf0 line reason 0 else mret tt);;
   set_rip l th) st.

Definition check_sched (f : mcsos_scheduler -> machine -> option (Z * ptr mcsos_scheduler * machine)) (file : ptr (list Z)) (buf0 : list Z) (line : Z)
    (reason : string) : kio unit :=
  rc ← run_sched f;
  if negb (rc =? MCSOS_SCHED_OK) then kernel_panic file buf0 line reason 0 else mret tt.

Definition kernel_m9_scheduler_init (l : m9_layout) (file : ptr (list Z)) (buf0 : list Z) : kio unit :=
  check_sched (fun s m => mcsos_scheduler_init (Ref s) m (Ref (g_boot_thread l))) file buf0 244 "M9 scheduler_init failed";;
  prepare_demo l (g_thread_a l) "demo-a" (demo_thread_a l) (g_stack_a l) file buf0 249 "M9 thread_prepare A failed";;
  prepare_demo l (g_thread_b l) "demo-b" (demo_thread_b l) (g_stack_b l) file buf0 255 "M9 thread_prepare B failed";;
  check_sched (fun s m => mcsos_sched_enqueue (Ref s) m (Ref (g_thread_a l))) file buf0 259 "M9 enqueue A failed";;
  check_sched (fun s m => mcsos_sched_enqueue (Ref s) m (Ref (g_thread_b l))) file buf0 261 "M9 enqueue B failed";;
  run_dev (log_writeln (lit "[M9] scheduler initialized"));;
  _ ← run_sched (fun s m => mcsos_sched_yield resume (Ref s) m);
  mret tt.

(** * Operations: the heap *)

Definition M8_BOOT_HEAP_SIZE : Z := 64 * 1024.

(** On the static variables of kmem.c, memory and the devices; [heap] is the address of [m8_boot_heap]. *)
Definition m8_heap_bootstrap (file : ptr (list Z)) (buf0 : list Z) (heap : Z) (ks : kmem_state) (m : mem) (d : kdev) :
    option (outcome unit * kdev * kmem_state * mem) :=
  let panic line reason code d ks m :=
    '(r, d) ← kernel_panic_at buf0 file line (lit reason) code d; Some (r, d, ks, m) in
  '(rc, ks, m) ← kmem_init ks m heap M8_BOOT_HEAP_SIZE;
  if negb (rc =? 0) then panic 530 "M8 kmem_init failed" (u64 rc) d ks m
  else
    '(probe, m) ← kmem_alloc ks m 128;
    if probe =? 0 then panic 535 "M8 kmem_alloc probe failed" 0 d ks m
    else
      '(rc, m) ← kmem_free_checked ks m probe;
      if negb (rc =? 0) then panic 539 "M8 kmem_free_checked probe failed" 0 d ks m
      else
        st ← kmem_get_stats ks m (Ref (mk_stats 0 0 0 0 0 0));
        match st with
        | NULL => None
        | Ref st =>
            '(r, d) ← (log_writeln (lit "[m8] kmem: initialized");;
               log_key_value_hex64 (lit "[m8] kmem: total_bytes") (total_bytes st);;
               log_key_value_hex64 (lit "[m8] kmem: free_bytes") (free_bytes st);;
               log_key_value_hex64 (lit "[m8] kmem: largest_free") (largest_free st);;
               log_key_value_hex64 (lit "[m8] kmem: block_count") (block_count st)) d;
            Some (r, d, ks, m)
        end.

End Kernel.

(** * Specification *)

(** Between two steps of the kernel: the scheduler is not yet running, or it represents a queue, and the serial line is programmed. *)
Definition sched_ok (w : kworld) : Prop :=
  initialized (k_sched w) = 0 \/ exists x, represents_sched (k_sched w) (k_machine w) x.

Definition k_inv (w : kworld) : Prop := sched_ok w /\ open_line (k_dev w).

(** The file system that the kernel gives out. *)
Definition k_dom (k : nat) : Prop := k = 0%nat.

(** What the scheduler leaves alone in a thread. *)
Definition fixed (t : mcsos_thread) : Z * Z * Z * Z * Z * mcs_fd_table := (magic t, entry t, arg t, stack_base t, stack_size t, t_fd_table t).

Definition same_fixed (m m' : machine) : Prop := forall a, fixed <$> threads m' !! a = fixed <$> threads m !! a.

(** * Lemmas: descriptor tables *)

#[export] Instance kworld_tables_ok : FdTablesOk kworld.
Proof.
  intros w k t t' Hk. cbn in Hk |- *. apply fmap_Some in Hk as (th & Hth & _). unfold update. rewrite Hth. cbn [mbind option_bind].
  eexists. split; [reflexivity|]. intros k'. cbn [k_machine threads]. destruct (Z.eqb_spec k' k) as [->|].
  - by rewrite lookup_insert_eq.
  - by rewrite lookup_insert_ne.
Qed.

Lemma same_fixed_trans m1 m2 m3 : same_fixed m1 m2 -> same_fixed m2 m3 -> same_fixed m1 m3.
Proof. intros H1 H2 a. by rewrite H2. Qed.

Lemma same_fixed_tables m m' a : same_fixed m m' -> t_fd_table <$> threads m' !! a = t_fd_table <$> threads m !! a.
Proof. intros Hs. specialize (Hs a). destruct (threads m' !! a), (threads m !! a); try done. cbn in *. unfold fixed in Hs. congruence. Qed.

Lemma update_same m a f m' : (forall t, fixed (f t) = fixed t) -> update m a f = Some m' -> same_fixed m m'.
Proof.
  intros Hf. unfold update. destruct (threads m !! a) as [t|] eqn:E; [|done]. cbn. intros [= <-] b. cbn [threads].
  destruct (Z.eq_dec b a) as [->|]; [by rewrite lookup_insert_eq, E; cbn; rewrite Hf|by rewrite lookup_insert_ne].
Qed.

(** One step of a chain of updates in hypothesis [H]. *)
Ltac updates :=
  repeat match goal with
  | H : mbind _ (update ?m ?a ?f) = Some _ |- _ =>
      let E := fresh "E" in destruct (update m a f) eqn:E; [|discriminate H]; cbn [mbind option_bind] in H
  | H : mbind _ (?T !! ?a) = Some _ |- _ => let E := fresh "E" in destruct (T !! a) eqn:E; [|discriminate H]; cbn [mbind option_bind] in H
  | H : update _ _ _ = Some _ |- _ => apply update_same in H; [|done]
  end.

Lemma enqueue_same s m a rc s' m' : mcsos_sched_enqueue s m a = Some (rc, s', m') -> same_fixed m m'.
Proof.
  unfold mcsos_sched_enqueue. destruct s as [|s]; [by intros [= <- <- <-]|]. destruct (initialized s =? 0); [by intros [= <- <- <-]|].
  destruct (valid_thread_object m a) as [ok|]; [|done]. cbn [mbind option_bind]. destruct a as [|a]; [by intros [= <- <- <-]|].
  destruct (negb ok); [by intros [= <- <- <-]|]. intros H. updates. destruct (_ && _) in H; [by injection H as <- <- <-|]. updates.
  destruct (ready_tail s); [by injection H as <- <- <-|]. updates. injection H as <- <- <-. by eapply same_fixed_trans.
Qed.

Lemma pick_next_same s m nx s' m' : mcsos_sched_pick_next s m = Some (nx, s', m') -> same_fixed m m'.
Proof.
  unfold mcsos_sched_pick_next. destruct s as [|s]; [by intros [= <- <- <-]|]. destruct (initialized s =? 0); [by intros [= <- <- <-]|].
  destruct (ready_head s); [by intros [= <- <- <-]|]. intros H. updates. by injection H as <- <- <-.
Qed.

Lemma switch_same r m old new m' : mcsos_context_switch r m old new = Some m' -> same_fixed m m'.
Proof. unfold mcsos_context_switch. intros H. updates. injection H as <-. exact E. Qed.

Lemma yield_same r s m rc s' m' : mcsos_sched_yield r s m = Some (rc, s', m') -> same_fixed m m'.
Proof.
  unfold mcsos_sched_yield. destruct s as [|s]; [by intros [= <- <- <-]|]. destruct (initialized s =? 0); [by intros [= <- <- <-]|].
  destruct (valid_thread_object m (current s)) as [ok|]; [|done]. cbn [mbind option_bind].
  destruct (current s) as [|old]; [by intros [= <- <- <-]|]. destruct (negb ok); [by intros [= <- <- <-]|].
  destruct (mcsos_sched_pick_next (Ref s) m) as [[[nx s1] m1]|] eqn:Ep; [|done]. apply pick_next_same in Ep. cbn [mbind option_bind].
  destruct (valid_thread_object m1 nx) as [ok1|]; [|done]. cbn [mbind option_bind]. destruct nx as [|nx]; [by intros [= <- <- <-]|].
  destruct (negb ok1); [by intros [= <- <- <-]|]. destruct (nx =? old); [intros H; updates; injection H as <- <- <-; by eapply same_fixed_trans|].
  intros H. updates.
  match type of H with mbind _ ?e = _ => destruct e as [[[rc1 s2] m2]|] eqn:Eq; [|discriminate H] end. cbn [mbind option_bind] in H.
  assert (Hm2 : same_fixed m1 m2).
  { destruct (_ && _) in Eq; [|by injection Eq as <- <- <-]. updates. apply enqueue_same in Eq. by eapply same_fixed_trans. }
  assert (Hm : same_fixed m m2) by by eapply same_fixed_trans. destruct (negb (rc1 =? MCSOS_SCHED_OK)); [by injection H as <- <- <-|]. updates.
  destruct s2 as [|s2]; [done|]. updates.
  match type of H with mbind _ ?e = _ => destruct e as [mz|] eqn:Ez; [|discriminate H] end. cbn [mbind option_bind] in H. injection H as <- <- <-.
  apply switch_same in Ez. repeat (eapply same_fixed_trans; [eassumption|]). done.
Qed.

(** * Lemmas: the scheduler does not look at the tables *)

Lemma core_put fdt t : core (put_table fdt t) = put_table fdt (core t).
Proof. done. Qed.

Lemma put_table_inv st s m c i q a t fdt :
  sched_inv st s m c i q -> threads m !! a = Some t -> sched_inv st s (mk_machine (<[a := put_table fdt t]> (threads m)) (cpu m)) c i q.
Proof.
  intros [H1 H2 H3 H4 H5 H6 H7 H8 H9 H10 H11 H12] Ha. set (m' := mk_machine _ _).
  assert (Hc : forall b t', cores m' !! b = Some t' -> exists t0, cores m !! b = Some t0 /\ magic t' = magic t0 /\ state t' = state t0).
  { intros b t'. unfold cores, m'. cbn [threads]. rewrite core_insert. destruct (Z.eq_dec b a) as [->|].
    - rewrite lookup_insert_eq. intros [= <-]. exists (core t). split; [by apply cores_Some|done].
    - rewrite lookup_insert_ne by done. eauto. }
  assert (Hv : forall b, valid_thread m b -> valid_thread m' b).
  { intros b (tb & Hb & Hm). unfold valid_thread, cores, m'. cbn [threads]. rewrite core_insert. destruct (Z.eq_dec b a) as [->|].
    - rewrite lookup_insert_eq. eexists. split; [done|]. rewrite (cores_Some _ _ _ Ha) in Hb. injection Hb as <-. exact Hm.
    - rewrite lookup_insert_ne by done. eauto. }
  split; try done.
  - by eapply chain_update.
  - unfold m'. cbn [threads]. rewrite map_size_insert_Some by eauto. done.
  - eapply Forall_impl; [exact H8|exact Hv].
  - intros b tb (t0 & Ht0 & Em & Es)%Hc Hm. rewrite Es. apply (H9 b t0); [done|congruence].
  - intros b tb (t0 & Ht0 & Em & Es)%Hc Hm Hb. rewrite Es. apply (H10 b t0); [done|congruence|done].
  - intros tb (t0 & Ht0 & Em & Es)%Hc. rewrite Es. by apply H11.
Qed.

(** * Lemmas: the kernel meets the interface of the system calls *)

Section Interface.
Context `{Hardware} {Hready : UartReady} (resume : Z).

Lemma set_dev_inv w d : sched_ok w -> open_line d -> k_inv (set_dev w d).
Proof. intros Hs Ho. by split. Qed.

(** Two bodies that agree on the indices a loop visits. *)
Lemma for_loop_ext_lt {St} (body body' : Z -> St -> option St) stop :
  (forall i s, 0 <= i < stop -> body i s = body' i s) ->
  forall fuel i s, 0 <= i -> for_loop fuel i stop 1 body s = for_loop fuel i stop 1 body' s.
Proof.
  intros Hb fuel. induction fuel as [|fuel IH]; intros i s Hi; cbn; [done|].
  destruct (Z.ltb_spec i stop); [|done]. rewrite Hb by lia. destruct (body' i s); cbn; [|done]. apply IH. apply u64_range.
Qed.

Lemma write_serial_sends m buf len w : open_line (k_dev w) -> 0 <= len <= 4096 ->
  exists d, k_write_serial m buf len w = Some (i64 len, set_dev w d) /\ sends (k_dev w) d.
Proof.
  intros Ho Hl. unfold k_write_serial.
  destruct (for_loop_count (fun _ w' => exists d, w' = set_dev w d /\ sends (k_dev w) d) 0 len
    (fun i w => '(_, w) ← on_dev (serial_putc (load8 m (buf + i))) w; Some w) w) as (w' & E & d & -> & Hs); [lia|lia| | |].
  - exists (k_dev w). split; [by destruct w|]. exists []. by apply printed_nil.
  - intros i w1 _ (d & -> & Hs). destruct (serial_putc_spec (load8 m (buf + i)) d (sends_open _ _ Hs)) as (d' & Ed & Hp). unfold on_dev. cbn [set_dev k_dev]. rewrite Ed.
    eexists. split; [reflexivity|]. exists d'. split; [done|]. eapply sends_trans; [exact Hs|by eexists].
  - exists d. rewrite E. done.
Qed.

Lemma write_serial_spec m buf len w : k_inv w -> 0 <= len <= 4096 ->
  exists rc w', k_write_serial m buf len w = Some (rc, w') /\ k_inv w' /\ (forall k, tab_get w' k = tab_get w k) /\
    forall m', (forall x, buf <= x < buf + len -> m' x = m x) -> k_write_serial m' buf len w = Some (rc, w').
Proof.
  intros Hw Hl. destruct (write_serial_sends m buf len w (proj2 Hw) Hl) as (d & E & Hs). eexists _, _. split; [exact E|]. destruct Hw as [Hsc _].
  split; [apply set_dev_inv; [done|by eapply sends_open]|]. split; [done|]. intros m' Hm. unfold k_write_serial in *.
  rewrite (for_loop_ext_lt _ (fun i w => '(_, w) ← on_dev (serial_putc (load8 m (buf + i))) w; Some w)); [exact E| |lia].
  intros i w1 Hi1. unfold load8. by rewrite Hm by lia.
Qed.

(** The exit stub prints its line and comes to its [hlt]. *)
Lemma exit_dev c w : open_line (k_dev w) ->
  exists d h, k_exit_current c w = Some (set_dev w d) /\ open_line d /\ g_ticks d = g_ticks (k_dev w) /\ trace d = Hlt :: h.
Proof.
  intros Ho. unfold k_exit_current, on_dev. destruct (log_writeln_lit "[M10] exit_thread stub" eq_refl (k_dev w) (open_line_ok _ Ho)) as (d & E & [O S T C _]).
  unfold mbind at 2, io_bind. rewrite E. cbn. by eexists _, _.
Qed.

Lemma yield_current_spec w : k_inv w ->
  exists w', k_yield_current resume w = Some w' /\ k_inv w' /\ forall k, tab_get w' k = tab_get w k.
Proof.
  intros [[H0|[x Hx]] Ho]; unfold k_yield_current.
  - cbn [mcsos_sched_yield]. rewrite H0. cbn. eexists. split; [reflexivity|]. split; [by split; [left|]|done].
  - destruct (yield_step resume _ _ x Hx) as (s' & m' & E & Hx'). pose proof (yield_same _ _ _ _ _ _ E) as Ht. rewrite E. cbn [mbind option_bind].
    eexists. split; [reflexivity|]. split; [|intros k; apply (same_fixed_tables _ _ _ Ht)]. split; [right; by exists (a_yield x)|done].
Qed.

Lemma kernel_ops_ok : ops_ok k_inv k_dom (kernel_ops resume).
Proof.
  split; cbn -[tab_get tab_put].
  - intros f w [= <-] [Hs Ho]. eexists _, _. split; [reflexivity|]. split; [by apply set_dev_inv|done].
  - intros f w [= <-]. apply yield_current_spec.
  - intros f c w [= <-] [Hs Ho]. destruct (exit_dev c w Ho) as (d & h & -> & Ho' & _). eexists. split; [reflexivity|]. split; [by apply set_dev_inv|done].
  - eexists. split; [reflexivity|]. intros m p len w. apply write_serial_spec.
  - intros f w k [= <-] [Hs Ho]. unfold k_get_current_fd_table. destruct Hs as [H0|[x Hx]]; [by rewrite H0|].
    rewrite (si_cur _ _ _ _ _ _ Hx). destruct (_ || _); [done|]. intros [= <-]. cbn.
    destruct (inv_valid Hx (a_cur x)) as (t & Ht & _); [by left|]. rewrite Ht. cbn. eauto.
  - by intros f w k [= <-] _ [= <-].
  - intros w k t w' [Hs Ho] _. cbn. unfold update. destruct (threads (k_machine w) !! k) as [th|] eqn:Eth; [|done]. cbn. intros [= <-].
    split; [|done]. destruct Hs as [H0|[x Hx]]; [by left|]. right. exists x. by apply put_table_inv.
Qed.

End Interface.

(** * Lemmas: bring-up *)

Section Bringup.
Context `{Hardware} {Hready : UartReady} (resume : Z).

(** Only the devices differ. *)
Definition dev_only (st st' : sys_state kworld) : Prop :=
  exists d, st' = set_world st (set_dev (world st) d) /\ sends (k_dev (world st)) d.

Lemma dev_only_trans st1 st2 st3 : dev_only st1 st2 -> dev_only st2 st3 -> dev_only st1 st3.
Proof. intros (d & -> & Hs) (d' & -> & Hs'). exists d'. split; [done|]. by eapply sends_trans. Qed.

Lemma run_log x st : forallb (fun c => negb (c =? 0)) (bytes_of x) = true -> open_line (k_dev (world st)) ->
  exists st', (forall B (k : unit -> kio B), (run_dev (log_writeln (lit x)) ≫= k) st = k tt st') /\ dev_only st st' /\ open_line (k_dev (world st')).
Proof.
  intros Hx Ho. destruct (log_writeln_lit x Hx _ (open_line_ok _ Ho)) as (d & E & Hp).
  exists (set_world st (set_dev (world st) d)). split; [intros B k; unfold mbind, kio_bind, run_dev; by rewrite E|]. split; [|apply Hp]. exists d. split; [done|by eexists].
Qed.

Lemma ret_step {B} (k : unit -> kio B) s : ((mret tt : kio unit) ≫= k) s = k tt s.
Proof. done. Qed.

Lemma call_step {B} f (k : Z -> kio B) r s s' : f s = Some (r, s') -> (run_call f ≫= k) s = k r s'.
Proof. intros E. unfold mbind, kio_bind, run_call. by rewrite E. Qed.

(** The states that system calls can start from. *)
Definition boot_ok (st : sys_state kworld) : Prop :=
  k_inv (world st) /\ heap_wf (files st) /\ is_Some (files st !! 0%nat) /\
  forall k t, tab_get (world st) k = Some t -> vfs_wf (files st) t.

Lemma boot_sys_wf st : boot_ok st -> g_ops st = kernel_ops resume -> g_user_region st = M10_USER_REGION -> sys_wf k_inv k_dom st.
Proof.
  intros (Hi & Hh & Hk & Ht) Ho Hr. split; try done.
  - rewrite Ho. apply kernel_ops_ok.
  - by intros k ->.
  - rewrite Hr. unfold is_u64. cbn. lia.
  - rewrite Hr. unfold is_u64. cbn. lia.
Qed.

Lemma m10_spec file buf0 kpath0 kbuf0 cs stub st :
  boot_ok st -> length (k_idt (world st)) = 256%nat -> 0 <= g_ticks (k_dev (world st)) < 2 ^ 63 ->
  exists d, kernel_m10_syscall_init resume file buf0 kpath0 kbuf0 cs stub st =
    Some (Done tt, mk_sys (kernel_ops resume) M10_USER_REGION
      (mk_kworld (k_sched (world st)) (k_machine (world st)) d (<[Z.to_nat 0x80 := gate_of cs stub X86_64_IDT_GATE_INTERRUPT]> (k_idt (world st))))
      (umem st) (files st)) /\ sends (k_dev (world st)) d.
Proof.
  intros ((Hs & Ho) & Hh & Hk & Ht) Hidt Htk. unfold kernel_m10_syscall_init. cbv zeta.
  cbn [mcsos_syscall_init mcsos_syscall_set_user_region world g_ops]. rewrite set_gate_spec by lia. cbn [mbind option_bind].
  match goal with |- context [set_world ?a ?b] => set (s1 := set_world a b) end.
  destruct (run_log "[M10] syscall init" s1) as (s2 & E2 & (d2 & -> & S2) & O2); [reflexivity|exact Ho|]. rewrite E2. clear E2.
  erewrite call_step by reflexivity.
  change (negb (0x2605020A =? 0x2605020A)) with false. cbn iota.
  rewrite ret_step.
  destruct (run_log "[M10] syscall ping ok" (set_world s1 (set_dev (world s1) d2))) as (s3 & E3 & (d3 & -> & S3) & O3); [reflexivity|exact O2|]. rewrite E3. clear E3.
  erewrite call_step by reflexivity.
  cbn [world set_world set_dev k_dev] in S2, S3, O2, O3 |- *. rewrite (sends_ticks _ _ S3), (sends_ticks _ _ S2), i64_small by exact Htk. change (k_dev (world s1)) with (k_dev (world st)). rw_false (g_ticks (k_dev (world st)) <? 0).
  rewrite ret_step.
  match goal with |- context [mbind _ _ ?s] => destruct (run_log "[M10] syscall get_ticks ok" s) as (s4 & E4 & (d4 & -> & S4) & O4); [reflexivity|exact O3|] end. rewrite E4. clear E4.
  destruct (log_writeln_lit "[M10] syscall smoke done" eq_refl _ (open_line_ok _ O4)) as (d5 & E5 & P5).
  cbn [world set_world set_dev k_dev] in S4, O4, E5, P5 |- *. unfold run_dev. cbn [world set_world set_dev k_dev]. rewrite E5. cbn [mbind option_bind].
  exists d5. split; [reflexivity|]. do 3 (eapply sends_trans; [eassumption|]). by eexists.
Qed.

End Bringup.

(** * Lemmas: the scheduler bring-up *)

Section Scheduler.
Context `{Hardware} {Hready : UartReady} (resume : Z).

(** The static objects before the scheduler runs: three thread objects, each unused, entry points and stacks. *)
Record m9_static (l : m9_layout) (m : machine) : Prop := {
  ms_distinct : NoDup [g_boot_thread l; g_thread_a l; g_thread_b l];
  ms_threads : Forall (fun a => is_Some (threads m !! a)) [g_boot_thread l; g_thread_a l; g_thread_b l];
  ms_unused : forall a, is_Some (threads m !! a) -> unused_thread m a;
  ms_size : Z.of_nat (base.size (threads m)) < 2 ^ 63;
  ms_entries : demo_thread_a l <> 0 /\ demo_thread_b l <> 0;
  ms_stacks : Forall (fun b => 0 < b /\ b mod 16 = 0 /\ b + M9_STACK_SIZE < 2 ^ 64) [g_stack_a l; g_stack_b l]
}.

(** What a demo thread starts with. *)
Definition start_context (l : m9_layout) (stack : Z) : mcsos_context :=
  mk_context (stack + M9_STACK_SIZE - 8) 0 0 0 0 0 0 (m9_thread_start l).

Definition demo_thread (l : m9_layout) (id : Z) (nm : string) (fn stack : Z) : mcsos_thread :=
  mk_thread MCSOS_THREAD_MAGIC id (lit nm) MCSOS_THREAD_NEW (start_context l stack) fn 0 stack M9_STACK_SIZE NULL 0 0 0
    (replicate (Z.to_nat MCS_MAX_OPEN_FILES) closed_file).

Definition with_machine (st : sys_state kworld) (s : mcsos_scheduler) (m : machine) : sys_state kworld :=
  set_world st (mk_kworld s m (k_dev (world st)) (k_idt (world st))).

Definition bump_id (s : mcsos_scheduler) : mcsos_scheduler :=
  mk_sched (current s) (idle s) (ready_head s) (ready_tail s) (u64 (next_id s + 1)) (runnable_count s) (context_switches s) (s_ticks s) (initialized s).

Lemma bump_inv st s m c i q : sched_inv st s m c i q -> sched_inv st (bump_id s) m c i q.
Proof. intros []. by split. Qed.

Lemma check_step {B} f file buf0 line reason (k : unit -> kio B) st s' m' :
  f (k_sched (world st)) (k_machine (world st)) = Some (MCSOS_SCHED_OK, Ref s', m') ->
  (check_sched f file buf0 line reason ≫= k) st = k tt (with_machine st s' m').
Proof. intros E. unfold check_sched, run_sched, mbind, kio_bind. rewrite E. done. Qed.

Lemma prepare_step l th nm fn stack file buf0 line reason st x :
  represents_sched (k_sched (world st)) (k_machine (world st)) x -> unused_thread (k_machine (world st)) th ->
  fn <> 0 -> 0 < stack -> stack mod 16 = 0 -> stack + M9_STACK_SIZE < 2 ^ 64 ->
  let t := demo_thread l (next_id (k_sched (world st))) nm fn stack in
  let m' := mk_machine (<[th := t]> (threads (k_machine (world st)))) (cpu (k_machine (world st))) in
  (forall B (k : unit -> kio B), (prepare_demo l th nm fn stack file buf0 line reason ≫= k) st =
    k tt (set_umem (with_machine st (bump_id (k_sched (world st))) m') (store64 (umem st) (stack + M9_STACK_SIZE - 8) 0))) /\
  represents_sched (bump_id (k_sched (world st))) m' x.
Proof.
  intros Hx Hun Hfn Hs Hal Htop t m'. unfold M9_STACK_SIZE in *. split.
  - intros B k. destruct Hun as (t0 & Ht0 & Hfd & _). unfold mbind at 1, kio_bind, prepare_demo. unfold M9_STACK_SIZE.
    destruct (prepare_cases (thread_trampoline l) (k_machine (world st)) (umem st) th t0 (lit nm) fn 0 stack 8192 (next_id (k_sched (world st))) Ht0 Hfd)
      as [(rc & _ & _ & Hbad)|(_ & _ & _ & _ & E)]; [unfold is_u64; lia..|lia|].
    assert (Htop8 : stack + 8192 - (stack + 8192) mod 16 - 8 = stack + 8192 - 8) by (Z.div_mod_to_equations; lia). rewrite Htop8 in E.
    cbv zeta in E |- *. rewrite E. cbn [mbind option_bind]. unfold set_rip, update, mbind, kio_bind, mret, kio_ret. cbn -[store64 lookup insert].
    rewrite lookup_insert_eq. cbn -[store64 lookup insert]. rewrite insert_insert_eq. reflexivity.
  - apply bump_inv. by apply prepared_inv.
Qed.

Lemma unused_insert m a t b : unused_thread m b -> b <> a -> unused_thread (mk_machine (<[a := t]> (threads m)) (cpu m)) b.
Proof. intros (t0 & Ht0 & Hr) Hne. exists t0. cbn. by rewrite lookup_insert_ne. Qed.

Definition all_closed : mcs_fd_table := replicate (Z.to_nat MCS_MAX_OPEN_FILES) closed_file.

(** Initialisation: the boot thread runs, with no open file. *)
Lemma m9_init_spec l s0 m0 : m9_static l m0 ->
  exists s m tb, mcsos_scheduler_init (Ref s0) m0 (Ref (g_boot_thread l)) = Some (MCSOS_SCHED_OK, Ref s, m) /\
    represents_sched s m (mk_asched (g_boot_thread l) (g_boot_thread l) []) /\
    m = mk_machine (<[g_boot_thread l := tb]> (threads m0)) (cpu m0) /\ t_fd_table tb = all_closed.
Proof.
  intros [Hd Ht Hun Hsz _ _]. apply Forall_cons in Ht as [Hb _]. destruct (Hun _ Hb) as (t & Et & Hfd & _).
  assert (E : exists s tb, mcsos_scheduler_init (Ref s0) m0 (Ref (g_boot_thread l)) =
    Some (MCSOS_SCHED_OK, Ref s, mk_machine (<[g_boot_thread l := tb]> (threads m0)) (cpu m0)) /\ t_fd_table tb = all_closed).
  { unfold mcsos_scheduler_init. rewrite Et. cbn [mbind option_bind]. rewrite fd_table_init_spec by done. cbn [mbind option_bind].
    eexists _, _. split; reflexivity. }
  destruct E as (s & tb & E & Htb). eexists s, _, tb. split_and!; [exact E| |done|done].
  by eapply init_represents.
Qed.

(** Two new threads are queued behind the idle thread, which then yields. *)
Lemma queue_two_yield s m i a b ta tb :
  represents_sched s m (mk_asched i i []) -> threads m !! a = Some ta -> threads m !! b = Some tb -> a <> b ->
  magic ta = MCSOS_THREAD_MAGIC -> magic tb = MCSOS_THREAD_MAGIC -> state ta = MCSOS_THREAD_NEW -> state tb = MCSOS_THREAD_NEW ->
  exists s1 m1 s2 m2 s3 m3, mcsos_sched_enqueue (Ref s) m (Ref a) = Some (MCSOS_SCHED_OK, Ref s1, m1) /\
    mcsos_sched_enqueue (Ref s1) m1 (Ref b) = Some (MCSOS_SCHED_OK, Ref s2, m2) /\
    mcsos_sched_yield resume (Ref s2) m2 = Some (MCSOS_SCHED_OK, Ref s3, m3) /\
    represents_sched s3 m3 (mk_asched a i [b]) /\ cpu m3 = context ta /\ ctx_of m3 b = Some (context tb) /\
    ctx_of m3 i = Some (saved resume (cpu m)) /\ same_fixed m m3.
Proof.
  intros Hx Ha Hb Hab Hma Hmb Hsa Hsb.
  pose proof (inv_fresh _ _ _ _ _ _ a ta Hx eq_refl Ha Hma (or_introl Hsa)) as Hia. cbn in Hia.
  pose proof (inv_fresh _ _ _ _ _ _ b tb Hx eq_refl Hb Hmb (or_introl Hsb)) as Hib. cbn in Hib.
  destruct (enqueue_spec Hx a ta Ha Hma eq_refl (or_introl Hsa)) as (s1 & m1 & E1 & Hx1 & C1 & X1 & K1). cbn in Hx1.
  assert (Hb1 : exists tb1, threads m1 !! b = Some tb1 /\ core tb1 = core tb).
  { apply cores_inv. rewrite K1, lookup_insert_ne by done. by apply cores_Some. }
  destruct Hb1 as (tb1 & Hb1 & Hcb).
  destruct (enqueue_spec Hx1 b tb1 Hb1) as (s2 & m2 & E2 & Hx2 & C2 & X2 & K2); [by apply (f_equal magic) in Hcb; cbn in Hcb; congruence|done| |].
  { left. apply (f_equal state) in Hcb. cbn in Hcb. congruence. }
  cbn in Hx2. destruct (yield_spec Hx2 resume) as (s3 & m3 & E3 & Hx3 & C3 & X3).
  exists s1, m1, s2, m2, s3, m3. split_and!; try done.
  - unfold next_of, requeued in Hx3. cbn in Hx3. rewrite Z.eqb_refl in Hx3. done.
  - cbn in C3. rewrite decide_False in C3 by set_solver. rewrite X2, X1 in C3. unfold ctx_of in C3. rewrite Ha in C3. by injection C3.
  - rewrite X3, decide_False, X2, X1 by set_solver. unfold ctx_of. by rewrite Hb.
  - rewrite X3, decide_True by (split; [done|cbn; set_solver]). by rewrite C2, C1.
  - apply enqueue_same in E1, E2. apply yield_same in E3. by do 2 (eapply same_fixed_trans; [eassumption|]).
Qed.

Lemma m9_spec l file buf0 st :
  m9_static l (k_machine (world st)) -> open_line (k_dev (world st)) ->
  let m0 := k_machine (world st) in
  exists s m d, kernel_m9_scheduler_init resume l file buf0 st =
      Some (Done tt, mk_sys (g_ops st) (g_user_region st) (mk_kworld s m d (k_idt (world st)))
        (store64 (store64 (umem st) (g_stack_a l + M9_STACK_SIZE - 8) 0) (g_stack_b l + M9_STACK_SIZE - 8) 0) (files st)) /\
    represents_sched s m (mk_asched (g_thread_a l) (g_boot_thread l) [g_thread_b l]) /\
    cpu m = start_context l (g_stack_a l) /\ ctx_of m (g_thread_b l) = Some (start_context l (g_stack_b l)) /\
    ctx_of m (g_boot_thread l) = Some (saved resume (cpu m0)) /\
    (forall t, threads m !! g_thread_a l = Some t -> entry t = demo_thread_a l /\ arg t = 0) /\
    (forall t, threads m !! g_thread_b l = Some t -> entry t = demo_thread_b l /\ arg t = 0) /\
    (forall a, t_fd_table <$> threads m !! a = if decide (a ∈ [g_boot_thread l; g_thread_a l; g_thread_b l]) then Some all_closed else t_fd_table <$> threads m0 !! a) /\
    sends (k_dev (world st)) d.
Proof.
  intros Hst Ho m0. destruct (m9_init_spec l (k_sched (world st)) m0 Hst) as (s1 & m1 & tb & E1 & Hx1 & Em1 & Htb).
  destruct Hst as [Hd Ht Hun Hsz [Hea Heb] Hstk].
  apply NoDup_cons in Hd as [Hd1 Hd2]. apply NoDup_cons in Hd2 as [Hd2 _].
  assert (Hba : g_boot_thread l <> g_thread_a l) by (intros He; apply Hd1; rewrite He, !elem_of_cons; auto).
  assert (Hbb : g_boot_thread l <> g_thread_b l) by (intros He; apply Hd1; rewrite He, !elem_of_cons; auto).
  assert (Hab : g_thread_a l <> g_thread_b l) by (intros He; apply Hd2; rewrite He, !elem_of_cons; auto).
  apply Forall_cons in Ht as [_ Ht]. apply Forall_cons in Ht as [Ha Ht]. apply Forall_cons in Ht as [Hb _].
  apply Forall_cons in Hstk as [(Sa1 & Sa2 & Sa3) Hstk]. apply Forall_cons in Hstk as [(Sb1 & Sb2 & Sb3) _].
  unfold kernel_m9_scheduler_init. erewrite check_step by exact E1.
  assert (Ua : unused_thread m1 (g_thread_a l)) by (rewrite Em1; apply unused_insert; [by apply Hun|done]).
  assert (Ub : unused_thread m1 (g_thread_b l)) by (rewrite Em1; apply unused_insert; [by apply Hun|done]).
  set (S1 := with_machine st s1 m1).
  destruct (prepare_step l (g_thread_a l) "demo-a" (demo_thread_a l) (g_stack_a l) file buf0 249 "M9 thread_prepare A failed" S1 _ Hx1 Ua Hea Sa1 Sa2 Sa3) as [E2 Hx2].
  rewrite E2. clear E2. match goal with |- context [set_umem ?x ?y] => set (S2 := set_umem x y) end.
  match type of Hx2 with represents_sched ?x ?y _ => set (s2 := x) in *; set (m2 := y) in * end.
  assert (Ub2 : unused_thread m2 (g_thread_b l)) by (by apply unused_insert).
  destruct (prepare_step l (g_thread_b l) "demo-b" (demo_thread_b l) (g_stack_b l) file buf0 255 "M9 thread_prepare B failed" S2 _ Hx2 Ub2 Heb Sb1 Sb2 Sb3) as [E3 Hx3].
  rewrite E3. clear E3.
  match type of Hx3 with represents_sched ?x ?y _ => set (s3 := x) in *; set (m3 := y) in * end.
  match goal with |- context [set_umem (with_machine S2 s3 m3) ?y] => set (S3 := set_umem (with_machine S2 s3 m3) y) end.
  destruct (queue_two_yield s3 m3 (g_boot_thread l) (g_thread_a l) (g_thread_b l) (demo_thread l (next_id s1) "demo-a" (demo_thread_a l) (g_stack_a l))
    (demo_thread l (next_id s2) "demo-b" (demo_thread_b l) (g_stack_b l)) Hx3) as (s4 & m4 & s5 & m5 & s6 & m6 & E4 & E5 & E6 & Hx6 & C6 & Cb & Ci & Hf); try done.
  { unfold m3. cbn [threads]. rewrite lookup_insert_ne by done. unfold S2, m2. cbn. by rewrite lookup_insert_eq. }
  { unfold m3. cbn [threads]. by rewrite lookup_insert_eq. }
  erewrite check_step by exact E4. erewrite check_step by exact E5.
  match goal with |- context [(run_dev _ ≫= _) ?S] => destruct (run_log "[M9] scheduler initialized" S) as (S6 & E7 & (d & -> & Hsd) & _); [reflexivity|exact Ho|] end.
  rewrite E7. clear E7. exists s6, m6, d. split_and!; try done.
  - unfold run_sched, mbind at 1, kio_bind. cbn [world set_world set_dev with_machine k_sched k_machine]. rewrite E6. reflexivity.
  - rewrite Ci. unfold m3, S2, m2, S1. cbn. by rewrite Em1.
  - intros t Et. pose proof (Hf (g_thread_a l)) as Hfa. rewrite Et in Hfa. unfold m3, S2, m2 in Hfa. cbn [threads world set_umem with_machine set_world k_machine] in Hfa.
    rewrite lookup_insert_ne, lookup_insert_eq in Hfa by done. by injection Hfa.
  - intros t Et. pose proof (Hf (g_thread_b l)) as Hfb. rewrite Et in Hfb. unfold m3 in Hfb. cbn [threads] in Hfb. rewrite lookup_insert_eq in Hfb. by injection Hfb.
  - intros a. rewrite (same_fixed_tables _ _ _ Hf). unfold m3, S2, m2, S1. cbn [threads world set_umem with_machine set_world k_machine]. rewrite Em1. cbn [threads].
    destruct (decide _) as [Hin|Hin].
    + rewrite !elem_of_cons in Hin. destruct (Z.eq_dec a (g_thread_b l)) as [->|]; [by rewrite lookup_insert_eq|]. rewrite lookup_insert_ne by done.
      destruct (Z.eq_dec a (g_thread_a l)) as [->|]; [by rewrite lookup_insert_eq|]. rewrite lookup_insert_ne by done.
      destruct Hin as [->|[?|[?|[]%elem_of_nil]]]; [|done..]. rewrite lookup_insert_eq. cbn. by rewrite Htb.
    + rewrite !not_elem_of_cons in Hin. destruct Hin as (? & ? & ? & _). by rewrite !lookup_insert_ne by done.
Qed.

End Scheduler.

(** * Lemmas: the boot heap *)

Section Heap.
Context `{Hardware} {Hready : UartReady}.

(** The report of the heap. *)
Lemma m8_log_spec t f l b d :
  is_u64 t -> is_u64 f -> is_u64 l -> is_u64 b -> line_ok d ->
  exists d', (log_writeln (lit "[m8] kmem: initialized");;
    log_key_value_hex64 (lit "[m8] kmem: total_bytes") t;; log_key_value_hex64 (lit "[m8] kmem: free_bytes") f;;
    log_key_value_hex64 (lit "[m8] kmem: largest_free") l;; log_key_value_hex64 (lit "[m8] kmem: block_count") b) d = Some (Done tt, d') /\ sends d d'.
Proof.
  intros Ht Hf Hl Hb Hd.
  destruct (quiet_seq _ _ (quiet_writeln "[m8] kmem: initialized" eq_refl) (quiet_seq _ _ (quiet_kv "[m8] kmem: total_bytes" t eq_refl Ht)
    (quiet_seq _ _ (quiet_kv "[m8] kmem: free_bytes" f eq_refl Hf) (quiet_seq _ _ (quiet_kv "[m8] kmem: largest_free" l eq_refl Hl)
    (quiet_kv "[m8] kmem: block_count" b eq_refl Hb))))) as [bs Hq].
  destruct (Hq d Hd) as (d' & E & Hp). exists d'. split; [exact E|by eexists].
Qed.

Lemma m8_spec file buf0 heap ks m d :
  0 < heap -> heap mod 16 = 0 -> heap + M8_BOOT_HEAP_SIZE <= 2 ^ 64 - 32 -> line_ok d ->
  exists d' ks' m', m8_heap_bootstrap file buf0 heap ks m d = Some (Done tt, d', ks', m') /\ heap_inv ks' m' ∅ /\
    heap_rep ks' m' [(M8_BOOT_HEAP_SIZE - KMEM_HEADER, true)] /\ g_heap_base ks' = heap /\ g_heap_end ks' = heap + M8_BOOT_HEAP_SIZE /\
    sends d d' /\ forall x, ~ heap <= x < heap + M8_BOOT_HEAP_SIZE -> m' x = m x.
Proof.
  intros Hpos Hal Htop Hd. unfold M8_BOOT_HEAP_SIZE in *.
  assert (Ha : arena_ok heap (64 * 1024)) by (unfold arena_ok; lia).
  assert (Hst : arena_start heap = heap) by (unfold arena_start; Z.div_mod_to_equations; lia).
  assert (Hsz : arena_size heap (64 * 1024) = 65536) by (unfold arena_size; rewrite Hst; Z.div_mod_to_equations; lia).
  destruct (init_rep ks m heap (64 * 1024) Ha) as (rc & ks1 & m1 & Ei & Hrc & _).
  assert (rc = 0) as -> by (apply Hrc; rewrite Hsz; lia).
  destruct (init_inv _ _ _ _ _ _ Ha Ei) as (Hinv & Hb & He & _ & Hrep & Hx1). rewrite Hst, Hsz in *.
  unfold m8_heap_bootstrap, M8_BOOT_HEAP_SIZE. rewrite Ei. cbn [mbind option_bind negb Z.eqb].
  destruct (alloc_inv ks1 m1 ∅ 128 Hinv) as (p & m2 & Ea & K2 & _ & Hal2); [unfold is_u64; lia|].
  assert (Hp : p <> 0).
  { pose proof (alloc_spec _ _ _ 128 Hrep ltac:(unfold is_u64; lia)) as Hs. unfold KMEM_HEADER in Hs. cbn in Hs.
    destruct Hs as (m' & ? & ? & ? & E & _). rewrite Ea in E. injection E as -> _. rewrite Hb. unfold KMEM_HEADER. lia. }
  rewrite Ea. cbn [mbind option_bind]. rw_false (p =? 0). destruct (Hal2 Hp) as (_ & _ & Hinv2).
  destruct (free_inv ks1 m2 _ p 128 Hinv2 (lookup_insert_eq _ _ _)) as (rc & m3 & Ef & K3 & Hinv3 & Hrc3).
  assert (rc = 0) as -> by (destruct Hrc3 as [|[_ Hbig]]; [done|lia]). rewrite Ef. cbn [mbind option_bind negb Z.eqb].
  rewrite delete_insert_id in Hinv3, K3 by apply lookup_empty.
  destruct (empty_inv_block ks1 m3 Hinv3) as [sz Hrep3]. pose proof (hr_end _ _ _ Hrep3) as Hend. cbn [span] in Hend.
  assert (sz = 64 * 1024 - KMEM_HEADER) as -> by lia.
  rewrite (stats_spec _ _ _ _ Hrep3). cbn [mbind option_bind total_bytes free_bytes largest_free block_count sum_free max_free length].
  destruct (m8_log_spec (g_heap_end ks1 - g_heap_base ks1) (64 * 1024 - KMEM_HEADER + 0) (Z.max (64 * 1024 - KMEM_HEADER) 0) (Z.of_nat 1) d) as (d' & E & Ho);
    [unfold is_u64, KMEM_HEADER in *; lia..|done|].
  rewrite E. cbn [mbind option_bind]. exists d', ks1, m3. split_and!; try done.
  intros x Hx. rewrite K3 by (left; lia). rewrite K2 by (left; lia). apply Hx1. unfold KMEM_HEADER. lia.
Qed.

End Heap.

(** * A concrete kernel *)

(** Three thread objects in .bss, two stacks, code addresses in the upper half. *)
Definition demo_layout : m9_layout :=
  mk_m9 0x100 0x200 0x300 0x10000 0x20000 0xffffffff80001000 0xffffffff80002000 0xffffffff80003000 0xffffffff80004000.
Definition demo_kworld : kworld := mk_kworld demo_sched0 demo_threads (mk_kdev [] 0 7 0) (replicate 256 (zero_gate 0)).
Definition demo_kernel : sys_state kworld :=
  mk_sys (kernel_ops (H := quiet_hw) 0x5000) (mk_user_region 0 0) demo_kworld demo_umem demo_heap.

Lemma demo_table_of k t : t_fd_table <$> threads demo_threads !! k = Some t -> t = replicate 16 closed_file.
Proof.
  unfold demo_threads. cbn [threads]. destruct (Z.eq_dec k 0x100) as [->|]; [by rewrite lookup_insert_eq; intros [= <-]|]. rewrite lookup_insert_ne by done.
  destruct (Z.eq_dec k 0x200) as [->|]; [by rewrite lookup_insert_eq; intros [= <-]|]. rewrite lookup_insert_ne by done.
  destruct (Z.eq_dec k 0x300) as [->|]; [by rewrite lookup_singleton_eq; intros [= <-]|]. by rewrite lookup_singleton_ne by done.
Qed.

Lemma demo_kernel_ok : boot_ok demo_kernel.
Proof.
  split; [split; [by left|reflexivity]|]. split; [apply demo_heap_wf|]. split; [by eexists|]. cbn. intros k t ->%demo_table_of. apply (fresh_wf demo_heap), demo_heap_wf.
Qed.

Lemma demo_static : m9_static demo_layout demo_threads.
Proof.
  split; cbn [demo_layout g_boot_thread g_thread_a g_thread_b g_stack_a g_stack_b demo_thread_a demo_thread_b].
  - apply (bool_decide_unpack _). by vm_compute.
  - apply (bool_decide_unpack _). by vm_compute.
  - intros a [t Ht]. exists t. split; [done|]. pose proof (demo_table_of a (t_fd_table t)) as Hd. rewrite Ht in Hd. rewrite (Hd eq_refl). split; [done|].
    assert (Hm : map_Forall (fun _ t => magic t = 0) (threads demo_threads)) by (apply (bool_decide_unpack _); by vm_compute).
    specialize (Hm a t Ht). unfold MCSOS_THREAD_MAGIC. cbn beta in Hm. intros E. congruence.
  - by vm_compute.
  - done.
  - unfold M9_STACK_SIZE. apply Forall_cons. split; [split_and!; [lia|reflexivity|lia]|]. apply Forall_cons. split; [split_and!; [lia|reflexivity|lia]|done].
Qed.

(** * Properties *)

Section Claims.
Context `{Hardware} {Hready : UartReady}.

(** C5. The kernel brings its system calls up safely. With the kernel's function pointers, [kernel_m10_syscall_init] finishes without a panic, [kernel_m9_scheduler_init] then starts the
    scheduler, and from there on, after any stores of programs in their region and any calls that return: scheduler, devices, descriptor tables and file system are
    well formed, no byte outside the region 0x400000 .. 0x800000000000 has changed, and every further call returns, whatever its number and arguments, with two exceptions. A seek that overflows a signed
    long is undefined, and exit_thread prints its line and comes to its [hlt] with nothing else changed, so that it returns only if an interrupt wakes the processor. *)
Theorem kernel_syscalls_safe resume l file buf0 kpath0 kbuf0 cs stub st0 :
  boot_ok st0 -> m9_static l (k_machine (world st0)) -> length (k_idt (world st0)) = 256%nat -> 0 <= g_ticks (k_dev (world st0)) < 2 ^ 63 ->
  length kpath0 = 128%nat -> length kbuf0 = 4096%nat ->
  exists st1 st2, kernel_m10_syscall_init resume file buf0 kpath0 kbuf0 cs stub st0 = Some (Done tt, st1) /\
    kernel_m9_scheduler_init resume l file buf0 st1 = Some (Done tt, st2) /\
    forall st, rtc (sys_step kpath0 kbuf0) st2 st ->
      boot_ok st /\ g_ops st = kernel_ops resume /\
      (forall x, ~ 0x400000 <= x < 0x800000000000 -> umem st x = umem st2 x) /\
      forall nr a0 a1 a2 a3 a4 a5, is_u64 nr -> is_u64 a0 -> is_u64 a1 -> is_u64 a2 ->
        let call := mcsos_syscall_dispatch kpath0 kbuf0 nr a0 a1 a2 a3 a4 a5 st in
        if call_overflows st nr a0 a1 a2 then call = None
        else if nr =? 4 then exists d h, call = Some (MCSOS_OK, set_world st (set_dev (world st) d)) /\ trace d = Hlt :: h
        else is_Some call.
Proof.
  intros Hok Hst Hidt Htk Hp Hb. destruct (m10_spec resume file buf0 kpath0 kbuf0 cs stub st0 Hok Hidt Htk) as (d1 & E1 & O1%sends_open).
  eexists _. destruct Hok as (_ & Hh & Hk & Ht).
  match type of E1 with _ = Some (_, ?S) => destruct (m9_spec resume l file buf0 S Hst O1) as (s & m & d & E2 & Hx & _ & _ & _ & _ & _ & Htab & O2%sends_open) end.
  eexists _. split; [exact E1|]. split; [exact E2|]. intros st Hr.
  match type of E2 with _ = Some (_, ?s) => set (st2 := s) in * end.
  assert (Hok2 : boot_ok st2).
  { split; [split; [right; by eexists|exact O2]|]. split_and!; [done..|]. intros k t. cbn. rewrite Htab. destruct (decide _); [|apply Ht].
    intros [= <-]. by apply fresh_wf. }
  destruct (reach_preserves k_inv k_dom kpath0 kbuf0 Hp Hb st2 st Hr) as ((Hst' & Ho & Hreg) & Hu); [by apply (boot_sys_wf resume)|].
  pose proof Hst' as [Hops Hw Hf Htb Hd _ _]. split; [by split_and!; auto; apply Hd|]. split; [exact Ho|]. split; [exact Hu|].
  intros nr a0 a1 a2 a3 a4 a5 Hnr H0 H1 H2 call. destruct (call_overflows st nr a0 a1 a2) eqn:Hs; [by apply (dispatch_overflow k_inv k_dom)|].
  destruct (Z.eqb_spec nr 4) as [->|].
  - destruct (exit_dev (i32 a0) (world st) (proj2 Hw)) as (dx & h & E & _ & _ & Hd'). exists dx, h. split; [|exact Hd'].
    change call with (sys_exit_thread a0 a1 a2 a3 a4 a5 st). unfold sys_exit_thread. rewrite Ho. cbn [g_ops st2 kernel_ops exit_current]. by rewrite E.
  - destruct (dispatch_spec k_inv k_dom kpath0 kbuf0 Hp Hb nr a0 a1 a2 a3 a4 a5 st Hst' Hnr H0 H1 H2 Hs) as (ret & st' & E & _). by eexists.
Qed.

(** The scheduler bring-up starts the first thread: [kernel_m9_scheduler_init] prepares and queues both demo threads without a panic, and its yield hands the processor to thread A, which starts in
    [m9_thread_start] on its own stack with zeroed registers and will call its entry function with a null argument; thread B is queued with its own start
    context, the boot thread has become the idle thread and resumes at its yield, and each of the three has a descriptor table with no open file. *)
Theorem kernel_m9_starts_thread_a resume l file buf0 st :
  m9_static l (k_machine (world st)) -> open_line (k_dev (world st)) ->
  exists st', kernel_m9_scheduler_init resume l file buf0 st = Some (Done tt, st') /\
    represents_sched (k_sched (world st')) (k_machine (world st')) (mk_asched (g_thread_a l) (g_boot_thread l) [g_thread_b l]) /\
    cpu (k_machine (world st')) = start_context l (g_stack_a l) /\ m9_thread_call (world st') = Some (demo_thread_a l, 0) /\
    ctx_of (k_machine (world st')) (g_thread_b l) = Some (start_context l (g_stack_b l)) /\
    ctx_of (k_machine (world st')) (g_boot_thread l) = Some (saved resume (cpu (k_machine (world st)))) /\
    (forall a, a ∈ [g_boot_thread l; g_thread_a l; g_thread_b l] -> tab_get (world st') a = Some all_closed) /\
    k_get_current_fd_table (world st') = Ref (g_thread_a l).
Proof.
  intros Hst Ho. destruct (m9_spec resume l file buf0 st Hst Ho) as (s & m & d & E & Hx & Hc & Hb & Hi & Ha & _ & Htab & _).
  eexists. split; [exact E|]. cbn [world k_sched k_machine]. split_and!; try done.
  - unfold m9_thread_call. cbn [k_sched k_machine]. rewrite (si_cur _ _ _ _ _ _ Hx). cbn [a_cur].
    destruct (inv_valid Hx (g_thread_a l)) as (t & Et & _); [by left|]. rewrite Et. cbn. destruct (Ha t Et) as [-> ->]. done.
  - intros a Hin. cbn. rewrite Htab. by rewrite decide_True.
  - unfold k_get_current_fd_table. cbn [k_sched]. rewrite (si_cur _ _ _ _ _ _ Hx). pose proof (si_init _ _ _ _ _ _ Hx). by rw_false (initialized s =? 0).
Qed.

(** The heap bring-up works: [m8_heap_bootstrap] on the aligned 64 KiB arena finishes without a panic: the probe of 128 bytes is allocated and released, the heap that is left is one free block of the
    arena less one header with nothing allocated, and no byte outside the arena has changed. *)
Theorem m8_heap_bootstrap_ok file buf0 heap ks m d :
  0 < heap -> heap mod 16 = 0 -> heap + M8_BOOT_HEAP_SIZE <= 2 ^ 64 - 32 -> line_ok d ->
  exists d' ks' m', m8_heap_bootstrap file buf0 heap ks m d = Some (Done tt, d', ks', m') /\ heap_inv ks' m' ∅ /\
    heap_rep ks' m' [(M8_BOOT_HEAP_SIZE - KMEM_HEADER, true)] /\ forall x, ~ heap <= x < heap + M8_BOOT_HEAP_SIZE -> m' x = m x.
Proof.
  intros Hp Ha Ht Hd. destruct (m8_spec file buf0 heap ks m d Hp Ha Ht Hd) as (d' & ks' & m' & E & Hi & Hr & _ & _ & _ & Hx).
  exists d', ks', m'. by split_and!.
Qed.

(** The gate of the system calls does not admit programs: [kernel_m10_syscall_init] installs the stub at vector 0x80 with descriptor privilege level 0, so that [int 0x80] from ring 3 is refused. *)
Theorem int80_gate_kernel_only resume file buf0 kpath0 kbuf0 cs stub st :
  boot_ok st -> length (k_idt (world st)) = 256%nat -> 0 <= g_ticks (k_dev (world st)) < 2 ^ 63 -> is_u64 stub ->
  exists st' g, kernel_m10_syscall_init resume file buf0 kpath0 kbuf0 cs stub st = Some (Done tt, st') /\
    arr_get (k_idt (world st')) 0x80 = Some g /\ gate_offset g = stub /\ int_allowed 0 g = true /\ int_allowed 3 g = false.
Proof.
  intros Hok Hidt Htk Hs. destruct (m10_spec resume file buf0 kpath0 kbuf0 cs stub st Hok Hidt Htk) as (d1 & E1 & O1%sends_open).
  eexists _, (gate_of cs stub X86_64_IDT_GATE_INTERRUPT). split; [exact E1|]. cbn [world k_idt]. split; [|split_and!; [by apply gate_of_offset|reflexivity|reflexivity]].
  apply arr_get_Some. split; [lia|]. apply list_lookup_insert_eq. lia.
Qed.

End Claims.

(** After a store of the program, a read from a descriptor that is not open, and an exit. *)
Lemma kernel_syscalls_safe_witness :
  exists st1 st2,
    kernel_m10_syscall_init (H := quiet_hw) 0x5000 NULL [] (replicate 128 0) (replicate 4096 0) 0x28 0x9000 demo_kernel = Some (Done tt, st1) /\
    kernel_m9_scheduler_init (H := quiet_hw) 0x5000 demo_layout NULL [] st1 = Some (Done tt, st2) /\
    let st := set_umem st2 (store8 (umem st2) 0x400000 7) in
    is_Some (mcsos_syscall_dispatch (replicate 128 0) (replicate 4096 0) 6 3 0x400000 16 0 0 0 st) /\
    exists d h, mcsos_syscall_dispatch (replicate 128 0) (replicate 4096 0) 4 0 0 0 0 0 0 st = Some (0, set_world st (set_dev (world st) d)) /\ trace d = Hlt :: h.
Proof.
  destruct (kernel_syscalls_safe (H := quiet_hw) (Hready := quiet_hw_ready) 0x5000 demo_layout NULL [] (replicate 128 0) (replicate 4096 0) 0x28 0x9000 demo_kernel)
    as (st1 & st2 & E1 & E2 & Hr); [exact demo_kernel_ok|exact demo_static|reflexivity|split; [by vm_compute|reflexivity]|apply length_replicate|apply length_replicate|].
  exists st1, st2. split; [exact E1|]. split; [exact E2|]. intros st.
  destruct (m10_spec (H := quiet_hw) (Hready := quiet_hw_ready) 0x5000 NULL [] (replicate 128 0) (replicate 4096 0) 0x28 0x9000 demo_kernel demo_kernel_ok eq_refl ltac:(cbn; lia)) as (d1 & F1 & S1).
  rewrite F1 in E1. injection E1 as <-.
  match type of E2 with _ _ ?S = _ => destruct (m9_spec (H := quiet_hw) (Hready := quiet_hw_ready) 0x5000 demo_layout NULL [] S demo_static (sends_open _ _ S1)) as (s & m & d & F2 & _) end.
  rewrite F2 in E2. injection E2 as <-.
  destruct (Hr st) as (_ & _ & _ & Hc); [apply rtc_once, step_store; cbn; lia|]. split.
  - apply (Hc 6 3 0x400000 16 0 0 0); unfold is_u64; lia.
  - apply (Hc 4 0 0 0 0 0 0); unfold is_u64; lia.
Defined.

Lemma kernel_m9_starts_thread_a_witness :
  exists st', kernel_m9_scheduler_init (H := quiet_hw) 0x5000 demo_layout NULL [] demo_kernel = Some (Done tt, st') /\
    cpu (k_machine (world st')) = mk_context 0x11ff8 0 0 0 0 0 0 0xffffffff80003000 /\ m9_thread_call (world st') = Some (0xffffffff80001000, 0).
Proof.
  destruct (kernel_m9_starts_thread_a (H := quiet_hw) (Hready := quiet_hw_ready) 0x5000 demo_layout NULL [] demo_kernel)
    as (st' & E & _ & Hc & Hm & _); [apply demo_static|reflexivity|].
  exists st'. split; [exact E|]. split; [exact Hc|exact Hm].
Defined.

Lemma m8_heap_bootstrap_ok_witness :
  exists d' ks' m', m8_heap_bootstrap (H := quiet_hw) NULL [] 0x100000 (mk_kmem 0 0 0 0) (fun _ => 0) (mk_kdev [] 0 0 0) = Some (Done tt, d', ks', m') /\
    heap_rep ks' m' [(65488, true)].
Proof.
  destruct (m8_heap_bootstrap_ok (H := quiet_hw) (Hready := quiet_hw_ready) NULL [] 0x100000 (mk_kmem 0 0 0 0) (fun _ => 0) (mk_kdev [] 0 0 0))
    as (d' & ks' & m' & E & _ & Hr & _); [lia|reflexivity|unfold M8_BOOT_HEAP_SIZE; lia|by left|].
  exists d', ks', m'. split; [exact E|exact Hr].
Defined.
