(* ===== verification/Entry.v ===== *)
(** The way of a system call from [int 0x80] to the dispatcher and back: kernel/syscall/syscall_entry.S.

    The stub runs on the stack that the processor switched to, which lies in the memory the system calls work on. *)

From S2P Require Import Prelude Mem Ramfs Fd Io Trap Syscall.

(** * Operations *)

(** The frame at an address. *)
Definition read_sysframe (m : mem) (a : Z) : mcsos_syscall_frame :=
  mk_sysframe (load64 m a) (load64 m (a + 8)) (load64 m (a + 16)) (load64 m (a + 24)) (load64 m (a + 32)) (load64 m (a + 40))
    (load64 m (a + 48)) (i64 (load64 m (a + 56))).

(** Consecutive quadwords. *)
Fixpoint store_words (m : mem) (a : Z) (ws : list Z) : mem :=
  match ws with
  | [] => m
  | w :: ws => store_words (store64 m a w) (a + 8) ws
  end.

(** The registers that a C function keeps. *)
Definition callee_saved (r : reg) : bool := bool_decide (r ∈ [RBX; RBP; R12; R13; R14; R15]).

Section Stub.
Context {W : Type} `{FdTables W} (kpath0 kbuf0 : list Z).

(** The call of [mcsos_syscall_dispatch_frame] with the frame at [a]; the processor pushes the return address [pc], and [below] is what the C code leaves in the [depth] bytes of stack
    that it uses below the frame. *)
Definition call_dispatch_frame (pc depth : Z) (below : mem) (a : Z) (st : sys_state W) : option (sys_state W) :=
  let st := set_umem st (store64 (umem st) (a - 8) pc) in
  '(f, st) ← mcsos_syscall_dispatch_frame kpath0 kbuf0 (Ref (read_sysframe (umem st) a)) st;
  match f with
  | NULL => None
  | Ref f =>
      let m := store64 (umem st) (a + 56) (u64 (sf_ret f)) in
      Some (set_umem st (fun x => if (a - depth <=? x) && (x <? a) then below x else m x))
  end.

(** Up to [iretq]: registers, stack pointer and state. [scratch] is what the called function leaves in the registers it need not keep. *)
Definition x86_64_syscall_int80_stub (pc depth : Z) (below : mem) (scratch rf : regfile) (rsp : Z) (st : sys_state W) : option (regfile * Z * sys_state W) :=
  let rsp := rsp - 64 in
  let st := set_umem st (store_words (umem st) rsp [rf RAX; rf RDI; rf RSI; rf RDX; rf R10; rf R8; rf R9; 0]) in
  st ← call_dispatch_frame pc depth below rsp st;
  let rf r := if decide (r = RAX) then load64 (umem st) (rsp + 56) else if callee_saved r then rf r else scratch r in
  Some (rf, rsp + 64, st).

End Stub.

(** * Lemmas *)

Lemma store64_other m a v x : ~ a <= x < a + 8 -> store64 m a v x = m x.
Proof. apply (store_other 8). Qed.

Lemma store_words_outside ws : forall m a x, ~ a <= x < a + 8 * Z.of_nat (length ws) -> store_words m a ws x = m x.
Proof.
  induction ws as [|w ws IH]; intros m a x Hx; cbn [store_words]; [done|]. cbn [length] in Hx. rewrite IH by lia.
  apply store_other. lia.
Qed.

Lemma store_words_get ws : Forall is_u64 ws -> forall m a i w, ws !! i = Some w -> load64 (store_words m a ws) (a + 8 * Z.of_nat i) = w.
Proof.
  induction 1 as [|v ws Hv _ IH]; intros m a i w Hi; [done|]. destruct i as [|i]; cbn [store_words].
  - injection Hi as <-. rewrite Z.mul_0_r, Z.add_0_r. rewrite <- (load64_store64_same m a v Hv) at 2. apply load_ext.
    intros x Hx. apply store_words_outside. lia.
  - rewrite <- (IH (store64 m a v) (a + 8) i w Hi). f_equal. lia.
Qed.

(** What [int 0x80] pushes. *)
Lemma int80_pushes ss rsp rflags cs rip m top : Forall is_u64 [ss; rsp; rflags; cs; rip] ->
  exists m', cpu_interrupt 0x80 ss rsp rflags cs rip 0 m top = (m', top - 40) /\
    load64 m' (top - 8) = ss /\ load64 m' (top - 16) = rsp /\ load64 m' (top - 24) = rflags /\ load64 m' (top - 32) = cs /\ load64 m' (top - 40) = rip /\
    forall x, ~ top - 40 <= x < top -> m' x = m x.
Proof.
  intros Hu. destruct (pushes_spec [ss; rsp; rflags; cs; rip] m top Hu) as (Hsp & Hget & Hout).
  change (cpu_interrupt 0x80 ss rsp rflags cs rip 0 m top) with (foldl push (m, top) [ss; rsp; rflags; cs; rip]).
  destruct (foldl push (m, top) _) as [m' a]. cbn [fst snd length] in *. exists m'. split; [f_equal; lia|].
  split_and!; [by apply (Hget 0%nat)|by apply (Hget 1%nat)|by apply (Hget 2%nat)|by apply (Hget 3%nat)|by apply (Hget 4%nat)|].
  intros x Hx. apply Hout. lia.
Qed.

Section Entry.
Context {W : Type} `{FdTables W} {Hlaws : FdTablesOk W} (I : W -> Prop) (D : nat -> Prop).
Context (kpath0 kbuf0 : list Z) (Hkpath : length kpath0 = 128%nat) (Hkbuf : length kbuf0 = 4096%nat).

Lemma set_umem_twice (st : sys_state W) m m' : set_umem (set_umem st m) m' = set_umem st m'.
Proof. done. Qed.

(** The call that a frame on the stack describes is the call on the state before the frame was built. *)
Lemma call_frame_spec pc depth below a m nr a0 a1 a2 a3 a4 a5 (st : sys_state W) :
  sys_wf I D st -> Forall is_u64 [nr; a0; a1; a2; a3; a4; a5; 0] -> call_overflows st nr a0 a1 a2 = false -> 8 <= depth ->
  let region x := ur_base (g_user_region st) <= x < ur_limit (g_user_region st) in
  (forall x, a - depth <= x < a + 64 -> ~ region x) -> (forall x, region x -> m x = umem st x) ->
  exists ret st1 m', mcsos_syscall_dispatch kpath0 kbuf0 nr a0 a1 a2 a3 a4 a5 st = Some (ret, st1) /\ call_ok I D st st1 /\
    call_dispatch_frame kpath0 kbuf0 pc depth below a (set_umem st (store_words m a [nr; a0; a1; a2; a3; a4; a5; 0])) = Some (set_umem st1 m') /\
    load64 m' (a + 56) = u64 ret /\ (forall x, region x -> m' x = umem st1 x) /\
    (forall x, ~ region x -> ~ a - depth <= x < a + 64 -> m' x = m x).
Proof.
  intros Hst Hu Hs Hdep region Hstk Hm. assert (Hu4 : is_u64 nr /\ is_u64 a0 /\ is_u64 a1 /\ is_u64 a2) by (by rewrite !Forall_cons in Hu; split_and!; apply Hu).
  destruct Hu4 as (Hnr & H0 & H1 & H2).
  destruct (dispatch_spec I D kpath0 kbuf0 Hkpath Hkbuf nr a0 a1 a2 a3 a4 a5 st Hst Hnr H0 H1 H2 Hs) as (ret & st1 & E & Hc & _ & _).
  unfold call_dispatch_frame. cbv zeta. cbn [set_umem umem]. rewrite set_umem_twice. set (m1 := store64 (store_words m a _) (a - 8) pc).
  assert (Hw : forall i w k, [nr; a0; a1; a2; a3; a4; a5; 0] !! i = Some w -> k = 8 * Z.of_nat i -> load64 m1 (a + k) = w).
  { intros i w k Hi ->. unfold m1. rewrite load64_store64_other by lia. by apply store_words_get. }
  assert (Hout : forall x, ~ a - 8 <= x < a + 64 -> m1 x = m x).
  { intros x Hx. unfold m1. rewrite store64_other by lia. apply store_words_outside. cbn. lia. }
  assert (Hm1 : forall x, region x -> m1 x = umem st x).
  { intros x Hx. rewrite Hout by (intros Hx'; apply (Hstk x); [lia|done]). by apply Hm. }
  destruct (dispatch_region I D kpath0 kbuf0 Hkpath Hkbuf nr a0 a1 a2 a3 a4 a5 st m1 Hst Hnr H0 H1 H2 Hm1 ret st1 E) as (m2 & E2 & Hreg).
  destruct (dispatch_spec I D kpath0 kbuf0 Hkpath Hkbuf nr a0 a1 a2 a3 a4 a5 (set_umem st m1) (proj1 (set_umem_ok I D st m1 Hst)) Hnr H0 H1 H2 Hs)
    as (ret' & st2 & E2' & _ & _ & Hch). rewrite E2 in E2'. injection E2' as <- <-. cbn [set_umem umem g_user_region] in Hch.
  set (m' := fun x => if (a - depth <=? x) && (x <? a) then below x else store64 m2 (a + 56) (u64 ret) x).
  assert (Habove : forall x, ~ a - depth <= x < a -> m' x = store64 m2 (a + 56) (u64 ret) x) by (intros x Hx; unfold m'; case_bool; [lia|done]).
  exists ret, st1, m'. split; [exact E|]. split; [exact Hc|].
  unfold mcsos_syscall_dispatch_frame, read_sysframe. cbn [sf_nr sf_arg0 sf_arg1 sf_arg2 sf_arg3 sf_arg4 sf_arg5 set_umem umem].
  pose proof (Hw 0%nat _ 0 eq_refl eq_refl) as W0. rewrite Z.add_0_r in W0.
  rewrite W0, (Hw 1%nat _ 8 eq_refl eq_refl), (Hw 2%nat _ 16 eq_refl eq_refl), (Hw 3%nat _ 24 eq_refl eq_refl), (Hw 4%nat _ 32 eq_refl eq_refl), (Hw 5%nat _ 40 eq_refl eq_refl), (Hw 6%nat _ 48 eq_refl eq_refl), E2.
  cbn [mbind option_bind sf_ret]. split; [reflexivity|].
  split; [rewrite <- (load64_store64_same m2 (a + 56) (u64 ret)) by apply u64_range; apply load_ext; intros x Hx; apply Habove; lia|]. split.
  - intros x Hx. assert (~ a - depth <= x < a + 64) by (intros Hx'; by apply (Hstk x)). rewrite Habove, store64_other by lia. by apply Hreg.
  - intros x Hx Hx'. rewrite Habove, store64_other by lia. rewrite <- Hout by lia.
    destruct (Z.eq_dec (m2 x) (m1 x)) as [|Hne]; [done|]. destruct (Hch x Hne) as (_ & [|(? & ? & ?)] & ?); [lia|]. exfalso. apply Hx. unfold region. lia.
Qed.

(** C17. A system call through [int 0x80] is the call of the dispatcher: when the interrupt stack, with the [depth] bytes that the C code uses below the frame, lies outside the user region and no seek
    overflows, the stub returns with the state, and in rax the result, that [mcsos_syscall_dispatch] gives for the number in rax and the arguments in rdi, rsi, rdx, r10, r8 and r9. Whatever the C code leaves
    in its stack and in the registers it need not keep, the others are kept, the return frame that [iretq] pops is the one the processor pushed, the
    user region holds what the call left there, and outside of it only the interrupt stack has changed. *)
Theorem int80_call_transparent pc depth below scratch rf ss rsp rflags cs rip top (st : sys_state W) :
  sys_wf I D st -> Forall is_u64 [ss; rsp; rflags; cs; rip] -> (forall r, is_u64 (rf r)) -> call_overflows st (rf RAX) (rf RDI) (rf RSI) (rf RDX) = false -> 8 <= depth ->
  let region x := ur_base (g_user_region st) <= x < ur_limit (g_user_region st) in
  (forall x, top - 104 - depth <= x < top -> ~ region x) ->
  let '(m, sp) := cpu_interrupt 0x80 ss rsp rflags cs rip 0 (umem st) top in
  exists ret st1 rf' m', mcsos_syscall_dispatch kpath0 kbuf0 (rf RAX) (rf RDI) (rf RSI) (rf RDX) (rf R10) (rf R8) (rf R9) st = Some (ret, st1) /\
    x86_64_syscall_int80_stub kpath0 kbuf0 pc depth below scratch rf sp (set_umem st m) = Some (rf', top - 40, set_umem st1 m') /\
    rf' RAX = u64 ret /\ (forall r, callee_saved r = true -> rf' r = rf r) /\
    load64 m' (top - 40) = rip /\ load64 m' (top - 32) = cs /\ load64 m' (top - 24) = rflags /\ load64 m' (top - 16) = rsp /\ load64 m' (top - 8) = ss /\
    (forall x, region x -> m' x = umem st1 x) /\ (forall x, ~ region x -> ~ top - 104 - depth <= x < top -> m' x = umem st x).
Proof.
  intros Hst Hu Hrf Hs Hdep region Hstk. destruct (int80_pushes ss rsp rflags cs rip (umem st) top Hu) as (m & -> & L1 & L2 & L3 & L4 & L5 & Hout).
  unfold x86_64_syscall_int80_stub. cbv zeta. cbn [set_umem umem]. rewrite set_umem_twice. replace (top - 40 - 64) with (top - 104) by lia.
  destruct (call_frame_spec pc depth below (top - 104) m (rf RAX) (rf RDI) (rf RSI) (rf RDX) (rf R10) (rf R8) (rf R9) st Hst)
    as (ret & st1 & m' & E & _ & E' & Hret & Hin & Hou).
  { rewrite !Forall_cons. split_and!; try apply Hrf; [unfold is_u64; lia|done]. } { exact Hs. } { exact Hdep. }
  { intros x Hx. apply Hstk. lia. } { intros x Hx. apply Hout. intros Hx'. apply (Hstk x); [lia|exact Hx]. }
  fold region in Hin, Hou. rewrite E'. cbn [mbind option_bind]. eexists ret, st1, _, m'. split; [exact E|]. split; [f_equal; f_equal; f_equal; lia|].
  assert (Hsame : forall k, 0 < k <= 40 -> k mod 8 = 0 -> load64 m' (top - k) = load64 m (top - k)).
  { intros k Hk Hk8. apply load_ext. intros x Hx. assert (x < top) by (Z.div_mod_to_equations; lia). apply Hou; [apply Hstk; lia|lia]. }
  cbn [set_umem umem]. rewrite decide_True by done. split; [exact Hret|]. split.
  { intros r Hr. rewrite Hr, decide_False by (by intros ->). done. }
  rewrite !Hsame by (lia || reflexivity). split_and!; try done.
  intros x Hx Hx'. rewrite Hou by (done || lia). apply Hout. lia.
Qed.

End Entry.

(** A write of two bytes from a program at 0x401000, with 8192 bytes of stack for the C code. *)
Lemma int80_call_transparent_witness :
  let rf r := match r with RAX => 7 | RSI => 0x400010 | RDX => 2 | RBX => 7 | _ => 0 end in
  exists rf' m' st1,
    x86_64_syscall_int80_stub (replicate 128 0) (replicate 4096 0) 0x9000 8192 (fun _ => 0xcc) (fun _ => 0) rf (0x8000 - 40)
      (set_umem demo_sys (fst (cpu_interrupt 0x80 0x1b 0x600000 0x202 0x23 0x401000 0 (umem demo_sys) 0x8000))) = Some (rf', 0x8000 - 40, set_umem st1 m') /\
    rf' RAX = 2 /\ rf' RBX = 7 /\ load64 m' (0x8000 - 40) = 0x401000.
Proof.
  intros rf. pose proof (int80_call_transparent demo_inv demo_dom (replicate 128 0) (replicate 4096 0) (length_replicate 128 0) (length_replicate 4096 0) 0x9000 8192 (fun _ => 0xcc) (fun _ => 0)
    rf 0x1b 0x600000 0x202 0x23 0x401000 0x8000 demo_sys demo_sys_wf) as Hc.
  destruct (int80_pushes 0x1b 0x600000 0x202 0x23 0x401000 (umem demo_sys) 0x8000) as (m & Em & _); [forall_cons; unfold is_u64; lia|]. rewrite Em in Hc |- *.
  destruct Hc as (ret & st1 & rf' & m' & E1 & E2 & E3 & E4 & E5 & _).
  - forall_cons; unfold is_u64; lia.
  - intros r. unfold is_u64. destruct r; cbn; lia.
  - reflexivity.
  - lia.
  - cbn. lia.
  - exists rf', m', st1. split; [exact E2|]. split; [|split; [exact (E4 RBX eq_refl)|exact E5]].
    rewrite E3. apply (f_equal (fmap fst)) in E1. vm_compute in E1. injection E1 as <-. reflexivity.
Defined.
