(* ===== verification/Smoke.v ===== *)
(** The self tests that kernel/core/kmain.c runs at boot, and the two demonstration threads: [kernel_m11_loader_smoke] on the planner of Elf, [m12_sync_selftest] on the locks of Sync,
    [kernel_m13_vfs_syscall_smoke] on the system calls of Kernel, and the loops of [demo_thread_a] and [demo_thread_b] on the scheduler.

    A self test that fails panics; the theorems say that none does. *)

From stdpp Require Import strings.
From S2P Require Import Prelude Mem Sync Elf Ramfs Fd Io Trap Syscall Thread Kernel.

(** * The image *)

Definition M11_DEMO_IMAGE_SIZE : Z := 12288.

(** Assignment to a field of [n] bytes at an offset. *)
Fixpoint put_le (n : nat) (off v : Z) (image : list Z) : option (list Z) :=
  match n with
  | O => Some image
  | S n => image ← arr_set image off (u8 v); put_le n (off + 1) (v / 256) image
  end.

(** [eh] is at offset 0 and [ph] at [eh->e_phoff]. *)
Definition m11_build_demo_image (image : list Z) : option (list Z) :=
  image ← (if Z.of_nat (length image) <? M11_DEMO_IMAGE_SIZE then None
           else Some (replicate (Z.to_nat M11_DEMO_IMAGE_SIZE) 0 ++ drop (Z.to_nat M11_DEMO_IMAGE_SIZE) image));
  image ← put_le 1 0 M11_ELFMAG0 image;
  image ← put_le 1 1 M11_ELFMAG1 image;
  image ← put_le 1 2 M11_ELFMAG2 image;
  image ← put_le 1 3 M11_ELFMAG3 image;
  image ← put_le 1 4 M11_ELFCLASS64 image;
  image ← put_le 1 5 M11_ELFDATA2LSB image;
  image ← put_le 1 6 M11_EV_CURRENT image;
  image ← put_le 2 16 M11_ET_EXEC image;
  image ← put_le 2 18 M11_EM_X86_64 image;
  image ← put_le 4 20 M11_EV_CURRENT image;
  image ← put_le 8 24 0x401000 image;
  image ← put_le 8 32 EHDR_SIZE image;
  image ← put_le 2 52 EHDR_SIZE image;
  image ← put_le 2 54 PHDR_SIZE image;
  image ← put_le 2 56 2 image;
  let ph0 := EHDR_SIZE in
  image ← put_le 4 ph0 M11_PT_LOAD image;
  image ← put_le 4 (ph0 + 4) (Z.lor M11_PF_R M11_PF_X) image;
  image ← put_le 8 (ph0 + 8) 0x1000 image;
  image ← put_le 8 (ph0 + 16) 0x400000 image;
  image ← put_le 8 (ph0 + 32) 16 image;
  image ← put_le 8 (ph0 + 40) 4096 image;
  image ← put_le 8 (ph0 + 48) 4096 image;
  let ph1 := EHDR_SIZE + PHDR_SIZE in
  image ← put_le 4 ph1 M11_PT_LOAD image;
  image ← put_le 4 (ph1 + 4) (Z.lor M11_PF_R M11_PF_W) image;
  image ← put_le 8 (ph1 + 8) 0x2000 image;
  image ← put_le 8 (ph1 + 16) 0x401000 image;
  image ← put_le 8 (ph1 + 32) 8 image;
  image ← put_le 8 (ph1 + 40) 4096 image;
  put_le 8 (ph1 + 48) 4096 image.

Definition m11_region : m11_user_region := Elf.mk_region 0x400000 0x800000000000.

(** * The self tests *)

(** The static variables of [m12_sync_selftest]. *)
Record m12_state := mk_m12 {
  boot_stats_lock : mcs_spinlock;
  boot_lockdep : mcs_lockdep_state;
  boot_counter : Z
}.

(** [mcs_spin_lock] on one processor, where nobody else changes the lock: the two loops, for at most [fuel] turns. *)
Fixpoint mcs_spin_lock (fuel : nat) (lock : ptr mcs_spinlock) : option (ptr mcs_spinlock) :=
  match fuel with
  | O => None
  | S fuel =>
      let '(ok, lock) := mcs_spin_try_lock lock in
      if ok then Some lock
      else match lock with
           | NULL => None
           | Ref l => if negb (s_locked l =? 0) then None else mcs_spin_lock fuel lock
           end
  end.

Section Tests.
Context `{Hardware}.

(** The lines for the segments from [i] on. *)
Fixpoint log_segments (n : nat) (i : Z) (plan : m11_process_image_plan) : io unit :=
  match n with
  | O => mret tt
  | S n =>
      sg ← io_lift (arr_get (Elf.segments plan) i);
      log_key_value_hex64 (lit "[M11] elf: segment vaddr") (vaddr sg);;
      log_key_value_hex64 (lit "[M11] elf: segment filesz") (filesz sg);;
      log_key_value_hex64 (lit "[M11] elf: segment memsz") (memsz sg);;
      log_key_value_hex64 (lit "[M11] elf: segment flags") (Elf.flags sg);;
      log_segments n (i + 1) plan
  end.

(** [image] is the static array, [plan0] the uninitialised plan. *)
Definition kernel_m11_loader_smoke (image : list Z) (plan0 : m11_process_image_plan) : io unit :=
  image ← io_lift (m11_build_demo_image image);
  r ← io_lift (m11_elf64_plan_load (Ref image) M11_DEMO_IMAGE_SIZE m11_region (Ref plan0));
  let '(rc, plan) := r in
  if negb (rc =? M11_OK) then
    log_writeln (lit "[M11] elf: plan FAILED");;
    log_writeln (lit (m11_error_name rc))
  else
    plan ← io_lift (match plan with NULL => None | Ref plan => Some plan end);
    log_writeln (lit "[M11] elf: ident ok");;
    log_key_value_hex64 (lit "[M11] elf: phnum") (segment_count plan);;
    log_segments (Z.to_nat (segment_count plan)) 0 plan;;
    log_key_value_hex64 (lit "[M11] elf: plan ok entry") (plan_entry plan);;
    log_writeln (lit "[M11] user image plan ready").

(** [fuel] bounds the turns of [mcs_spin_lock]; on the static variables and the devices. *)
Definition m12_sync_selftest (file : ptr (list Z)) (buf0 : list Z) (fuel : nat) (v : m12_state) (d : kdev) : option (outcome unit * m12_state * kdev) :=
  let panic line reason code v := '(r, d) ← kernel_panic_at buf0 file line (lit reason) code d; Some (r, v, d) in
  dep ← mcs_lockdep_init (Ref (boot_lockdep v));
  let lock := mcs_spin_init (Ref (boot_stats_lock v)) 10 (lit "boot_stats") in
  match dep, lock with
  | Ref dep, Ref lock =>
      '(rc, dep) ← mcs_lockdep_before_acquire (Ref dep) 10 (lit "boot_stats");
      match dep with
      | NULL => None
      | Ref dep =>
          if negb (rc =? MCS_SYNC_OK) then panic 405 "M12 lockdep acquire failed" 0xC12A0001 (mk_m12 lock dep (boot_counter v))
          else
            lock ← mcs_spin_lock fuel (Ref lock);
            let boot_counter := u64 (boot_counter v + 1) in
            match mcs_spin_unlock lock with
            | NULL => None
            | Ref lock =>
                '(rc, dep) ← mcs_lockdep_after_release (Ref dep) 10 (lit "boot_stats");
                match dep with
                | NULL => None
                | Ref dep =>
                    if negb (rc =? MCS_SYNC_OK) then panic 413 "M12 lockdep release failed" 0xC12A0002 (mk_m12 lock dep boot_counter)
                    else '(r, d) ← log_writeln (lit "[M12] sync selftest passed") d; Some (r, mk_m12 lock dep boot_counter, d)
                end
            end
      end
  | _, _ => None
  end.

Definition get_umem : kio mem := fun st => Some (Done (umem st), st).

Definition set_region (r : mcsos_user_region) : kio unit := fun st => Some (Done tt, mcsos_syscall_set_user_region r st).

(** [smoke_path] and [smoke_buf] are the addresses of the static arrays. *)
Definition kernel_m13_vfs_syscall_smoke (file : ptr (list Z)) (buf0 kpath0 kbuf0 : list Z) (smoke_path smoke_buf : Z) : kio unit :=
  set_region (mk_user_region 0x1 0xFFFFFFFFFFFFFFFE);;
  fd ← run_call (mcsos_syscall_dispatch kpath0 kbuf0 5 smoke_path 10 MCS_O_RDONLY 0 0 0);
  (if fd <? 0 then kernel_panic file buf0 439 "M13 syscall open failed" (u64 fd) else mret tt);;
  run_dev (log_key_value_hex64 (lit "[M13] syscall: open fd") (u64 fd));;
  n ← run_call (mcsos_syscall_dispatch kpath0 kbuf0 6 (u64 fd) smoke_buf 5 0 0 0);
  (if negb (n =? 5) then kernel_panic file buf0 445 "M13 syscall read failed" (u64 n) else mret tt);;
  m ← get_umem;
  (if negb (load8 m smoke_buf =? 104) || negb (load8 m (smoke_buf + 1) =? 101) || negb (load8 m (smoke_buf + 2) =? 108)
       || negb (load8 m (smoke_buf + 3) =? 108) || negb (load8 m (smoke_buf + 4) =? 111)
    then kernel_panic file buf0 448 "M13 syscall read data mismatch" 0 else mret tt);;
  run_dev (log_writeln (lit "[M13] syscall: read data verified"));;
  seek_r ← run_call (mcsos_syscall_dispatch kpath0 kbuf0 8 (u64 fd) 0 MCS_SEEK_SET 0 0 0);
  (if negb (seek_r =? 0) then kernel_panic file buf0 454 "M13 syscall lseek failed" (u64 seek_r) else mret tt);;
  close_r ← run_call (mcsos_syscall_dispatch kpath0 kbuf0 9 (u64 fd) 0 0 0 0 0);
  (if negb (close_r =? MCS_OK) then kernel_panic file buf0 458 "M13 syscall close failed" (u64 close_r) else mret tt);;
  run_dev (log_writeln (lit "[M13] syscall: close ok"));;
  run_dev (log_writeln (lit "[M13] syscall smoke done"));;
  set_region M10_USER_REGION.

(** * The demonstration threads *)

(** One turn of the loop of [demo_thread_a] and of [demo_thread_b]; [resume] is the address after the switch. *)
Definition demo_turn (resume : Z) (line : string) : kio unit :=
  run_dev (log_writeln (lit line));;
  _ ← run_sched (fun s m => mcsos_sched_yield resume (Ref s) m);
  mret tt.

(** A turn of the thread that runs. *)
Definition current_turn (resume : Z) (l : m9_layout) : kio unit := fun st =>
  match current (k_sched (world st)) with
  | NULL => None
  | Ref a =>
      if a =? g_thread_a l then demo_turn resume "[M9] thread A tick" st
      else if a =? g_thread_b l then demo_turn resume "[M9] thread B tick" st
      else None
  end.

Fixpoint turns (resume : Z) (l : m9_layout) (n : nat) : kio unit :=
  match n with
  | O => mret tt
  | S n => current_turn resume l;; turns resume l n
  end.

End Tests.

(** * Lemmas: the image *)

Definition smoke_plan : m11_process_image_plan :=
  mk_plan 0x401000 2 ([mk_segment 0x1000 0x400000 16 4096 4096 5; mk_segment 0x2000 0x401000 8 4096 4096 6] ++ replicate 6 zero_segment).

Lemma smoke_image image plan0 : Z.of_nat (length image) = M11_DEMO_IMAGE_SIZE ->
  exists img, m11_build_demo_image image = Some img /\
    m11_elf64_plan_load (Ref img) M11_DEMO_IMAGE_SIZE m11_region (Ref plan0) = Some (M11_OK, Ref smoke_plan).
Proof.
  intros Hl. unfold m11_build_demo_image. rewrite Hl, Z.ltb_irrefl. rewrite drop_ge, app_nil_r by (unfold M11_DEMO_IMAGE_SIZE in *; lia).
  eexists. split; [vm_compute; reflexivity|]. vm_compute. reflexivity.
Qed.

(** * Lemmas: descriptors *)

(** Opening an existing file for reading takes the first slot when it is free. *)
Lemma open_existing fss t k fs path s i f :
  vfs_wf fss t -> fss !! k = Some fs -> is_cstr path s -> lookup_spec fs s = inl i -> arr_get t 0 = Some f -> f_used f = 0 ->
  mcs_vfs_open (Ref t) fss (Ref k) (Ref path) MCS_O_RDONLY = Some (0, Ref (<[0%nat := mk_file 1 MCS_O_RDONLY 0 (Ref (k, i)) (Ref k)]> t), fss) /\
  vfs_wf fss (<[0%nat := mk_file 1 MCS_O_RDONLY 0 (Ref (k, i)) (Ref k)]> t).
Proof.
  intros Hwf Hk Hp Hl Hf Hu. pose proof Hwf as (Hlen & Hh & _). pose proof (Hh k fs Hk) as Hfs.
  destruct (node_at_exists fs i Hfs) as [nd Hnd]; [by eapply lookup_spec_live|]. split.
  - unfold mcs_vfs_open. rewrite Hk. cbn [mbind option_bind]. change (default_flags MCS_O_RDONLY) with MCS_O_RDONLY. unfold open_node.
    rewrite (lookup_refines fs path s) by done. rewrite Hl. cbn [mbind option_bind]. change (negb (MCS_OK =? MCS_OK)) with false. cbn iota zeta.
    assert (Hid : <[k := fs]> fss = fss) by (by apply insert_id). cbn [mbind option_bind]. change (negb (MCS_OK =? MCS_OK)) with false. cbn iota. rewrite Hid, (node_at_get _ _ _ Hnd). cbn [mbind option_bind]. change (mcs_can_write MCS_O_RDONLY) with false. rewrite andb_false_r.
    unfold mcs_fd_alloc. change (Z.to_nat MCS_MAX_OPEN_FILES) with 16%nat. cbn [fd_alloc_loop]. rewrite Hf. cbn [mbind option_bind]. rewrite Hu. cbn [Z.eqb].
    rewrite arr_set_lt by (unfold MCS_MAX_OPEN_FILES in Hlen; lia). cbn [mbind option_bind]. change (0 <? 0) with false. cbn iota.
    change (flag_set MCS_O_RDONLY MCS_O_APPEND) with false. change (flag_set MCS_O_RDONLY MCS_O_TRUNC) with false. cbn iota.
    rewrite arr_set_lt by (rewrite length_insert; unfold MCS_MAX_OPEN_FILES in Hlen; lia). cbn [mbind option_bind]. by rewrite list_insert_insert_eq.
  - apply (vfs_wf_update fss fss t 0); [done|done|apply heap_le_refl|]. eapply slot_ok; [done|done|unfold LONG_MAX; lia|done].
Qed.

Lemma rewind fss t f k fs i nd :
  vfs_wf fss t -> arr_get t 0 = Some f -> (f_used f =? 0) = false -> f_node f = Ref (k, i) -> fss !! k = Some fs -> node_at fs i nd -> type nd = MCS_VNODE_FILE ->
  mcs_vfs_lseek (Ref t) fss 0 0 MCS_SEEK_SET = Some (0, Ref (<[0%nat := set_offset f 0]> t)).
Proof.
  intros Hwf Hf Hu Hn Hk Hnd Hty. unfold mcs_vfs_lseek. rewrite (fd_get_spec fss) by done. rewrite Hf, Hu. cbn [mbind option_bind]. rewrite Hn.
  unfold get_node. cbn [fst snd]. rewrite Hk. cbn [mbind option_bind]. rewrite (node_at_get _ _ _ Hnd). cbn [mbind option_bind].
  rewrite decide_False by (by rewrite Hty). pose proof Hwf as (Hl & _). change (MCS_SEEK_SET =? MCS_SEEK_SET) with true. cbn iota.
  change ((0 + 0 <? LONG_MIN) || (LONG_MAX <? 0 + 0)) with false. cbn iota. change (0 + 0 <? 0) with false. cbn iota. change (u64 (0 + 0)) with 0.
  rewrite put_offset_spec by (unfold MCS_MAX_OPEN_FILES in Hl; lia). done.
Qed.

Lemma close_slot fss t f :
  vfs_wf fss t -> arr_get t 0 = Some f -> (f_used f =? 0) = false -> mcs_vfs_close (Ref t) 0 = Some (MCS_OK, Ref (<[0%nat := closed_file]> t)).
Proof.
  intros Hwf Hf Hu. unfold mcs_vfs_close. rewrite (fd_get_spec fss) by done. rewrite Hf, Hu. cbn [mbind option_bind]. pose proof Hwf as (Hl & _).
  rewrite arr_set_lt by (unfold MCS_MAX_OPEN_FILES in Hl; lia). done.
Qed.

Section Smoke.
Context `{Hardware} {Hready : UartReady}.

(** Lines that are printed in order. *)
Definition line (x : string) : list Z := crlf (bytes_of x) ++ [13; 10].

Lemma quiet_end e : quiet e -> quiet (e;; mret tt).
Proof. intros [bs He]. exists (bs ++ []). apply transmits_seq; [done|apply transmits_ret]. Qed.

Lemma smoke_segments : quiet (log_segments 2 0 smoke_plan).
Proof.
  cbn [log_segments]. rewrite (lift_some _ (mk_segment 0x1000 0x400000 16 4096 4096 5)) by reflexivity.
  rewrite (lift_some _ (mk_segment 0x2000 0x401000 8 4096 4096 6)) by reflexivity. cbn [vaddr filesz memsz Elf.flags].
  do 7 (apply quiet_seq; [apply quiet_kv; [reflexivity|unfold is_u64; lia]|]). apply quiet_end, quiet_kv; [reflexivity|unfold is_u64; lia].
Qed.

Lemma m11_smoke_spec image plan0 : Z.of_nat (length image) = M11_DEMO_IMAGE_SIZE ->
  exists bs, transmits line_ok (kernel_m11_loader_smoke image plan0) (line "[M11] elf: ident ok" ++ bs ++ line "[M11] user image plan ready").
Proof.
  intros Hl. destruct (smoke_image image plan0 Hl) as (img & Ei & Ep). unfold kernel_m11_loader_smoke.
  rewrite (lift_some _ img) by done. rewrite (lift_some _ (M11_OK, Ref smoke_plan)) by done. change (negb (M11_OK =? M11_OK)) with false. cbn iota.
  rewrite (lift_some _ smoke_plan) by done.
  destruct (quiet_kv "[M11] elf: phnum" (segment_count smoke_plan) eq_refl ltac:(unfold is_u64; cbn; lia)) as [b1 H1]. destruct smoke_segments as [b2 H2].
  destruct (quiet_kv "[M11] elf: plan ok entry" (plan_entry smoke_plan) eq_refl ltac:(unfold is_u64; cbn; lia)) as [b3 H3].
  exists (b1 ++ b2 ++ b3). rewrite <- !app_assoc.
  apply transmits_seq_ok; [by apply log_writeln_lit|]. apply transmits_seq_ok; [exact H1|]. apply transmits_seq_ok; [exact H2|].
  apply transmits_seq_ok; [exact H3|by apply log_writeln_lit].
Qed.

(** * Lemmas: the locks *)

Lemma m12_spec file buf0 fuel v d :
  length (held_class (boot_lockdep v)) = 16%nat -> length (held_name (boot_lockdep v)) = 16%nat -> (0 < fuel)%nat -> line_ok d ->
  exists v' d', m12_sync_selftest file buf0 fuel v d = Some (Done tt, v', d') /\ printed (line "[M12] sync selftest passed") d d' /\
    boot_counter v' = u64 (boot_counter v + 1) /\ s_locked (boot_stats_lock v') = 0 /\ held (boot_lockdep v') = [] /\ violation_count (boot_lockdep v') = 0.
Proof.
  intros H1 H2 Hf Hd. unfold m12_sync_selftest. destruct (init_loop_spec (boot_lockdep v) H1 H2) as (dep & -> & Hwf & Hh & Hv).
  cbn [mbind option_bind mcs_spin_init].
  destruct (acquire_spec dep 10 (lit "boot_stats") Hwf ltac:(lia)) as (rc & dep1 & -> & Hwf1 & [(-> & _ & _ & Hh1 & Hv1)|([[-> Hd16]|(-> & _ & Hbad)] & _)]).
  2:{ exfalso. apply (f_equal length) in Hh. unfold held in Hh. rewrite length_take, (ld_class _ Hwf), Hd16 in Hh. done. }
  2:{ exfalso. apply Hbad. by rewrite Hh. }
  cbn [mbind option_bind]. change (negb (MCS_SYNC_OK =? MCS_SYNC_OK)) with false. cbn iota.
  destruct fuel as [|fuel]; [lia|]. cbn [mcs_spin_lock mcs_spin_try_lock s_locked Z.eqb mcs_spin_unlock mbind option_bind].
  destruct (release_spec dep1 10 (lit "boot_stats") Hwf1 ltac:(lia)) as (rc & dep2 & -> & Hwf2 & [(-> & Hh2 & Hv2)|([[-> Hd0]|(-> & Hbad)] & _)]).
  2:{ rewrite Hh1, Hh in Hd0. done. } 2:{ rewrite Hh1, Hh in Hbad. done. }
  cbn [mbind option_bind]. change (negb (MCS_SYNC_OK =? MCS_SYNC_OK)) with false. cbn iota.
  destruct (log_writeln_lit "[M12] sync selftest passed" eq_refl d Hd) as (d' & -> & Hp). cbn [mbind option_bind].
  eexists _, d'. split; [reflexivity|]. split; [exact Hp|]. cbn [boot_counter boot_stats_lock s_locked boot_lockdep]. split_and!; [done..| |congruence].
  rewrite Hh1, Hh in Hh2. symmetry in Hh2. cbn in Hh2. destruct (held dep2) as [|x [|y l]]; done.
Qed.

(** * Lemmas: system calls from the kernel *)

(** The system-call state of a running kernel, with any user region. *)
Record kernel_ready (resume : Z) (st : sys_state kworld) : Prop := {
  kr_wf : sys_wf k_inv k_dom st;
  kr_ops : g_ops st = kernel_ops resume
}.

(** What a call leaves alone, besides the table of the current thread. *)
Definition only_table (a : Z) (st st' : sys_state kworld) : Prop :=
  k_sched (world st') = k_sched (world st) /\ k_dev (world st') = k_dev (world st) /\ k_idt (world st') = k_idt (world st) /\
  forall b, b <> a -> tab_get (world st') b = tab_get (world st) b.

Lemma put_only_table (st st' : sys_state kworld) a t : tab_put (world st) a t = Some (world st') -> only_table a st st'.
Proof.
  cbn. unfold update. destruct (threads (k_machine (world st)) !! a) as [th|] eqn:E; [|done]. cbn. intros [= Hw]. unfold only_table. rewrite <- Hw. cbn.
  split_and!; [done..|]. intros b Hb. by rewrite lookup_insert_ne.
Qed.

Lemma put_queue (st st' : sys_state kworld) a t s : tab_put (world st) a t = Some (world st') -> forall x,
  represents_sched s (k_machine (world st)) x -> represents_sched s (k_machine (world st')) x.
Proof.
  cbn. unfold update. destruct (threads (k_machine (world st)) !! a) as [th|] eqn:E; [|done]. cbn. intros [= Hw] x Hx. rewrite <- Hw. cbn [k_machine]. by apply put_table_inv.
Qed.

Lemma run_kv x v st : forallb (fun c => negb (c =? 0)) (bytes_of x) = true -> is_u64 v -> open_line (k_dev (world st)) ->
  exists st', (forall B (k : unit -> kio B), (run_dev (log_key_value_hex64 (lit x) v) ≫= k) st = k tt st') /\ dev_only st st' /\ open_line (k_dev (world st')).
Proof.
  intros Hx Hv Ho. destruct (quiet_kv x v Hx Hv) as [bs Hq]. destruct (Hq _ (open_line_ok _ Ho)) as (d & E & Hp).
  exists (set_world st (set_dev (world st) d)). split; [intros B k; unfold mbind, kio_bind, run_dev; by rewrite E|]. split; [|apply Hp]. exists d. split; [done|by eexists].
Qed.

Lemma dev_only_ready resume st st' : dev_only st st' -> kernel_ready resume st -> kernel_ready resume st'.
Proof.
  intros (d & -> & Ho%sends_open) [Hwf Hops]. destruct Hwf as [W1 W2 W3 W4 W5 W6 W7]. split; [|done]. split; try done. destruct W2 as [Hs _]. by apply set_dev_inv.
Qed.

Definition smoke_region : mcsos_user_region := mk_user_region 0x1 0xFFFFFFFFFFFFFFFE.

(** During the test that started in [w0]: the thread [a] runs with the descriptors [t], the file systems are [fss] and memory is [m]. *)
Record m13_at (resume : Z) (w0 : kworld) (a : Z) (fss : fs_heap) (m : mem) (st : sys_state kworld) (t : mcs_fd_table) : Prop := {
  ma_ready : kernel_ready resume st;
  ma_cur : k_get_current_fd_table (world st) = Ref a;
  ma_tab : tab_get (world st) a = Some t;
  ma_files : files st = fss;
  ma_region : g_user_region st = smoke_region;
  ma_sched : k_sched (world st) = k_sched w0;
  ma_queue x : represents_sched (k_sched w0) (k_machine w0) x -> represents_sched (k_sched w0) (k_machine (world st)) x;
  ma_mem x : umem st x = m x
}.

Section Steps.
Context (resume : Z) (w0 : kworld) (a : Z) (fss : fs_heap).

Lemma m13_table m st t : m13_at resume w0 a fss m st t -> current_table st a /\ sys_wf k_inv k_dom st /\ vfs_wf fss t /\ open_line (k_dev (world st)).
Proof.
  intros [[Hwf Ho] Hc Ht <- _ _ _ _]. split_and!; [|done|by eapply wf_tables|apply (wf_world _ _ _ Hwf)]. exists k_get_current_fd_table. by rewrite Ho.
Qed.

Lemma m13_call m m' st st' t t' : m13_at resume w0 a fss m st t -> call_ok k_inv k_dom st st' -> files st' = fss -> (forall x, umem st' x = m' x) ->
  tab_get (world st') a = Some t' -> tab_put (world st) a t' = Some (world st') -> m13_at resume w0 a fss m' st' t'.
Proof.
  intros [[Hwf Ho] Hc Ht Hf Hr Hs Hq Hm] (Hwf' & Ho' & Hr') Hf' Hm' Ht' Hput. pose proof (put_queue _ _ _ _ (k_sched w0) Hput) as Hq'. apply put_only_table in Hput as (Hs' & _).
  split; try done; [split; [done|congruence]| |congruence|congruence|auto]. unfold k_get_current_fd_table in *. by rewrite Hs'.
Qed.

Lemma m13_dev m st st' t : m13_at resume w0 a fss m st t -> dev_only st st' -> m13_at resume w0 a fss m st' t.
Proof. intros [Hr Hc Ht Hf Hg Hs Hq Hm] Hd. pose proof (dev_only_ready _ _ _ Hd Hr) as Hr'. destruct Hd as (d & -> & _). by split. Qed.

End Steps.

Definition hello : list Z := bytes_of "hello".

(** The demo file: its node in the kernel's file system, and how it starts. *)
Record hello_file (fss : fs_heap) (i : Z) (c : list Z) : Prop := {
  hf_fs : exists fs, fss !! 0%nat = Some fs /\ lookup_spec fs (bytes_of "/hello.txt") = inl i /\ contents fs i = Some c;
  hf_start : take 5 c = hello
}.

(** The bytes that a read of five bytes gives, and the descriptor after it. *)
Lemma hello_read fss t i c f : vfs_wf fss t -> hello_file fss i c -> arr_get t 0 = Some f -> f = mk_file 1 MCS_O_RDONLY 0 (Ref (0%nat, i)) (Ref 0%nat) ->
  vfs_wf fss (<[0%nat := set_offset f 5]> t) /\
  (forall buf, 5 <= Z.of_nat (length buf) -> mcs_vfs_read (Ref t) fss 0 (Ref buf) 5 = Some (5, Ref (<[0%nat := set_offset f 5]> t), Ref (hello ++ drop 5 buf))) /\
  exists fs nd, fss !! 0%nat = Some fs /\ node_at fs i nd /\ type nd = MCS_VNODE_FILE.
Proof.
  intros Hwf [(fs & Hk & Hl & Hc) Hs] Hf ->. pose proof Hwf as (_ & Hh & _). pose proof (Hh _ fs Hk) as Hfs. cbn beta in Hfs.
  destruct (node_at_exists fs i Hfs) as [nd Hnd]; [by eapply lookup_spec_live|].
  assert (Hlen : (5 <= length c)%nat) by (apply (f_equal length) in Hs; rewrite length_take in Hs; change (length hello) with 5%nat in Hs; lia).
  split_and!.
  - apply (set_offset_wf fss t 0); [done|done|done|unfold LONG_MAX; lia].
  - intros buf Hb. rewrite (read_spec fss t 0 (mk_file 1 MCS_O_RDONLY 0 (Ref (0%nat, i)) (Ref 0%nat)) 0 i fs nd buf 5 c) by (done || lia). cbn [f_offset].
    replace (Z.max 0 (Z.min 5 (Z.of_nat (length c) - 0))) with 5 by lia. change (Z.to_nat 5) with 5%nat. change (Z.to_nat 0) with 0%nat. change (drop 0 c) with c. rewrite Hs. done.
  - exists fs, nd. split_and!; [done|done|]. unfold contents in Hc. destruct Hnd as [_ Hnd]. rewrite Hnd in Hc. cbn in Hc. case_bool_decide as Hb; [apply Hb|done].
Qed.

Section Calls.
Context (resume : Z) (w0 : kworld) (a : Z) (fss : fs_heap) (i : Z) (c : list Z) (Hh : hello_file fss i c).
Context (kpath0 kbuf0 : list Z) (Hkp : length kpath0 = 128%nat) (Hkb : length kbuf0 = 4096%nat).

Abbreviation at_ := (m13_at resume w0 a fss).

(** The descriptor that the test opens, at an offset. *)
Definition hello_slot (o : Z) : mcs_file := mk_file 1 MCS_O_RDONLY o (Ref (0%nat, i)) (Ref 0%nat).

Lemma slot_get (f : mcs_file) t g : arr_get t 0 = Some g -> arr_get (<[0%nat := f]> t) 0 = Some f.
Proof. intros [_ Hg]%arr_get_Some. apply arr_get_Some. split; [lia|]. apply list_lookup_insert_eq. by apply lookup_lt_Some in Hg. Qed.

Lemma smoke_range x n : 0 < x -> x + n < 2 ^ 64 - 1 -> user_range smoke_region x n.
Proof. intros Hx Hn. right. cbn. lia. Qed.

Lemma m13_open m st t f0 p : at_ m st t -> arr_get t 0 = Some f0 -> f_used f0 = 0 -> 0 < p -> p + 10 < 2 ^ 64 - 1 -> user_bytes m p 10 = bytes_of "/hello.txt" ->
  exists st', mcsos_syscall_dispatch kpath0 kbuf0 5 p 10 MCS_O_RDONLY 0 0 0 st = Some (0, st') /\ at_ m st' (<[0%nat := hello_slot 0]> t).
Proof.
  intros A Hf0 Hu0 Hp0 Hp1 Hpath. destruct (m13_table _ _ _ _ _ _ _ A) as (C & Hwf & Hv & _). destruct Hh as [(fs & Hk & Hlk & Hc) Hs].
  assert (Hz : 0 ∉ bytes_of "/hello.txt") by (apply (bool_decide_unpack _); by vm_compute).
  assert (Hopen : forall rest, mcs_vfs_open (Ref t) fss (Ref 0%nat) (Ref (user_bytes (umem st) p 10 ++ 0 :: rest)) MCS_O_RDONLY = Some (0, Ref (<[0%nat := hello_slot 0]> t), fss)).
  { intros rest. apply (open_existing _ _ _ fs _ (bytes_of "/hello.txt") i f0); try done. split; [done|]. exists rest.
    rewrite <- Hpath. f_equal. apply user_bytes_ext. intros x _. apply (ma_mem _ _ _ _ _ _ _ A). }
  assert (Hv1 : vfs_wf fss (<[0%nat := hello_slot 0]> t)).
  { apply (open_existing _ t _ fs (bytes_of "/hello.txt" ++ [0]) (bytes_of "/hello.txt") i f0); try done. split; [done|by exists []]. }
  pose proof (ma_files _ _ _ _ _ _ _ A) as Hf.
  destruct (do_open k_inv k_dom kpath0 kbuf0 Hkp Hkb st a 0%nat t p 10 MCS_O_RDONLY 0 (<[0%nat := hello_slot 0]> t) fss 0 0 0) as (st' & E & K & U & F & T & P);
    [exact Hwf|exact C| |apply A|unfold is_u64; lia|unfold SYS_MAX_PATH; lia|rewrite (ma_region _ _ _ _ _ _ _ A); by apply smoke_range|by rewrite Hf|exact Hv1|rewrite Hf; apply heap_le_refl|].
  { exists k_get_ramfs. by rewrite (kr_ops _ _ (ma_ready _ _ _ _ _ _ _ A)). }
  exists st'. split; [exact E|]. eapply (m13_call _ _ _ _ m); try done. intros x. rewrite U. apply A.
Qed.

Lemma m13_read m st t g q : at_ m st (<[0%nat := hello_slot 0]> t) -> arr_get t 0 = Some g -> 0 < q -> q + 5 < 2 ^ 64 - 1 ->
  exists st', mcsos_syscall_dispatch kpath0 kbuf0 6 0 q 5 0 0 0 st = Some (5, st') /\ at_ (write_bytes m q hello) st' (<[0%nat := hello_slot 5]> t).
Proof.
  intros A Hg Hq0 Hq1. destruct (m13_table _ _ _ _ _ _ _ A) as (C & Hwf & Hv & _). pose proof (ma_files _ _ _ _ _ _ _ A) as Hf.
  destruct (hello_read _ _ i c (hello_slot 0) Hv Hh (slot_get _ _ _ Hg) eq_refl) as (Hv' & Hread & _). rewrite list_insert_insert_eq in Hv', Hread.
  change (set_offset (hello_slot 0) 5) with (hello_slot 5) in Hv', Hread.
  destruct (do_read k_inv k_dom kpath0 kbuf0 Hkp Hkb st a (<[0%nat := hello_slot 0]> t) 0 q 5 hello (<[0%nat := hello_slot 5]> t) 0 0 0) as (ret & st' & E & K & F & T & P & Hgood & _);
    [exact Hwf|exact C|apply A|lia|unfold is_u64; lia|unfold is_u64; lia|change (length hello) with 5%nat; lia|done|by rewrite Hf|by rewrite Hf|].
  change (Z.of_nat (length hello)) with 5 in Hgood. destruct Hgood as [-> Hx]; [rewrite (ma_region _ _ _ _ _ _ _ A); by apply smoke_range|].
  exists st'. split; [exact E|]. eapply m13_call; try done; [congruence|]. intros x. rewrite Hx. unfold write_bytes. by rewrite (ma_mem _ _ _ _ _ _ _ A).
Qed.

Lemma m13_seek m st t g : at_ m st (<[0%nat := hello_slot 5]> t) -> arr_get t 0 = Some g ->
  exists st', mcsos_syscall_dispatch kpath0 kbuf0 8 0 0 MCS_SEEK_SET 0 0 0 st = Some (0, st') /\ at_ m st' (<[0%nat := hello_slot 0]> t).
Proof.
  intros A Hg. destruct (m13_table _ _ _ _ _ _ _ A) as (C & Hwf & Hv & _). pose proof (ma_files _ _ _ _ _ _ _ A) as Hf.
  pose proof (set_offset_wf fss _ 0 (hello_slot 5) 0 Hv (slot_get _ _ _ Hg) eq_refl ltac:(unfold LONG_MAX; lia)) as Hv'.
  change (Z.to_nat 0) with 0%nat in Hv'. rewrite list_insert_insert_eq in Hv'. change (set_offset (hello_slot 5) 0) with (hello_slot 0) in Hv'.
  assert (Hs : mcs_vfs_lseek (Ref (<[0%nat := hello_slot 5]> t)) fss 0 0 MCS_SEEK_SET = Some (0, Ref (<[0%nat := hello_slot 0]> t))).
  { destruct (hello_read _ _ i c (hello_slot 0) Hv' Hh (slot_get _ _ _ Hg) eq_refl) as (_ & _ & fs & nd & Hk & Hnd & Hty).
    rewrite (rewind fss _ (hello_slot 5) 0%nat fs i nd) by (try done; by apply (slot_get _ _ g)). by rewrite list_insert_insert_eq. }
  destruct (do_seek k_inv k_dom kpath0 kbuf0 st a (<[0%nat := hello_slot 5]> t) 0 0 0 (<[0%nat := hello_slot 0]> t) 0 0 0) as (st' & E & K & U & F & T & P);
    [exact Hwf|exact C|apply A|lia|lia|by rewrite Hf|by rewrite Hf|].
  exists st'. split; [exact E|]. eapply (m13_call _ _ _ _ m); try done; [congruence|]. intros x. rewrite U. apply A.
Qed.

Lemma m13_close m st t g : at_ m st (<[0%nat := hello_slot 0]> t) -> arr_get t 0 = Some g ->
  exists st', mcsos_syscall_dispatch kpath0 kbuf0 9 0 0 0 0 0 0 st = Some (MCS_OK, st') /\ at_ m st' (<[0%nat := closed_file]> t).
Proof.
  intros A Hg. destruct (m13_table _ _ _ _ _ _ _ A) as (C & Hwf & Hv & _). pose proof (ma_files _ _ _ _ _ _ _ A) as Hf.
  pose proof (close_slot fss _ (hello_slot 0) Hv (slot_get _ _ _ Hg) eq_refl) as Hcl. rewrite list_insert_insert_eq in Hcl.
  pose proof (free_slot_wf fss _ 0 closed_file Hv eq_refl) as Hv'. change (Z.to_nat 0) with 0%nat in Hv'. rewrite list_insert_insert_eq in Hv'.
  destruct (do_close k_inv k_dom kpath0 kbuf0 st a (<[0%nat := hello_slot 0]> t) 0 MCS_OK (<[0%nat := closed_file]> t) 0 0 0 0 0) as (st' & E & K & U & F & T & P);
    [exact Hwf|exact C|apply A|lia|exact Hcl|by rewrite Hf|].
  exists st'. split; [exact E|]. eapply (m13_call _ _ _ _ m); try done; [congruence|]. intros x. rewrite U. apply A.
Qed.

End Calls.

(** Five bytes read back one by one. *)
Lemma hello_bytes m q : load8 (write_bytes m q hello) q = 104 /\ load8 (write_bytes m q hello) (q + 1) = 101 /\ load8 (write_bytes m q hello) (q + 2) = 108 /\
  load8 (write_bytes m q hello) (q + 3) = 108 /\ load8 (write_bytes m q hello) (q + 4) = 111.
Proof.
  assert (Hb : forall k v, hello !! k = Some v -> load8 (write_bytes m q hello) (q + Z.of_nat k) = u8 (u8 v)).
  { intros k v Hk. unfold load8, write_bytes. pose proof (lookup_lt_Some _ _ _ Hk). rw_true (q <=? q + Z.of_nat k). rw_true (q + Z.of_nat k <? q + Z.of_nat (length hello)).
    cbn [andb]. replace (Z.to_nat (q + Z.of_nat k - q)) with k by lia. by rewrite Hk. }
  pose proof (Hb 0%nat _ eq_refl) as H0. rewrite Z.add_0_r in H0.
  split_and!; [exact H0|exact (Hb 1%nat _ eq_refl)|exact (Hb 2%nat _ eq_refl)|exact (Hb 3%nat _ eq_refl)|exact (Hb 4%nat _ eq_refl)].
Qed.

Lemma m13_spec resume file buf0 kpath0 kbuf0 p q st a t f0 i c :
  length kpath0 = 128%nat -> length kbuf0 = 4096%nat -> kernel_ready resume st -> k_get_current_fd_table (world st) = Ref a ->
  tab_get (world st) a = Some t -> arr_get t 0 = Some f0 -> f_used f0 = 0 -> hello_file (files st) i c ->
  0 < p -> p + 10 < 2 ^ 64 - 1 -> 0 < q -> q + 5 < 2 ^ 64 - 1 -> user_bytes (umem st) p 10 = bytes_of "/hello.txt" ->
  exists st', kernel_m13_vfs_syscall_smoke file buf0 kpath0 kbuf0 p q st = Some (Done tt, mcsos_syscall_set_user_region M10_USER_REGION st') /\
    m13_at resume (world st) a (files st) (write_bytes (umem st) q hello) st' (<[0%nat := closed_file]> t).
Proof.
  intros Hkp Hkb [Hwf Hops] Hcur Htab Hf0 Hu0 Hh Hp0 Hp1 Hq0 Hq1 Hpath. unfold kernel_m13_vfs_syscall_smoke.
  set (S0 := mcsos_syscall_set_user_region smoke_region st).
  assert (A0 : m13_at resume (world st) a (files st) (umem st) S0 t).
  { split; try done. destruct Hwf as [W1 W2 W3 W4 W5 W6 W7]. split; [|done]. split; try done; unfold is_u64; cbn; lia. }
  change ((set_region _ ≫= ?k) st) with (k tt S0).
  destruct (m13_open _ _ _ _ i c Hh kpath0 kbuf0 Hkp Hkb _ S0 t f0 p A0 Hf0 Hu0 Hp0 Hp1 Hpath) as (S1 & E1 & A1).
  rewrite (call_step _ _ _ _ _ E1). change (0 <? 0) with false. cbn iota. rewrite ret_step. change (u64 0) with 0.
  destruct (run_kv "[M13] syscall: open fd" 0 S1 eq_refl ltac:(unfold is_u64; lia)) as (S2 & E2 & D2 & _); [apply (m13_table _ _ _ _ _ _ _ A1)|]. rewrite E2. clear E2.
  pose proof (m13_dev _ _ _ _ _ _ _ _ A1 D2) as A2.
  destruct (m13_read _ _ _ _ i c Hh kpath0 kbuf0 Hkp Hkb _ S2 t f0 q A2 Hf0 Hq0 Hq1) as (S3 & E3 & A3).
  rewrite (call_step _ _ _ _ _ E3). change (negb (5 =? 5)) with false. cbn iota. rewrite ret_step. change ((get_umem ≫= ?k) S3) with (k (umem S3) S3). cbv beta.
  assert (Hb : forall x, load8 (umem S3) x = load8 (write_bytes (umem st) q hello) x) by (intros x; unfold load8; by rewrite (ma_mem _ _ _ _ _ _ _ A3)).
  rewrite !Hb. destruct (hello_bytes (umem st) q) as (-> & -> & -> & -> & ->).
  match goal with |- context [if ?b then _ else _] => change b with false end. cbn iota. rewrite ret_step.
  destruct (run_log "[M13] syscall: read data verified" S3 eq_refl) as (S4 & E4 & D4 & _); [apply (m13_table _ _ _ _ _ _ _ A3)|]. rewrite E4. clear E4.
  destruct (m13_seek _ _ _ _ i c Hh kpath0 kbuf0 Hkp Hkb _ S4 t f0 (m13_dev _ _ _ _ _ _ _ _ A3 D4) Hf0) as (S5 & E5 & A5).
  rewrite (call_step _ _ _ _ _ E5). change (negb (0 =? 0)) with false. cbn iota. rewrite ret_step.
  destruct (m13_close _ _ _ _ i kpath0 kbuf0 Hkp Hkb _ S5 t f0 A5 Hf0) as (S6 & E6 & A6).
  rewrite (call_step _ _ _ _ _ E6). change (negb (MCS_OK =? MCS_OK)) with false. cbn iota. rewrite ret_step.
  destruct (run_log "[M13] syscall: close ok" S6 eq_refl) as (S7 & E7 & D7 & _); [apply (m13_table _ _ _ _ _ _ _ A6)|]. rewrite E7. clear E7.
  pose proof (m13_dev _ _ _ _ _ _ _ _ A6 D7) as A7.
  destruct (run_log "[M13] syscall smoke done" S7 eq_refl) as (S8 & E8 & D8 & _); [apply (m13_table _ _ _ _ _ _ _ A7)|]. rewrite E8. clear E8.
  exists S8. split; [reflexivity|]. by apply (m13_dev _ _ _ _ _ _ _ _ A7).
Qed.

(** * Lemmas: turns of the threads *)

Definition tick_line (b : bool) : string := if b then "[M9] thread A tick" else "[M9] thread B tick".

Lemma turn_spec resume x st c i o : represents_sched (k_sched (world st)) (k_machine (world st)) (mk_asched c i [o]) -> c <> i -> open_line (k_dev (world st)) ->
  forallb (fun c => negb (c =? 0)) (bytes_of x) = true ->
  exists st', demo_turn resume x st = Some (Done tt, st') /\ represents_sched (k_sched (world st')) (k_machine (world st')) (mk_asched o i [c]) /\
    open_line (k_dev (world st')) /\ sent (k_dev (world st')) = sent (k_dev (world st)) ++ line x.
Proof.
  intros Hr Hci Ho Hx. unfold demo_turn. destruct (log_writeln_lit x Hx _ (open_line_ok _ Ho)) as (d & E & Hp).
  destruct (yield_step resume _ _ _ Hr) as (s' & m' & Ey & Hr'). unfold a_yield in Hr'. cbn in Hr'. rewrite (proj2 (Z.eqb_neq c i) Hci) in Hr'. cbn in Hr'.
  unfold mbind, kio_bind, run_dev, run_sched. rewrite E. cbn [mbind option_bind world set_world set_dev k_sched k_machine]. rewrite Ey. cbn [mbind option_bind].
  eexists. split; [reflexivity|]. cbn [world set_world k_sched k_machine k_dev set_dev]. split; [exact Hr'|]. split; [apply Hp|apply (pr_sent _ _ _ Hp)].
Qed.

(** The output of [n] turns, the first of thread A when [b]. *)
Fixpoint tick_output (n : nat) (b : bool) : list Z :=
  match n with
  | O => []
  | S n => line (tick_line b) ++ tick_output n (negb b)
  end.

Definition running (l : m9_layout) (b : bool) : asched :=
  if b then mk_asched (g_thread_a l) (g_boot_thread l) [g_thread_b l] else mk_asched (g_thread_b l) (g_boot_thread l) [g_thread_a l].

Lemma turns_spec resume l n : NoDup [g_boot_thread l; g_thread_a l; g_thread_b l] -> forall b st,
  represents_sched (k_sched (world st)) (k_machine (world st)) (running l b) -> open_line (k_dev (world st)) ->
  exists st', turns resume l n st = Some (Done tt, st') /\
    represents_sched (k_sched (world st')) (k_machine (world st')) (running l (xorb b (Nat.odd n))) /\
    sent (k_dev (world st')) = sent (k_dev (world st)) ++ tick_output n b.
Proof.
  intros Hd. rewrite !NoDup_cons, !not_elem_of_cons in Hd. destruct Hd as ((Hba & Hbb & _) & (Hab & _) & _).
  induction n as [|n IH]; intros b st Hr Ho.
  { exists st. cbn. rewrite xorb_false_r, app_nil_r. done. }
  cbn [turns tick_output].
  assert (Ht : exists st1, current_turn resume l st = Some (Done tt, st1) /\ represents_sched (k_sched (world st1)) (k_machine (world st1)) (running l (negb b)) /\
    open_line (k_dev (world st1)) /\ sent (k_dev (world st1)) = sent (k_dev (world st)) ++ line (tick_line b)).
  { unfold current_turn. rewrite (si_cur _ _ _ _ _ _ Hr). destruct b; cbn [running a_cur negb tick_line] in *.
    - rewrite Z.eqb_refl. by apply turn_spec.
    - rw_false (g_thread_b l =? g_thread_a l). rewrite Z.eqb_refl. by apply turn_spec. }
  destruct Ht as (st1 & E1 & Hr1 & Ho1 & Hs1). destruct (IH (negb b) st1 Hr1 Ho1) as (st2 & E2 & Hr2 & Hs2).
  exists st2. split; [unfold mbind, kio_bind; by rewrite E1|]. split.
  - rewrite Nat.odd_succ, <- Nat.negb_odd. by destruct b, (Nat.odd n).
  - by rewrite Hs2, Hs1, app_assoc.
Qed.

End Smoke.

(** * Concrete inputs *)

(** The kernel's file system after [mcs_ramfs_init] and [mcs_ramfs_seed_file]. *)
Definition seeded_fs : mcs_ramfs :=
  match mcs_ramfs_seed_file (Ref demo_fs) (lit "/hello.txt") (Ref (bytes_of "hello-mcsos")) 11 with
  | Some (_, Ref fs) => fs
  | _ => demo_fs
  end.

Definition smoke_umem : mem := fun x => if (0x7000 <=? x) && (x <? 0x700a) then default 0 (bytes_of "/hello.txt" !! Z.to_nat (x - 0x7000)) else 0.

#[local] Instance ptr_eq_dec {A} `{EqDecision A} : EqDecision (ptr A).
Proof. solve_decision. Defined.

#[local] Instance mcs_file_eq_dec : EqDecision mcs_file.
Proof. solve_decision. Defined.

(** A kernel with a running scheduler and the demo file. *)
Definition smoke_kernel : sys_state kworld :=
  mk_sys (kernel_ops (H := quiet_hw) 0x5000) M10_USER_REGION (mk_kworld demo_queued.1 demo_queued.2 (mk_kdev [] 0 7 0) (replicate 256 (zero_gate 0)))
    smoke_umem {[ 0%nat := seeded_fs ]}.

Lemma smoke_tables : map_Forall (fun _ t => t_fd_table t = replicate 16 closed_file) (threads demo_queued.2).
Proof. apply (bool_decide_unpack _). by vm_compute. Qed.

Lemma seeded_fs_wf : ramfs_wf seeded_fs.
Proof.
  destruct (mcs_ramfs_seed_file_roundtrip demo_fs (bytes_of "/hello.txt" ++ [0]) (bytes_of "/hello.txt") (bytes_of "hello-mcsos") 11 demo_fs_wf) as (rc & fs' & E & Hwf & _).
  - split; [apply (bool_decide_unpack _); by vm_compute|by exists []].
  - change (length (bytes_of "hello-mcsos")) with 11%nat. lia.
  - unfold seeded_fs. change (lit "/hello.txt") with (Ref (bytes_of "/hello.txt" ++ [0])). by rewrite E.
Qed.

Lemma smoke_kernel_ready : kernel_ready (H := quiet_hw) 0x5000 smoke_kernel.
Proof.
  assert (Hh : heap_wf (files smoke_kernel)).
  { intros k fs. cbn [smoke_kernel files]. intros [<- <-]%lookup_singleton_Some. apply seeded_fs_wf. }
  split; [|reflexivity]. apply (boot_sys_wf (Hready := quiet_hw_ready) 0x5000); [|reflexivity|reflexivity]. split; [split; [right|reflexivity]|].
  - destruct (reachable_represents _ _ _ _ demo_queued_reachable) as (x & Hx). by exists x.
  - split_and!; [exact Hh|by eexists|]. intros k t. cbn. intros (th & Hth & ->)%fmap_Some. rewrite (smoke_tables k th Hth). by apply fresh_wf.
Qed.

(** Its current thread has the demo file open for reading and writing, and its program has two bytes to write. *)
Definition smoke_file : mcs_file := mk_file 1 MCS_O_RDWR 0 (Ref (0%nat, 1)) (Ref 0%nat).

Definition smoke_table : mcs_fd_table := smoke_file :: replicate 15 closed_file.

Definition smoke_open : sys_state kworld :=
  set_umem (from_option snd smoke_kernel (on_table smoke_kernel 0x100 (fun _ => Some (0, Ref smoke_table, files smoke_kernel)))) demo_umem.

Lemma smoke_table_wf : vfs_wf (files smoke_kernel) smoke_table.
Proof.
  assert (Hh : heap_wf (files smoke_kernel)) by apply (wf_files _ _ _ (kr_wf _ _ smoke_kernel_ready)). split; [reflexivity|]. split; [exact Hh|].
  apply Forall_cons. split; [|apply Forall_replicate; by left]. right. split; [reflexivity|]. split; [cbn; unfold LONG_MAX; lia|].
  exists 0%nat, 1, seeded_fs. eexists. split; [reflexivity|]. split; [reflexivity|]. split; [apply lookup_singleton_eq|]. split; [split; [vm_compute; split; congruence|vm_compute; reflexivity]|reflexivity].
Qed.

Lemma smoke_open_ready : kernel_ready (H := quiet_hw) 0x5000 smoke_open /\ tab_get (world smoke_open) 0x100 = Some smoke_table /\ files smoke_open = files smoke_kernel.
Proof.
  destruct (on_table_spec k_inv k_dom smoke_kernel 0x100 (replicate 16 closed_file) 0 smoke_table (files smoke_kernel) (fun _ => Some (0, Ref smoke_table, files smoke_kernel)))
    as (st & E & (Hwf & Ho & _) & _ & Hf & _ & Ht).
  - apply smoke_kernel_ready.
  - vm_compute. reflexivity.
  - reflexivity.
  - apply smoke_table_wf.
  - apply heap_le_refl.
  - unfold smoke_open. rewrite E. cbn [from_option snd]. split; [split; [by apply set_umem_ok|cbn; by rewrite Ho]|]. split; [|exact Hf]. cbn [set_umem world]. by rewrite Ht.
Qed.

(** The kernel's current thread stays current when its descriptors change. *)
Lemma kernel_keeps_caller `{Hardware} resume st a : g_ops st = kernel_ops resume -> k_get_current_fd_table (world st) = Ref a -> keeps_caller st a.
Proof.
  intros Ho Ha. exists k_get_current_fd_table. rewrite Ho. split; [reflexivity|]. split; [exact Ha|]. intros w t w' Hw. cbn. destruct (update _ _ _); [|done]. cbn. by intros [= <-].
Qed.

(** * Properties *)

Section Claims.
Context `{Hardware} {Hready : UartReady}.

(** The self tests of the image planner and of the locks pass: on any image buffer [kernel_m11_loader_smoke] prints its success lines, and from any contents of its static variables [m12_sync_selftest]
    does not panic, prints its line, counts once and leaves the lock free and the lock-order checker empty. *)
Theorem boot_selftests_pass image plan0 file buf0 fuel v d :
  Z.of_nat (length image) = M11_DEMO_IMAGE_SIZE -> length (held_class (boot_lockdep v)) = 16%nat -> length (held_name (boot_lockdep v)) = 16%nat -> (0 < fuel)%nat -> line_ok d ->
  exists bs d1 v' d2,
    kernel_m11_loader_smoke image plan0 d = Some (Done tt, d1) /\ sent d1 = sent d ++ line "[M11] elf: ident ok" ++ bs ++ line "[M11] user image plan ready" /\
    m12_sync_selftest file buf0 fuel v d1 = Some (Done tt, v', d2) /\ sent d2 = sent d1 ++ line "[M12] sync selftest passed" /\
    boot_counter v' = u64 (boot_counter v + 1) /\ s_locked (boot_stats_lock v') = 0 /\ held (boot_lockdep v') = [].
Proof.
  intros Hi H1 H2 Hf Hd. destruct (m11_smoke_spec image plan0 Hi) as [bs Hm]. destruct (Hm d Hd) as (d1 & E1 & P1).
  destruct (m12_spec file buf0 fuel v d1 H1 H2 Hf) as (v' & d2 & E2 & P2 & Hc & Hl & Hh & _); [apply open_line_ok, P1|].
  exists bs, d1, v', d2. split_and!; try done; [apply P1|apply P2].
Qed.

(** The plan that the self test accepts starts in data: the entry of the demo image lies in its second segment, which is writable and not executable, and in no executable one. *)
Theorem smoke_entry_in_data image plan0 : Z.of_nat (length image) = M11_DEMO_IMAGE_SIZE ->
  exists img plan, m11_build_demo_image image = Some img /\ m11_elf64_plan_load (Ref img) M11_DEMO_IMAGE_SIZE m11_region (Ref plan0) = Some (M11_OK, Ref plan) /\
    Forall (fun sg => Z.testbit (Elf.flags sg) 0 = true -> ~ vaddr sg <= plan_entry plan < vaddr sg + memsz sg) (Elf.segments plan) /\
    exists sg, sg ∈ Elf.segments plan /\ Elf.flags sg = Z.lor M11_PF_R M11_PF_W /\ vaddr sg <= plan_entry plan < vaddr sg + memsz sg.
Proof.
  intros Hl. destruct (smoke_image image plan0 Hl) as (img & E1 & E2). exists img, smoke_plan. split; [exact E1|]. split; [exact E2|]. split.
  - cbn [smoke_plan Elf.segments]. repeat (apply Forall_cons; split; [cbn; intros; try done; lia|]). done.
  - exists (mk_segment 0x2000 0x401000 8 4096 4096 6). split; [|split; [reflexivity|cbn; lia]]. cbn. set_solver.
Qed.

(** The system-call self test passes and cleans up. In a kernel whose file system has a file /hello.txt that starts with "hello", run by a thread whose first descriptor is free,
    [kernel_m13_vfs_syscall_smoke] opens, reads, rewinds and closes it through the dispatcher without a panic; afterwards its buffer holds these five bytes, no other byte of memory has
    changed, the file systems are as before, the descriptor is closed, the same thread is scheduled and the user region is the one of the kernel again. *)
Theorem m13_smoke_passes resume file buf0 kpath0 kbuf0 p q st a t f0 i c :
  length kpath0 = 128%nat -> length kbuf0 = 4096%nat -> kernel_ready resume st -> k_get_current_fd_table (world st) = Ref a ->
  tab_get (world st) a = Some t -> arr_get t 0 = Some f0 -> f_used f0 = 0 -> hello_file (files st) i c ->
  0 < p -> p + 10 < 2 ^ 64 - 1 -> 0 < q -> q + 5 < 2 ^ 64 - 1 -> user_bytes (umem st) p 10 = bytes_of "/hello.txt" ->
  exists st', kernel_m13_vfs_syscall_smoke file buf0 kpath0 kbuf0 p q st = Some (Done tt, st') /\
    user_bytes (umem st') q 5 = hello /\ (forall x, ~ q <= x < q + 5 -> umem st' x = umem st x) /\ files st' = files st /\
    tab_get (world st') a = Some (<[0%nat := closed_file]> t) /\ k_sched (world st') = k_sched (world st) /\
    g_user_region st' = M10_USER_REGION /\ kernel_ready resume st'.
Proof.
  intros Hkp Hkb Hk Hcur Htab Hf0 Hu0 Hh Hp0 Hp1 Hq0 Hq1 Hpath.
  destruct (m13_spec resume file buf0 kpath0 kbuf0 p q st a t f0 i c Hkp Hkb Hk Hcur Htab Hf0 Hu0 Hh Hp0 Hp1 Hq0 Hq1 Hpath) as (st' & E & A).
  destruct A as [[Hwf Hops] _ Ht Hf _ Hs _ Hm]. eexists. split; [exact E|]. cbn [mcsos_syscall_set_user_region umem files world g_user_region g_ops]. split_and!; try done.
  - rewrite (user_bytes_ext (write_bytes (umem st) q hello)) by (intros x _; apply Hm). apply (user_bytes_write (umem st) q hello). apply (bool_decide_unpack (Forall (fun b => 0 <= b < 2 ^ 8) hello)). by vm_compute.
  - intros x Hx. rewrite Hm. unfold write_bytes. change (Z.of_nat (length hello)) with 5. case_bool; [lia|done].
  - split; [|exact Hops]. destruct Hwf as [W1 W2 W3 W4 W5 _ _]. split; try done; unfold is_u64; cbn; lia.
Qed.

(** The demonstration threads share the processor fairly for ever. After [kernel_m9_scheduler_init], for every number of turns: each turn prints the line of the thread that runs and yields without
    fault, the output is the lines of A and B in strict alternation, and the boot thread, which is idle, never runs again. *)
Theorem demo_threads_alternate resume l file buf0 st n :
  m9_static l (k_machine (world st)) -> open_line (k_dev (world st)) ->
  exists st1 st2, kernel_m9_scheduler_init resume l file buf0 st = Some (Done tt, st1) /\ turns resume l n st1 = Some (Done tt, st2) /\
    sent (k_dev (world st2)) = sent (k_dev (world st1)) ++ tick_output n true /\
    current (k_sched (world st2)) = Ref (if Nat.even n then g_thread_a l else g_thread_b l) /\
    represents_sched (k_sched (world st2)) (k_machine (world st2)) (running l (Nat.even n)).
Proof.
  intros Hst Ho. destruct (m9_spec resume l file buf0 st Hst Ho) as (s & m & d & E & Hx & _ & _ & _ & _ & _ & _ & Ho'%sends_open).
  match type of E with _ = Some (_, ?S) => destruct (turns_spec resume l n (ms_distinct _ _ Hst) true S Hx Ho') as (st2 & E2 & Hr & Hs) end.
  eexists _, st2. split; [exact E|]. split; [exact E2|]. split; [exact Hs|]. rewrite xorb_true_l, Nat.negb_odd in Hr. split; [|exact Hr].
  rewrite (si_cur _ _ _ _ _ _ Hr). by destruct (Nat.even n).
Qed.

End Claims.

Lemma demo_threads_alternate_witness :
  exists st1 st2, kernel_m9_scheduler_init (H := quiet_hw) 0x5000 demo_layout NULL [] demo_kernel = Some (Done tt, st1) /\
    turns (H := quiet_hw) 0x5000 demo_layout 3 st1 = Some (Done tt, st2) /\ current (k_sched (world st2)) = Ref 0x300.
Proof.
  destruct (demo_threads_alternate (H := quiet_hw) (Hready := quiet_hw_ready) 0x5000 demo_layout NULL [] demo_kernel 3) as (st1 & st2 & E1 & E2 & _ & E3 & _);
    [exact demo_static|reflexivity|].
  exists st1, st2. split; [exact E1|]. split; [exact E2|exact E3].
Defined.

Lemma m13_smoke_passes_witness :
  exists st', kernel_m13_vfs_syscall_smoke (H := quiet_hw) NULL [] (replicate 128 0) (replicate 4096 0) 0x7000 0x7100 smoke_kernel = Some (Done tt, st') /\
    user_bytes (umem st') 0x7100 5 = hello /\ umem st' 0x7105 = 0.
Proof.
  destruct (m13_smoke_passes (H := quiet_hw) (Hready := quiet_hw_ready) 0x5000 NULL [] (replicate 128 0) (replicate 4096 0) 0x7000 0x7100 smoke_kernel 0x100 (replicate 16 closed_file) closed_file
    1 (bytes_of "hello-mcsos")) as (st' & E & H1 & H2 & _).
  - apply length_replicate.
  - apply length_replicate.
  - apply smoke_kernel_ready.
  - vm_compute. reflexivity.
  - vm_compute. reflexivity.
  - reflexivity.
  - reflexivity.
  - split; [|reflexivity]. exists seeded_fs. split_and!; [reflexivity|vm_compute; reflexivity|vm_compute; reflexivity].
  - lia.
  - lia.
  - lia.
  - lia.
  - vm_compute. reflexivity.
  - exists st'. split; [exact E|]. split; [exact H1|]. rewrite H2 by lia. reflexivity.
Defined.

(** The round trip through the system calls of this kernel: two bytes into /hello.txt and back. *)
Lemma syscall_file_roundtrip_witness :
  exists st1 st2 st3,
    mcsos_syscall_dispatch (replicate 128 0) (replicate 4096 0) 7 0 0x400010 2 0 0 0 smoke_open = Some (2, st1) /\
    mcsos_syscall_dispatch (replicate 128 0) (replicate 4096 0) 8 0 0 0 0 0 0 st1 = Some (0, st2) /\
    mcsos_syscall_dispatch (replicate 128 0) (replicate 4096 0) 6 0 0x500000 2 0 0 0 st2 = Some (2, st3) /\
    user_bytes (umem st3) 0x500000 2 = [7; 8].
Proof.
  destruct smoke_open_ready as ([Hwf Hops] & Ht & Hf).
  assert (Hnd : exists nd, get_node (files smoke_kernel) (0%nat, 1) = Some nd /\ 2 <= data_capacity nd) by (eexists; split; [vm_compute; reflexivity|cbn; lia]).
  destruct Hnd as (nd & Hnd & Hcap).
  destruct (syscall_file_roundtrip k_inv k_dom (replicate 128 0) (replicate 4096 0) smoke_open 0x100 smoke_table 0 smoke_file 0 1 nd (bytes_of "hello-mcsos") 0x400010 0x500000 2)
    as (st1 & st2 & st3 & E1 & E2 & E3 & E4 & _).
  - apply length_replicate.
  - apply length_replicate.
  - exact Hwf.
  - apply (kernel_keeps_caller (H := quiet_hw) 0x5000); [exact Hops|]. vm_compute. reflexivity.
  - exact Ht.
  - reflexivity.
  - reflexivity.
  - reflexivity.
  - reflexivity.
  - reflexivity.
  - reflexivity.
  - rewrite Hf. exact Hnd.
  - rewrite Hf. vm_compute. reflexivity.
  - cbn. lia.
  - cbn. lia.
  - lia.
  - unfold is_u64. lia.
  - unfold is_u64. lia.
  - right. vm_compute. split_and!; congruence.
  - right. vm_compute. split_and!; congruence.
  - exists st1, st2, st3. split; [exact E1|]. split; [exact E2|]. split; [exact E3|]. exact E4.
Defined.
