(* ===== verification/Boot.v ===== *)
(** [kmain] of kernel/core/kmain.c: the bring-up of the whole kernel over one state, from the entry to the first thread.

    [kernel_memory_init] and [kernel_vmm_init] are [memory_init] and [vmm_init] here, with everything they print and with the panics as ends of the whole bring-up.
    The switch to the first thread is the end of the bring-up: what [kmain] does after it runs when the boot thread is resumed. *)

From stdpp Require Import strings.
From S2P Require Import Prelude Pmm Mem FrameAlloc Vmm KernelMem Kmem Sync Elf Ramfs Fd Io Trap Syscall Thread Kernel Smoke.

(** * Data *)

(** The state of the kernel: the part that system calls and threads see, and the static variables of the memory managers and of the self test. *)
Record boot_state := mk_boot {
  b_sys : sys_state kworld;
  b_idtr : x86_64_idtr;
  b_pmm : pmm_state;
  b_vmm : vmm_space pmm_state;
  b_kmem : kmem_state;
  b_m12 : m12_state
}.

(** What the boot loader and the linker provide, and what uninitialised storage holds. *)
Record boot_env := mk_env {
  e_limine : limine_types;
  e_memmap : ptr limine_memmap_response;
  e_hhdm : ptr Z;
  e_regions : list boot_mem_region;
  e_bitmap : list Z;
  e_cs : Z;
  e_idt : Z;
  e_stubs : list Z;
  e_int80 : Z;
  e_layout : m9_layout;
  e_heap : Z;
  e_image : list Z;
  e_plan : m11_process_image_plan;
  e_file : ptr (list Z);
  e_buf : list Z;
  e_kpath : list Z;
  e_kbuf : list Z;
  e_resume : Z;
  e_smoke_path : Z;
  e_smoke_buf : Z
}.

(** * The monad *)

Definition bio (A : Type) : Type := boot_state -> option (outcome A * boot_state).

#[export] Instance bio_ret : MRet bio := fun A a st => Some (Done a, st).

#[export] Instance bio_bind : MBind bio := fun A B k e st =>
  match e st with
  | Some (Done a, st) => k a st
  | Some (Panic c, st) => Some (Panic c, st)
  | None => None
  end.

Definition set_sys (b : boot_state) (st : sys_state kworld) : boot_state := mk_boot st (b_idtr b) (b_pmm b) (b_vmm b) (b_kmem b) (b_m12 b).
Definition set_pmm (b : boot_state) (p : pmm_state) : boot_state := mk_boot (b_sys b) (b_idtr b) p (b_vmm b) (b_kmem b) (b_m12 b).

Definition on_sys {A} (e : kio A) : bio A := fun b => '(r, st) ← e (b_sys b); Some (r, set_sys b st).
Definition dev {A} (e : io A) : bio A := on_sys (run_dev e).
Definition lift {A} (o : option A) : bio A := fun b => a ← o; Some (Done a, b).
Definition get_pmm : bio pmm_state := fun b => Some (Done (b_pmm b), b).
Definition put_pmm (p : ptr pmm_state) : bio unit := fun b => match p with NULL => None | Ref p => Some (Done tt, set_pmm b p) end.

(** * Operations *)

Section Kmain.
Context `{Hardware} (E : boot_env).

Definition say (x : string) : bio unit := dev (log_writeln (lit x)).
Definition say_value (x : string) (v : Z) : bio unit := dev (log_key_value_hex64 (lit x) v).
Definition stop (line : Z) (reason : string) (code : Z) : bio unit := dev (kernel_panic_at (e_buf E) (e_file E) line (lit reason) code).

(** [x86_64_idt_init] on the static table. *)
Definition load_idt : bio unit := fun b =>
  let st := b_sys b in
  let w := world st in
  '(idt, idtr) ← x86_64_idt_init (e_cs E) (e_idt E) (e_stubs E) (k_idt w);
  Some (Done tt, mk_boot (set_world st (mk_kworld (k_sched w) (k_machine w) (k_dev w) idt)) idtr (b_pmm b) (b_vmm b) (b_kmem b) (b_m12 b)).

(** What [kernel_memory_init] prints and tests once the manager is initialised. *)
Definition pmm_report : bio unit :=
  say "[m6] pmm: initialized";;
  p ← get_pmm;
  say_value "[m6] pmm: frame_count" (pmm_frame_count (Ref p));;
  say_value "[m6] pmm: free_frames" (pmm_free_count (Ref p));;
  say_value "[m6] pmm: used_frames" (pmm_used_count (Ref p));;
  r ← lift (pmm_alloc_frame (Ref p));
  put_pmm (snd r);;
  let f := fst r in
  (if f =? PMM_INVALID_FRAME then stop 150 "pmm_alloc_frame returned invalid frame" 0 else mret tt);;
  say_value "[m6] pmm: sample_frame" f;;
  p ← get_pmm;
  r ← lift (pmm_free_frame (Ref p) f);
  put_pmm (snd r);;
  (if negb (fst r) then stop 155 "pmm_free_frame failed" 0 else mret tt);;
  say "[m6] pmm: smoke test passed".

Definition memory_init : bio unit :=
  match e_memmap E with
  | NULL => stop 112 "limine memmap response is NULL" 0
  | Ref resp =>
      let count := if MAX_BOOT_REGIONS <? entry_count resp then MAX_BOOT_REGIONS else entry_count resp in
      regions ← lift (for_loop (loop_fuel 0 count 1) 0 count 1
        (fun i rs =>
           e ← arr_get (entries resp) i;
           arr_set rs i (Pmm.mk_region (entry_base e) (entry_length e) (limine_type_to_boot_mem (e_limine E) (entry_type e)))) (e_regions E));
      p ← get_pmm;
      r ← lift (pmm_init_from_map (Ref p) (Ref regions) count (Ref (e_bitmap E)) PMM_BITMAP_BYTES PMM_MAX_PHYS_BYTES);
      put_pmm (snd r);;
      (if negb (fst r) then stop 139 "pmm_init_from_map failed" 0 else mret tt);;
      pmm_report
  end.

(** The assignments of [kernel_vmm_init] to memory and to [kernel_vmm]. *)
Definition clear_root (root_virt : Z) : bio unit := fun b =>
  Some (Done tt, set_sys b (set_umem (b_sys b) (fst (memset (umem (b_sys b)) root_virt 0 4096)))).

Definition init_space (kernel_hhdm_offset root_paddr : Z) : bio Z := fun b =>
  let '(rc, space) := vmm_space_init (Ref (b_vmm b)) root_paddr (Ref kernel_vmm_alloc) (Ref kernel_vmm_free)
    (Ref (kernel_vmm_phys_to_virt kernel_hhdm_offset)) in
  match space with
  | NULL => None
  | Ref space => Some (Done rc, mk_boot (b_sys b) (b_idtr b) (b_pmm b) space (b_kmem b) (b_m12 b))
  end.

Definition vmm_init : bio unit :=
  match e_hhdm E with
  | NULL => stop 169 "limine hhdm response is NULL" 0
  | Ref kernel_hhdm_offset =>
      say_value "[m7] vmm: hhdm_offset" kernel_hhdm_offset;;
      p ← get_pmm;
      r ← lift (pmm_alloc_frame (Ref p));
      put_pmm (snd r);;
      let root_paddr := fst r in
      (if root_paddr =? PMM_INVALID_FRAME then stop 177 "vmm: cannot allocate root page table frame" 0 else mret tt);;
      say_value "[m7] vmm: root_paddr" root_paddr;;
      clear_root (u64 (kernel_hhdm_offset + root_paddr));;
      rc ← init_space kernel_hhdm_offset root_paddr;
      (if negb (rc =? VMM_MAP_OK) then stop 196 "vmm_space_init failed" (u64 rc) else mret tt);;
      say "[m7] vmm: core initialized"
  end.

Definition heap_init : bio unit := fun b =>
  let st := b_sys b in
  let w := world st in
  '(r, d, ks, m) ← m8_heap_bootstrap (e_file E) (e_buf E) (e_heap E) (b_kmem b) (umem st) (k_dev w);
  Some (r, mk_boot (set_umem (set_world st (set_dev w d)) m) (b_idtr b) (b_pmm b) (b_vmm b) ks (b_m12 b)).

(** [mcs_ramfs_init(&kernel_ramfs)] and [mcs_ramfs_seed_file(&kernel_ramfs, ...)], whose status is not looked at. *)
Definition ramfs_setup : bio unit := fun b =>
  let st := b_sys b in
  fs ← files st !! 0%nat;
  fs ← mcs_ramfs_init (Ref fs);
  '(_, fs) ← mcs_ramfs_seed_file fs (lit "/hello.txt") (Ref (bytes_of "hello-mcsos")) 11;
  match fs with
  | NULL => None
  | Ref fs => Some (Done tt, set_sys b (mk_sys (g_ops st) (g_user_region st) (world st) (umem st) (<[0%nat := fs]> (files st))))
  end.

Definition sync_selftest : bio unit := fun b =>
  let st := b_sys b in
  let w := world st in
  '(r, v, d) ← m12_sync_selftest (e_file E) (e_buf E) 1 (b_m12 b) (k_dev w);
  Some (r, mk_boot (set_world st (set_dev w d)) (b_idtr b) (b_pmm b) (b_vmm b) (b_kmem b) v).

Definition kmain : bio unit :=
  dev cpu_cli;;
  dev serial_init;;
  say "[MCSOS:M7] boot: memory manager bring-up start";;
  load_idt;;
  say "[MCSOS:M7] idt: loaded";;
  dev (pic_remap PIC_MASTER_OFFSET PIC_SLAVE_OFFSET);;
  dev pic_mask_all;;
  dev (pic_unmask_irq 0);;
  say "[MCSOS:M7] pic: remapped and masked";;
  dev (pit_configure_hz 100);;
  say "[MCSOS:M7] pit: configured 100Hz";;
  memory_init;;
  say "[MCSOS:M7] pmm: ready";;
  vmm_init;;
  say "[MCSOS:M7] vmm: ready";;
  heap_init;;
  say "[MCSOS:M8] heap: ready";;
  say "[MCSOS:M7] sti: enabling interrupts";;
  dev cpu_sti;;
  ramfs_setup;;
  say "[M13] ramfs: initialized + demo file seeded";;
  on_sys (kernel_m10_syscall_init (e_resume E) (e_file E) (e_buf E) (e_kpath E) (e_kbuf E) (e_cs E) (e_int80 E));;
  dev (kernel_m11_loader_smoke (e_image E) (e_plan E));;
  sync_selftest;;
  on_sys (kernel_m9_scheduler_init (e_resume E) (e_layout E) (e_file E) (e_buf E)).

End Kmain.

(** * Specification: devices *)

(** The interval timer: the counter 0 latches a low and then a high byte after a command for it. *)
Record pit := mk_pit {
  pt_command : Z;
  pt_low : option Z;
  pt_reload : Z
}.

Definition pit_step (e : io_event) (p : pit) : pit :=
  match e with
  | Out port v =>
      if port =? 0x43 then if Z.shiftr v 6 =? 0 then mk_pit v None (pt_reload p) else p
      else if port =? 0x40 then
        match pt_low p with
        | None => mk_pit (pt_command p) (Some v) (pt_reload p)
        | Some lo => mk_pit (pt_command p) None (lo + 256 * v)
        end
      else p
  | _ => p
  end.

Definition pit_run (p0 : pit) (h : history) : pit := foldr pit_step p0 h.

(** The interrupt flag. *)
Fixpoint interrupts_on (h : history) : bool :=
  match h with
  | [] => false
  | Sti :: _ => true
  | Cli :: _ => false
  | _ :: h => interrupts_on h
  end.

(** The controllers deliver the interrupts of the timer, and no others, from vector 0x20 on. *)
Record irq_ready (m0 s0 : pic) (p0 : pit) (d : kdev) : Prop := {
  ir_mask k : 0 <= k < 16 -> irq_masked (master m0 d) (slave s0 d) k = negb (k =? 0);
  ir_master : p_base (master m0 d) = PIC_MASTER_OFFSET;
  ir_slave : p_base (slave s0 d) = PIC_SLAVE_OFFSET;
  ir_timer : pit_run p0 (trace d) = mk_pit 0x36 None (PIT_BASE_FREQUENCY_HZ / 100)
}.

(** * Specification: states *)

Definition b_dev (b : boot_state) : kdev := k_dev (world (b_sys b)).

Definition with_dev (b : boot_state) (d : kdev) : boot_state := set_sys b (set_world (b_sys b) (set_dev (world (b_sys b)) d)).

Definition set_idt (b : boot_state) (idt : list x86_64_idt_entry) (idtr : x86_64_idtr) : boot_state :=
  let w := world (b_sys b) in
  mk_boot (set_world (b_sys b) (mk_kworld (k_sched w) (k_machine w) (k_dev w) idt)) idtr (b_pmm b) (b_vmm b) (b_kmem b) (b_m12 b).

Definition set_mem (b : boot_state) (m : mem) : boot_state := set_sys b (set_umem (b_sys b) m).
Definition set_space (b : boot_state) (v : vmm_space pmm_state) : boot_state := mk_boot (b_sys b) (b_idtr b) (b_pmm b) v (b_kmem b) (b_m12 b).
Definition set_kmem (b : boot_state) (ks : kmem_state) : boot_state := mk_boot (b_sys b) (b_idtr b) (b_pmm b) (b_vmm b) ks (b_m12 b).
Definition set_m12 (b : boot_state) (v : m12_state) : boot_state := mk_boot (b_sys b) (b_idtr b) (b_pmm b) (b_vmm b) (b_kmem b) v.
Definition set_files (b : boot_state) (fss : fs_heap) : boot_state :=
  let st := b_sys b in set_sys b (mk_sys (g_ops st) (g_user_region st) (world st) (umem st) fss).

(** [e] ends, by returning or by a panic, and [Q] holds then. *)
Definition ends {A} (e : bio A) (b : boot_state) (Q : outcome A -> boot_state -> Prop) : Prop := exists r b', e b = Some (r, b') /\ Q r b'.

(** [e] returns, and [Q] holds of the result. *)
Definition runs {A} (e : bio A) (b : boot_state) (Q : A -> boot_state -> Prop) : Prop := ends e b (fun r b' => exists a, r = Done a /\ Q a b').

(** * Lemmas: steps *)

Lemma runs_call {A B} (e : bio A) (k : A -> bio B) b R Q : runs e b R -> (forall a b1, R a b1 -> ends (k a) b1 Q) -> ends (e ≫= k) b Q.
Proof.
  intros (? & b1 & E & a & -> & HR) Hk. destruct (Hk a b1 HR) as (r & b2 & E2 & HQ). exists r, b2. split; [|done]. unfold mbind, bio_bind. by rewrite E.
Qed.

Lemma runs_intro {A} (e : bio A) a b b' (Q : A -> boot_state -> Prop) : e b = Some (Done a, b') -> Q a b' -> runs e b Q.
Proof. intros E HQ. exists (Done a), b'. eauto. Qed.

(** A call that does not return. *)
Lemma ends_panic {A B} (e : bio A) (k : A -> bio B) b c b' (Q : outcome B -> boot_state -> Prop) : e b = Some (Panic c, b') -> Q (Panic c) b' -> ends (e ≫= k) b Q.
Proof. intros E HQ. exists (Panic c), b'. split; [|done]. unfold mbind, bio_bind. by rewrite E. Qed.

Lemma ends_ret_r {A} (e : bio A) b Q : ends (e ≫= mret) b Q -> ends e b Q.
Proof.
  intros (r & b' & E & HQ). exists r, b'. split; [|done]. unfold mbind, bio_bind in E. destruct (e b) as [[[x|c] b1]|]; done.
Qed.

Lemma ends_ret {A} (a : A) b (Q : outcome A -> boot_state -> Prop) : Q (Done a) b -> ends (mret a) b Q.
Proof. intros HQ. by exists (Done a), b. Qed.

Lemma runs_ret {A} (a : A) b (Q : A -> boot_state -> Prop) : Q a b -> ends (mret a) b (fun r b' => exists a, r = Done a /\ Q a b').
Proof. intros HQ. apply ends_ret. eauto. Qed.

Section Steps.
Context {B : Type} (b : boot_state) (d : kdev) (Q : outcome B -> boot_state -> Prop).

Lemma runs_lift {A} (o : option A) a (k : A -> bio B) : o = Some a -> ends (k a) (with_dev b d) Q -> ends (lift o ≫= k) (with_dev b d) Q.
Proof. intros -> Hk. apply (runs_call _ _ _ (fun x b1 => x = a /\ b1 = with_dev b d)); [by apply (runs_intro _ a _ (with_dev b d))|]. by intros ? ? [-> ->]. Qed.

Lemma runs_get (k : pmm_state -> bio B) : ends (k (b_pmm b)) (with_dev b d) Q -> ends (get_pmm ≫= k) (with_dev b d) Q.
Proof. intros Hk. exact Hk. Qed.

Lemma runs_put p (k : unit -> bio B) : ends (k tt) (with_dev (set_pmm b p) d) Q -> ends (put_pmm (Ref p) ≫= k) (with_dev b d) Q.
Proof. intros Hk. exact Hk. Qed.

(** A test that does not panic. *)
Lemma runs_test (c : bool) e (k : unit -> bio B) : c = false -> ends (k tt) (with_dev b d) Q -> ends ((if c then e else mret tt) ≫= k) (with_dev b d) Q.
Proof. intros -> Hk. exact Hk. Qed.

Lemma runs_dev {A} (e : io A) a d' (k : A -> bio B) :
  e d = Some (Done a, d') -> ends (k a) (with_dev b d') Q -> ends (dev e ≫= k) (with_dev b d) Q.
Proof.
  intros E Hk. apply (runs_call _ _ _ (fun x b1 => x = a /\ b1 = with_dev b d')); [|by intros ? ? [-> ->]].
  apply (runs_intro _ a _ (with_dev b d')); [|done]. unfold dev, on_sys, run_dev. change (k_dev (world (b_sys (with_dev b d)))) with d. by rewrite E.
Qed.

(** A line of the log, since the device state [d0]. *)
Lemma runs_quiet d0 e (k : unit -> bio B) :
  quiet e -> sends d0 d -> (forall d', sends d0 d' -> ends (k tt) (with_dev b d') Q) -> ends (dev e ≫= k) (with_dev b d) Q.
Proof.
  intros [bs He] Hs Hk. destruct (He d (open_line_ok _ (sends_open _ _ Hs))) as (d' & E & Hp).
  eapply runs_dev; [exact E|]. apply Hk. eapply sends_trans; [exact Hs|by eexists].
Qed.

Lemma runs_say `{Hardware} {Hready : UartReady} d0 x (k : unit -> bio B) :
  forallb (fun c => negb (c =? 0)) (bytes_of x) = true -> sends d0 d -> (forall d', sends d0 d' -> ends (k tt) (with_dev b d') Q) ->
  ends (say x ≫= k) (with_dev b d) Q.
Proof. intros Hx. apply runs_quiet. by apply quiet_writeln. Qed.

Lemma runs_value `{Hardware} {Hready : UartReady} d0 x v (k : unit -> bio B) :
  forallb (fun c => negb (c =? 0)) (bytes_of x) = true -> is_u64 v -> sends d0 d -> (forall d', sends d0 d' -> ends (k tt) (with_dev b d') Q) ->
  ends (say_value x v ≫= k) (with_dev b d) Q.
Proof. intros Hx Hv. apply runs_quiet. by apply quiet_kv. Qed.

Lemma runs_sys {A} (e : kio A) a st (k : A -> bio B) :
  e (b_sys (with_dev b d)) = Some (Done a, st) -> ends (k a) (set_sys b st) Q -> ends (on_sys e ≫= k) (with_dev b d) Q.
Proof.
  intros E Hk. apply (runs_call _ _ _ (fun x b1 => x = a /\ b1 = set_sys b st)); [|by intros ? ? [-> ->]].
  apply (runs_intro _ a _ (set_sys b st)); [|done]. unfold on_sys. by rewrite E.
Qed.

Lemma runs_clear v m (k : unit -> bio B) :
  m = (memset (umem (b_sys b)) v 0 4096).1 -> ends (k tt) (with_dev (set_mem b m) d) Q -> ends (clear_root v ≫= k) (with_dev b d) Q.
Proof.
  intros Hm Hk. apply (runs_call _ _ _ (fun _ b1 => b1 = with_dev (set_mem b m) d)); [|by intros [] ? ->].
  apply (runs_intro _ tt _ (with_dev (set_mem b m) d)); [|done]. unfold clear_root. change (umem (b_sys (with_dev b d))) with (umem (b_sys b)). by rewrite <- Hm.
Qed.

Lemma runs_space off root space rc (k : Z -> bio B) :
  vmm_space_init (Ref (b_vmm b)) root (Ref kernel_vmm_alloc) (Ref kernel_vmm_free) (Ref (kernel_vmm_phys_to_virt off)) = (rc, Ref space) ->
  ends (k rc) (with_dev (set_space b space) d) Q -> ends (init_space off root ≫= k) (with_dev b d) Q.
Proof.
  intros E Hk. apply (runs_call _ _ _ (fun x b1 => x = rc /\ b1 = with_dev (set_space b space) d)); [|by intros ? ? [-> ->]].
  apply (runs_intro _ rc _ (with_dev (set_space b space) d)); [|done]. unfold init_space. change (b_vmm (with_dev b d)) with (b_vmm b). by rewrite E.
Qed.

End Steps.

(** The next line of the log. *)

(** The next line of the log, and the devices after it. *)
Tactic Notation "logged" ident(d) ident(Hd) :=
  lazymatch goal with
  | |- ends (say _ ≫= _) _ _ => eapply runs_say; [eassumption|reflexivity|eassumption|]
  | |- ends (say_value _ _ ≫= _) _ _ => eapply runs_value; [eassumption|reflexivity|try assumption|eassumption|]
  end; intros d Hd; cbv beta.

Ltac log_line := let d := fresh "d" in let Hd := fresh "Hd" in logged d Hd.

(** * Lemmas: the physical memory manager *)

Section Memory.
Context `{Hardware} {Hready : UartReady} (E : boot_env).

(** The numbers that are printed fit. *)
Lemma pmm_counts p : pmm_ready p -> is_u64 (frame_count p) /\ is_u64 (free_frames p) /\ is_u64 (used_frames p).
Proof.
  intros (W & _). pose proof (free_frames_range p W). pose proof (wf_used p W). pose proof (wf_max_phys p W). pose proof (wf_max_u64 p W).
  unfold is_u64, PMM_PAGE_SIZE in *. lia.
Qed.

Lemma boot_frames_value : boot_frames = 16777216.
Proof. by vm_compute. Qed.

(** A frame that is given out. *)
Lemma boot_alloc p : pmm_ready p -> frame_count p = boot_frames -> free_set p <> ∅ ->
  exists f p', pmm_alloc_frame (Ref p) = Some (f * 4096, Ref p') /\ f ∈ free_set p /\ 0 < f < boot_frames /\ is_u64 (f * 4096) /\ (f * 4096 =? PMM_INVALID_FRAME) = false /\
    pmm_ready p' /\ frame_count p' = boot_frames /\ max_phys p' = max_phys p /\ free_set p' = free_set p ∖ {[f]}.
Proof.
  intros Hp Hc Hne. destruct (kernel_vmm_alloc_spec p Hp) as (a & p1 & _ & E1 & Hp1 & (G1 & G2 & _) & [(He & _)|(f & -> & Hf & Hset)]); [done|].
  assert (Hfr : 0 < f < boot_frames).
  { destruct Hp as (W & _ & H0). pose proof Hf as Hf'. apply elem_of_free_set in Hf'. assert (f <> 0) by (intros ->; done). lia. }
  pose proof boot_frames_value. exists f, p1. split_and!; [exact E1|exact Hf|lia|lia|unfold is_u64; lia..| |exact Hp1|congruence|exact G2|exact Hset].
  apply Z.eqb_neq. unfold PMM_INVALID_FRAME. lia.
Qed.

(** It can be given back. *)
Lemma boot_free p p' f : pmm_ready p' -> frame_count p' = boot_frames -> 0 < f < boot_frames -> f ∈ free_set p -> free_set p' = free_set p ∖ {[f]} ->
  exists p2, pmm_free_frame (Ref p') (f * 4096) = Some (true, Ref p2) /\ pmm_ready p2 /\ frame_count p2 = boot_frames /\ free_set p2 = free_set p.
Proof.
  intros Hp Hc Hf Hin Hset. pose proof boot_frames_value.
  destruct (kernel_vmm_free_spec p' (f * 4096) Hp) as (b & p2 & _ & E2 & Hp2 & (G2 & _) & Hcase); [unfold is_u64; lia|].
  destruct Hcase as [(-> & Hna & _)|(g & -> & Hg & Hset2)]; [destruct Hna; exists f; rewrite Hc, Hset; split_and!; [done|lia|lia|set_solver]|].
  assert (g = f) as -> by lia. exists p2. split_and!; [exact E2|exact Hp2|lia|].
  rewrite Hset2, Hset. apply set_eq. intros x. destruct (decide (x = f)); set_solver.
Qed.

Lemma pmm_report_runs b d0 d : pmm_ready (b_pmm b) -> frame_count (b_pmm b) = boot_frames -> free_set (b_pmm b) <> ∅ -> sends d0 d ->
  runs (pmm_report E) (with_dev b d) (fun _ b' => exists p d', b' = with_dev (set_pmm b p) d' /\ sends d0 d' /\ pmm_ready p /\ frame_count p = boot_frames /\ free_set p = free_set (b_pmm b)).
Proof.
  intros Hp Hc Hne Hd. destruct (boot_alloc _ Hp Hc Hne) as (f & p1 & Ea & Hf & Hr & Hu & Hn & Hp1 & Hc1 & _ & Hs1).
  destruct (boot_free _ _ _ Hp1 Hc1 Hr Hf Hs1) as (p2 & Ef & Hp2 & Hc2 & Hs2). destruct (pmm_counts _ Hp) as (C1 & C2 & C3).
  unfold runs, pmm_report. log_line. apply runs_get. log_line. log_line. log_line. eapply runs_lift; [exact Ea|]. apply runs_put. apply runs_test; [exact Hn|].
  log_line. apply runs_get. eapply runs_lift; [exact Ef|]. apply runs_put. apply runs_test; [reflexivity|]. apply ends_ret_r. log_line.
  apply runs_ret. eexists p2, _. split; [reflexivity|]. by split_and!.
Qed.

(** [pmm_init_from_map] on the translated memory map. *)
Lemma boot_pmm_init L resp p0 rs count bitmap :
  Z.of_nat (length rs) = MAX_BOOT_REGIONS -> Forall Pmm.region_ok rs -> 0 < count <= MAX_BOOT_REGIONS ->
  take (Z.to_nat count) rs = region_of L <$> boot_entries resp ->
  Z.of_nat (length bitmap) = PMM_BITMAP_BYTES -> Forall is_u8 bitmap ->
  exists p, pmm_init_from_map (Ref p0) (Ref rs) count (Ref bitmap) PMM_BITMAP_BYTES PMM_MAX_PHYS_BYTES = Some (true, Ref p) /\
    pmm_ready p /\ frame_count p = boot_frames /\ forall f, f ∈ free_set p <-> 0 < f < boot_frames /\ boot_available L resp f.
Proof.
  intros Hl Hrs Hc Ht Hb Hby. assert (HM : PMM_MAX_PHYS_BYTES = boot_frames * PMM_PAGE_SIZE) by (by vm_compute). rewrite HM.
  setoid_rewrite <- (available_translated L resp rs count _ Ht).
  apply init_ready; [by vm_compute..| by vm_compute | lia | done | done | lia | unfold MAX_BOOT_REGIONS in *; lia].
Qed.

(** What the boot loader and the linker must provide for the memory managers. *)
Record map_input (resp : limine_memmap_response) : Prop := {
  mi_map : e_memmap E = Ref resp;
  mi_resp : response_ok resp;
  mi_regions : Z.of_nat (length (e_regions E)) = MAX_BOOT_REGIONS /\ Forall Pmm.region_ok (e_regions E);
  mi_bitmap : Z.of_nat (length (e_bitmap E)) = PMM_BITMAP_BYTES /\ Forall is_u8 (e_bitmap E)
}.

(** There is a frame to manage. *)
Definition has_frame (resp : limine_memmap_response) : Prop := exists f, 0 < f < boot_frames /\ boot_available (e_limine E) resp f.

(** The manager after [kernel_memory_init]. *)
Definition pmm_booted (resp : limine_memmap_response) (p : pmm_state) : Prop :=
  pmm_ready p /\ frame_count p = boot_frames /\ forall f, f ∈ free_set p <-> 0 < f < boot_frames /\ boot_available (e_limine E) resp f.

(** Up to the report, with the manager that [pmm_init_from_map] makes. *)
Lemma memory_init_maps b d Q resp : map_input resp -> (forall p, pmm_booted resp p -> ends (pmm_report E) (with_dev (set_pmm b p) d) Q) -> ends (memory_init E) (with_dev b d) Q.
Proof.
  intros [Hm Hresp [Hl Hrs] [Hb Hby]] Hk. unfold memory_init. rewrite Hm. cbv zeta.
  replace (if MAX_BOOT_REGIONS <? entry_count resp then MAX_BOOT_REGIONS else entry_count resp)
    with (Z.min (entry_count resp) MAX_BOOT_REGIONS) by (case_bool; lia). remember (Z.min _ _) as count eqn:Hcnt.
  destruct (regions_loop (e_limine E) resp (e_regions E) count Hl Hrs Hresp Hcnt) as (rs & Er & Hlr & Hok & Htake).
  assert (Hcount : 0 < count <= MAX_BOOT_REGIONS) by (destruct Hresp; unfold MAX_BOOT_REGIONS in *; lia).
  destruct (boot_pmm_init (e_limine E) resp (b_pmm b) rs count (e_bitmap E) Hlr Hok Hcount Htake Hb Hby) as (p & Ep & Hp & Hc & Hset).
  eapply runs_lift; [exact Er|]. apply runs_get. eapply runs_lift; [exact Ep|]. apply runs_put. apply runs_test; [reflexivity|]. apply Hk. by split_and!.
Qed.

Lemma memory_init_runs b d0 d resp :
  map_input resp -> has_frame resp -> sends d0 d ->
  runs (memory_init E) (with_dev b d) (fun _ b' => exists p d', b' = with_dev (set_pmm b p) d' /\ sends d0 d' /\ pmm_booted resp p).
Proof.
  intros Hin (f0 & Hf0) Hd. apply (memory_init_maps _ _ _ resp Hin). intros p (Hp & Hc & Hset).
  assert (Hne : free_set p <> ∅) by (intros He; pose proof (proj2 (Hset f0) Hf0) as Hf; rewrite He in Hf; by apply elem_of_empty in Hf).
  destruct (pmm_report_runs (set_pmm b p) d0 d Hp Hc Hne Hd) as (? & b' & E1 & [] & -> & p2 & d' & -> & Hd' & Hp2 & Hc2 & Hs2).
  apply (runs_intro _ tt _ (with_dev (set_pmm b p2) d')); [exact E1|]. exists p2, d'. split; [reflexivity|]. split; [exact Hd'|]. split; [exact Hp2|]. split; [exact Hc2|].
  intros g. by rewrite Hs2.
Qed.

(** Memory in which the table at [root] is clear and which is otherwise [m]. *)
Definition root_cleared (off root : Z) (m m' : mem) : Prop :=
  (forall x, off + root * 4096 <= x < off + (root + 1) * 4096 -> u8 (m' x) = 0) /\
  (forall x, ~ off + root * 4096 <= x < off + (root + 1) * 4096 -> u8 (m' x) = u8 (m x)).

Lemma clear_root_spec off root m : root_cleared off root m (memset m (off + root * 4096) 0 4096).1.
Proof.
  unfold memset. cbn [fst]. split; intros x Hx; rewrite memset_loop_spec, Z2Nat.id by lia; case_bool; done || lia.
Qed.

(** The manager and the address space after [kernel_vmm_init]. *)
Definition vmm_booted (resp : limine_memmap_response) (root : Z) (p : pmm_state) : Prop :=
  0 < root < boot_frames /\ boot_available (e_limine E) resp root /\ pmm_ready p /\ max_phys p <= PMM_MAX_PHYS_BYTES /\
  (forall f, f ∈ free_set p <-> 0 < f < boot_frames /\ boot_available (e_limine E) resp f /\ f <> root).

Lemma vmm_init_runs b d0 d resp off :
  e_hhdm E = Ref off -> hhdm_ok off -> pmm_booted resp (b_pmm b) -> has_frame resp -> sends d0 d ->
  runs (vmm_init E) (with_dev b d) (fun _ b' => exists root p m d',
    b' = with_dev (set_space (set_mem (set_pmm b p) m) (kernel_space off (root * 4096))) d' /\ sends d0 d' /\
    vmm_booted resp root p /\ root_cleared off root (umem (b_sys b)) m).
Proof.
  intros Hh Hoff (Hp & Hc & Hset) (f0 & Hf0) Hd. unfold runs, vmm_init. rewrite Hh. pose proof boot_frames_value as Hbf.
  assert (Hne : free_set (b_pmm b) <> ∅) by (intros He; pose proof (proj2 (Hset f0) Hf0) as Hin; rewrite He in Hin; by apply elem_of_empty in Hin).
  destruct (boot_alloc _ Hp Hc Hne) as (f & p1 & Ea & Hf & Hr & Hu & Hn & Hp1 & Hc1 & Hmx & Hs1).
  assert (Ho64 : is_u64 off) by (destruct Hoff; unfold is_u64, PMM_MAX_PHYS_BYTES in *; lia).
  log_line. apply runs_get. eapply runs_lift; [exact Ea|]. apply runs_put. cbv zeta. cbn [fst]. apply runs_test; [exact Hn|]. log_line.
  eapply runs_clear; [reflexivity|]. eapply (runs_space _ _ _ _ _ (kernel_space off (f * 4096)) VMM_MAP_OK).
  { unfold vmm_space_init. cbn [is_null orb]. destruct (aligned_4k_spec (f * 4096)) as [_ ->]; [done|]. apply Z.mod_mul. lia. }
  apply runs_test; [reflexivity|]. apply ends_ret_r. log_line. apply runs_ret. eexists f, p1, _, _. split; [reflexivity|]. split; [assumption|]. split.
  - split; [exact Hr|]. split; [by apply Hset|]. split; [exact Hp1|]. split.
    + rewrite Hmx. destruct Hp as (W & _). rewrite (wf_max_phys _ W), Hc. by vm_compute.
    + intros g. rewrite Hs1, elem_of_difference, elem_of_singleton, Hset. tauto.
  - cbn [set_pmm b_sys]. rewrite u64_small by (destruct Hoff; unfold is_u64, PMM_MAX_PHYS_BYTES in *; lia). apply clear_root_spec.
Qed.

End Memory.

(** * Lemmas: the devices *)

(** Code that leaves the serial line and the ticks alone. *)
Definition off_line {A} (e : io A) : Prop := forall d r d', e d = Some (r, d') -> uart_run (trace d') = uart_run (trace d) /\ g_ticks d' = g_ticks d.

Lemma off_bind {A B} (e : io A) (k : A -> io B) : off_line e -> (forall a, off_line (k a)) -> off_line (e ≫= k).
Proof.
  intros He Hk d r d'. unfold mbind, io_bind. destruct (e d) as [[[a|c] d1]|] eqn:E1; [|intros [= <- <-]; by apply (He _ _ _ E1)|done].
  intros E2. destruct (He _ _ _ E1) as [U1 T1]. destruct (Hk a _ _ _ E2) as [U2 T2]. split; congruence.
Qed.

Lemma off_out p v : p < 0x3F8 -> off_line (outb p v).
Proof.
  intros Hp d r d' [= <- <-]. split; [|done]. cbn [add_event trace uart_run foldr uart_step]. rw_false (p =? 1016). rw_false (p =? 1017). rw_false (p =? 1018). rw_false (p =? 1019).
  by rw_false (p =? 1020).
Qed.

Section Devices.
Context `{Hardware} (m0 s0 : pic) (p0 : pit) {Hreads : PicReads m0 s0}.

Lemma off_in p : off_line (inb p).
Proof. by intros d r d' [= <- <-]. Qed.

Ltac off := repeat first [apply off_out; by vm_compute | apply off_in | apply off_bind; [|intros ?]].

Lemma off_remap a b : off_line (pic_remap a b).
Proof. unfold pic_remap, io_wait. off. Qed.

Lemma off_mask_all : off_line pic_mask_all.
Proof. unfold pic_mask_all. off. Qed.

Lemma off_unmask : off_line (pic_unmask_irq 0).
Proof. unfold pic_unmask_irq. cbn [Z.ltb]. apply off_bind; [apply off_in|]. intros a. cbn iota. off. Qed.

(** The sequence of [kmain] on the controllers. *)
Lemma pics_spec d : open_line d ->
  exists d1 d2 d3, pic_remap PIC_MASTER_OFFSET PIC_SLAVE_OFFSET d = Some (Done tt, d1) /\ pic_mask_all d1 = Some (Done tt, d2) /\ pic_unmask_irq 0 d2 = Some (Done tt, d3) /\
    open_line d3 /\ g_ticks d3 = g_ticks d /\ (forall k, 0 <= k < 16 -> irq_masked (master m0 d3) (slave s0 d3) k = negb (k =? 0)) /\
    p_base (master m0 d3) = PIC_MASTER_OFFSET /\ p_base (slave s0 d3) = PIC_SLAVE_OFFSET.
Proof.
  intros Ho. destruct (remap_spec m0 s0 PIC_MASTER_OFFSET PIC_SLAVE_OFFSET d) as (d1 & E1 & M1 & S1); [unfold is_u8, PIC_MASTER_OFFSET; lia|reflexivity|unfold is_u8, PIC_SLAVE_OFFSET; lia|reflexivity|].
  destruct (mask_all_spec m0 s0 d1) as (d2 & E2 & K2 & A2 & B2 & P2 & Q2); [by rewrite M1|by rewrite S1|].
  destruct (unmask_spec m0 s0 0 d2 ltac:(lia) A2 B2) as (d3 & E3 & K3 & _ & _ & P3 & Q3). exists d1, d2, d3.
  destruct (off_remap _ _ _ _ _ E1) as [U1 T1]. destruct (off_mask_all _ _ _ E2) as [U2 T2]. destruct (off_unmask _ _ _ E3) as [U3 T3].
  split_and!; [exact E1|exact E2|exact E3| |congruence| |by rewrite P3, P2, M1|by rewrite Q3, Q2, S1].
  - unfold open_line. by rewrite U3, U2, U1.
  - intros k Hk. rewrite K3, K2 by done. done.
Qed.

Lemma pit_run_com1 l h : Forall com1_event l -> pit_run p0 (l ++ h) = pit_run p0 h.
Proof.
  induction 1 as [|e l He _ IH]; [done|]. cbn [app pit_run foldr]. fold (pit_run p0 (l ++ h)). rewrite IH.
  destruct e as [port v|port v| | |]; try done. cbn in He. cbn [pit_step]. by rw_false (port =? 67); rw_false (port =? 64).
Qed.

(** The timer, programmed after the controllers. *)
Lemma pit_spec d5 d : open_line d5 -> (forall k, 0 <= k < 16 -> irq_masked (master m0 d5) (slave s0 d5) k = negb (k =? 0)) ->
  p_base (master m0 d5) = PIC_MASTER_OFFSET -> p_base (slave s0 d5) = PIC_SLAVE_OFFSET -> sends d5 d ->
  exists d', pit_configure_hz 100 d = Some (Done tt, d') /\ open_line d' /\ g_ticks d' = g_ticks d5 /\ irq_ready m0 s0 p0 d'.
Proof.
  intros Ho HK HA HB (bs & [Od _ Td _ (l & El & Fl)]).
  exists (mk_kdev (Out 0x40 46 :: Out 0x40 155 :: Out 0x43 0x36 :: trace d) (g_log_ready d) (g_ticks d) (trap_count d)).
  split; [reflexivity|]. split; [exact Od|]. split; [exact Td|].
  assert (Em : master m0 d = master m0 d5) by (by rewrite El, pic_run_com1). assert (Es : slave s0 d = slave s0 d5) by (by rewrite El, pic_run_com1).
  split; [|by rewrite <- HA, <- Em|by rewrite <- HB, <- Es|reflexivity]. intros k Hk. rewrite <- HK, <- Em, <- Es by done. reflexivity.
Qed.

Lemma interrupts_com1 l h : Forall com1_event l -> interrupts_on (l ++ h) = interrupts_on h.
Proof. induction 1 as [|e l He _ IH]; [done|]. by destruct e. Qed.

(** Printing keeps all of this. *)
Lemma irq_ready_sends d d' : irq_ready m0 s0 p0 d -> sends d d' -> irq_ready m0 s0 p0 d'.
Proof.
  intros [H1 H2 H3 H4] (bs & [_ _ _ _ (l & El & Fl)]). split; rewrite El; by rewrite ?pit_run_com1, ?pic_run_com1 by done.
Qed.

Lemma interrupts_sends d d' : sends d d' -> interrupts_on (trace d') = interrupts_on (trace d).
Proof. intros (bs & [_ _ _ _ (l & -> & Fl)]). by apply interrupts_com1. Qed.

End Devices.

(** * Lemmas: the other parts *)

Section Parts.
Context `{Hardware} {Hready : UartReady} (E : boot_env) {B : Type} (b : boot_state) (d0 d : kdev) (Q : outcome B -> boot_state -> Prop).

Lemma runs_load_idt idt idtr (k : unit -> bio B) :
  x86_64_idt_init (e_cs E) (e_idt E) (e_stubs E) (k_idt (world (b_sys b))) = Some (idt, idtr) ->
  ends (k tt) (with_dev (set_idt b idt idtr) d) Q -> ends (load_idt E ≫= k) (with_dev b d) Q.
Proof.
  intros Ei Hk. apply (runs_call _ _ _ (fun _ b1 => b1 = with_dev (set_idt b idt idtr) d)); [|by intros [] ? ->].
  apply (runs_intro _ tt _ (with_dev (set_idt b idt idtr) d)); [|done]. unfold load_idt. change (k_idt (world (b_sys (with_dev b d)))) with (k_idt (world (b_sys b))). by rewrite Ei.
Qed.

(** The boot heap: what it leaves, and the memory it changes. *)
Definition heap_booted (ks : kmem_state) (m m' : mem) : Prop :=
  heap_inv ks m' ∅ /\ g_heap_base ks = e_heap E /\ g_heap_end ks = e_heap E + M8_BOOT_HEAP_SIZE /\
  forall x, ~ e_heap E <= x < e_heap E + M8_BOOT_HEAP_SIZE -> m' x = m x.

Lemma runs_heap (k : unit -> bio B) :
  0 < e_heap E -> e_heap E mod 16 = 0 -> e_heap E + M8_BOOT_HEAP_SIZE <= 2 ^ 64 - 32 -> sends d0 d ->
  (forall ks m d', heap_booted ks (umem (b_sys b)) m -> sends d0 d' -> ends (k tt) (with_dev (set_mem (set_kmem b ks) m) d') Q) ->
  ends (heap_init E ≫= k) (with_dev b d) Q.
Proof.
  intros Hp Ha Ht Hd Hk.
  destruct (m8_spec (e_file E) (e_buf E) (e_heap E) (b_kmem b) (umem (b_sys b)) d Hp Ha Ht) as (d' & ks & m & Em & Hi & _ & Hb & He & Hs & Hx); [by apply open_line_ok, (sends_open d0)|].
  apply (runs_call _ _ _ (fun _ b1 => b1 = with_dev (set_mem (set_kmem b ks) m) d')); [|intros [] ? ->; apply Hk; [by split_and!|by eapply sends_trans]].
  apply (runs_intro _ tt _ (with_dev (set_mem (set_kmem b ks) m) d')); [|done]. unfold heap_init.
  change (b_kmem (with_dev b d)) with (b_kmem b). change (umem (b_sys (with_dev b d))) with (umem (b_sys b)). change (k_dev (world (b_sys (with_dev b d)))) with d. by rewrite Em.
Qed.

Lemma runs_sync (k : unit -> bio B) :
  length (held_class (boot_lockdep (b_m12 b))) = 16%nat -> length (held_name (boot_lockdep (b_m12 b))) = 16%nat -> sends d0 d ->
  (forall v d', boot_counter v = u64 (boot_counter (b_m12 b) + 1) -> s_locked (boot_stats_lock v) = 0 -> held (boot_lockdep v) = [] -> sends d0 d' ->
    ends (k tt) (with_dev (set_m12 b v) d') Q) ->
  ends (sync_selftest E ≫= k) (with_dev b d) Q.
Proof.
  intros H1 H2 Hd Hk. destruct (m12_spec (e_file E) (e_buf E) 1 (b_m12 b) d H1 H2) as (v & d' & Em & Hp & Hc & Hl & Hh & _); [lia|by apply open_line_ok, (sends_open d0)|].
  apply (runs_call _ _ _ (fun _ b1 => b1 = with_dev (set_m12 b v) d')); [|intros [] ? ->; apply Hk; try done; eapply sends_trans; [exact Hd|by eexists]].
  apply (runs_intro _ tt _ (with_dev (set_m12 b v) d')); [|done]. unfold sync_selftest.
  change (b_m12 (with_dev b d)) with (b_m12 b). change (k_dev (world (b_sys (with_dev b d)))) with d. by rewrite Em.
Qed.

End Parts.

(** The empty file system takes the demo file. *)
Lemma fresh_seed nm rest : length nm = 30%nat -> length rest = 63%nat ->
  exists fs, mcs_ramfs_seed_file (Ref (mk_ramfs (mk_vnode 1 0 0 MCS_VNODE_DIR (SLASH :: 0 :: nm) 0 0 0 :: rest) 1 (replicate (Z.to_nat MCS_RAMFS_DATA_BYTES) 0) 0))
      (lit "/hello.txt") (Ref (bytes_of "hello-mcsos")) 11 = Some (MCS_OK, Ref fs) /\ ramfs_wf fs /\ exists i, hello_file {[ 0%nat := fs ]} i (bytes_of "hello-mcsos").
Proof.
  intros Hn Hr. pose proof (init_wf nm rest Hn Hr) as Hwf. set (f := mk_ramfs _ _ _ _) in *.
  destruct (seed_spec f (bytes_of "/hello.txt" ++ [0]) (bytes_of "/hello.txt") (bytes_of "hello-mcsos") 11 Hwf) as (rc & fs & Es & Hfs & Hok & Hrc).
  { split; [apply (bool_decide_unpack _); by vm_compute|by exists []]. }
  { change (length (bytes_of "hello-mcsos")) with 11%nat. lia. }
  assert (Hc : create_result f (bytes_of "/hello.txt") = (MCS_OK, Some 1, add_file f 0 (bytes_of "hello.txt"))) by reflexivity.
  assert (rc = MCS_OK) as ->.
  { destruct rest as [|n1 rest]; [discriminate Hr|]. eapply (Hrc _ _ (new_node f 0 (bytes_of "hello.txt"))); [exact Hc| |cbn; lia]. split; [cbn; lia|]. reflexivity. }
  destruct (Hok eq_refl) as (i & Hl & Hcont & _). exists fs. split; [exact Es|]. split; [exact Hfs|]. exists i. split; [|reflexivity].
  exists fs. split; [apply lookup_singleton_eq|]. split; [exact Hl|exact Hcont].
Qed.

Lemma runs_ramfs {B} b d fs0 (Q : outcome B -> boot_state -> Prop) (k : unit -> bio B) :
  files (b_sys b) = {[ 0%nat := fs0 ]} -> ramfs_storage fs0 ->
  (forall fs i, ramfs_wf fs -> hello_file {[ 0%nat := fs ]} i (bytes_of "hello-mcsos") -> ends (k tt) (with_dev (set_files b {[ 0%nat := fs ]}) d) Q) ->
  ends (ramfs_setup ≫= k) (with_dev b d) Q.
Proof.
  intros Hf Hst Hk. destruct (init_spec fs0 Hst) as (nm & rest & Hn & Hr & Ei). destruct (fresh_seed nm rest Hn Hr) as (fs & Es & Hfs & i & Hh).
  revert Ei Es. generalize (mk_ramfs (mk_vnode 1 0 0 MCS_VNODE_DIR (SLASH :: 0 :: nm) 0 0 0 :: rest) 1 (replicate (Z.to_nat MCS_RAMFS_DATA_BYTES) 0) 0). intros fs1 Ei Es.
  apply (runs_call _ _ _ (fun _ b1 => b1 = with_dev (set_files b {[ 0%nat := fs ]}) d)); [|intros [] ? ->; by apply (Hk fs i)].
  apply (runs_intro _ tt _ (with_dev (set_files b {[ 0%nat := fs ]}) d)); [|done]. unfold ramfs_setup. change (files (b_sys (with_dev b d))) with (files (b_sys b)).
  rewrite Hf, lookup_singleton_eq. cbn [mbind option_bind]. rewrite Ei. cbn [mbind option_bind]. rewrite Es. cbn [mbind option_bind]. by rewrite insert_singleton_eq.
Qed.

Lemma with_dev_id b : with_dev b (b_dev b) = b.
Proof. by destruct b as [[? ? [] ? ?] ? ? ? ? ?]. Qed.

Lemma ends_norm {A} (e : bio A) b Q : ends e (with_dev b (b_dev b)) Q -> ends e b Q.
Proof. by rewrite with_dev_id. Qed.

Lemma runs_mono {A} (e : bio A) b R Q : runs e b R -> (forall a b1, R a b1 -> Q a b1) -> runs e b Q.
Proof. intros (? & b1 & E & a & -> & HR) HQ. apply (runs_intro _ a _ b1); auto. Qed.

(** * Lemmas: the services *)

Section Services.
Context `{Hardware} {Hready : UartReady} (E : boot_env).

(** What [kmain] does once interrupts are enabled. *)
Definition services : bio unit :=
  ramfs_setup;;
  say "[M13] ramfs: initialized + demo file seeded";;
  on_sys (kernel_m10_syscall_init (e_resume E) (e_file E) (e_buf E) (e_kpath E) (e_kbuf E) (e_cs E) (e_int80 E));;
  dev (kernel_m11_loader_smoke (e_image E) (e_plan E));;
  sync_selftest E;;
  on_sys (kernel_m9_scheduler_init (e_resume E) (e_layout E) (e_file E) (e_buf E)).

(** The static objects that the services use, before they run. *)
Record services_input (b : boot_state) : Prop := {
  si_files : exists fs0, files (b_sys b) = {[ 0%nat := fs0 ]} /\ ramfs_storage fs0;
  si_idt : length (k_idt (world (b_sys b))) = 256%nat;
  si_threads : m9_static (e_layout E) (k_machine (world (b_sys b)));
  si_tables a t : tab_get (world (b_sys b)) a = Some t -> t = all_closed;
  si_sched : initialized (k_sched (world (b_sys b))) = 0;
  si_image : Z.of_nat (length (e_image E)) = M11_DEMO_IMAGE_SIZE;
  si_m12 : length (held_class (boot_lockdep (b_m12 b))) = 16%nat /\ length (held_name (boot_lockdep (b_m12 b))) = 16%nat
}.

Abbreviation stacks_started m :=
  (store64 (store64 m (g_stack_a (e_layout E) + M9_STACK_SIZE - 8) 0) (g_stack_b (e_layout E) + M9_STACK_SIZE - 8) 0).

(** The kernel when thread A starts. *)
Record started (b : boot_state) (w : kworld) (fs : mcs_ramfs) : Prop := {
  st_fs : ramfs_wf fs;
  st_hello : exists i, hello_file {[ 0%nat := fs ]} i (bytes_of "hello-mcsos");
  st_idt : k_idt w = <[Z.to_nat 0x80 := gate_of (e_cs E) (e_int80 E) X86_64_IDT_GATE_INTERRUPT]> (k_idt (world (b_sys b)));
  st_queue : represents_sched (k_sched w) (k_machine w) (mk_asched (g_thread_a (e_layout E)) (g_boot_thread (e_layout E)) [g_thread_b (e_layout E)]);
  st_cpu : cpu (k_machine w) = start_context (e_layout E) (g_stack_a (e_layout E));
  st_entry t : threads (k_machine w) !! g_thread_a (e_layout E) = Some t -> entry t = demo_thread_a (e_layout E) /\ arg t = 0;
  st_tables a t : tab_get w a = Some t -> t = all_closed
}.

Definition started_state (b : boot_state) (w : kworld) (fs : mcs_ramfs) (v : m12_state) : boot_state :=
  set_m12 (set_sys b (mk_sys (kernel_ops (e_resume E)) M10_USER_REGION w (stacks_started (umem (b_sys b))) {[ 0%nat := fs ]})) v.

Lemma services_runs b d0 d : services_input b -> 0 <= g_ticks d0 < 2 ^ 63 -> sends d0 d ->
  runs services (with_dev b d) (fun _ b' => exists w fs v, b' = started_state b w fs v /\ started b w fs /\ sends d0 (k_dev w)).
Proof.
  intros [(fs0 & Hf0 & Hst) Hidt Hth Htab Hsc Him [Hm1 Hm2]] Htk Hd. unfold runs, services.
  eapply runs_ramfs; [exact Hf0|exact Hst|]. intros fs i Hfs Hh. log_line.
  assert (Hheap : heap_wf {[ 0%nat := fs ]}) by (by intros k x [<- <-]%lookup_singleton_Some).
  destruct (m10_spec (e_resume E) (e_file E) (e_buf E) (e_kpath E) (e_kbuf E) (e_cs E) (e_int80 E) (b_sys (with_dev (set_files b {[ 0%nat := fs ]}) d1))) as (d2 & E2 & S2).
  { split; [split; [by left|by apply (sends_open d0)]|]. split; [exact Hheap|]. split; [by eexists|]. intros k t ->%Htab. by apply fresh_wf. }
  { exact Hidt. } { change (0 <= g_ticks d1 < 2 ^ 63). by rewrite (sends_ticks d0 d1). }
  eapply runs_sys; [exact E2|]. apply ends_norm. change (sends d1 d2) in S2. assert (Hd2 : sends d0 d2) by (by eapply sends_trans).
  destruct (m11_smoke_spec (e_image E) (e_plan E) Him) as [bs Hm11]. eapply runs_quiet; [exact (ex_intro _ _ Hm11)|exact Hd2|]. intros d3 Hd3.
  eapply runs_sync; [exact Hm1|exact Hm2|exact Hd3|]. intros v d4 _ _ _ Hd4. apply ends_ret_r.
  match goal with |- ends (on_sys _ ≫= _) ?s _ =>
    destruct (m9_spec (e_resume E) (e_layout E) (e_file E) (e_buf E) (b_sys s) Hth (sends_open _ _ Hd4)) as (sc & m & d5 & E5 & Hq & Hcpu & _ & _ & Ha & _ & Ht & S5) end.
  eapply runs_sys; [exact E5|]. apply runs_ret. eexists _, fs, v. split; [reflexivity|]. split; [|by eapply sends_trans].
  split; [exact Hfs|by exists i|reflexivity|exact Hq|exact Hcpu|exact Ha|]. intros a t. cbn [tab_get kworld_tables k_machine]. rewrite Ht. destruct (decide _); [by intros [= <-]|apply Htab].
Qed.

End Services.

(** * Lemmas: the whole *)

Section Whole.
Context `{Hardware} {Hready : UartReady} (E : boot_env) (resp : limine_memmap_response) (off : Z).
Context (m0 s0 : pic) (p0 : pit) {Hreads : PicReads m0 s0}.

(** What the boot loader, the linker and the zeroed static objects must provide. *)
Record boot_input (b : boot_state) : Prop := {
  bi_memory : map_input E resp;
  bi_hhdm : e_hhdm E = Ref off;
  bi_window : hhdm_ok off;
  bi_stubs : length (e_stubs E) = 48%nat;
  bi_heap : 0 < e_heap E /\ e_heap E mod 16 = 0 /\ e_heap E + M8_BOOT_HEAP_SIZE <= 2 ^ 64 - 32;
  bi_services : services_input E b;
  bi_ticks : 0 <= g_ticks (b_dev b) < 2 ^ 63
}.

(** The state of the managers when the services start. *)
Definition managed (b : boot_state) (idt : list x86_64_idt_entry) (root : Z) (p : pmm_state) (ks : kmem_state) (m1 m2 : mem) : boot_state :=
  set_mem (set_kmem (set_space (set_mem (set_pmm (set_idt b idt (mk_idtr 4095 (e_idt E))) p) m1) (kernel_space off (root * 4096))) ks) m2.

Record booted (b b' : boot_state) (idt : list x86_64_idt_entry) (root : Z) (p : pmm_state) (ks : kmem_state) (m1 m2 : mem) (w : kworld) (fs : mcs_ramfs) (v : m12_state) : Prop := {
  bt_state : b' = started_state E (managed b idt root p ks m1 m2) w fs v;
  bt_started : started E (managed b idt root p ks m1 m2) w fs;
  bt_idt : x86_64_idt_init (e_cs E) (e_idt E) (e_stubs E) (k_idt (world (b_sys b))) = Some (idt, mk_idtr 4095 (e_idt E)) /\ length idt = 256%nat;
  bt_vmm : vmm_booted E resp root p;
  bt_root : root_cleared off root (umem (b_sys b)) m1;
  bt_heap : heap_booted E ks m1 m2;
  bt_line : open_line (k_dev w);
  bt_irq : irq_ready m0 s0 p0 (k_dev w);
  bt_interrupts : interrupts_on (trace (k_dev w)) = true
}.

Lemma set_pmm_twice b p q : set_pmm (set_pmm b p) q = set_pmm b q.
Proof. reflexivity. Qed.

(** What [kmain] does once the devices are ready. *)
Definition managers : bio unit :=
  memory_init E;;
  say "[MCSOS:M7] pmm: ready";;
  vmm_init E;;
  say "[MCSOS:M7] vmm: ready";;
  heap_init E;;
  say "[MCSOS:M8] heap: ready";;
  say "[MCSOS:M7] sti: enabling interrupts";;
  dev cpu_sti;;
  services E.

(** The state in which the devices are ready. *)
Definition devices_up (b : boot_state) (idt : list x86_64_idt_entry) : boot_state := set_idt b idt (mk_idtr 4095 (e_idt E)).

Lemma kmain_devices b Q : length (e_stubs E) = 48%nat -> length (k_idt (world (b_sys b))) = 256%nat ->
  (forall idt d, x86_64_idt_init (e_cs E) (e_idt E) (e_stubs E) (k_idt (world (b_sys b))) = Some (idt, mk_idtr 4095 (e_idt E)) -> length idt = 256%nat ->
    open_line d -> g_ticks d = g_ticks (b_dev b) -> irq_ready m0 s0 p0 d -> ends managers (with_dev (devices_up b idt) d) Q) ->
  ends (kmain E) b Q.
Proof.
  intros Hstubs Hidt Hk. apply ends_norm. unfold kmain.
  eapply runs_dev; [reflexivity|]. destruct (serial_init_spec (add_event (b_dev b) Cli)) as (d1 & E1 & P1 & _). eapply runs_dev; [exact E1|].
  assert (S1 : sends d1 d1) by (exists []; apply printed_nil, P1). logged d2 S2.
  destruct (idt_init_spec (e_cs E) (e_idt E) (e_stubs E) (k_idt (world (b_sys b))) Hidt Hstubs) as (idt & Ei & Hli & _).
  eapply runs_load_idt; [exact Ei|]. logged d3 S3. destruct (pics_spec m0 s0 d3 (sends_open _ _ S3)) as (d4 & d5 & d6 & E4 & E5 & E6 & O6 & T6 & K6 & A6 & B6).
  eapply runs_dev; [exact E4|]. eapply runs_dev; [exact E5|]. eapply runs_dev; [exact E6|]. assert (S6 : sends d6 d6) by (exists []; by apply printed_nil). logged d7 S7.
  destruct (pit_spec m0 s0 p0 d6 d7 O6 K6 A6 B6 S7) as (d8 & E8 & O8 & T8 & R8). eapply runs_dev; [exact E8|].
  assert (S8 : sends d8 d8) by (exists []; by apply printed_nil). logged d9 S9. fold (services E) managers (devices_up b idt).
  apply Hk; [exact Ei|exact Hli|exact (sends_open _ _ S9)| |by eapply irq_ready_sends]. rewrite (sends_ticks _ _ S9), T8, T6, (sends_ticks _ _ S3). exact (pr_ticks _ _ _ P1).
Qed.

Lemma kmain_runs b : boot_input b -> has_frame E resp ->
  runs (kmain E) b (fun _ b' => exists idt root p ks m1 m2 w fs v, booted b b' idt root p ks m1 m2 w fs v).
Proof.
  intros [Hmem Hhd Hwin Hstubs (Hh1 & Hh2 & Hh3) Hser Htk] Hfr. apply kmain_devices; [exact Hstubs|exact (si_idt _ _ Hser)|]. intros idt d8 Ei Hli O8 T8 R8.
  assert (S9 : sends d8 d8) by (exists []; by apply printed_nil). unfold managers.
  eapply runs_call; [by eapply memory_init_runs|]. intros _ b1 (p1 & d10 & -> & S10 & Hp1). logged d11 S11.
  eapply runs_call; [by eapply vmm_init_runs|]. intros _ b1 (root & p & m1 & d12 & -> & S12 & Hvmm & Hroot). rewrite set_pmm_twice. logged d13 S13.
  eapply runs_heap; [done..|exact S13|]. intros ks m2 d14 Hheap S14. logged d15 S15. logged d16 S16.
  eapply runs_dev; [reflexivity|]. assert (S17 : sends (add_event d16 Sti) (add_event d16 Sti)) by (exists []; apply printed_nil; exact (sends_open _ _ S16)).
  assert (T17 : g_ticks (add_event d16 Sti) = g_ticks (b_dev b)) by (change (g_ticks d16 = g_ticks (b_dev b)); by rewrite (sends_ticks _ _ S16)).
  unfold devices_up. fold (managed b idt root p ks m1 m2). eapply runs_mono; [eapply (services_runs E (managed b idt root p ks m1 m2) (add_event d16 Sti))|]; [|by rewrite T17|exact S17|].
  { destruct Hser as [H1 H2 H3 H4 H5 H6 H7]. by split. }
  intros _ b' (w & fs & v & -> & Hst & Sw). exists idt, root, p, ks, m1, m2, w, fs, v. split; try done; [exact (sends_open _ _ Sw)| |].
  - eapply irq_ready_sends; [|exact Sw]. destruct (irq_ready_sends _ _ _ _ _ R8 S16) as [Q1 Q2 Q3 Q4]. by split.
  - by rewrite (interrupts_sends _ _ Sw).
Qed.

(** The end of a bring-up that fails: the processor is halted with interrupts disabled, and the reason is on the line. *)
Definition halted (reason : string) (r : outcome unit) (b' : boot_state) : Prop :=
  r = Panic 0 /\ (exists h, trace (b_dev b') = Hlt :: Cli :: h) /\
  exists pre post, sent (b_dev b') = pre ++ bytes_of "reason=" ++ crlf (bytes_of reason) ++ post.

(** What a panic needs: the buffer for numbers, the name of the file and the flags register. *)
Definition panic_input : Prop := length (e_buf E) = 11%nat /\ (exists f, string_arg (e_file E) f) /\ forall h, is_u64 (hw_rflags h).

Lemma stop_halts line reason b d : panic_input -> forallb (fun c => negb (c =? 0)) (bytes_of reason) = true -> open_line d ->
  exists b', stop E line reason 0 (with_dev b d) = Some (Panic 0, b') /\ halted reason (Panic 0) b'.
Proof.
  intros (Hb & (f & Hf) & Hfl) Hr Ho.
  destruct (panic_sends d (e_buf E) (e_file E) f line (lit reason) (bytes_of reason) 0) as (d' & pre & mid & dl & hx & post & Ep & Hp & _);
    [by apply open_line_ok|exact Hb|exact Hf|by apply lit_arg|unfold is_u64; lia|apply Hfl|].
  exists (with_dev b (add_event (add_event d' Cli) Hlt)). split.
  - unfold stop, dev, on_sys, run_dev. change (k_dev (world (b_sys (with_dev b d)))) with d. rewrite Ep. reflexivity.
  - split; [done|]. split; [by eexists|]. exists (sent d ++ pre), (mid ++ dl ++ [13; 10] ++ bytes_of "panic_code=0x" ++ hx ++ post).
    change (sent d' = (sent d ++ pre) ++ bytes_of "reason=" ++ crlf (bytes_of reason) ++ mid ++ dl ++ [13; 10] ++ bytes_of "panic_code=0x" ++ hx ++ post).
    rewrite (pr_sent _ _ _ Hp). change (sent (add_event d Cli)) with (sent d). cbn [is_null lit]. by rewrite <- app_assoc.
Qed.

Lemma memory_init_panics b d : panic_input -> map_input E resp -> ~ has_frame E resp -> open_line d ->
  exists b', memory_init E (with_dev b d) = Some (Panic 0, b') /\ halted "pmm_alloc_frame returned invalid frame" (Panic 0) b'.
Proof.
  intros Hpan Hin Hno Ho. assert (Sd : sends d d) by (exists []; by apply printed_nil).
  assert (He : ends (memory_init E) (with_dev b d) (halted "pmm_alloc_frame returned invalid frame")).
  { apply (memory_init_maps _ _ _ _ resp Hin). intros p (Hp & Hc & Hset).
    destruct (kernel_vmm_alloc_spec p Hp) as (a & p1 & _ & Ea & _ & _ & [(_ & -> & _)|(f & _ & Hf & _)]); [|destruct Hno; exists f; by apply Hset].
    destruct (pmm_counts _ Hp) as (C1 & C2 & C3). unfold pmm_report. logged d1 S1. apply runs_get. logged d2 S2. logged d3 S3. logged d4 S4.
    eapply runs_lift; [exact Ea|]. apply runs_put. cbv zeta. cbn [fst]. change (no_frame =? PMM_INVALID_FRAME) with true. cbn iota.
    destruct (stop_halts 150 "pmm_alloc_frame returned invalid frame" (set_pmm (set_pmm b p) p1) d4 Hpan eq_refl (sends_open _ _ S4)) as (b' & E1 & Hh).
    by eapply ends_panic. }
  destruct He as (r & b' & E1 & Hh). pose proof Hh as [-> _]. by exists b'.
Qed.

(** Why a bring-up fails. *)
Definition boot_failure (reason : string) : Prop :=
  e_memmap E = NULL /\ reason = "limine memmap response is NULL" \/
  (map_input E resp /\ ~ has_frame E resp) /\ reason = "pmm_alloc_frame returned invalid frame" \/
  (map_input E resp /\ has_frame E resp /\ e_hhdm E = NULL) /\ reason = "limine hhdm response is NULL".

Lemma kmain_ends_halted b reason : panic_input -> length (e_stubs E) = 48%nat -> length (k_idt (world (b_sys b))) = 256%nat -> boot_failure reason ->
  ends (kmain E) b (halted reason).
Proof.
  intros Hpan Hst Hidt Hf. apply kmain_devices; [done..|]. intros idt d _ _ Ho _ _. assert (Sd : sends d d) by (exists []; by apply printed_nil). unfold managers.
  destruct Hf as [[Hm ->]|[[[Hin Hno] ->]|[(Hin & Hfr & Hh) ->]]].
  - unfold memory_init. rewrite Hm. destruct (stop_halts 112 "limine memmap response is NULL" (devices_up b idt) d Hpan eq_refl Ho) as (b' & E1 & Hb'). by eapply ends_panic.
  - destruct (memory_init_panics (devices_up b idt) d Hpan Hin Hno Ho) as (b' & E1 & Hb'). by eapply ends_panic.
  - eapply runs_call; [by eapply memory_init_runs|]. intros _ b1 (p & d1 & -> & S1 & _). logged d2 S2. unfold vmm_init. rewrite Hh.
    destruct (stop_halts 169 "limine hhdm response is NULL" (set_pmm (devices_up b idt) p) d2 Hpan eq_refl (sends_open _ _ S2)) as (b' & E1 & Hb'). by eapply ends_panic.
Qed.

(** The static objects do not overlap, and none lies in the direct map. *)
Definition apart (a c : Z * Z) : Prop := a.1 + a.2 <= c.1 \/ c.1 + c.2 <= a.1.

Record boot_layout (b : boot_state) : Prop := {
  bl_apart : ForallOrdPairs apart [(off, PMM_MAX_PHYS_BYTES); (e_heap E, M8_BOOT_HEAP_SIZE); (g_stack_a (e_layout E), M9_STACK_SIZE);
    (g_stack_b (e_layout E), M9_STACK_SIZE); (e_smoke_path E, 16); (e_smoke_buf E, 16)];
  bl_path : 0 < e_smoke_path E /\ e_smoke_path E + 16 < 2 ^ 64 - 1 /\ user_bytes (umem (b_sys b)) (e_smoke_path E) 10 = bytes_of "/hello.txt";
  bl_buf : 0 < e_smoke_buf E /\ e_smoke_buf E + 16 < 2 ^ 64 - 1;
  bl_buffers : length (e_kpath E) = 128%nat /\ length (e_kbuf E) = 4096%nat;
  bl_code : Forall is_u64 (e_stubs E) /\ is_u64 (e_int80 E)
}.

Lemma FOP_cons_inv {A} (R : A -> A -> Prop) x l : ForallOrdPairs R (x :: l) -> List.Forall (R x) l /\ ForallOrdPairs R l.
Proof. by inversion_clear 1. Qed.

Lemma heap_inv_ext ks m m' L : (forall x, g_heap_base ks <= x < g_heap_end ks -> m' x = m x) -> heap_inv ks m L -> heap_inv ks m' L.
Proof.
  intros Hx (bs & [R1 R2 R3 R4 R5 R6 R7 R8] & Hrest). exists bs. split; [|exact Hrest]. split; try done. eapply seg_ext; [|exact R8].
  intros a x Ha Hr. destruct (seg_starts _ _ _ _ _ _ R8 Ha). apply Hx. unfold KMEM_HEADER in Hr. lia.
Qed.

Lemma started_umem b idt root p ks m1 m2 w fs v : umem (b_sys (started_state E (managed b idt root p ks m1 m2) w fs v)) =
  store64 (store64 m2 (g_stack_a (e_layout E) + M9_STACK_SIZE - 8) 0) (g_stack_b (e_layout E) + M9_STACK_SIZE - 8) 0.
Proof. reflexivity. Qed.

(** What the bring-up leaves in memory. *)
Record boot_memory (b' : boot_state) (root : Z) : Prop := {
  bm_root x : off + root * 4096 <= x < off + (root + 1) * 4096 -> u8 (umem (b_sys b') x) = 0;
  bm_heap : heap_inv (b_kmem b') (umem (b_sys b')) ∅;
  bm_path : user_bytes (umem (b_sys b')) (e_smoke_path E) 10 = bytes_of "/hello.txt"
}.

Lemma apart_out a n c k x : apart (a, n) (c, k) -> (a <= x < a + n -> ~ c <= x < c + k) /\ (c <= x < c + k -> ~ a <= x < a + n).
Proof. unfold apart. cbn. lia. Qed.

Lemma layout_apart b x : boot_layout b ->
  let sa := g_stack_a (e_layout E) in let sb := g_stack_b (e_layout E) in
  (off <= x < off + PMM_MAX_PHYS_BYTES -> ~ e_heap E <= x < e_heap E + M8_BOOT_HEAP_SIZE /\ ~ sa <= x < sa + M9_STACK_SIZE /\ ~ sb <= x < sb + M9_STACK_SIZE) /\
  (e_heap E <= x < e_heap E + M8_BOOT_HEAP_SIZE -> ~ sa <= x < sa + M9_STACK_SIZE /\ ~ sb <= x < sb + M9_STACK_SIZE) /\
  (e_smoke_path E <= x < e_smoke_path E + 16 -> ~ off <= x < off + PMM_MAX_PHYS_BYTES /\ ~ e_heap E <= x < e_heap E + M8_BOOT_HEAP_SIZE /\
    ~ sa <= x < sa + M9_STACK_SIZE /\ ~ sb <= x < sb + M9_STACK_SIZE).
Proof.
  intros [Hap _ _ _ _]. apply FOP_cons_inv in Hap as [F1 Hap]. apply FOP_cons_inv in Hap as [F2 Hap]. apply FOP_cons_inv in Hap as [F3 Hap]. apply FOP_cons_inv in Hap as [F4 _].
  repeat match goal with H : List.Forall _ (_ :: _) |- _ => apply List.Forall_cons_iff in H as [?%(apart_out _ _ _ _ x) H] end.
  cbv zeta. split_and!; intros Hx; split_and!; tauto.
Qed.

Lemma booted_memory b b' idt root p ks m1 m2 w fs v : boot_input b -> boot_layout b -> booted b b' idt root p ks m1 m2 w fs v -> boot_memory b' root.
Proof.
  intros [_ _ Hoff _ _ _ _] Hlay [-> _ _ (Hr & _) (Hz & Hother) (Hinv & Hb & He & Hout) _ _ _].
  assert (Hwin : forall x, off + root * 4096 <= x < off + (root + 1) * 4096 -> off <= x < off + PMM_MAX_PHYS_BYTES) by (intros x Hx; pose proof boot_frames_value; unfold PMM_MAX_PHYS_BYTES; lia).
  assert (Hm : forall x, ~ g_stack_a (e_layout E) <= x < g_stack_a (e_layout E) + M9_STACK_SIZE -> ~ g_stack_b (e_layout E) <= x < g_stack_b (e_layout E) + M9_STACK_SIZE ->
    umem (b_sys (started_state E (managed b idt root p ks m1 m2) w fs v)) x = m2 x).
  { intros x Ha Hb'. rewrite started_umem. unfold M9_STACK_SIZE, store64 in *. by rewrite !store_other by lia. }
  split.
  - intros x Hx. destruct (layout_apart b x Hlay) as [L _]. destruct (L (Hwin x Hx)) as (L1 & L2 & L3). rewrite Hm by done. rewrite Hout by done. by apply Hz.
  - change (b_kmem _) with ks. eapply heap_inv_ext; [|exact Hinv]. rewrite Hb, He. intros x Hx. destruct (layout_apart b x Hlay) as (_ & L & _). by apply Hm; apply L.
  - destruct (bl_path _ Hlay) as (_ & _ & <-). unfold user_bytes. apply list_fmap_ext. intros i j [-> Hlt]%lookup_seq. unfold load8.
    destruct (layout_apart b (e_smoke_path E + Z.of_nat (0 + i)) Hlay) as (_ & _ & L). destruct L as (L1 & L2 & L3 & L4); [lia|].
    rewrite Hm by done. rewrite Hout by done. apply Hother. intros Hx. by apply L1, Hwin.
Qed.

(** The address space that the final memory represents. *)
Lemma booted_space root p m : hhdm_ok off -> vmm_booted E resp root p ->
  (forall x, off + root * 4096 <= x < off + (root + 1) * 4096 -> u8 (m x) = 0) -> kernel_represents off (root * 4096) (mk_world m p []) ∅.
Proof.
  intros Hoff (Hr & _ & Hp & Hmx & Hset) Hz. pose proof (hhdm_window off Hoff) as W. pose proof boot_frames_value as Hbf.
  assert (Hv : kernel_vmm_phys_to_virt off (root * 4096) = off + root * 4096).
  { unfold kernel_vmm_phys_to_virt. apply u64_small. destruct Hoff. unfold is_u64, PMM_MAX_PHYS_BYTES in *. lia. }
  destruct (empty_tree (limit := PMM_MAX_PHYS_BYTES) (p2v := kernel_vmm_phys_to_virt off) (root * 4096) m) as (Hwf & _ & Hx).
  - split; [unfold PMM_MAX_PHYS_BYTES; lia|]. apply Z.mod_mul. lia.
  - intros i Hi. unfold entry_at, load64. rewrite Hv. apply load_zero. intros x Hx. apply Hz. unfold is_idx in Hi. change (Z.of_nat 8) with 8 in Hx. lia.
  - split; [|intros va _; apply Hx]. exists {[root * 4096]}. split; [exact Hwf|]. split; [by split|].
    intros x ->%elem_of_singleton (g & Hg & Hin)%elem_of_pmm_avail. apply Hset in Hin as (_ & _ & Hne). apply Hne. lia.
Qed.

(** The gates that the processor finds. *)
Lemma booted_gates b b' idt root p ks m1 m2 w fs v : boot_input b -> boot_layout b -> booted b b' idt root p ks m1 m2 w fs v ->
  forall vec stub, (0 <= vec < 48 /\ arr_get (e_stubs E) vec = Some stub \/ vec = 0x80 /\ stub = e_int80 E) ->
    exists g, arr_get (k_idt w) vec = Some g /\ gate_present g = true /\ gate_offset g = stub.
Proof.
  intros [_ _ _ Hst _ Hser _] [_ _ _ _ [Hs64 Hi64]] [_ Hstd [Ei Hl] _ _ _ _ _ _] vec stub Hv. rewrite (st_idt _ _ _ _ Hstd). change (k_idt (world (b_sys (managed _ _ _ _ _ _ _)))) with idt.
  destruct Hv as [[Hv Hs]|[-> ->]].
  - destruct (idt_init_spec (e_cs E) (e_idt E) (e_stubs E) _ (si_idt _ _ Hser) Hst) as (idt' & Ei' & _ & Hg). rewrite Ei in Ei'. injection Ei' as <-.
    destruct (Hg vec ltac:(lia)) as (g & Hget & Hgate). rewrite (proj2 (Z.ltb_lt vec 48)) in Hgate by lia. destruct Hgate as (h & Hh & ->). rewrite Hs in Hh. injection Hh as <-.
    eexists. split; [|split; [|apply gate_of_offset]].
    + apply arr_get_Some in Hget as [_ Hget]. apply arr_get_Some. split; [lia|]. rewrite list_lookup_insert_ne by lia. exact Hget.
    + unfold gate_present, gate_of, idt_type. cbn [type_attr]. by destruct (vec =? 3).
    + apply arr_get_Some in Hs as [_ Hs]. by eapply Forall_lookup_1.
  - exists (gate_of (e_cs E) (e_int80 E) X86_64_IDT_GATE_INTERRUPT). split; [|split; [reflexivity|by apply gate_of_offset]]. apply arr_get_Some. split; [lia|]. apply list_lookup_insert_eq. lia.
Qed.

Lemma booted_kernel b b' idt root p ks m1 m2 w fs v : booted b b' idt root p ks m1 m2 w fs v ->
  kernel_ready (e_resume E) (b_sys b') /\ world (b_sys b') = w /\ files (b_sys b') = {[ 0%nat := fs ]} /\ k_get_current_fd_table w = Ref (g_thread_a (e_layout E)) /\
  m9_thread_call w = Some (demo_thread_a (e_layout E), 0) /\ tab_get w (g_thread_a (e_layout E)) = Some all_closed.
Proof.
  intros [-> [Hfs _ _ Hq _ Hen Htab] _ _ _ _ Ho _ _]. assert (Hh : heap_wf {[ 0%nat := fs ]}) by (by intros k x [<- <-]%lookup_singleton_Some).
  destruct (inv_valid Hq (g_thread_a (e_layout E))) as (t & Et & _); [by left|]. pose proof (si_cur _ _ _ _ _ _ Hq) as Hcur. cbn [a_cur] in Hcur.
  split_and!; [|done|done| | |].
  - split; [|done]. apply (boot_sys_wf (e_resume E)); [|done|done]. split; [split; [right; by eexists|exact Ho]|]. split; [exact Hh|]. split; [by eexists|].
    intros k x ->%Htab. by apply fresh_wf.
  - unfold k_get_current_fd_table. rewrite Hcur. pose proof (si_init _ _ _ _ _ _ Hq). by rw_false (initialized (k_sched w) =? 0).
  - unfold m9_thread_call. rewrite Hcur, Et. cbn [mbind option_bind]. by destruct (Hen t Et) as [-> ->].
  - pose proof (Htab (g_thread_a (e_layout E))) as Ht. cbn [tab_get kworld_tables] in *. rewrite Et in *. cbn in *. by rewrite (Ht _ eq_refl).
Qed.

End Whole.

(** * A concrete machine *)

Definition demo_env : boot_env :=
  mk_env demo_limine (Ref demo_response) (Ref demo_hhdm) demo_static_regions demo_bitmap 0x28 0x6000 (replicate 48 0xffffffff80005000) 0xffffffff80006000 demo_layout 0x100000
    (replicate (Z.to_nat M11_DEMO_IMAGE_SIZE) 0) (mk_plan 0 0 []) NULL (replicate 11 0) (replicate 128 0) (replicate 4096 0) 0xffffffff80007000 0x7000 0x7100.

Definition demo_sys : sys_state kworld :=
  mk_sys (mk_ops NULL NULL NULL NULL NULL NULL) (mk_user_region 0 0) (mk_kworld demo_sched0 demo_threads (mk_kdev [] 0 0 0) (replicate 256 (zero_gate 0))) smoke_umem {[ 0%nat := demo_storage ]}.

Definition demo_boot : boot_state :=
  mk_boot demo_sys (mk_idtr 0 0) zero_state demo_vmm (mk_kmem 0 0 0 0) (mk_m12 (mk_spinlock 0 0 NULL) (mk_lockdep (replicate 16 0) (replicate 16 NULL) 0 0) 0).

Definition demo_pit : pit := mk_pit 0 None 0.

Lemma demo_map_input : map_input demo_env demo_response.
Proof. split; [done|apply demo_response_ok|apply demo_regions_static|apply demo_bitmap_ok]. Qed.

Lemma demo_has_frame : has_frame demo_env demo_response.
Proof. exists 0x120. split; [apply demo_frame_range|apply demo_available]. Qed.

Lemma demo_boot_input : boot_input demo_env demo_response demo_hhdm demo_boot.
Proof.
  split; [apply demo_map_input|done|apply demo_hhdm_ok|done|by vm_compute| |by vm_compute]. split.
  - exists demo_storage. split; [done|apply demo_blank_ok].
  - done.
  - apply demo_static.
  - intros a t. apply demo_table_of.
  - done.
  - unfold demo_env. cbn [e_image]. rewrite length_replicate, Z2Nat.id; [done|by vm_compute].
  - done.
Qed.

Lemma demo_boot_layout : boot_layout demo_env demo_hhdm demo_boot.
Proof.
  split; [|by vm_compute..| |].
  - repeat (apply FOP_cons; [repeat (apply List.Forall_cons; [first [left; by vm_compute | right; by vm_compute]|]); apply List.Forall_nil|]). apply FOP_nil.
  - split; apply length_replicate.
  - split; [apply Forall_replicate|]; unfold is_u64; cbn; lia.
Qed.

(** * Properties *)

Section Claims.
Context `{Hardware} {Hready : UartReady} (E : boot_env) (resp : limine_memmap_response) (off : Z).
Context (m0 s0 : pic) (p0 : pit) {Hreads : PicReads m0 s0}.

(** C4. The kernel boots. From zeroed static objects, a well-formed memory map with at least one available frame, a direct map and a serial line that becomes ready, [kmain] runs through without
    a panic up to the first thread. At that point, all in one state: the frames of the memory map are managed, except the one that holds the empty root table of the kernel's address space; the heap is intact and
    empty; only the timer interrupt is enabled, at 100 Hz and vector 0x20; every vector below 48 and the system-call vector lead to their stubs; interrupts are on; thread A is
    about to call [demo_thread_a] on its own stack; and whatever calls and stores programs make from then on, the kernel stays well formed and no byte outside the user region changes. *)
Theorem kernel_boots b : boot_input E resp off b -> has_frame E resp -> boot_layout E off b ->
  exists b1, kmain E b = Some (Done tt, b1) /\
    (exists root, vmm_booted E resp root (b_pmm b1) /\ b_vmm b1 = kernel_space off (root * 4096) /\
       kernel_represents off (root * 4096) (mk_world (umem (b_sys b1)) (b_pmm b1) []) ∅) /\
    heap_inv (b_kmem b1) (umem (b_sys b1)) ∅ /\
    irq_ready m0 s0 p0 (b_dev b1) /\ interrupts_on (trace (b_dev b1)) = true /\
    (forall vec stub, (0 <= vec < 48 /\ arr_get (e_stubs E) vec = Some stub \/ vec = 0x80 /\ stub = e_int80 E) ->
       exists g, arr_get (k_idt (world (b_sys b1))) vec = Some g /\ gate_present g = true /\ gate_offset g = stub) /\
    cpu (k_machine (world (b_sys b1))) = start_context (e_layout E) (g_stack_a (e_layout E)) /\
    m9_thread_call (world (b_sys b1)) = Some (demo_thread_a (e_layout E), 0) /\
    (forall st, rtc (sys_step (e_kpath E) (e_kbuf E)) (b_sys b1) st ->
       sys_wf k_inv k_dom st /\ forall x, ~ 0x400000 <= x < 0x800000000000 -> umem st x = umem (b_sys b1) x).
Proof.
  intros Hin Hfr Hlay. destruct (kmain_runs E resp off m0 s0 p0 b Hin Hfr) as (? & b1 & Ek & [] & -> & idt & root & p & ks & m1 & m2 & w & fs & v & Hb).
  destruct (booted_memory _ _ _ _ _ _ _ _ _ _ _ _ _ _ _ _ _ Hin Hlay Hb) as [Hz Hheap _].
  pose proof (booted_gates _ _ _ _ _ _ _ _ _ _ _ _ _ _ _ _ _ Hin Hlay Hb) as Hg. destruct (booted_kernel _ _ _ _ _ _ _ _ _ _ _ _ _ _ _ _ _ Hb) as ([Hwf Hops] & Ew & _ & _ & Hcall & _).
  exists b1. split; [exact Ek|]. pose proof Hb as [Eb Hst _ Hvmm _ _ _ Hirq Hint]. split.
  { exists root. rewrite Eb. split; [exact Hvmm|]. split; [reflexivity|]. rewrite <- Eb. replace (b_pmm b1) with p by (by rewrite Eb). by apply (booted_space E resp); [apply Hin|..]. }
  unfold b_dev. rewrite Ew. split; [exact Hheap|]. split; [exact Hirq|]. split; [exact Hint|]. split; [exact Hg|]. split; [exact (st_cpu _ _ _ _ Hst)|]. split; [exact Hcall|].
  intros st Hr. destruct (bl_buffers _ _ _ Hlay) as [Hkp Hkb]. destruct (reach_preserves k_inv k_dom (e_kpath E) (e_kbuf E) Hkp Hkb (b_sys b1) st Hr Hwf) as ((Hwf' & _) & Hu).
  split; [exact Hwf'|]. intros x Hx. apply Hu. by rewrite Eb.
Qed.

(** C39. The booted kernel runs its threads: after [kmain], thread A finds the demo file through system calls (its self test passes and leaves the first five bytes of the file in the buffer), and from
    there on, for every number of turns, the two threads print and yield in strict alternation and the boot thread never runs again. *)
Theorem kernel_boot_runs_threads b n : boot_input E resp off b -> has_frame E resp -> boot_layout E off b ->
  exists b1 st2 st3, kmain E b = Some (Done tt, b1) /\
    kernel_m13_vfs_syscall_smoke (e_file E) (e_buf E) (e_kpath E) (e_kbuf E) (e_smoke_path E) (e_smoke_buf E) (b_sys b1) = Some (Done tt, st2) /\
    user_bytes (umem st2) (e_smoke_buf E) 5 = hello /\
    turns (e_resume E) (e_layout E) n st2 = Some (Done tt, st3) /\ sent (k_dev (world st3)) = sent (k_dev (world st2)) ++ tick_output n true /\
    represents_sched (k_sched (world st3)) (k_machine (world st3)) (running (e_layout E) (Nat.even n)).
Proof.
  intros Hin Hfr Hlay. destruct (kmain_runs E resp off m0 s0 p0 b Hin Hfr) as (? & b1 & Ek & [] & -> & idt & root & p & ks & m1 & m2 & w & fs & v & Hb).
  destruct (booted_memory _ _ _ _ _ _ _ _ _ _ _ _ _ _ _ _ _ Hin Hlay Hb) as [_ _ Hpath].
  destruct (booted_kernel _ _ _ _ _ _ _ _ _ _ _ _ _ _ _ _ _ Hb) as (Hk & Ew & Ef & Hcur & _ & Htab). pose proof (bt_started _ _ _ _ _ _ _ _ _ _ _ _ _ _ _ _ _ Hb) as Hst.
  destruct (st_hello _ _ _ _ Hst) as [i Hh]. destruct (bl_buffers _ _ _ Hlay) as [Hkp Hkb]. destruct (bl_path _ _ _ Hlay) as (Hp1 & Hp2 & _). destruct (bl_buf _ _ _ Hlay) as [Hq1 Hq2].
  rewrite <- Ew in Hcur, Htab. rewrite <- Ef in Hh.
  destruct (m13_spec (e_resume E) (e_file E) (e_buf E) _ _ (e_smoke_path E) (e_smoke_buf E) (b_sys b1) (g_thread_a (e_layout E)) all_closed closed_file i _
    Hkp Hkb Hk Hcur Htab eq_refl eq_refl Hh Hp1 ltac:(lia) Hq1 ltac:(lia) Hpath) as (st' & E2 & A).
  pose proof (ma_queue _ _ _ _ _ _ _ A _ ltac:(rewrite Ew; exact (st_queue _ _ _ _ Hst))) as Hq. rewrite <- (ma_sched _ _ _ _ _ _ _ A) in Hq.
  destruct (m13_table _ _ _ _ _ _ _ A) as (_ & _ & _ & Ho). pose proof (ms_distinct _ _ (si_threads _ _ (bi_services _ _ _ _ Hin))) as Hd.
  destruct (turns_spec (e_resume E) (e_layout E) n Hd true (mcsos_syscall_set_user_region M10_USER_REGION st') Hq Ho) as (st3 & E3 & Hr & Hs).
  eexists b1, _, st3. split; [exact Ek|]. split; [exact E2|]. split; [|split; [exact E3|split; [exact Hs|]]].
  - cbn [mcsos_syscall_set_user_region umem]. rewrite (user_bytes_ext (write_bytes (umem (b_sys b1)) (e_smoke_buf E) hello)) by (intros x _; apply (ma_mem _ _ _ _ _ _ _ A)).
    apply (user_bytes_write _ _ hello). apply (bool_decide_unpack (Forall (fun b => 0 <= b < 2 ^ 8) hello)). by vm_compute.
  - by rewrite xorb_true_l, Nat.negb_odd in Hr.
Qed.

(** C40. A bring-up that cannot go on stops safely: when the boot loader gives no memory map, when the map leaves no frame, or when it gives no direct map, [kmain] ends in a panic that names this
    reason on the serial line, and the processor is halted with interrupts disabled; no step before it is undefined and none after it is taken. *)
Theorem kmain_panics b reason : panic_input E -> length (e_stubs E) = 48%nat -> length (k_idt (world (b_sys b))) = 256%nat -> boot_failure E resp reason ->
  exists b', kmain E b = Some (Panic 0, b') /\ (exists h, trace (b_dev b') = Hlt :: Cli :: h) /\
    exists pre post, sent (b_dev b') = pre ++ bytes_of "reason=" ++ crlf (bytes_of reason) ++ post.
Proof.
  intros Hpan Hst Hidt Hf. destruct (kmain_ends_halted E resp m0 s0 p0 b reason Hpan Hst Hidt Hf) as (r & b' & Ek & -> & Hh & Hs). by exists b'.
Qed.

End Claims.

Lemma kernel_boots_witness :
  exists b1, kmain (H := demo_hw) demo_env demo_boot = Some (Done tt, b1) /\ irq_ready demo_master demo_slave demo_pit (b_dev b1) /\
    m9_thread_call (world (b_sys b1)) = Some (0xffffffff80001000, 0).
Proof.
  destruct (kernel_boots (H := demo_hw) (Hready := demo_uart_ready) demo_env demo_response demo_hhdm demo_master demo_slave demo_pit (Hreads := demo_pic_reads) demo_boot
    demo_boot_input demo_has_frame demo_boot_layout) as (b1 & Ek & _ & _ & Hi & _ & _ & _ & Hc & _).
  exists b1. split; [exact Ek|]. split; [exact Hi|exact Hc].
Defined.

Lemma kernel_boot_runs_threads_witness :
  exists b1 st2 st3, kmain (H := demo_hw) demo_env demo_boot = Some (Done tt, b1) /\
    turns (H := demo_hw) 0xffffffff80007000 demo_layout 3 st2 = Some (Done tt, st3) /\ user_bytes (umem st2) 0x7100 5 = hello.
Proof.
  destruct (kernel_boot_runs_threads (H := demo_hw) (Hready := demo_uart_ready) demo_env demo_response demo_hhdm demo_master demo_slave demo_pit (Hreads := demo_pic_reads) demo_boot 3
    demo_boot_input demo_has_frame demo_boot_layout) as (b1 & st2 & st3 & Ek & _ & Hu & Et & _).
  exists b1, st2, st3. split; [exact Ek|]. split; [exact Et|exact Hu].
Defined.

(** The same machine without the response for the direct map. *)
Definition demo_no_hhdm : boot_env :=
  mk_env demo_limine (Ref demo_response) NULL demo_static_regions demo_bitmap 0x28 0x6000 (replicate 48 0xffffffff80005000) 0xffffffff80006000 demo_layout 0x100000
    [] (mk_plan 0 0 []) NULL (replicate 11 0) [] [] 0 0 0.

Lemma kmain_panics_witness :
  exists b', kmain (H := demo_hw) demo_no_hhdm demo_boot = Some (Panic 0, b') /\ exists h, trace (b_dev b') = Hlt :: Cli :: h.
Proof.
  destruct (kmain_panics (H := demo_hw) (Hready := demo_uart_ready) demo_no_hhdm demo_response demo_master demo_slave demo_pit (Hreads := demo_pic_reads) demo_boot "limine hhdm response is NULL")
    as (b' & Ek & Hh & _).
  - split; [reflexivity|]. split; [exists []; by split; [apply not_elem_of_nil|]|]. intros h. cbn. unfold is_u64. lia.
  - reflexivity.
  - reflexivity.
  - right. right. split; [|reflexivity]. split; [|split; [|reflexivity]].
    + split; [done|apply demo_response_ok|apply demo_regions_static|apply demo_bitmap_ok].
    + exists 0x120. split; [apply demo_frame_range|apply demo_available].
  - exists b'. split; [exact Ek|exact Hh].
Defined.
