(* ===== verification/Preempt.v ===== *)
(** Interrupts that arrive while the kernel runs: the whole way from the processor through isr.S and [x86_64_trap_dispatch] back to the interrupted code, and what threads see of it.

    An interrupt arrives between two steps of the threads, a step being a store or a system call; the gate of int 0x80 disables interrupts during
    the call. *)

From stdpp Require Import strings.
From S2P Require Import Prelude Mem Ramfs Fd Io Trap Syscall Thread Kernel Entry Smoke.

(** * Data *)

(** An interrupt: the vector, what the processor saves, the stack it uses and the registers; [q_pc] is the return address of the call in
    [isr_common_stub], [q_below] and [q_scratch] are what the C code leaves in the [q_depth] bytes below the frame and in the registers it need not keep. *)
Record interrupt := mk_interrupt {
  q_vector : Z;
  q_ss : Z;
  q_rsp : Z;
  q_rflags : Z;
  q_cs : Z;
  q_rip : Z;
  q_error : Z;
  q_top : Z;
  q_regs : regfile;
  q_pc : Z;
  q_depth : Z;
  q_below : mem;
  q_scratch : regfile
}.

(** The registers after [iretq], and what it has loaded from the stack. *)
Record resumed := mk_resumed {
  r_regs : regfile;
  r_rip : Z;
  r_cs : Z;
  r_rflags : Z;
  r_rsp : Z;
  r_ss : Z
}.

(** * Operations *)

(** [iretq] *)
Definition iretq (rf : regfile) (m : mem) (sp : Z) : resumed :=
  mk_resumed rf (load64 m sp) (load64 m (sp + 8)) (load64 m (sp + 16)) (load64 m (sp + 24)) (load64 m (sp + 32)).

Section Interrupts.
Context `{Hardware} (file : ptr (list Z)) (buf0 : list Z).

(** [isr_common_stub]: the call of the dispatcher with the frame at [a] and the return. *)
Definition isr_common_stub (q : interrupt) (st : mem * Z) (d : kdev) : option (outcome (resumed * mem) * kdev) :=
  let '(m, a) := isr_save (q_regs q) st in
  let f := read_frame m a in
  let m := store64 m (a - 8) (q_pc q) in
  match x86_64_trap_dispatch file buf0 a (Ref f) d with
  | Some (Done _, d) =>
      let m x := if (a - q_depth q <=? x) && (x <? a) then q_below q x else m x in
      let '(rf, sp) := isr_restore (fun r => if callee_saved r then q_regs q r else q_scratch q r) m a in
      Some (Done (iretq rf m sp, m), d)
  | Some (Panic c, d) => Some (Panic c, d)
  | None => None
  end.

(** From the processor to the stub of the vector and back. *)
Definition take_interrupt (q : interrupt) (m : mem) (d : kdev) : option (outcome (resumed * mem) * kdev) :=
  isr_common_stub q (isr_stub (q_vector q) (cpu_interrupt (q_vector q) (q_ss q) (q_rsp q) (q_rflags q) (q_cs q) (q_rip q) (q_error q) m (q_top q))) d.

(** * Specification: threads and interrupts *)

(** A step of a thread. *)
Inductive prog_op :=
| OpStore (x v : Z)
| OpCall (nr a0 a1 a2 a3 a4 a5 : Z).

(** What a kernel executes: steps of its threads, each with the thread that makes it, and interrupts between them. *)
Inductive event :=
| EOp (a : Z) (o : prog_op)
| EIrq (q : interrupt).

Context (kpath0 kbuf0 : list Z).

(** The thread that runs. *)
Definition running (a : Z) (st : sys_state kworld) : bool :=
  match current (k_sched (world st)) with Ref b => b =? a | NULL => false end.

(** A step of the thread [a], which only the running thread can make; the result of a yield is the one its caller gets when it runs again. *)
Definition exec_op (a : Z) (o : prog_op) (st : sys_state kworld) : option (Z * sys_state kworld) :=
  if negb (running a st) then None
  else
    match o with
    | OpStore x v =>
        if (ur_base (g_user_region st) <=? x) && (x <? ur_limit (g_user_region st)) then Some (0, set_umem st (store8 (umem st) x v)) else None
    | OpCall nr a0 a1 a2 a3 a4 a5 => mcsos_syscall_dispatch kpath0 kbuf0 nr a0 a1 a2 a3 a4 a5 st
    end.

(** The processor goes on where it was interrupted. *)
Definition resumes (q : interrupt) (res : resumed) : bool :=
  forallb (fun r => r_regs res r =? q_regs q r) isr_pops && (r_rip res =? q_rip q) && (r_cs res =? q_cs q) && (r_rflags res =? q_rflags q) && (r_rsp res =? q_rsp q) && (r_ss res =? q_ss q).

(** An interrupt between two steps; without its registers the thread is lost. *)
Definition exec_irq (q : interrupt) (st : sys_state kworld) : option (sys_state kworld) :=
  match take_interrupt q (umem st) (k_dev (world st)) with
  | Some (Done (res, m), d) => if resumes q res then Some (set_umem (set_world st (set_dev (world st) d)) m) else None
  | _ => None
  end.

(** The results of the steps of the threads, in order. *)
Fixpoint exec_events (l : list event) (st : sys_state kworld) : option (list Z * sys_state kworld) :=
  match l with
  | [] => Some ([], st)
  | EOp a o :: l => '(r, st) ← exec_op a o st; '(rs, st) ← exec_events l st; Some (r :: rs, st)
  | EIrq q :: l => st ← exec_irq q st; exec_events l st
  end.

Definition is_op (e : event) : bool := match e with EOp _ _ => true | EIrq _ => false end.

(** The steps of the threads alone. *)
Definition steps_only (l : list event) : list event := List.filter is_op l.

(** What threads may do when it is their turn: store in the region, and make any system call but a seek that overflows and exit_thread, which halts with interrupts disabled by the gate. *)
Definition op_ok (a : Z) (o : prog_op) (st : sys_state kworld) : Prop :=
  running a st = true /\
  match o with
  | OpStore x v => ur_base (g_user_region st) <= x < ur_limit (g_user_region st)
  | OpCall nr a0 a1 a2 a3 a4 a5 => is_u64 nr /\ is_u64 a0 /\ is_u64 a1 /\ is_u64 a2 /\ nr <> 4 /\ call_overflows st nr a0 a1 a2 = false
  end.

(** The steps of [l] are such, each in the state in which its turn comes. *)
Fixpoint ops_ok_from (l : list event) (st : sys_state kworld) : Prop :=
  match l with
  | [] => True
  | EOp a o :: l => op_ok a o st /\ forall r st', exec_op a o st = Some (r, st') -> ops_ok_from l st'
  | EIrq _ :: l => ops_ok_from l st
  end.

End Interrupts.

(** An interrupt from one of the lines of the controllers, with its stack outside the region of the programs. *)
Record irq_ok (r : mcsos_user_region) (q : interrupt) : Prop := {
  qo_vector : 32 <= q_vector q <= 47;
  qo_words : Forall is_u64 [q_ss q; q_rsp q; q_rflags q; q_cs q; q_rip q; q_error q];
  qo_regs x : is_u64 (q_regs q x);
  qo_depth : 8 <= q_depth q;
  qo_stack x : q_top q - 176 - q_depth q <= x < q_top q -> ~ ur_base r <= x < ur_limit r
}.

Definition event_ok (r : mcsos_user_region) (e : event) : Prop := match e with EIrq q => irq_ok r q | EOp _ _ => True end.

(** The worlds differ only in what the devices have seen. *)
Definition dev_like (w w2 : kworld) : Prop :=
  exists d, w2 = set_dev w d /\ open_line (k_dev w) /\ open_line d /\ g_ticks d = g_ticks (k_dev w).

(** The states differ only there and in memory outside the region of the programs. *)
Definition alike (st st2 : sys_state kworld) : Prop :=
  exists w2 m2, st2 = set_umem (set_world st w2) m2 /\ dev_like (world st) w2 /\
    forall x, ur_base (g_user_region st) <= x < ur_limit (g_user_region st) -> m2 x = umem st x.

(** * Lemmas: the way of an interrupt *)

Section Taking.
Context `{Hardware} {Hready : UartReady} (file : ptr (list Z)) (buf0 : list Z).

(** The words that the processor and the stubs have put on the stack. *)
Definition stack_words (q : interrupt) : list Z :=
  saved_words (q_regs q) (q_vector q) (q_ss q) (q_rsp q) (q_rflags q) (q_cs q) (q_rip q) (q_error q).

Lemma saved_stack q m : Forall is_u64 (stack_words q) ->
  exists m1, isr_save (q_regs q) (isr_stub (q_vector q) (cpu_interrupt (q_vector q) (q_ss q) (q_rsp q) (q_rflags q) (q_cs q) (q_rip q) (q_error q) m (q_top q))) = (m1, q_top q - 176) /\
    (forall i v k, stack_words q !! i = Some v -> k = - 8 * (Z.of_nat i + 1) -> load64 m1 (q_top q + k) = v) /\
    forall x, ~ q_top q - 176 <= x < q_top q -> m1 x = m x.
Proof.
  intros Hw. rewrite entry_words. fold (stack_words q). destruct (pushes_spec (stack_words q) m (q_top q) Hw) as (Hsp & Hget & Hout).
  destruct (foldl push (m, q_top q) (stack_words q)) as [m1 a]. cbn [fst snd] in *. change (length (stack_words q)) with 22%nat in *. exists m1.
  split; [f_equal; lia|]. split; [|intros x Hx; apply Hout; lia]. intros i v k Hi ->. rewrite <- (Hget i v Hi). f_equal. lia.
Qed.

Lemma frame_is_u64 m a : frame_u64 (read_frame m a).
Proof. unfold frame_u64, read_frame. cbn. by split_and!; apply load64_range. Qed.

(** What an interrupt of the controllers leaves behind. *)
Lemma take_irq r q m d : irq_ok r q -> line_ok d ->
  exists res m' d' l, take_interrupt file buf0 q m d = Some (Done (res, m'), d') /\
    ((forall x, r_regs res x = q_regs q x) /\ r_rip res = q_rip q /\ r_cs res = q_cs q /\ r_rflags res = q_rflags q /\ r_rsp res = q_rsp q /\ r_ss res = q_ss q) /\
    (forall x, ~ q_top q - 176 - q_depth q <= x < q_top q -> m' x = m x) /\
    open_line d' /\ g_ticks d' = g_ticks d /\ trap_count d' = u64 (trap_count d + 1) /\
    trace d' = eoi_events (q_vector q) ++ l ++ trace d /\ Forall com1_event l.
Proof.
  intros [Hv Hw Hrf Hdep _] Hd.
  assert (H64 : Forall is_u64 (stack_words q)).
  { apply saved_words_u64; [|exact Hrf]. change (Forall is_u64 ([q_ss q; q_rsp q; q_rflags q; q_cs q; q_rip q; q_error q] ++ [q_vector q])). apply Forall_app. split; [exact Hw|].
    apply Forall_singleton. unfold is_u64. lia. }
  destruct (saved_stack q m H64) as (m1 & Es & Hget & Hout).
  assert (Hvec : fr_vector (read_frame m1 (q_top q - 176)) = q_vector q).
  { cbn [read_frame fr_vector]. rewrite <- (Hget 6%nat (q_vector q) (-56) eq_refl eq_refl). f_equal. lia. }
  destruct (irq_dispatch file buf0 (q_top q - 176) (read_frame m1 (q_top q - 176)) d (frame_is_u64 _ _) Hd) as (d' & l & Ed & Ho & Ht & Hc & Htr & Hl); [lia|]. rewrite Hvec in Htr.
  unfold take_interrupt, isr_common_stub. rewrite Es, Ed. match goal with |- context [isr_restore ?rf ?m2 _] => set (rf0 := rf); set (m' := m2) end.
  assert (Habove : forall x, q_top q - 176 <= x -> m' x = m1 x).
  { intros x Hx. unfold m'. rw_false (x <? q_top q - 176). rewrite andb_false_r. apply store64_other. lia. }
  assert (Hload : forall i v k, stack_words q !! i = Some v -> k = - 8 * (Z.of_nat i + 1) -> load64 m' (q_top q + k) = v).
  { intros i v k Hi Hk. rewrite <- (Hget i v k Hi Hk). apply lookup_lt_Some in Hi. change (length (stack_words q)) with 22%nat in Hi. apply load_ext. intros x Hx. apply Habove. lia. }
  destruct (restore_saved rf0 m' (q_top q - 176) (q_regs q)) as (rf' & Er & Hrf').
  { intros i x Hi. destruct (popped_word (q_regs q) (q_vector q) (q_ss q) (q_rsp q) (q_rflags q) (q_cs q) (q_rip q) (q_error q) _ _ Hi) as [Hp Hlt]. rewrite <- (Hload _ _ (- 176 + 8 * Z.of_nat i) Hp) by lia. f_equal. lia. }
  rewrite Er. eexists _, m', d', l. split; [reflexivity|]. cbn [iretq r_regs r_rip r_cs r_rflags r_rsp r_ss]. split; [|split; [|by split_and!]].
  - assert (Hi : forall i v k, stack_words q !! i = Some v -> k = 32 - 8 * Z.of_nat i -> load64 m' (q_top q - 176 + 136 + k) = v).
    { intros i v k Hi ->. rewrite <- (Hload i v _ Hi eq_refl). f_equal. lia. }
    split; [exact Hrf'|]. split; [rewrite <- (Z.add_0_r (q_top q - 176 + 136)); by apply (Hi 4%nat)|].
    split; [by apply (Hi 3%nat)|]. split; [by apply (Hi 2%nat)|]. split; [by apply (Hi 1%nat)|by apply (Hi 0%nat)].
  - intros x Hx. unfold m'. case_bool; [lia|]. rewrite store64_other by lia. apply Hout. lia.
Qed.

End Taking.

(** * Lemmas: system calls on related worlds *)

(** What the function pointers and the tables promise on worlds that [R] relates: the same answers, and related worlds again. *)
Record ops_respect {W : Type} `{FdTables W} (R : W -> W -> Prop) (o : mcsos_syscall_ops W) : Prop := {
  or_ticks f w w2 t w' : get_ticks o = Ref f -> R w w2 -> f w = Some (t, w') -> exists w2', f w2 = Some (t, w2') /\ R w' w2';
  or_yield f w w2 w' : yield_current o = Ref f -> R w w2 -> f w = Some w' -> exists w2', f w2 = Some w2' /\ R w' w2';
  or_exit f c w w2 w' : exit_current o = Ref f -> R w w2 -> f c w = Some w' -> exists w2', f c w2 = Some w2' /\ R w' w2';
  or_serial f m p len w w2 rc w' : write_serial o = Ref f -> R w w2 -> 0 <= len <= 4096 -> f m p len w = Some (rc, w') -> exists w2', f m p len w2 = Some (rc, w2') /\ R w' w2';
  or_table f w w2 : get_current_fd_table o = Ref f -> R w w2 -> f w2 = f w;
  or_ramfs f w w2 : get_ramfs o = Ref f -> R w w2 -> f w2 = f w;
  or_get w w2 k : R w w2 -> tab_get w2 k = tab_get w k;
  or_put w w2 k t w' : R w w2 -> tab_put w k t = Some w' -> exists w2', tab_put w2 k t = Some w2' /\ R w' w2'
}.

Section Respect.
Context {W : Type} `{FdTables W} (R : W -> W -> Prop) (kpath0 kbuf0 : list Z).

(** [h] gives the same result on a state with a related world. *)
Definition respects (st : sys_state W) (w2 : W) (h : sys_state W -> option (Z * sys_state W)) : Prop :=
  forall ret st', h st = Some (ret, st') -> exists w2', h (set_world st w2) = Some (ret, set_world st' w2') /\ R (world st') w2'.

Context (st : sys_state W) (w2 : W) (Hops : ops_respect R (g_ops st)) (HR : R (world st) w2).

Lemma same_state (ret : Z) : exists w2', Some (ret, set_world st w2) = Some (ret, set_world st w2') /\ R (world st) w2'.
Proof. by exists w2. Qed.

Lemma on_table_respects k f : respects st w2 (fun st => on_table st k f).
Proof.
  intros ret st'. unfold on_table. cbn [set_world world]. rewrite (or_get _ _ Hops _ _ k HR). destruct (tab_get (world st) k) as [t|]; [|done]. cbn [mbind option_bind].
  destruct (f t) as [[[rc t'] fss]|]; [|done]. cbn [mbind option_bind]. destruct t' as [|t']; [done|].
  destruct (tab_put (world st) k t') as [w'|] eqn:Ep; [|done]. cbn [mbind option_bind]. intros [= <- <-].
  destruct (or_put _ _ Hops _ _ _ _ _ HR Ep) as (w2' & -> & HR'). by exists w2'.
Qed.

Lemma table_call_respects f : respects st w2 (fun s => table_call s f).
Proof.
  intros ret st'. unfold table_call. cbn [set_world g_ops world files]. destruct (get_current_fd_table (g_ops st)) as [|g] eqn:Eg; [intros [= <- <-]; apply same_state|].
  rewrite (or_table _ _ Hops g _ _ Eg HR). destruct (g (world st)) as [|k]; [intros [= <- <-]; apply same_state|]. apply on_table_respects.
Qed.

Lemma sys_open_respects p n fl a3 a4 a5 : respects st w2 (sys_open kpath0 p n fl a3 a4 a5).
Proof.
  intros ret st'. unfold sys_open. cbn [set_world g_ops world umem files g_user_region].
  destruct (get_current_fd_table (g_ops st)) as [|g] eqn:Eg; [intros [= <- <-]; apply same_state|]. destruct (get_ramfs (g_ops st)) as [|gf] eqn:Ef; [intros [= <- <-]; apply same_state|].
  destruct (_ || _); [intros [= <- <-]; apply same_state|]. destruct (mcsos_copy_from_user _ _ _ _ _) as [[rc kp]|]; [|done]. cbn [mbind option_bind].
  destruct (negb _); [intros [= <- <-]; apply same_state|]. destruct kp as [|kp]; [done|]. destruct (arr_set kp n 0); [|done]. cbn [mbind option_bind].
  rewrite (or_table _ _ Hops g _ _ Eg HR), (or_ramfs _ _ Hops gf _ _ Ef HR).
  destruct (g (world st)) as [|k]; [intros [= <- <-]; apply same_state|]. destruct (gf (world st)) as [|fs]; [intros [= <- <-]; apply same_state|]. apply on_table_respects.
Qed.

Lemma sys_write_respects fd p n a3 a4 a5 : respects st w2 (sys_write kbuf0 fd p n a3 a4 a5).
Proof.
  intros ret st'. unfold sys_write. cbn [set_world g_ops world umem files g_user_region].
  destruct (get_current_fd_table (g_ops st)) as [|g] eqn:Eg; [intros [= <- <-]; apply same_state|]. destruct (4096 <? n); [intros [= <- <-]; apply same_state|].
  destruct (mcsos_copy_from_user _ _ _ _ _) as [[rc kb]|]; [|done]. cbn [mbind option_bind]. destruct (negb _); [intros [= <- <-]; apply same_state|].
  rewrite (or_table _ _ Hops g _ _ Eg HR). destruct (g (world st)) as [|k]; [intros [= <- <-]; apply same_state|]. apply on_table_respects.
Qed.

Lemma sys_read_respects fd p n a3 a4 a5 : respects st w2 (sys_read kbuf0 fd p n a3 a4 a5).
Proof.
  intros ret st'. unfold sys_read. cbn [set_world g_ops world files].
  destruct (get_current_fd_table (g_ops st)) as [|g] eqn:Eg; [intros [= <- <-]; apply same_state|]. destruct (4096 <? n); [intros [= <- <-]; apply same_state|].
  rewrite (or_table _ _ Hops g _ _ Eg HR). destruct (g (world st)) as [|k]; [intros [= <- <-]; apply same_state|]. rewrite (or_get _ _ Hops _ _ k HR).
  destruct (tab_get (world st) k) as [t|]; [|done]. cbn [mbind option_bind]. destruct (mcs_vfs_read _ _ _ _ _) as [[[rc t'] kb]|]; [|done]. cbn [mbind option_bind].
  destruct (on_table st k _) as [[rc1 st1]|] eqn:Et; [|done]. cbn [mbind option_bind].
  destruct (on_table_respects k _ _ _ Et) as (w3 & -> & HR3). cbn [mbind option_bind]. destruct (rc <? 0); [intros [= <- <-]; by exists w3|].
  cbn [set_world g_user_region umem]. destruct (mcsos_copy_to_user _ _ _ _ _) as [[rc2 m]|]; [|done]. cbn [mbind option_bind].
  destruct (negb _); intros [= <- <-]; by exists w3.
Qed.

Lemma sys_world_respects nr h a0 a1 a2 a3 a4 a5 : is_u64 a1 -> arr_get (g_table kpath0 kbuf0) nr = Some (Ref h) -> 0 <= nr <= 4 -> respects st w2 (h a0 a1 a2 a3 a4 a5).
Proof.
  intros H1 Hh Hb ret st'. assert (nr = 0 \/ nr = 1 \/ nr = 2 \/ nr = 3 \/ nr = 4) as Hnr by lia.
  destruct Hnr as [->|[->|[->|[->| ->]]]]; injection Hh as <-.
  - intros [= <- <-]. apply same_state.
  - unfold sys_get_ticks. cbn [set_world g_ops world]. destruct (get_ticks (g_ops st)) as [|f] eqn:Ef; [intros [= <- <-]; apply same_state|].
    destruct (f (world st)) as [[t w']|] eqn:E; [|done]. cbn [mbind option_bind]. intros [= <- <-]. destruct (or_ticks _ _ Hops _ _ _ _ _ Ef HR E) as (w3 & -> & HR3). by exists w3.
  - unfold sys_write_serial. cbn [set_world g_ops world umem g_user_region]. destruct (a0 =? 0); [intros [= <- <-]; apply same_state|].
    destruct (Z.ltb_spec 4096 a1); [intros [= <- <-]; apply same_state|]. destruct (negb _); [intros [= <- <-]; apply same_state|].
    destruct (write_serial (g_ops st)) as [|f] eqn:Ef; [done|]. destruct (f _ _ _ (world st)) as [[rc w']|] eqn:E; [|done]. cbn [mbind option_bind]. intros [= <- <-].
    assert (Hl : 0 <= a1 <= 4096) by (unfold is_u64 in H1; lia). destruct (or_serial _ _ Hops _ _ _ _ _ _ _ _ Ef HR Hl E) as (w3 & -> & HR3). by exists w3.
  - unfold sys_yield. cbn [set_world g_ops world]. destruct (yield_current (g_ops st)) as [|f] eqn:Ef; [intros [= <- <-]; apply same_state|].
    destruct (f (world st)) as [w'|] eqn:E; [|done]. cbn [mbind option_bind]. intros [= <- <-]. destruct (or_yield _ _ Hops _ _ _ _ Ef HR E) as (w3 & -> & HR3). by exists w3.
  - unfold sys_exit_thread. cbn [set_world g_ops world]. destruct (exit_current (g_ops st)) as [|f] eqn:Ef; [intros [= <- <-]; apply same_state|].
    destruct (f _ (world st)) as [w'|] eqn:E; [|done]. cbn [mbind option_bind]. intros [= <- <-]. destruct (or_exit _ _ Hops _ _ _ _ _ Ef HR E) as (w3 & -> & HR3). by exists w3.
Qed.

Lemma dispatch_respects nr a0 a1 a2 a3 a4 a5 : is_u64 nr -> is_u64 a1 -> respects st w2 (mcsos_syscall_dispatch kpath0 kbuf0 nr a0 a1 a2 a3 a4 a5).
Proof.
  intros Hnr H1 ret st'. unfold mcsos_syscall_dispatch, MCSOS_SYS_MAX. unfold is_u64 in Hnr. destruct (Z.leb_spec 10 nr); [intros [= <- <-]; apply same_state|].
  destruct (arr_get_lt (g_table kpath0 kbuf0) nr) as [fn Hfn]; [cbn; lia|]. rewrite Hfn. cbn [mbind option_bind]. destruct fn as [|h]; [intros [= <- <-]; apply same_state|].
  destruct (Z.leb_spec nr 4); [apply (sys_world_respects nr h a0 a1 a2 a3 a4 a5 H1 Hfn); lia|].
  assert (nr = 5 \/ nr = 6 \/ nr = 7 \/ nr = 8 \/ nr = 9) as Hn by lia. destruct Hn as [->|[->|[->|[->| ->]]]]; injection Hfn as <-.
  - apply sys_open_respects.
  - apply sys_read_respects.
  - apply sys_write_respects.
  - apply (table_call_respects (fun t => mcs_vfs_lseek (Ref t) (files st) (i32 a0) (i64 a1) (i32 a2))).
  - apply (table_call_respects (fun t => mcs_vfs_close (Ref t) (i32 a0))).
Qed.

End Respect.

(** * Lemmas: the kernel under interrupts *)

Section Kernel.
Context `{Hardware} {Hready : UartReady} (file : ptr (list Z)) (buf0 : list Z) (kpath0 kbuf0 : list Z) (resume : Z).
Context (Hkpath : length kpath0 = 128%nat) (Hkbuf : length kbuf0 = 4096%nat).

Lemma dev_like_refl w : open_line (k_dev w) -> dev_like w w.
Proof. intros Ho. exists (k_dev w). by destruct w. Qed.

(** Both devices have sent something. *)
Lemma dev_like_sends w d d1 d2 : g_ticks d = g_ticks (k_dev w) -> sends (k_dev w) d1 -> sends d d2 -> dev_like (set_dev w d1) (set_dev w d2).
Proof.
  intros Ht H1 H2. exists d2. split; [done|]. split; [by eapply sends_open|]. split; [by eapply sends_open|]. cbn [set_dev k_dev]. by rewrite (sends_ticks _ _ H1), (sends_ticks _ _ H2).
Qed.

(** The functions behind the system calls answer alike whatever the devices have seen. *)
Lemma kernel_ops_respect : ops_respect dev_like (kernel_ops resume).
Proof.
  split; cbn -[tab_get tab_put].
  - intros f w w2 t w' [= <-] (d & -> & O1 & O2 & Ht) [= <- <-]. eexists. split; [cbn; by rewrite Ht|]. by exists d.
  - intros f w w2 w' [= <-] (d & -> & O1 & O2 & Ht). unfold k_yield_current. cbn [set_dev k_sched k_machine k_dev k_idt].
    destruct (mcsos_sched_yield _ _ _) as [[[rc [|s]] m]|]; [done| |done]. cbn. intros [= <-]. eexists. split; [reflexivity|]. by exists d.
  - intros f c w w2 w' [= <-] (d & -> & O1 & O2 & Ht). destruct (exit_dev c w O1) as (d1 & h1 & -> & P1 & T1 & _). destruct (exit_dev c (set_dev w d) O2) as (d2 & h2 & -> & P2 & T2 & _).
    intros [= <-]. eexists. split; [reflexivity|]. exists d2. cbn in *. split_and!; try done. congruence.
  - intros f m p len w w2 rc w' [= <-] (d & -> & O1 & O2 & Ht) Hl. destruct (write_serial_sends m p len w O1 Hl) as (d1 & -> & S1).
    destruct (write_serial_sends m p len (set_dev w d) O2 Hl) as (d2 & -> & S2). intros [= <- <-]. eexists. split; [reflexivity|]. by apply (dev_like_sends w d).
  - by intros f w w2 [= <-] (d & -> & _).
  - by intros f w w2 [= <-] _.
  - by intros w w2 k (d & -> & _).
  - intros w w2 k t w' (d & -> & O1 & O2 & Ht). cbn. destruct (update (k_machine w) k (put_table t)) as [m|]; [|done]. cbn. intros [= <-]. eexists. split; [reflexivity|]. by exists d.
Qed.

Lemma dev_like_ready st w2 : kernel_ready resume st -> dev_like (world st) w2 -> kernel_ready resume (set_world st w2).
Proof. intros [[W1 [Hs _] W3 W4 W5 W6 W7] Hops] (d & -> & _ & Ho & _). split; [|done]. split; try done. Qed.

Lemma set_umem_ready (st : sys_state kworld) m : kernel_ready resume st -> kernel_ready resume (set_umem st m).
Proof. intros [Hwf Hops]. split; [|done]. by apply set_umem_ok. Qed.

Lemma resumes_back q res : (forall x, r_regs res x = q_regs q x) -> r_rip res = q_rip q -> r_cs res = q_cs q -> r_rflags res = q_rflags q -> r_rsp res = q_rsp q -> r_ss res = q_ss q ->
  resumes q res = true.
Proof.
  intros Hr R2 R3 R4 R5 R6. unfold resumes. rewrite R2, R3, R4, R5, R6, !Z.eqb_refl, !andb_true_r. apply forallb_forall. intros x _. rewrite Hr. apply Z.eqb_refl.
Qed.

Lemma dev_like_running a (st : sys_state kworld) w2 m2 : dev_like (world st) w2 -> running a (set_umem (set_world st w2) m2) = running a st.
Proof. by intros (d & -> & _). Qed.

(** A store. *)
Lemma store_alike a x v st st2 : kernel_ready resume st -> alike st st2 -> op_ok a (OpStore x v) st ->
  exists r st' st2', exec_op kpath0 kbuf0 a (OpStore x v) st = Some (r, st') /\ exec_op kpath0 kbuf0 a (OpStore x v) st2 = Some (r, st2') /\ alike st' st2' /\ kernel_ready resume st' /\
    g_user_region st' = g_user_region st.
Proof.
  intros Hst (w2 & m2 & -> & Hw & Hm) [Hrun Hx]. unfold exec_op. rewrite (dev_like_running a st w2 m2 Hw), Hrun. cbn [negb g_user_region set_umem set_world umem]. rw_true (ur_base (g_user_region st) <=? x). rw_true (x <? ur_limit (g_user_region st)).
  cbn [andb]. eexists _, _, _. split; [reflexivity|]. split; [reflexivity|]. split; [|by split; [apply set_umem_ready|]]. exists w2, (store8 m2 x v). split; [done|]. split; [done|].
  intros y Hy. unfold store8. cbn. case_match; [done|by apply Hm].
Qed.

(** A system call. *)
Lemma call_alike a nr a0 a1 a2 a3 a4 a5 st st2 : kernel_ready resume st -> alike st st2 -> op_ok a (OpCall nr a0 a1 a2 a3 a4 a5) st ->
  exists r st' st2', exec_op kpath0 kbuf0 a (OpCall nr a0 a1 a2 a3 a4 a5) st = Some (r, st') /\ exec_op kpath0 kbuf0 a (OpCall nr a0 a1 a2 a3 a4 a5) st2 = Some (r, st2') /\ alike st' st2' /\
    kernel_ready resume st' /\ g_user_region st' = g_user_region st.
Proof.
  intros Hst (w2 & m2 & -> & Hw & Hm) (Hrun & Hnr & H0 & H1 & H2 & _ & Hs). unfold exec_op. rewrite (dev_like_running a st w2 m2 Hw), Hrun. cbn [negb].
  destruct (dispatch_spec k_inv k_dom kpath0 kbuf0 Hkpath Hkbuf nr a0 a1 a2 a3 a4 a5 st (kr_wf _ _ Hst) Hnr H0 H1 H2 Hs) as (r & st' & E & (Hwf & Ho & Hr) & _).
  assert (Hops : ops_respect dev_like (g_ops st)) by (rewrite (kr_ops _ _ Hst); apply kernel_ops_respect).
  destruct (dispatch_respects dev_like kpath0 kbuf0 st w2 Hops Hw nr a0 a1 a2 a3 a4 a5 Hnr H1 _ _ E) as (w3 & E2 & Hw3).
  destruct (dispatch_region k_inv k_dom kpath0 kbuf0 Hkpath Hkbuf nr a0 a1 a2 a3 a4 a5 (set_world st w2) m2 (kr_wf _ _ (dev_like_ready _ _ Hst Hw)) Hnr H0 H1 H2 Hm _ _ E2) as (m3 & E3 & Hm3).
  exists r, st', (set_umem (set_world st' w3) m3). split; [exact E|]. split; [exact E3|]. cbn in Hm3. split; [|split; [split; [done|by rewrite Ho, (kr_ops _ _ Hst)]|done]].
  exists w3, m3. by rewrite Hr.
Qed.

(** A step gives the same result after interrupts. *)
Lemma op_alike a o st st2 : kernel_ready resume st -> alike st st2 -> op_ok a o st ->
  exists r st' st2', exec_op kpath0 kbuf0 a o st = Some (r, st') /\ exec_op kpath0 kbuf0 a o st2 = Some (r, st2') /\ alike st' st2' /\ kernel_ready resume st' /\ g_user_region st' = g_user_region st.
Proof. destruct o; [apply store_alike|apply call_alike]. Qed.

(** An interrupt leaves a state like the one it found. *)
Lemma irq_alike q st st2 : alike st st2 -> irq_ok (g_user_region st) q -> exists st2', exec_irq file buf0 q st2 = Some st2' /\ alike st st2'.
Proof.
  intros (w2 & m2 & -> & (d & -> & O1 & O2 & Ht) & Hm) Hq. unfold exec_irq. cbn [set_umem set_world umem world set_dev k_dev].
  destruct (take_irq file buf0 _ q m2 d Hq (open_line_ok _ O2)) as (res & m' & d' & l & -> & (R1 & R2 & R3 & R4 & R5 & R6) & Hout & Ho & Htk & _).
  rewrite resumes_back by done. eexists. split; [reflexivity|].
  exists (set_dev (world st) d'), m'. split; [done|]. split; [exists d'; split_and!; congruence|]. intros x Hx. rewrite Hout; [by apply Hm|]. intros Hx'. by apply (qo_stack _ _ Hq x).
Qed.

(** The run with interrupts and the run without. *)
Lemma events_alike l : forall st st2, kernel_ready resume st -> alike st st2 -> Forall (event_ok (g_user_region st)) l -> ops_ok_from kpath0 kbuf0 l st ->
  exists rs st' st2', exec_events file buf0 kpath0 kbuf0 (steps_only l) st = Some (rs, st') /\ exec_events file buf0 kpath0 kbuf0 l st2 = Some (rs, st2') /\ alike st' st2'.
Proof.
  induction l as [|[a o|q] l IH]; intros st st2 Hst Ha Hl Hops.
  - by exists [], st, st2.
  - apply Forall_cons in Hl as [_ Hl]. destruct Hops as [Ho Hops]. destruct (op_alike a o st st2 Hst Ha Ho) as (r & st' & st2' & E1 & E2 & Ha' & Hst' & Hr). cbn. rewrite E1, E2. cbn.
    destruct (IH st' st2' Hst' Ha') as (rs & st1 & st3 & E3 & E4 & Ha3); [by rewrite Hr|by eapply Hops|]. unfold steps_only in E3. rewrite E3, E4. cbn. by eexists _, _, _.
  - apply Forall_cons in Hl as [Hq Hl]. cbn in Hops. destruct (irq_alike q st st2 Ha Hq) as (st2' & E & Ha'). cbn. rewrite E. cbn. by apply IH.
Qed.

End Kernel.

(** * Properties *)

Section Claims.
Context `{Hardware} {Hready : UartReady} (file : ptr (list Z)) (buf0 : list Z).

(** C35. An external interrupt is served and forgotten. On every line of the controllers the way through the stub of the vector, [isr_common_stub] and the dispatcher comes back: every general register, the
    instruction pointer, the code segment, the flags and the stack of the interrupted code are the ones it had, whatever the C code does with the registers it need not keep and with the stack below the frame;
    memory above the stack and below what the C code uses of it is not written; the trap is counted, the timer ticks are not, and the devices have seen nothing but serial output followed by the
    acknowledgement of the right controllers. *)
Theorem interrupt_transparent r q m d : irq_ok r q -> line_ok d ->
  exists res m' d' l, take_interrupt file buf0 q m d = Some (Done (res, m'), d') /\
    (forall x, r_regs res x = q_regs q x) /\ r_rip res = q_rip q /\ r_cs res = q_cs q /\ r_rflags res = q_rflags q /\ r_rsp res = q_rsp q /\ r_ss res = q_ss q /\
    (forall x, ~ q_top q - 176 - q_depth q <= x < q_top q -> m' x = m x) /\
    open_line d' /\ g_ticks d' = g_ticks d /\ trap_count d' = u64 (trap_count d + 1) /\
    trace d' = (if 40 <=? q_vector q then [Out 0x20 0x20; Out 0xA0 0x20] else [Out 0x20 0x20]) ++ l ++ trace d /\ Forall com1_event l.
Proof.
  intros Hq Hd. destruct (take_irq file buf0 r q m d Hq Hd) as (res & m' & d' & l & E & (R1 & R2 & R3 & R4 & R5 & R6) & Hrest).
  exists res, m', d', l. do 7 (split; [assumption|]). exact Hrest.
Qed.

(** C6. Interrupts are invisible to threads. Take any sequence of steps of the threads of the kernel of kmain.c, each made by the thread that runs (a yield makes the next one run): stores in
    the user region and system calls, without seeks that overflow a signed long and without exit_thread, which halts for ever inside the gate. Let external interrupts arrive at any places between these steps, on
    stacks outside the region. Then every thread goes on where it was interrupted, the sequence runs to its end without a panic, every step returns what it returns when no interrupt arrives, and the final
    states have the same running thread, ready queue, thread contexts, descriptors, files and memory of the region: they differ only in what the devices have seen and in memory outside the region. *)
Theorem interrupts_invisible kpath0 kbuf0 resume l st :
  length kpath0 = 128%nat -> length kbuf0 = 4096%nat -> kernel_ready resume st -> Forall (event_ok (g_user_region st)) l -> ops_ok_from kpath0 kbuf0 l st ->
  exists rs st1 st2, exec_events file buf0 kpath0 kbuf0 (steps_only l) st = Some (rs, st1) /\ exec_events file buf0 kpath0 kbuf0 l st = Some (rs, st2) /\
    k_sched (world st2) = k_sched (world st1) /\ k_machine (world st2) = k_machine (world st1) /\ k_idt (world st2) = k_idt (world st1) /\ files st2 = files st1 /\
    g_user_region st2 = g_user_region st1 /\ g_ticks (k_dev (world st2)) = g_ticks (k_dev (world st1)) /\
    forall x, ur_base (g_user_region st1) <= x < ur_limit (g_user_region st1) -> umem st2 x = umem st1 x.
Proof.
  intros Hp Hb Hst Hl Hops. assert (Ha : alike st st).
  { exists (world st), (umem st). split; [by destruct st|]. split; [|done]. apply dev_like_refl. apply (wf_world _ _ _ (kr_wf _ _ Hst)). }
  destruct (events_alike file buf0 kpath0 kbuf0 resume Hp Hb l st st Hst Ha Hl Hops) as (rs & st1 & st2 & E1 & E2 & (w2 & m2 & -> & (d & -> & _ & _ & Ht) & Hm)).
  eexists rs, st1, _. split; [exact E1|]. split; [exact E2|]. do 5 (split; [reflexivity|]). split; [exact Ht|exact Hm].
Qed.

End Claims.

(** * Witnesses *)

(** An interrupt of a program at 0x401000 on a stack at 0x8000. *)
Definition demo_irq (v : Z) : interrupt :=
  mk_interrupt v 0x1b 0x600000 0x202 0x23 0x401000 0 0x8000 (fun r => if decide (r = RAX) then 17 else 5) 0x9000 256 (fun _ => 0xcc) (fun _ => 0xdd).

Lemma demo_irq_ok v : 32 <= v <= 47 -> irq_ok M10_USER_REGION (demo_irq v).
Proof.
  intros Hv. split; cbn; [exact Hv|forall_cons; unfold is_u64; lia| |lia|lia]. intros r. unfold is_u64. destruct (decide _); lia.
Qed.

Lemma interrupt_transparent_witness :
  exists res m' d', take_interrupt (H := quiet_hw) NULL [] (demo_irq 41) (fun _ => 0) (mk_kdev [] 0 7 0) = Some (Done (res, m'), d') /\
    r_regs res RAX = 17 /\ r_rip res = 0x401000 /\ g_ticks d' = 7 /\ trap_count d' = 1 /\ m' 0x400000 = 0.
Proof.
  destruct (interrupt_transparent (H := quiet_hw) (Hready := quiet_hw_ready) NULL [] M10_USER_REGION (demo_irq 41) (fun _ => 0) (mk_kdev [] 0 7 0)) as (res & m' & d' & l & E & Hr & Hip & _ & _ & _ & _ & Hm & _ & Ht & Hc & _).
  - apply demo_irq_ok. lia.
  - apply open_line_ok. reflexivity.
  - exists res, m', d'. split; [exact E|]. split; [exact (Hr RAX)|]. split; [exact Hip|]. split; [exact Ht|]. split; [exact Hc|]. apply Hm. cbn. lia.
Defined.

(** Two threads take turns, with three interrupts: a store and a yield of the one, a ping of the other. *)
Definition demo_events : list event :=
  [EIrq (demo_irq 32); EOp 0x100 (OpStore 0x400010 7); EIrq (demo_irq 41); EOp 0x100 (OpCall 3 0 0 0 0 0 0); EIrq (demo_irq 33); EOp 0x200 (OpCall 0 0 0 0 0 0 0)].

Lemma interrupts_invisible_witness :
  exists st2, exec_events (H := quiet_hw) NULL [] (replicate 128 0) (replicate 4096 0) demo_events smoke_kernel = Some ([0; 0; 0x2605020A], st2) /\ umem st2 0x400010 = 7.
Proof.
  destruct (interrupts_invisible (H := quiet_hw) (Hready := quiet_hw_ready) NULL [] (replicate 128 0) (replicate 4096 0) 0x5000 demo_events smoke_kernel) as (rs & st1 & st2 & E1 & E2 & _ & _ & _ & _ & Hreg & _ & Hm).
  - apply length_replicate.
  - apply length_replicate.
  - apply smoke_kernel_ready.
  - unfold demo_events. forall_cons; try exact I; apply demo_irq_ok; lia.
  - cbn [ops_ok_from demo_events]. split; [split; [vm_compute; reflexivity|cbn; lia]|]. intros r st' E.
    assert (Hrun : running 0x100 smoke_kernel = true) by (vm_compute; reflexivity). unfold exec_op in E. rewrite Hrun in E. cbn [negb] in E.
    change (Some (0, set_umem smoke_kernel (store8 (umem smoke_kernel) 0x400010 7)) = Some (r, st')) in E. injection E as <- <-. split; [split; [vm_compute; reflexivity|split_and!; try (unfold is_u64; lia); reflexivity]|]. intros r st' E. split; [|done].
    split; [|split_and!; try (unfold is_u64; lia); reflexivity]. apply (f_equal (fmap (fun p => running 0x200 (snd p)))) in E. vm_compute in E. injection E as E. symmetry. exact E.
  - assert (Hrs : rs = [0; 0; 0x2605020A]) by (apply (f_equal (fmap fst)) in E1; vm_compute in E1; congruence).
    assert (Hv : umem st1 0x400010 = 7) by (apply (f_equal (fmap (fun p => umem (snd p) 0x400010))) in E1; vm_compute in E1; injection E1 as E1; symmetry; exact E1).
    assert (Hr : g_user_region st1 = M10_USER_REGION) by (apply (f_equal (fmap (fun p => g_user_region (snd p)))) in E1; vm_compute in E1; injection E1 as E1; symmetry; exact E1).
    exists st2. rewrite <- Hrs. split; [exact E2|]. rewrite Hm; [exact Hv|]. rewrite Hr. cbn. lia.
Defined.
